(* ===== verification/_CoqProject ===== *)
-Q . S2P
Prelude.v
CTypes.v
Memory.v
Platform.v
Accounts.v
Hashing.v
Layering.v
MerkleTree.v
MerkleVerify.v
Leftover.v
Misc.v
Dump.v
BlockData.v
BlockProcess.v
RequestData.v
Codec.v
Generated.v
CircBuf.v
Server.v
Ledger.v
Serving.v
ClientIpc.v
Client.v
P2P.v
Peers.v
Streams.v
Neighbours.v
Session.v
Sessions.v
Threads.v
Network.v
Serdes.v
Tests.v
System.v
Startup.v
Node.v
