(* ===== verification/Prelude.v ===== *)
(** * A verification development for the C blockchain

    The repository is a small blockchain in C: a message server that generates
    signed messages and hands them to clients, a client that collects 512 of
    them, builds and verifies a Merkle tree, solves a proof of work and makes a
    block, and a peer-to-peer pair of threads in each client by which one node
    offers its block and its neighbour asks for it.  Server and peers run over
    io_uring; packets are protobuf messages; hashing and signatures are
    libsodium's.  Paths below are relative to src/sources/.

    ** How the code is modelled

    The code is translated function by function into the state-and-fault monad
    [Memory.M] over a heap of typed blocks.  Null, dangling and out-of-range
    accesses, bad frees and uses of indeterminate values are faults, so "runs
    without a fault" is a theorem, and a defect of the code is a theorem too.
    Two reads of memory without a defined content are not faults but parameters:
    the bytes deserialize_block copies past the end of a decoded date
    ([ClientIpc.Stray]), and the text of the array the server sends as a date
    without having written it ([Server.Uninit]).

    One fault stands in the way of everything peers do after it:
    P2P_deserialize_STATUS releases a message and then reads its status
    ([peer_status_dangles]).  The class [ClientIpc.Reading] has two values:
    [as_written], where that read is a fault, and [exchanged], the code with the
    two statements in the other order.  The peer-to-peer theorems are about both:
    as written a run ends in that fault exactly when a peer takes up a packet
    ([dangles]); what they say of runs without a fault holds of both, and where a
    statement needs packets to be read it says [reading = exchanged].

    Integers are [Z] with the wrap-around of their C width written out ([u64],
    [u32], [i32], [i64]).  An io_uring loop is seen from the program's side: a
    handler appends the operations it submits, a turn of the loop consumes one
    completion, and a theorem over all lists of completions covers all
    interleavings.  Start-up code is translated into the monad [System.P],
    which records the system calls made and ends in a value, an exit, a fault
    or a loop that is never left.

    Code that is not in the repository is a parameter, with its documented
    behaviour as laws: [Platform.Sodium]/[SodiumOk] (libsodium),
    [Platform.Clock] (clocks and rand), [Generated.ProtobufC]/[ProtobufCOk]
    (protobuf-c), [System.System] (system calls).  [Codec.Protobuf]/[ProtobufOk]
    is the interface the packet code is proved against; [Generated.generated]
    discharges it; [ProtobufMerges] adds what joined packets decode to.
    Each has an executable instance
    ([Platform.Toy], [Codec.Wire], [Generated.Driven], [Node.sample_system],
    [ClientIpc.calm], ...), used by the witnesses.

    ** Files

    - Prelude: integers, bytes, shared lemmas.  CTypes: the structs of INCLUDE/.
      Memory: heap, monad, weakest preconditions.  Platform: libsodium, clocks.
    - Accounts: accounts/acc_utils.c and the message generators of misc/misc.c.
      [signed_message_lifecycle], [validate_a_message_exact].
    - Hashing, Layering, MerkleTree, MerkleVerify: hashing/hashing.c,
      block_data/layering.c, both calc_merkle_tree functions
      (networking/connection_handlers.c, client/block_process.c),
      block_data/merkle_process.c.  The trees against a textbook definition,
      the equality of the two roots, the exact verdict of the verification, and
      what a change of a message leads to.  Where equal hashes matter, the two
      inputs of the run that would have to collide are named ([collide],
      [tree_collides], [pair_collides]).
    - Misc, Dump: the time functions, DumpHex and print_block_data of
      misc/misc.c, networking/xmisc.c and block_data/blockdata.c; time stamps
      are read back, dumps equal a row-by-row layout.
    - BlockData, BlockProcess: block_data/blockdata.c and processing_block of
      client/block_process.c: the block is made for the root, with the first
      nonce that solves the puzzle.
    - RequestData: the tags of io_uring requests (three copies of the code).
    - Codec, Generated: the messages of the two .proto files, and the generated
      serdes/transaction.pb-c.c and client/serdes_client/p2ptransaction.pb-c.c:
      the descriptor tables are well formed ([generated_tables]) and the
      generated functions implement the packet interface ([generated_codec]).
    - CircBuf: networking/data_handlers.c, the buffer of generated messages; the
      messages are those of the server's successive draws ([minted]), so the
      root over a full buffer is known from the first ([Serving.minted_root]).
    - Server, Ledger, Serving: networking/ipcmessages.c, connection_handlers.c,
      event_loop.c.  Ledger is the server's contract, an abstract machine of
      counters and logs; [server_refines_ledger] shows that the loop implements
      it for all interleavings of clients, faults included; the other theorems
      are about the end of a block and about inputs the loop does not survive.
    - ClientIpc, Client: client/ipc_messages_client.c and the message thread
      (client/setup_client.c): [client_makes_block],
      [client_releases_everything], and the ways the thread goes wrong.
    - P2P, Peers: client/p2p_event_loop.c, dhandlers_p2p.c, p2p_listen.c; both
      loops as a two-node protocol of phases; what the code as written makes of a
      status ([peer_status_dangles]).
      Neighbours: any number of neighbours at once ([every_neighbour_served]).
      Streams: packets that arrive together or in pieces ([joined_block_lost],
      [cut_packet_faults]).
    - Session: server and client composed, exchange by exchange.
    - Sessions: clients one after another ([sessions_same_block]) and at the same
      time ([finishing_cuts_off_latest]).
    - Threads: the three threads of one client on one heap, with the server, the
      neighbours that ask it and the one it asks: they do not disturb each other
      ([threads_do_not_interfere]), and what a neighbour receives commits to the
      root the server printed ([threads_deliver]).
    - Network: one server and any number of such clients, served one after
      another and asking each other for their blocks at any time; all of them end
      up with blocks for the root the server prints ([network_agrees],
      [network_delivers]).
    - Serdes: the unused decoders of serdes/serdes.c, the trial program
      serdes/main.c.
    - Leftover, Tests: tests/tests.c and tests2.c, which a server compiled with
      TESTMODE runs instead of serving; [tests_outcome] says when they all
      succeed and what they leave allocated.
    - System, Startup, Node: networking/setup.c, start_server.c, main/main.c,
      client/p2p_setup.c, client/main.c and the connection phases of
      setup_client.c and p2p_listen.c; [start_server_ending],
      [client_main_ending], [listener_connects], and the socket options.

    ** Fuel and bounds

    [GET_nth_circ_buf] loops at most 512 times for an index below 512, and never
    ends from 512 on (both proved).  The proof of work needs more fuel than the
    number of the first draw that solves it; [solve_puzzle_finds_first] says so,
    and that less is not enough.  Theorems about whole sessions take the draws of
    each client to solve the puzzle for one root, the server's, within the fuel
    ([solvable]).  A session takes 1024 exchanges.  The listening
    thread needs more turns than failed attempts to connect.  Server theorems
    are about descriptors up to 10, since an eleventh is out of bounds (proved);
    peer theorems about descriptors below 100, the size of the arrays; trees
    about fewer than 64 levels; time stamps about years below 9599.

    ** Assumptions

    Allocation succeeds, except in the start-up code, where it may fail.  What
    one side sends arrives as one receive, except in Streams.  A send is complete
    when submitted.  The entry FINISH_SENDING submits unprepared completes, with
    the tag it was given; the operation it repeats (whatever the slot of the
    queue held before) does nothing else: what it may send is left out, in the
    ledger, the sessions and the network.
    The date the server sends without having written it is any string of at most
    4000 bytes ([uninit_short]).  A client's completion queue that is out of step
    is a fault: what the code reads there depends on timing.
    A thread that is created and joined at once is a call.  The client's threads
    share the heap and the globals of [Client.shared], the published block's
    buffer among them; they interleave turn by turn, which leaves out the race
    on the static result of gmtime.  In the network clients are served one
    after another ([finishing_cuts_off_latest] shows why) and asked once their
    message thread is connected ([peer_status_dangles] has what they offer
    before).  Of the laws: libsodium opens what it signed, protobuf-c unpacks what
    it packed; nothing is assumed about hash collisions.

    ** Not modelled

    logging/zlog.h (third party; the calls are recorded in the start-up code
    only), the text of log messages and of progress messages printed by the
    loops and the tests, the inet_ntop loops, whose result is unused,
    the release of rings, sockets and buffers after the peer-to-peer loops,
    which no run reaches (kill_thread_p2p is never set), and code that is
    commented out. *)

From stdpp Require Export base tactics decidable option list list_numbers numbers fin_maps gmap.
From Stdlib Require Export ZArith Lia.
From Stdlib Require Strings.Byte.

Export Corelib.Init.Byte(byte(..)).

Open Scope Z_scope.

(** ** Machine integers *)

(** [unsigned long long], [size_t], [uint64_t]: arithmetic modulo 2^64. *)
Definition u64 (z : Z) : Z := z mod 2 ^ 64.

(** [unsigned]: modulo 2^32. *)
Definition u32 (z : Z) : Z := z mod 2 ^ 32.

(** Conversion to [int] as the supported compilers do it: two's complement. *)
Definition i32 (z : Z) : Z := (z + 2 ^ 31) mod 2 ^ 32 - 2 ^ 31.

(** Conversion to [long long]. *)
Definition i64 (z : Z) : Z := (z + 2 ^ 63) mod 2 ^ 64 - 2 ^ 63.

(** ** Bytes *)

Definition byte_of_Z (z : Z) : byte :=
  match Byte.of_N (Z.to_N (z mod 256)) with Some b => b | None => x00 end.

Definition Z_of_byte (b : byte) : Z := Z.of_N (Byte.to_N b).

#[global] Instance byte_eq_decision : EqDecision byte := Byte.byte_eq_dec.

(** [n] bytes of value zero, what [calloc] and [memset(_, 0, n)] leave. *)
Definition zeros (n : nat) : list byte := replicate n x00.

(** Little-endian bytes of an unsigned integer of [n] bytes. *)
Fixpoint le_bytes (n : nat) (z : Z) : list byte :=
  match n with
  | O => []
  | S n => byte_of_Z z :: le_bytes n (z / 256)
  end.

(** Declared once: the database of the development's automation. *)
Create HintDb chain discriminated.
Create Rewrite HintDb chain_rw.

(** ** Generic lemmas *)

Lemma length_zeros n : length (zeros n) = n.
Proof. apply length_replicate. Qed.

Lemma length_le_bytes n z : length (le_bytes n z) = n.
Proof. revert z; induction n; intros; simpl; f_equal; auto. Qed.

Lemma Z_of_byte_range b : 0 <= Z_of_byte b < 256.
Proof.
  unfold Z_of_byte. pose proof (Byte.to_N_bounded b). lia.
Qed.

Lemma Z_of_byte_of_Z z : Z_of_byte (byte_of_Z z) = z mod 256.
Proof.
  unfold Z_of_byte, byte_of_Z.
  pose proof (Z.mod_pos_bound z 256 ltac:(lia)) as Hr.
  destruct (Byte.of_N (Z.to_N (z mod 256))) eqn:E.
  - apply Byte.to_of_N in E. rewrite E. lia.
  - apply Byte.of_N_None_iff in E. lia.
Qed.

Lemma byte_of_Z_of_byte b : byte_of_Z (Z_of_byte b) = b.
Proof.
  unfold byte_of_Z, Z_of_byte. pose proof (Byte.to_N_bounded b).
  rewrite Z.mod_small by lia. rewrite N2Z.id, Byte.of_to_N. done.
Qed.

Lemma u64_small z : 0 <= z < 2 ^ 64 -> u64 z = z.
Proof. apply Z.mod_small. Qed.

Lemma u64_range z : 0 <= u64 z < 2 ^ 64.
Proof. apply Z.mod_pos_bound. lia. Qed.

Lemma i32_small z : - 2 ^ 31 <= z < 2 ^ 31 -> i32 z = z.
Proof. intros. unfold i32. rewrite Z.mod_small; lia. Qed.

Lemma shiftr_double n : Z.shiftr (Z.of_nat (2 * n)) 1 = Z.of_nat n.
Proof.
  rewrite Z.shiftr_div_pow2, Nat2Z.inj_mul by lia. change (2 ^ 1) with 2.
  rewrite Z.mul_comm, Z.div_mul; lia.
Qed.

Lemma shiftr_div2 n : Z.of_nat (n / 2) = Z.shiftr (Z.of_nat n) 1.
Proof. by rewrite Z.shiftr_div_pow2, Nat2Z.inj_div by lia. Qed.

Lemma omap_one {A B} (f : A -> option B) x :
  omap f [x] = match f x with Some y => [y] | None => [] end.
Proof. done. Qed.

#[export] Hint Rewrite length_zeros length_le_bytes @length_replicate @length_app @length_take
  @length_drop @length_insert : chain_rw.
