(* ===== verification/CTypes.v ===== *)
(** * The program's C types

    Pointers and the structs of the headers under sources/INCLUDE, field by
    field.  Integers are [Z], fixed-size byte arrays inside a struct are byte
    lists of that size, pointers are a block with an element offset. *)

From S2P Require Import Prelude.

(** A C pointer: [NULL] or an element of an allocated block.  The offset
    counts elements of the pointed-to type, so [p + i] is [padd p i]. *)
Inductive ptr := NULL | Ptr (b : positive) (i : Z).

#[global] Instance ptr_eq_decision : EqDecision ptr.
Proof. solve_decision. Defined.

Definition padd (p : ptr) (n : Z) : ptr :=
  match p with NULL => NULL | Ptr b i => Ptr b (i + n) end.

(** ** Sizes of libsodium's types (its public constants) *)
Abbreviation crypto_generichash_BYTES := 32%nat.
Abbreviation crypto_sign_PUBLICKEYBYTES := 32%nat.
Abbreviation crypto_sign_SECRETKEYBYTES := 64%nat.
Abbreviation crypto_sign_BYTES := 64%nat.

(** ** acc_utils.h *)
Record user_keys := UserKeys { uk_pk : list byte; uk_sk : list byte }.

Record signed_message_t := SignedMessage {
  sm_message : ptr;
  sm_length : Z;
  sm_public_key : list byte }.

Record test_msg_t := TestMsg { tm_test_msg : ptr; tm_len : Z }.

(** ** hashing.h *)
Record msg_link := MsgLink { ml_msg1 : ptr; ml_msg2 : ptr }.

Record smgs2 := Smgs2 {
  smsg_p1 : ptr;
  hashMSG1 : list byte;
  smsg_p2 : ptr;
  hashMSG2 : list byte }.

(** The anonymous union of [hash_point]: the member last written. *)
Inductive hp_union :=
| U_messages (m : smgs2)
| U_hpoints (hpoint1 hpoint2 : ptr).

Record hash_point := HashPoint {
  hp_hash : list byte;
  hp_u : hp_union;
  FLAG0 : Z }.

(** What [calloc] leaves in the union: null pointers and zero bytes. *)
Definition zero_smgs2 : smgs2 :=
  Smgs2 NULL (zeros crypto_generichash_BYTES) NULL (zeros crypto_generichash_BYTES).

Definition zero_hash_point : hash_point :=
  HashPoint (zeros crypto_generichash_BYTES) (U_hpoints NULL NULL) 0.

(** Reading a union member.  [smsg_p1] and [hpoint1] share their bytes;
    [hpoint2] overlays the first bytes of [hashMSG1], so reading one of these
    two through the other has no value here ([None]), unless all is zero. *)
Definition get_messages (u : hp_union) : option smgs2 :=
  match u with
  | U_messages m => Some m
  | U_hpoints NULL NULL => Some zero_smgs2
  | U_hpoints _ _ => None
  end.

Definition get_hpoint1 (u : hp_union) : option ptr :=
  match u with
  | U_messages m => Some (smsg_p1 m)
  | U_hpoints p _ => Some p
  end.

Definition get_hpoint2 (u : hp_union) : option ptr :=
  match u with
  | U_messages _ => None
  | U_hpoints _ p => Some p
  end.

(** ** layering.h *)
Record layer_hp := LayerHp { main_pointer : ptr; lay_size : Z; lay_level : Z }.

Definition zero_layer_hp : layer_hp := LayerHp NULL 0 0.

Record hashes_hashNode := HashesHashNode { hn_Shash : ptr; hn_hash1 : ptr; hn_hash2 : ptr }.

(** ** blockdata.h *)
Abbreviation NONCE_LEN := 15%nat.
Abbreviation DATE_LEN := 35%nat.

Record block_t := Block {
  bl_nonce : list byte;
  bl_date : list byte;
  bl_timestamp_begin : Z;
  bl_timestamp_end : Z;
  bl_difficulty : Z;
  bl_previous_block : list byte;
  bl_merkle_root : list byte }.

Definition zero_block_t : block_t :=
  Block (zeros NONCE_LEN) (zeros DATE_LEN) 0 0 0
    (zeros crypto_generichash_BYTES) (zeros crypto_generichash_BYTES).

(** ** misc.h *)
Record puzzle_thr_container := PuzzleThr { pz_merkle_root_p : ptr; pz_nonce : ptr }.

(** ** block_process.h *)
Record l_msg_container := LMsgContainer {
  main_layer_pointer : ptr;
  layers_for_destr : ptr;
  messages_arr : ptr }.
