(* ===== verification/Memory.v ===== *)
(** * The C memory and the monad the translated code runs in

    A heap of typed blocks, allocation and release, bounds-checked loads and
    stores, and the state-and-fault monad [M].  A read through a null, dangling
    or out-of-range pointer, a [free] of anything but the start of a live block
    and the use of an indeterminate value are faults: what C leaves undefined
    is a visible outcome.  The second half is the weakest-precondition calculus
    the proofs use. *)

From S2P Require Import Prelude.
From S2P Require Import CTypes.

(** ** Heap *)

Inductive block :=
| BBytes (bs : list byte)
| BMsgs (ms : list signed_message_t)
| BHps (hs : list hash_point)
| BPtrs (ps : list ptr)
| BLayers (ls : list layer_hp)
| BBlks (bs : list block_t)
| BPuzzle (ps : list puzzle_thr_container)
| BConts (cs : list l_msg_container).

(** The element types a block can hold. *)
Class Storable (A : Type) := {
  to_block : list A -> block;
  of_block : block -> option (list A);
  of_to_block l : of_block (to_block l) = Some l;
  to_of_block b l : of_block b = Some l -> b = to_block l }.

Ltac solve_storable :=
  first [ intros ?; reflexivity
        | intros [] ? ?; simplify_eq; reflexivity ].

#[global] Instance storable_byte : Storable byte.
Proof.
  refine {| to_block := BBytes; of_block b := match b with BBytes l => Some l | _ => None end |}; solve_storable.
Defined.
#[global] Instance storable_msg : Storable signed_message_t.
Proof.
  refine {| to_block := BMsgs; of_block b := match b with BMsgs l => Some l | _ => None end |}; solve_storable.
Defined.
#[global] Instance storable_hp : Storable hash_point.
Proof.
  refine {| to_block := BHps; of_block b := match b with BHps l => Some l | _ => None end |}; solve_storable.
Defined.
#[global] Instance storable_ptr : Storable ptr.
Proof.
  refine {| to_block := BPtrs; of_block b := match b with BPtrs l => Some l | _ => None end |}; solve_storable.
Defined.
#[global] Instance storable_layer : Storable layer_hp.
Proof.
  refine {| to_block := BLayers; of_block b := match b with BLayers l => Some l | _ => None end |}; solve_storable.
Defined.
#[global] Instance storable_blk : Storable block_t.
Proof.
  refine {| to_block := BBlks; of_block b := match b with BBlks l => Some l | _ => None end |}; solve_storable.
Defined.
#[global] Instance storable_puzzle : Storable puzzle_thr_container.
Proof.
  refine {| to_block := BPuzzle; of_block b := match b with BPuzzle l => Some l | _ => None end |}; solve_storable.
Defined.
#[global] Instance storable_cont : Storable l_msg_container.
Proof.
  refine {| to_block := BConts; of_block b := match b with BConts l => Some l | _ => None end |}; solve_storable.
Defined.

(** The machine state: the heap, the next fresh block, and the positions in
    the platform's random source and clock (how many draws were made). *)
Record mem := Mem {
  heap : gmap positive block;
  next : positive;
  rng : nat;
  ticks : nat }.

(** ** The monad *)

Inductive fault :=
| NullDeref | BadPointer | OutOfBounds | BadFree | Indeterminate.

Inductive res (A : Type) :=
| Ok (a : A)
| Fault (f : fault)
| Die
| NoFuel.
Arguments Ok {A}. Arguments Fault {A}. Arguments Die {A}. Arguments NoFuel {A}.

Definition M (A : Type) : Type := mem -> res (A * mem).

#[global] Instance M_ret : MRet M := fun A a m => Ok (a, m).
#[global] Instance M_bind : MBind M := fun A B k c m =>
  match c m with
  | Ok (a, m') => k a m'
  | Fault f => Fault f
  | Die => Die
  | NoFuel => NoFuel
  end.

Definition fail {A} (f : fault) : M A := fun _ => Fault f.
Definition die {A} : M A := fun _ => Die.
Definition no_fuel {A} : M A := fun _ => NoFuel.

(** A value that may be indeterminate. *)
Definition determinate {A} (o : option A) : M A :=
  match o with Some a => mret a | None => fail Indeterminate end.

(** ** Primitives *)

(** [calloc]/[malloc]: a fresh block.  Allocation is taken to succeed. *)
Definition alloc {A} `{Storable A} (l : list A) : M ptr := fun m =>
  Ok (Ptr (next m) 0,
      Mem (<[next m := to_block l]> (heap m)) (Pos.succ (next m)) (rng m) (ticks m)).

Definition calloc {A} `{Storable A} (n : Z) (zero : A) : M ptr :=
  alloc (replicate (Z.to_nat n) zero).

Definition free (p : ptr) : M unit := fun m =>
  match p with
  | NULL => Ok ((), m)
  | Ptr b 0 =>
      match heap m !! b with
      | Some _ => Ok ((), Mem (delete b (heap m)) (next m) (rng m) (ticks m))
      | None => Fault BadFree
      end
  | Ptr _ _ => Fault BadFree
  end.

(** The elements of a live block of the right type, with the offset. *)
Definition block_at {A} `{Storable A} (h : gmap positive block) (p : ptr) : res (positive * list A * Z) :=
  match p with
  | NULL => Fault NullDeref
  | Ptr b i =>
      match h !! b with
      | None => Fault BadPointer
      | Some blk => match of_block blk with Some l => Ok (b, l, i) | None => Fault BadPointer end
      end
  end.

(** The element at a list position, as C indexes: no negative index. *)
Definition zlookup {A} (l : list A) (i : Z) : option A :=
  if i <? 0 then None else l !! Z.to_nat i.

Definition load {A} `{Storable A} (p : ptr) : M A := fun m =>
  match block_at (heap m) p with
  | Ok (_, l, i) => match zlookup l i with Some a => Ok (a, m) | None => Fault OutOfBounds end
  | Fault f => Fault f | Die => Die | NoFuel => NoFuel
  end.

Definition store {A} `{Storable A} (p : ptr) (a : A) : M unit := fun m =>
  match block_at (heap m) p with
  | Ok (b, l, i) =>
      match zlookup l i with
      | Some _ => Ok ((), Mem (<[b := to_block (<[Z.to_nat i := a]> l)]> (heap m)) (next m) (rng m) (ticks m))
      | None => Fault OutOfBounds
      end
  | Fault f => Fault f | Die => Die | NoFuel => NoFuel
  end.

(** [p->field = ...]: read, change, write back. *)
Definition update {A} `{Storable A} (p : ptr) (f : A -> A) : M unit :=
  a ← load p; store p (f a).

(** [p[i]] and [p[i] = a]. *)
Definition load_ix {A} `{Storable A} (p : ptr) (i : Z) : M A := load (padd p i).
Definition store_ix {A} `{Storable A} (p : ptr) (i : Z) (a : A) : M unit := store (padd p i) a.

(** The source side of [memcpy] and [memcmp] and the input of a hash: [n]
    bytes at [p].  A [hash_point] begins with its 32 hash bytes, so reading at
    most 32 bytes through a pointer to one reads its hash. *)
Definition bytes_at (h : gmap positive block) (p : ptr) (n : nat) : res (list byte) :=
  match p with
  | NULL => match n with O => Ok [] | _ => Fault NullDeref end
  | Ptr b i =>
      match h !! b with
      | Some (BBytes bs) =>
          if (0 <=? i) && (Z.to_nat i + n <=? length bs)%nat
          then Ok (take n (drop (Z.to_nat i) bs)) else Fault OutOfBounds
      | Some (BHps hs) =>
          match zlookup hs i with
          | Some hp => if (n <=? length (hp_hash hp))%nat then Ok (take n (hp_hash hp)) else Fault OutOfBounds
          | None => Fault OutOfBounds
          end
      | _ => Fault BadPointer
      end
  end.

Definition load_bytes (p : ptr) (n : nat) : M (list byte) := fun m =>
  match bytes_at (heap m) p n with
  | Ok bs => Ok (bs, m)
  | Fault f => Fault f | Die => Die | NoFuel => NoFuel
  end.

(** The bytes [bs] written over those of [l] from position [i]. *)
Definition overwrite (l bs : list byte) (i : nat) : list byte :=
  take i l ++ bs ++ drop (i + length bs) l.

Definition store_bytes (p : ptr) (bs : list byte) : M unit := fun m =>
  match block_at (heap m) p with
  | Ok (b, l, i) =>
      if (0 <=? i) && (Z.to_nat i + length bs <=? length l)%nat
      then Ok ((), Mem (<[b := BBytes (overwrite l bs (Z.to_nat i))]> (heap m)) (next m) (rng m) (ticks m))
      else Fault OutOfBounds
  | Fault f => Fault f | Die => Die | NoFuel => NoFuel
  end.

Definition memcpy (dst src : ptr) (n : nat) : M unit :=
  bs ← load_bytes src n; store_bytes dst bs.

(** [memcmp] as the code uses it: zero exactly when the bytes agree. *)
Definition memcmp (p q : ptr) (n : nat) : M Z :=
  a ← load_bytes p n; b ← load_bytes q n;
  mret (if decide (a = b) then 0 else 1).

(** ** Loops *)

(** [for (i = 0; i < n; i++) body(i)] *)
Fixpoint for_from (i n : nat) (body : nat -> M unit) : M unit :=
  match n with
  | O => mret ()
  | S n => body i ;; for_from (S i) n body
  end.
Definition for_ (n : nat) (body : nat -> M unit) : M unit := for_from 0 n body.

(** [for (k = n - 1; k >= 0; --k) body(k, acc)], threading a variable. *)
Fixpoint for_down {A} (n : nat) (body : nat -> A -> M A) (acc : A) : M A :=
  match n with
  | O => mret acc
  | S k => a ← body k acc; for_down k body a
  end.

(** [while (n >>= 1) level++] on a 64-bit value. *)
Fixpoint shift_level_fuel (fuel : nat) (n level : Z) : Z :=
  match fuel with
  | O => level
  | S fuel => let n := Z.shiftr n 1 in
      if n =? 0 then level else shift_level_fuel fuel n (level + 1)
  end.
Definition shift_level (n : Z) : Z := shift_level_fuel 64 n 0.

#[global] Arguments replicate {_} _ _ : simpl never.

(** ** Weakest preconditions *)

(** [c] runs without a fault from [m] and its outcome satisfies [Q]. *)
Definition wp {A} (c : M A) (Q : A -> mem -> Prop) (m : mem) : Prop :=
  exists a m', c m = Ok (a, m') /\ Q a m'.

Lemma wp_ret {A} (a : A) Q m : Q a m -> wp (mret a) Q m.
Proof. intros. exists a, m. done. Qed.

Lemma wp_bind {A B} (c : M A) (k : A -> M B) Q m :
  wp c (fun a m' => wp (k a) Q m') m -> wp (c ≫= k) Q m.
Proof.
  intros (a & m' & Hc & b & m'' & Hk & HQ). exists b, m''.
  unfold mbind, M_bind. rewrite Hc. done.
Qed.

Lemma wp_unbind {A B} (c : M A) (k : A -> M B) Q m :
  wp (c ≫= k) Q m -> wp c (fun a m' => wp (k a) Q m') m.
Proof.
  intros (b & m'' & Hc & HQ). unfold mbind, M_bind in Hc.
  destruct (c m) as [[a m']| | |] eqn:E; simplify_eq. exists a, m'. split; [done|].
  exists b, m''. done.
Qed.

(** Runs that are the same from [m]. *)
Lemma wp_same {A} (c c' : M A) Q m : c m = c' m -> wp c' Q m -> wp c Q m.
Proof. intros Heq. unfold wp. by rewrite Heq. Qed.

Lemma wp_mono {A} (c : M A) (Q Q' : A -> mem -> Prop) m :
  wp c Q m -> (forall a m', Q a m' -> Q' a m') -> wp c Q' m.
Proof. intros (a & m' & ? & ?) ?. exists a, m'. eauto. Qed.

Lemma wp_run {A} (c : M A) (Q : A -> mem -> Prop) m a m' :
  c m = Ok (a, m') -> Q a m' -> wp c Q m.
Proof. intros. exists a, m'. done. Qed.

Lemma wp_eq {A} (c : M A) m a m' :
  wp c (fun b m'' => b = a /\ m'' = m') m -> c m = Ok (a, m').
Proof. by intros (? & ? & -> & -> & ->). Qed.

Lemma wp_ext {A} (c c' : M A) Q m : (forall m, c m = c' m) -> wp c' Q m -> wp c Q m.
Proof. intros Heq (a & m' & Hc & HQ). exists a, m'. by rewrite Heq. Qed.

Lemma bind_ok {A B} (c : M A) (k : A -> M B) m a m' :
  c m = Ok (a, m') -> (c ≫= k) m = k a m'.
Proof. intros H. unfold mbind, M_bind. by rewrite H. Qed.

Lemma bind_assoc {A B D} (c : M A) (f : A -> M B) (g : B -> M D) m :
  ((c ≫= f) ≫= g) m = (c ≫= fun a => f a ≫= g) m.
Proof. unfold mbind, M_bind. by destruct (c m) as [[]| | |]. Qed.

Lemma bind_ext {A B} (c : M A) (f g : A -> M B) m :
  (forall a m, f a m = g a m) -> (c ≫= f) m = (c ≫= g) m.
Proof. intros H. unfold mbind, M_bind. destruct (c m) as [[]| | |]; auto. Qed.

Lemma bind_ext_l {A B} (c c' : M A) (k : A -> M B) m :
  (forall m, c m = c' m) -> (c ≫= k) m = (c' ≫= k) m.
Proof. intros H. unfold mbind, M_bind. by rewrite H. Qed.

Lemma for_ext n body body' m :
  (forall k m, body k m = body' k m) -> for_ n body m = for_ n body' m.
Proof.
  intros H. unfold for_. generalize 0%nat. revert m.
  induction n as [|n IH]; intros m i; simpl; [done|].
  unfold mbind, M_bind. rewrite H. destruct (body' i m) as [[]| | |]; auto.
Qed.

Lemma for_1 body m : for_ 1 body m = body 0%nat m.
Proof.
  unfold for_. simpl. unfold mbind, M_bind.
  by destruct (body 0%nat m) as [[[] ?]| | |].
Qed.

Lemma bind_fault {A B} (c : M A) (k : A -> M B) m f :
  c m = Fault f -> (c ≫= k) m = Fault f.
Proof. intros H. unfold mbind, M_bind. by rewrite H. Qed.

Lemma bind_no_fuel {A B} (c : M A) (k : A -> M B) m :
  c m = NoFuel -> (c ≫= k) m = NoFuel.
Proof. intros H. unfold mbind, M_bind. by rewrite H. Qed.

(** Primitives, as rules. *)
Section prims.
Context {A : Type} `{Storable A}.
Implicit Types (l : list A) (a : A) (m : mem).

Lemma wp_alloc l (Q : ptr -> mem -> Prop) m :
  Q (Ptr (next m) 0)
    (Mem (<[next m := to_block l]> (heap m)) (Pos.succ (next m)) (rng m) (ticks m)) ->
  wp (alloc l) Q m.
Proof. apply wp_run. reflexivity. Qed.

Lemma block_at_ok h b i l : h !! b = Some (to_block l) -> block_at h (Ptr b i) = Ok (b, l, i).
Proof. intros Hb. simpl. by rewrite Hb, of_to_block. Qed.

Lemma wp_load b i l a (Q : A -> mem -> Prop) m :
  heap m !! b = Some (to_block l) -> zlookup l i = Some a -> Q a m ->
  wp (load (Ptr b i)) Q m.
Proof.
  intros Hb Hi HQ. exists a, m. split; [|done].
  unfold load. by rewrite (block_at_ok _ _ _ _ Hb), Hi.
Qed.

Lemma wp_store b i l a a' (Q : unit -> mem -> Prop) m :
  heap m !! b = Some (to_block l) -> zlookup l i = Some a' ->
  Q () (Mem (<[b := to_block (<[Z.to_nat i := a]> l)]> (heap m)) (next m) (rng m) (ticks m)) ->
  wp (store (Ptr b i) a) Q m.
Proof.
  intros Hb Hi HQ. eapply wp_run; [|exact HQ].
  unfold store. by rewrite (block_at_ok _ _ _ _ Hb), Hi.
Qed.

Lemma wp_update b i l a f (Q : unit -> mem -> Prop) m :
  heap m !! b = Some (to_block l) -> zlookup l i = Some a ->
  Q () (Mem (<[b := to_block (<[Z.to_nat i := f a]> l)]> (heap m)) (next m) (rng m) (ticks m)) ->
  wp (update (Ptr b i) f) Q m.
Proof.
  intros Hb Hi HQ. unfold update. apply wp_bind.
  eapply wp_load; [done..|]. by eapply wp_store.
Qed.
End prims.

Lemma update_run {A} `{Storable A} b i (l : list A) a f m :
  heap m !! b = Some (to_block l) -> zlookup l i = Some a ->
  update (Ptr b i) f m =
    Ok ((), Mem (<[b := to_block (<[Z.to_nat i := f a]> l)]> (heap m)) (next m) (rng m) (ticks m)).
Proof. intros Hb Hi. apply wp_eq. by eapply wp_update. Qed.

Lemma wp_free b blk (Q : unit -> mem -> Prop) m :
  heap m !! b = Some blk ->
  Q () (Mem (delete b (heap m)) (next m) (rng m) (ticks m)) ->
  wp (free (Ptr b 0)) Q m.
Proof. intros Hb. apply wp_run. simpl. by rewrite Hb. Qed.

Lemma wp_determinate {A} (o : option A) a Q m : o = Some a -> Q a m -> wp (determinate o) Q m.
Proof. intros -> ?. by apply wp_ret. Qed.

Lemma wp_load_bytes p n bs (Q : list byte -> mem -> Prop) m :
  bytes_at (heap m) p n = Ok bs -> Q bs m -> wp (load_bytes p n) Q m.
Proof. intros Hb. apply wp_run. unfold load_bytes. by rewrite Hb. Qed.

Lemma wp_store_bytes b i l bs (Q : unit -> mem -> Prop) m :
  heap m !! b = Some (BBytes l) -> 0 <= i -> (Z.to_nat i + length bs <= length l)%nat ->
  Q () (Mem (<[b := BBytes (overwrite l bs (Z.to_nat i))]> (heap m)) (next m) (rng m) (ticks m)) ->
  wp (store_bytes (Ptr b i) bs) Q m.
Proof.
  intros Hb Hi Hlen. apply wp_run. unfold store_bytes.
  rewrite (block_at_ok (H:=storable_byte) _ _ _ l Hb).
  rewrite (proj2 (Z.leb_le 0 i) Hi), (proj2 (Nat.leb_le _ _) Hlen). done.
Qed.

Lemma wp_for_from (I : nat -> mem -> Prop) body i n m :
  I i m ->
  (forall j m, (i <= j < i + n)%nat -> I j m -> wp (body j) (fun _ m' => I (S j) m') m) ->
  wp (for_from i n body) (fun _ m' => I (i + n)%nat m') m.
Proof.
  revert i m; induction n as [|n IH]; intros i m HI Hbody; simpl.
  - apply wp_ret. by rewrite Nat.add_0_r.
  - apply wp_bind. eapply wp_mono; [apply Hbody; [lia|done]|].
    intros [] m' HI'. simpl in *. rewrite Nat.add_succ_r. apply (IH (S i)); [done|].
    intros. apply Hbody; [lia|done].
Qed.

Lemma wp_for (I : nat -> mem -> Prop) body n m :
  I 0%nat m ->
  (forall j m, (j < n)%nat -> I j m -> wp (body j) (fun _ m' => I (S j) m') m) ->
  wp (for_ n body) (fun _ m' => I n m') m.
Proof. intros. apply (wp_for_from I); [done|]. intros. auto with lia. Qed.

(** A loop whose round [j] faults. *)
Lemma for_fault (I : nat -> mem -> Prop) body n j f m :
  I 0%nat m -> (forall i m, (i < j)%nat -> I i m -> wp (body i) (fun _ m' => I (S i) m') m) -> (j < n)%nat ->
  (forall m, I j m -> body j m = Fault f) -> for_ n body m = Fault f.
Proof.
  intros H0 Hb Hj Hf. unfold for_.
  assert (forall r i m, (i <= j)%nat -> (j < i + r)%nat -> I i m -> for_from i r body m = Fault f) as H.
  { intros r. induction r as [|r IH]; intros i m1 Hij Hr HI; [lia|]. cbn [for_from].
    destruct (decide (i = j)) as [->|Hne]; [by apply bind_fault, Hf|].
    destruct (Hb i m1 ltac:(lia) HI) as ([] & m2 & Hrun & HI2). erewrite bind_ok by exact Hrun.
    apply IH; [lia|lia|done]. }
  by apply H; [lia|lia|].
Qed.

Lemma wp_for_down {A} (I : nat -> A -> mem -> Prop) body n acc m :
  I n acc m ->
  (forall k a m, (k < n)%nat -> I (S k) a m -> wp (body k a) (fun a' m' => I k a' m') m) ->
  wp (for_down n body acc) (fun a m' => I 0%nat a m') m.
Proof.
  revert acc m; induction n as [|n IH]; intros acc m HI Hbody; simpl.
  - by apply wp_ret.
  - apply wp_bind. eapply wp_mono; [apply Hbody; [lia|done]|].
    intros a m' HI'. simpl. apply IH; [done|]. intros. apply Hbody; [lia|done].
Qed.

(** ** Fresh blocks and frames *)

(** Blocks from [next] on are unused. *)
Definition wf (m : mem) : Prop := forall b, (next m <= b)%positive -> heap m !! b = None.

Lemma wf_lt m b blk : wf m -> heap m !! b = Some blk -> (b < next m)%positive.
Proof.
  intros Hwf Hb. destruct (Pos.lt_total b (next m)) as [?|[->|?]]; [done|..];
    rewrite Hwf in Hb by lia; done.
Qed.

(** [wf] depends on the heap and the allocator only. *)
Lemma wf_env m r t : wf m -> wf (Mem (heap m) (next m) r t).
Proof. done. Qed.

Lemma wf_next m n r t : wf m -> (next m <= n)%positive -> wf (Mem (heap m) n r t).
Proof. intros Hwf Hn b Hb. apply Hwf. cbn in Hb. lia. Qed.

(** What one thread leaves another of the memory they share: it may have
    written its own blocks [B], and allocated. *)
Record keeps (B : list positive) (m m' : mem) : Prop := Keeps {
  kp_wf : wf m';
  kp_next : (next m <= next m')%positive;
  kp_old c : (c < next m)%positive -> c ∉ B -> heap m' !! c = heap m !! c }.

Lemma keeps_live B m m' c blk : wf m -> keeps B m m' -> c ∉ B -> heap m !! c = Some blk -> heap m' !! c = Some blk.
Proof. intros Hwf Hk Hc Hb. rewrite (kp_old _ _ _ Hk); [done|by eapply wf_lt|done]. Qed.

Lemma keeps_ticked B m m' : wf m -> heap m' = heap m -> next m' = next m -> keeps B m m'.
Proof. intros Hwf Hh Hn. split; [|by rewrite Hn|by intros; rewrite Hh]. intros c Hc. rewrite Hh. apply Hwf. by rewrite <-Hn. Qed.

(** From [m] to [m'] only the blocks [F], allocated in between, and the older
    blocks [W] differ. *)
Record grows (m m' : mem) (F W : list positive) : Prop := Grows {
  g_next : (next m <= next m')%positive;
  g_range : forall b, b ∈ F -> (next m <= b < next m')%positive;
  g_frame : forall b, b ∉ F -> b ∉ W -> heap m' !! b = heap m !! b;
  g_wf : wf m';
  g_rng : rng m' = rng m;
  g_ticks : ticks m' = ticks m }.

Lemma grows_refl m : wf m -> grows m m [] [].
Proof. intros. split; try done. intros b Hb. by apply not_elem_of_nil in Hb. Qed.

Lemma grows_trans m1 m2 m3 F F' W W' :
  grows m1 m2 F W -> grows m2 m3 F' W' -> grows m1 m3 (F ++ F') (W ++ W').
Proof.
  intros [] []. split; [lia| | |done|congruence|congruence].
  - intros b [Hb|Hb]%elem_of_app.
    + apply g_range0 in Hb. lia.
    + apply g_range1 in Hb. lia.
  - intros b. rewrite !not_elem_of_app. intros [] [].
    rewrite g_frame1, g_frame0; done.
Qed.

(** Writing to blocks allocated in the same run changes nothing older. *)
Lemma grows_absorb m m' F W W' :
  grows m m' F (W ++ W') -> (forall b, b ∈ W -> b ∈ F) -> grows m m' F W'.
Proof.
  intros [] HW. split; try done. intros b HbF HbW. apply g_frame0; [done|].
  rewrite not_elem_of_app. split; [|done]. intros ?%HW. done.
Qed.

(** The lists matter up to their elements, and [W] may be larger. *)
Lemma grows_weaken m m' F F' W W' :
  grows m m' F W -> (forall b, b ∈ F <-> b ∈ F') -> (forall b, b ∈ W -> b ∈ W') ->
  grows m m' F' W'.
Proof.
  intros [] HF HW. split; try done.
  - intros b ?%HF. auto.
  - intros b HbF HbW. apply g_frame0; [by rewrite HF|]. intros ?%HW. done.
Qed.

(** A write to an older block. *)
Lemma grows_write m b blk blk' :
  wf m -> heap m !! b = Some blk ->
  grows m (Mem (<[b := blk']> (heap m)) (next m) (rng m) (ticks m)) [] [b].
Proof.
  intros Hwf Hb. pose proof (wf_lt _ _ _ Hwf Hb). split; simpl; try done.
  - intros c Hc. by apply not_elem_of_nil in Hc.
  - intros c _ Hc. rewrite lookup_insert_ne; [done|]. set_solver.
  - intros c Hc. simpl in *. rewrite lookup_insert_ne by lia. apply Hwf. lia.
Qed.

(** What was allocated before stays as it is, unless written. *)
Lemma grows_old m m' F W b blk :
  wf m -> grows m m' F W -> b ∉ W -> heap m !! b = Some blk -> heap m' !! b = Some blk.
Proof.
  intros Hwf Hg HW Hb. rewrite (g_frame _ _ _ _ Hg); [done| |done].
  intros Hin. apply (g_range _ _ _ _ Hg) in Hin.
  rewrite Hwf in Hb by lia. done.
Qed.

(** Two runs of allocations use different blocks. *)
Lemma grows_NoDup m1 m2 m3 F F' W W' :
  grows m1 m2 F W -> grows m2 m3 F' W' -> NoDup F -> NoDup F' -> NoDup (F ++ F').
Proof.
  intros H1 H2 HB HB'. apply NoDup_app. split_and!; [done| |done].
  intros b Hb Hb'. apply (g_range _ _ _ _ H1) in Hb. apply (g_range _ _ _ _ H2) in Hb'. lia.
Qed.

(** From [m] to [m'] exactly the blocks [B] were freed. *)
Record released (m m' : mem) (B : list positive) : Prop := Released {
  r_heap b : heap m' !! b = if decide (b ∈ B) then None else heap m !! b;
  r_next : next m' = next m;
  r_rng : rng m' = rng m;
  r_ticks : ticks m' = ticks m }.

Lemma released_nil m : released m m [].
Proof. by split. Qed.

Lemma released_trans m1 m2 m3 B B' :
  released m1 m2 B -> released m2 m3 B' -> released m1 m3 (B ++ B').
Proof.
  intros [] []. split; [|congruence..]. intros b. rewrite r_heap1, r_heap0.
  repeat case_decide; rewrite elem_of_app in *; naive_solver.
Qed.

Lemma released_weaken m m' B B' :
  released m m' B -> (forall b, b ∈ B <-> b ∈ B') -> released m m' B'.
Proof.
  intros [] HB. split; try done. intros b. rewrite r_heap0.
  repeat case_decide; rewrite HB in *; done.
Qed.

Lemma wp_free_released b blk m :
  heap m !! b = Some blk -> wp (free (Ptr b 0)) (fun _ m' => released m m' [b]) m.
Proof.
  intros Hb. eapply wp_free; [exact Hb|]. split; try done. intros c. cbn [heap].
  rewrite lookup_delete. repeat case_decide; set_solver.
Qed.

(** Freeing all that was allocated restores the heap. *)
Lemma grows_released m1 m2 m3 B :
  wf m1 -> grows m1 m2 B [] -> released m2 m3 B -> heap m3 = heap m1.
Proof.
  intros Hwf Hg Hr. apply map_eq. intros b. rewrite (r_heap _ _ _ Hr). case_decide as Hb.
  - symmetry. apply Hwf. by apply (g_range _ _ _ _ Hg).
  - by rewrite (g_frame _ _ _ _ Hg) by set_solver.
Qed.

Lemma released_wf m m' B : wf m -> released m m' B -> wf m'.
Proof.
  intros Hwf Hr b Hb. rewrite (r_heap _ _ _ Hr). rewrite (r_next _ _ _ Hr) in Hb.
  case_decide; [done|]. by apply Hwf.
Qed.

(** Reading through a pointer does not see blocks allocated later. *)
Lemma bytes_at_old m (h' : gmap positive block) p n bs :
  wf m -> bytes_at (heap m) p n = Ok bs ->
  (forall b, (b < next m)%positive -> h' !! b = heap m !! b) ->
  bytes_at h' p n = Ok bs.
Proof.
  intros Hwf Hbs Heq. destruct p as [|b i]; simpl in *; [done|].
  destruct (heap m !! b) as [blk|] eqn:Hb; [|done].
  rewrite Heq, Hb by by eapply wf_lt. done.
Qed.

Lemma bytes_at_grows m m' F p n bs :
  wf m -> grows m m' F [] -> bytes_at (heap m) p n = Ok bs -> bytes_at (heap m') p n = Ok bs.
Proof.
  intros Hwf Hg. destruct p as [|b i]; simpl; [done|].
  destruct (heap m !! b) as [blk|] eqn:Hb; [|done].
  by rewrite (grows_old _ _ _ _ _ _ Hwf Hg (not_elem_of_nil _) Hb).
Qed.

Lemma wf_alloc m blk :
  wf m -> wf (Mem (<[next m := blk]> (heap m)) (Pos.succ (next m)) (rng m) (ticks m)).
Proof.
  intros Hwf b Hb. simpl in *. rewrite lookup_insert_ne by lia. apply Hwf. lia.
Qed.

Lemma grows_alloc m blk :
  wf m -> grows m (Mem (<[next m := blk]> (heap m)) (Pos.succ (next m)) (rng m) (ticks m)) [next m] [].
Proof.
  intros Hwf. split; simpl; try done; [lia| | |by apply wf_alloc].
  - intros b ->%list_elem_of_singleton. lia.
  - intros b Hb _. rewrite lookup_insert_ne; [done|]. set_solver.
Qed.

(** One allocation, or one write to a block allocated before, more. *)
Lemma grows_then_alloc m h n r t F W blk :
  grows m (Mem h n r t) F W -> grows m (Mem (<[n := blk]> h) (Pos.succ n) r t) (F ++ [n]) W.
Proof.
  intros Hg. rewrite <-(app_nil_r W). eapply grows_trans; [exact Hg|].
  apply (grows_alloc (Mem h n r t)). by eapply g_wf.
Qed.

Lemma grows_then_write m h n r t F b blk blk' :
  grows m (Mem h n r t) F [] -> b ∈ F -> h !! b = Some blk ->
  grows m (Mem (<[b := blk']> h) n r t) F [].
Proof.
  intros Hg Hb Hh. apply (grows_absorb _ _ _ [b] []); [|intros c ->%list_elem_of_singleton; exact Hb].
  rewrite app_nil_r. change [b] with ([] ++ [b]). rewrite <-(app_nil_r F).
  eapply grows_trans; [exact Hg|]. eapply (grows_write (Mem h n r t)); [by eapply g_wf|exact Hh].
Qed.

Lemma mem_eta m : m = Mem (heap m) (next m) (rng m) (ticks m).
Proof. by destruct m. Qed.

(** Heap bookkeeping: lookups in a heap built from inserts and deletes at
    blocks whose order [lia] decides. *)
Ltac mem_cbn := cbn [heap next rng ticks fst snd padd].
Ltac heap_simpl :=
  repeat (mem_cbn;
    first [ rewrite lookup_insert_eq
          | rewrite lookup_insert_ne by lia
          | rewrite lookup_delete_ne by lia
          | rewrite lookup_delete_eq
          | rewrite insert_insert_eq
          | rewrite lookup_insert_eq ]); mem_cbn.

(** [wf] of a heap built by inserts and deletes from a well-formed one. *)
Ltac solve_wf :=
  match goal with Hwf : wf ?m |- wf _ =>
    intros ?b ?Hb; cbn [heap next] in *;
    repeat first [ rewrite lookup_insert_ne by lia
                 | apply lookup_delete_None; right ];
    apply Hwf; lia
  end.

(** Equality of two heaps built that way: compare them at every block. *)
Ltac heap_ext :=
  apply map_eq; intros ?b;
  repeat first [ rewrite lookup_insert | rewrite lookup_delete ];
  repeat (case_decide; subst; try lia; try congruence; try done);
  try (match goal with Hwf : wf ?m |- _ => rewrite Hwf by lia; done end).

Lemma zlookup_of_nat {A} (l : list A) (k : nat) : zlookup l (Z.of_nat k) = l !! k.
Proof. unfold zlookup. rewrite (proj2 (Z.ltb_ge _ _)) by lia. by rewrite Nat2Z.id. Qed.

Lemma zlookup_nonneg {A} (l : list A) i : 0 <= i -> zlookup l i = l !! Z.to_nat i.
Proof. intros. unfold zlookup. rewrite (proj2 (Z.ltb_ge _ _)) by lia. done. Qed.

Lemma zlookup_lt {A} (l : list A) i a : zlookup l i = Some a -> 0 <= i < Z.of_nat (length l).
Proof.
  unfold zlookup. destruct (Z.ltb_spec i 0); [done|]. intros ?%lookup_lt_Some. lia.
Qed.

Lemma shift_level_fuel_spec fuel n level :
  0 <= n < 2 ^ Z.of_nat fuel -> n <> 0 -> shift_level_fuel fuel n level = level + Z.log2 n.
Proof.
  revert n level; induction fuel as [|fuel IH]; intros n level Hn Hn0.
  - simpl in Hn. lia.
  - cbn [shift_level_fuel]. cbv zeta.
    rewrite Z.shiftr_div_pow2 by lia. change (2 ^ 1) with 2.
    destruct (Z.eqb_spec (n / 2) 0) as [E|E].
    + assert (n = 1) as -> by (Z.to_euclidean_division_equations; lia). simpl. lia.
    + rewrite IH; [| |done].
      * replace (Z.log2 n) with (Z.succ (Z.log2 (n / 2))); [lia|].
        destruct (Z.Even_or_Odd n) as [[k Hk]|[k Hk]]; subst n.
        -- replace (2 * k / 2) with k by (Z.to_euclidean_division_equations; lia).
           rewrite Z.log2_double; lia.
        -- replace ((2 * k + 1) / 2) with k by (Z.to_euclidean_division_equations; lia).
           rewrite Z.log2_succ_double; [lia|]. Z.to_euclidean_division_equations; lia.
      * rewrite Nat2Z.inj_succ, Z.pow_succ_r in Hn by lia.
        split; [apply Z.div_pos; lia|apply Z.div_lt_upper_bound; lia].
Qed.

(** The level loop computes the binary logarithm. *)
Lemma shift_level_log2 n : 0 < n < 2 ^ 64 -> shift_level n = Z.log2 n.
Proof. intros. unfold shift_level. rewrite shift_level_fuel_spec; simpl; lia. Qed.

(** Symbolic execution: bind, return and allocation are unfolded; loads, stores
    and frees look their block up in the symbolic heap. *)
Ltac wp_prim :=
  lazymatch goal with
  | |- wp (mret _) _ _ => apply wp_ret
  | |- wp (_ ≫= _) _ _ => apply wp_bind
  | |- wp (alloc _) _ _ => apply wp_alloc
  | |- wp (calloc _ _) _ _ => unfold calloc
  | |- wp (load _) _ _ => eapply wp_load; [by heap_simpl|done|]
  | |- wp (store _ _) _ _ => eapply wp_store; [by heap_simpl|done|]
  | |- wp (update _ _) _ _ => eapply wp_update; [by heap_simpl|done|]
  | |- wp (free (Ptr _ 0)) _ _ => eapply wp_free; [by heap_simpl|]
  | |- wp (load_ix _ _) _ _ => unfold load_ix; simpl padd
  | |- wp (store_ix _ _ _) _ _ => unfold store_ix; simpl padd
  | |- wp (determinate _) _ _ => eapply wp_determinate; [reflexivity|]
  | |- wp (if decide ?P then _ else _) _ _ => rewrite (decide_True (P:=P)) by done
  end; cbv beta.
Ltac wps := repeat (wp_prim; mem_cbn).

(** Reading back a buffer that was just written in full. *)
Lemma overwrite_all l bs : length l = length bs -> overwrite l bs 0 = bs.
Proof. intros Hl. unfold overwrite. simpl. rewrite drop_ge by lia. apply app_nil_r. Qed.

Lemma take_overwrite0 (l bs : list byte) : take (length bs) (overwrite l bs 0) = bs.
Proof. unfold overwrite. rewrite take_0. cbn [app]. apply take_app_length. Qed.

Lemma bytes_at_all h b bs n :
  h !! b = Some (BBytes bs) -> n = length bs -> bytes_at h (Ptr b 0) n = Ok bs.
Proof.
  intros Hb ->. unfold bytes_at. rewrite Hb. change (Z.to_nat 0) with 0%nat.
  rewrite Nat.add_0_l, Nat.leb_refl, drop_0, firstn_all. done.
Qed.

Lemma heap_delete_fresh (h : gmap positive block) b blk :
  h !! b = None -> delete b (<[b := blk]> h) = h.
Proof. intros. by rewrite delete_insert_id. Qed.

(** A load leaves the state alone and does not see later allocations. *)
Lemma load_same {A} `{Storable A} p (a : A) m m' : load p m = Ok (a, m') -> m' = m.
Proof.
  unfold load. destruct (block_at _ _) as [[[]]| | |]; try done. destruct (zlookup _ _); by intros [= <- <-].
Qed.

Lemma load_old {A} `{Storable A} p (a : A) m m' m1 :
  wf m -> load p m = Ok (a, m') ->
  (forall b, (b < next m)%positive -> heap m1 !! b = heap m !! b) -> load p m1 = Ok (a, m1).
Proof.
  intros Hwf Hl Heq. destruct p as [|b o]; [done|]. unfold load in *. simpl in *.
  destruct (heap m !! b) as [v|] eqn:Hb; [|done]. rewrite Heq, Hb by by eapply wf_lt.
  destruct (of_block v) as [l|]; [|done]. destruct (zlookup l o); [|done]. by simplify_eq.
Qed.

Lemma load_bytes_run p n bs m : bytes_at (heap m) p n = Ok bs -> load_bytes p n m = Ok (bs, m).
Proof. intros H. unfold load_bytes. by rewrite H. Qed.

Lemma bytes_at_length h p n bs : bytes_at h p n = Ok bs -> length bs = n.
Proof.
  destruct p as [|b i]; simpl; [destruct n; by intros [= <-]|].
  destruct (h !! b) as [[l|ms|hs|ps|ls|bl|pz|cs]|]; try done.
  - destruct (_ && _) eqn:E; [|done]. apply andb_true_iff in E as [_ E%Nat.leb_le].
    intros [= <-]. rewrite length_take, length_drop. lia.
  - destruct (zlookup hs i) as [hp|]; [|done]. destruct (Nat.leb_spec n (length (hp_hash hp))); [|done].
    intros [= <-]. rewrite length_take. lia.
Qed.

(** [memcpy] into part of a buffer. *)
Lemma memcpy_run b i l p n bs m :
  bytes_at (heap m) p n = Ok bs -> heap m !! b = Some (BBytes l) -> 0 <= i -> (Z.to_nat i + n <= length l)%nat ->
  memcpy (Ptr b i) p n m =
    Ok ((), Mem (<[b := BBytes (overwrite l bs (Z.to_nat i))]> (heap m)) (next m) (rng m) (ticks m)).
Proof.
  intros Hp Hb Hi Hl. apply wp_eq. unfold memcpy. apply wp_bind. eapply wp_load_bytes; [exact Hp|].
  eapply wp_store_bytes; [exact Hb|done| |done]. by rewrite (bytes_at_length _ _ _ _ Hp).
Qed.

(** A prefix of a buffer. *)
Lemma bytes_at_prefix h b bs n :
  h !! b = Some (BBytes bs) -> (n <= length bs)%nat -> bytes_at h (Ptr b 0) n = Ok (take n bs).
Proof.
  intros Hb Hn. unfold bytes_at. rewrite Hb. change (Z.to_nat 0) with 0%nat.
  rewrite Nat.add_0_l, (proj2 (Nat.leb_le _ _) Hn), drop_0. done.
Qed.

Lemma memcmp_run p q n a b m :
  bytes_at (heap m) p n = Ok a -> bytes_at (heap m) q n = Ok b ->
  memcmp p q n m = Ok (if decide (a = b) then 0 else 1, m).
Proof.
  intros Hp Hq. unfold memcmp, load_bytes. erewrite bind_ok by by rewrite Hp.
  erewrite bind_ok by by rewrite Hq. done.
Qed.

Lemma load_ix_ptr b ps i p m :
  heap m !! b = Some (BPtrs ps) -> 0 <= i -> ps !! Z.to_nat i = Some p ->
  load_ix (A:=ptr) (Ptr b 0) i m = Ok (p, m).
Proof.
  intros Hb Hi Hp. apply wp_eq. unfold load_ix. mem_cbn. rewrite Z.add_0_l.
  eapply (wp_load (H:=storable_ptr)); [exact Hb|by rewrite zlookup_nonneg by lia|done].
Qed.
