(* ===== verification/Platform.v ===== *)
(** * The interface to libsodium and the C library's clock and random source

    The program calls libsodium (BLAKE2b hashing, Ed25519 signatures, random
    bytes) and the platform's clocks; neither is part of the repository.  They
    are operations of the classes [Sodium] and [Clock], parameters of
    everything that uses them.  [SodiumOk] states libsodium's documented
    behaviour the code relies on: lengths of its outputs and that a signed
    message opens under the matching public key.  Nothing is assumed about
    collisions: a theorem that depends on distinct hashes names the two inputs
    of its own run that would have to collide ([Hashing.collide]).

    Draws from the random source and readings of the clocks are numbered; the
    machine state counts them ([rng], [ticks]), and an instance fixes the
    outcome of each, so a theorem over all instances covers all outcomes. *)

From S2P Require Import Prelude.
From S2P Require Import CTypes.
From S2P Require Import Memory.

Class Sodium := {
  (** [crypto_generichash(out, 32, in, inlen, NULL, 0)] *)
  crypto_generichash : list byte -> list byte;
  (** [crypto_sign]: signature followed by the message *)
  crypto_sign : list byte -> list byte -> list byte;
  (** [crypto_sign_open]: the message, or a failed verification *)
  crypto_sign_open : list byte -> list byte -> option (list byte);
  (** [crypto_sign_keypair], by draw number: public key, secret key *)
  crypto_sign_keypair : nat -> list byte * list byte;
  (** [randombytes_buf(buf, n)], by draw number *)
  randombytes_buf : nat -> nat -> list byte;
  (** the value of [sodium_init()]: negative on failure *)
  sodium_init : Z }.

Class SodiumOk (S : Sodium) : Prop := {
  generichash_length bs : length (crypto_generichash bs) = crypto_generichash_BYTES;
  sign_length msg sk : length (crypto_sign msg sk) = (crypto_sign_BYTES + length msg)%nat;
  sign_open n msg :
    crypto_sign_open (crypto_sign msg (crypto_sign_keypair n).2) (crypto_sign_keypair n).1 = Some msg;
  open_length sm pk msg :
    crypto_sign_open sm pk = Some msg -> length sm = (crypto_sign_BYTES + length msg)%nat;
  keypair_pk_length n : length (crypto_sign_keypair n).1 = crypto_sign_PUBLICKEYBYTES;
  keypair_sk_length n : length (crypto_sign_keypair n).2 = crypto_sign_SECRETKEYBYTES;
  randombytes_length i n : length (randombytes_buf i n) = n;
  sodium_init_ok : 0 <= sodium_init }.

Class Clock := {
  (** [time(NULL)], by reading number: seconds since the epoch *)
  time_now : nat -> Z;
  (** [clock_gettime(CLOCK_REALTIME)]: seconds and nanoseconds, or an error *)
  clock_gettime : nat -> option (Z * Z);
  (** [gettimeofday]: seconds and microseconds, or an error *)
  gettimeofday : nat -> option (Z * Z);
  (** [rand()], by draw number *)
  rand : nat -> Z;
  (** [rand()] is between 0 and [RAND_MAX] *)
  rand_nonneg i : 0 <= rand i }.

(** A numbered draw from the random source. *)
Definition draw {A} (f : nat -> A) : M A := fun m =>
  Ok (f (rng m), Mem (heap m) (next m) (S (rng m)) (ticks m)).

(** A numbered reading of a clock. *)
Definition tick {A} (f : nat -> A) : M A := fun m =>
  Ok (f (ticks m), Mem (heap m) (next m) (rng m) (S (ticks m))).

Lemma wp_draw {A} (f : nat -> A) Q m :
  Q (f (rng m)) (Mem (heap m) (next m) (S (rng m)) (ticks m)) -> wp (draw f) Q m.
Proof. by apply wp_run. Qed.

Lemma wp_tick {A} (f : nat -> A) Q m :
  Q (f (ticks m)) (Mem (heap m) (next m) (rng m) (S (ticks m))) -> wp (tick f) Q m.
Proof. by apply wp_run. Qed.

#[export] Hint Rewrite @generichash_length @sign_length @keypair_pk_length @keypair_sk_length
  @randombytes_length using typeclasses eauto : chain_rw.

(** ** A small instance

    Not a cryptographic library: an executable model of the interface, so that
    the theorems can be evaluated on concrete inputs and their hypotheses shown
    to be satisfiable. *)
Module Toy.

(** A polynomial hash of the input into 32 bytes. *)
Definition toy_hash (bs : list byte) : list byte :=
  le_bytes 32 (fold_left (fun acc b => (acc * 257 + Z_of_byte b + 1) mod 2 ^ 256) bs 5).

(** The first 32 bytes of the input, padded: with it the puzzle's hash begins
    with the nonce. *)
Definition prefix_hash (bs : list byte) : list byte := take 32 (bs ++ zeros 32).

Definition toy_keypair (n : nat) : list byte * list byte :=
  let pk := replicate 32 (byte_of_Z (Z.of_nat n)) in (pk, pk ++ pk).

Definition toy_sign (msg sk : list byte) : list byte := take 64 (sk ++ zeros 64) ++ msg.

Definition toy_open (sm pk : list byte) : option (list byte) :=
  if (64 <=? length sm)%nat && bool_decide (take 32 sm = pk) then Some (drop 64 sm) else None.

(** Draw [i] is all bytes of value [2 - i] down to zero. *)
Definition toy_random (i n : nat) : list byte := replicate n (byte_of_Z (Z.of_nat (2 - i))).

Definition toy_sodium (h : list byte -> list byte) : Sodium :=
  {| crypto_generichash := h; crypto_sign := toy_sign; crypto_sign_open := toy_open;
     crypto_sign_keypair := toy_keypair; randombytes_buf := toy_random; sodium_init := 0 |}.

#[export] Instance toy_clock : Clock.
Proof.
  refine {| time_now := fun n => 1700000000 + Z.of_nat n;
     clock_gettime := fun n => Some (1700000000 + Z.of_nat n, 123456789);
     gettimeofday := fun n => Some (1700000000 + Z.of_nat n, 654321);
     rand := fun n => 12345 + Z.of_nat n |}; intros; lia.
Defined.

Lemma toy_hash_length bs : length (toy_hash bs) = 32%nat.
Proof. apply length_le_bytes. Qed.

Lemma prefix_hash_length bs : length (prefix_hash bs) = 32%nat.
Proof. unfold prefix_hash. rewrite length_take, length_app, length_zeros. lia. Qed.

Lemma toy_sodium_ok h : (forall bs, length (h bs) = 32%nat) -> SodiumOk (toy_sodium h).
Proof.
  intros Hh. split; simpl.
  - done.
  - intros. unfold toy_sign. rewrite length_app, length_take, length_app, length_zeros. lia.
  - intros n msg. set (pk := replicate 32 (byte_of_Z (Z.of_nat n))).
    unfold toy_open, toy_sign.
    assert (length (pk ++ pk) = 64%nat) as Hl by reflexivity.
    rewrite (take_app_le (pk ++ pk)) by (rewrite Hl; lia).
    rewrite (take_ge (pk ++ pk)) by (rewrite Hl; lia).
    rewrite <-app_assoc, (take_app_le pk) by (simpl; lia).
    rewrite (take_ge pk) by (simpl; lia).
    rewrite bool_decide_eq_true_2 by done.
    rewrite length_app. change (length pk) with 32%nat. rewrite length_app. simpl.
    done.
  - intros sm pk msg. unfold toy_open.
    destruct (Nat.leb_spec 64 (length sm)); [|done]. simpl.
    case_bool_decide; [|done]. intros [= <-]. rewrite length_drop. lia.
  - done.
  - done.
  - intros. apply length_replicate.
  - lia.
Qed.

(** The two instances the witnesses use. *)
Definition mixing : Sodium := toy_sodium toy_hash.
Definition prefixing : Sodium := toy_sodium prefix_hash.

#[export] Instance mixing_ok : SodiumOk mixing := toy_sodium_ok _ toy_hash_length.
#[export] Instance prefixing_ok : SodiumOk prefixing := toy_sodium_ok _ prefix_hash_length.

End Toy.
