(* ===== verification/Accounts.v ===== *)
(** * Accounts: keys, signed messages and their generation

    sources/accounts/acc_utils.c and the message constructors of
    sources/misc/misc.c.  A signed message is a struct that points at its own
    buffer: signature followed by text. *)

From S2P Require Import Prelude.
From S2P Require Import CTypes.
From S2P Require Import Memory.
From S2P Require Import Platform.

Section accounts.
Context {sod : Sodium} {clk : Clock}.

(** [sign_a_message]: the buffer takes 64 bytes more than the text, the text's
    buffer is released.  [secret_key] is the content of the caller's key array;
    fewer than 64 bytes there would be read past its end.  The returned
    struct's [public_key] is not set: no determinate bytes. *)
Definition sign_a_message (testmsg : test_msg_t) (secret_key : list byte) : M signed_message_t :=
  SK ← (if (crypto_sign_SECRETKEYBYTES <=? length secret_key)%nat
        then mret (take crypto_sign_SECRETKEYBYTES secret_key) else fail OutOfBounds);
  message ← calloc (Z.of_nat crypto_sign_BYTES + tm_len testmsg) x00;
  text ← load_bytes (tm_test_msg testmsg) (Z.to_nat (tm_len testmsg));
  let sm := crypto_sign text SK in
  store_bytes message sm ;;
  free (tm_test_msg testmsg) ;;
  mret (SignedMessage message (Z.of_nat (length sm)) []).

Definition destroy_signed_message (a_msg : ptr) : M unit :=
  sm ← load (A:=signed_message_t) a_msg;
  free (sm_message sm) ;;
  free a_msg.

(** [put_a_PK]: copies 32 bytes of the key array into the message. *)
Definition put_a_PK (a_msg : ptr) (PK : list byte) : M unit :=
  if (crypto_sign_PUBLICKEYBYTES <=? length PK)%nat
  then update a_msg (fun sm => SignedMessage (sm_message sm) (sm_length sm)
                                 (take crypto_sign_PUBLICKEYBYTES PK))
  else fail OutOfBounds.

(** [validate_a_message]: the array for the opened text has [length - 64]
    elements, computed in [unsigned long long]; for a shorter message that wraps
    around, for one of exactly 64 bytes it is zero, and the length of a
    variable-length array has to be greater than zero (C11 6.7.6.2). *)
Definition validate_a_message (sigmsg : signed_message_t) (pk : list byte) : M Z :=
  let decoded_size := u64 (sm_length sigmsg - 64) in
  if (sm_length sigmsg <=? 64) then fail OutOfBounds else
  PK ← (if (crypto_sign_PUBLICKEYBYTES <=? length pk)%nat
        then mret (take crypto_sign_PUBLICKEYBYTES pk) else fail OutOfBounds);
  sm ← load_bytes (sm_message sigmsg) (Z.to_nat (sm_length sigmsg));
  match crypto_sign_open sm PK with
  | None => mret 0
  | Some decoded =>
      if Z.of_nat (length decoded) <=? decoded_size then mret 1 else fail OutOfBounds
  end.

Definition create_key_pair : M user_keys :=
  ks ← draw crypto_sign_keypair;
  mret (UserKeys ks.1 ks.2).

(** [ls_get_test_msg]: [len] random bytes from libsodium. *)
Definition ls_get_test_msg (len : Z) : M test_msg_t :=
  random ← calloc len x00;
  (if sodium_init <? 0 then die else mret ()) ;;
  bs ← draw (fun i => randombytes_buf i (Z.to_nat len));
  store_bytes random bs ;;
  mret (TestMsg random len).

(** The alphabet of [get_test_msg]; [sizeof(ALLOWED) - 1 = 36]. *)
Definition ALLOWED : list byte :=
  map byte_of_Z ([97;98;99;100;101;102;103;104;105;106;107;108;109;110;111;112;113;114;115;116;
                  117;118;119;120;121;122] ++ [49;50;51;52;53;54;55;56;57;48]).

Definition nbAllowed : Z := 36.

(** [get_test_msg]: [len] characters picked by [rand()]. *)
Definition get_test_msg (len : Z) : M test_msg_t :=
  tick time_now ;;
  random ← calloc len x00;
  for_ (Z.to_nat len) (fun i =>
    r ← draw rand;
    let c := Z.rem r nbAllowed in
    match zlookup ALLOWED c with
    | Some b => store_ix random (Z.of_nat i) b
    | None => fail OutOfBounds
    end) ;;
  mret (TestMsg random len).

(** [get_a_signed_msg] and [ls_get_a_signed_msg]: a heap-allocated signed
    message of 100 characters with its public key. *)
Definition get_a_signed_msg (keys : user_keys) : M ptr :=
  tick time_now ;;
  somemsg ← get_test_msg 100;
  a_msg ← calloc 1 (SignedMessage NULL 0 (zeros crypto_sign_PUBLICKEYBYTES));
  sm ← sign_a_message somemsg (uk_sk keys);
  store a_msg sm ;;
  put_a_PK a_msg (uk_pk keys) ;;
  mret a_msg.

Definition ls_get_a_signed_msg (keys : user_keys) : M ptr :=
  tick time_now ;;
  somemsg ← ls_get_test_msg 100;
  a_msg ← calloc 1 (SignedMessage NULL 0 (zeros crypto_sign_PUBLICKEYBYTES));
  sm ← sign_a_message somemsg (uk_sk keys);
  store a_msg sm ;;
  put_a_PK a_msg (uk_pk keys) ;;
  mret a_msg.

End accounts.

(** A live signed message: the struct at [p] and the bytes of its buffer. *)
Definition msg_at (h : gmap positive block) (p : ptr) (sm : signed_message_t) (bs : list byte) : Prop :=
  (exists b i ms, p = Ptr b i /\ h !! b = Some (BMsgs ms) /\ zlookup ms i = Some sm) /\
  bytes_at h (sm_message sm) (Z.to_nat (sm_length sm)) = Ok bs.

(** A message stays where it is when only newer blocks change. *)
Lemma msg_at_old m (h' : gmap positive block) p sm bs :
  wf m -> msg_at (heap m) p sm bs ->
  (forall b, (b < next m)%positive -> h' !! b = heap m !! b) -> msg_at h' p sm bs.
Proof.
  intros Hwf [(b & i & ms & -> & Hb & Hi) Hbs] Heq. split.
  - exists b, i, ms. rewrite Heq by by eapply wf_lt. done.
  - by eapply bytes_at_old.
Qed.

Section facts.
Context {sod : Sodium} {clk : Clock} {ok : SodiumOk sod}.

Lemma ls_get_test_msg_run len m :
  0 <= len ->
  ls_get_test_msg len m =
    Ok (TestMsg (Ptr (next m) 0) len,
        Mem (<[next m := BBytes (randombytes_buf (rng m) (Z.to_nat len))]> (heap m))
          (Pos.succ (next m)) (S (rng m)) (ticks m)).
Proof.
  intros Hlen. apply wp_eq. unfold ls_get_test_msg. wps.
  rewrite (proj2 (Z.ltb_ge _ _) sodium_init_ok). wps.
  apply wp_draw. mem_cbn. wps.
  eapply wp_store_bytes; [by heap_simpl|lia|autorewrite with chain_rw; simpl; lia|].
  rewrite overwrite_all by by autorewrite with chain_rw. wps.
  by rewrite insert_insert_eq.
Qed.

Lemma sign_a_message_run b text len sk m :
  wf m -> heap m !! b = Some (BBytes text) -> len = Z.of_nat (length text) ->
  length sk = crypto_sign_SECRETKEYBYTES ->
  sign_a_message (TestMsg (Ptr b 0) len) sk m =
    Ok (SignedMessage (Ptr (next m) 0) (64 + len) [],
        Mem (delete b (<[next m := BBytes (crypto_sign text sk)]> (heap m)))
          (Pos.succ (next m)) (rng m) (ticks m)).
Proof.
  intros Hwf Hb -> Hsk. pose proof (wf_lt _ _ _ Hwf Hb) as Hlt.
  apply wp_eq. unfold sign_a_message. rewrite Hsk, Nat.leb_refl, take_ge by lia. wps.
  eapply wp_load_bytes; [apply bytes_at_all; [by heap_simpl|cbn; lia]|]. wps.
  eapply wp_store_bytes; [by heap_simpl|lia|autorewrite with chain_rw; cbn [tm_len]; lia|].
  rewrite overwrite_all by (autorewrite with chain_rw; cbn [tm_len]; lia). mem_cbn.
  rewrite insert_insert_eq. wps. cbn [tm_test_msg]. wps.
  autorewrite with chain_rw. split; [|done]. f_equal. lia.
Qed.

Lemma ls_get_a_signed_msg_spec keys m :
  wf m -> length (uk_pk keys) = crypto_sign_PUBLICKEYBYTES ->
  length (uk_sk keys) = crypto_sign_SECRETKEYBYTES ->
  let sm := crypto_sign (randombytes_buf (rng m) 100) (uk_sk keys) in
  let pb := Pos.succ (next m) in
  let mb := Pos.succ pb in
  ls_get_a_signed_msg keys m =
    Ok (Ptr pb 0,
        Mem (<[pb := BMsgs [SignedMessage (Ptr mb 0) 164 (uk_pk keys)]]>
               (<[mb := BBytes sm]> (heap m)))
          (Pos.succ mb) (Datatypes.S (rng m)) (Datatypes.S (ticks m))).
Proof.
  intros Hwf Hpk Hsk sm pb mb. apply wp_eq. unfold ls_get_a_signed_msg.
  apply wp_bind, wp_tick. mem_cbn. apply wp_bind.
  eapply wp_run; [by apply ls_get_test_msg_run|]. mem_cbn. wps.
  eapply wp_run.
  { eapply sign_a_message_run; [solve_wf|by heap_simpl|by rewrite randombytes_length|done]. }
  mem_cbn. wps. unfold put_a_PK. rewrite Hpk, Nat.leb_refl, take_ge by lia. wps.
  split; [done|]. f_equal.
  subst pb mb. heap_ext.
Qed.

Lemma validate_a_message_run sm bs pk m :
  bytes_at (heap m) (sm_message sm) (Z.to_nat (sm_length sm)) = Ok bs ->
  64 < sm_length sm < 2 ^ 64 -> sm_length sm = Z.of_nat (length bs) ->
  length pk = crypto_sign_PUBLICKEYBYTES ->
  validate_a_message sm pk m =
    Ok (match crypto_sign_open bs pk with Some _ => 1 | None => 0 end, m).
Proof.
  intros Hbs Hlen Hl Hpk. apply wp_eq. unfold validate_a_message.
  rewrite (proj2 (Z.leb_gt _ _)) by lia. rewrite Hpk, Nat.leb_refl, take_ge by lia. wps.
  eapply wp_load_bytes; [done|].
  destruct (crypto_sign_open bs pk) as [msg|] eqn:Ho; [|by wps].
  pose proof (open_length _ _ _ Ho) as Hol. rewrite u64_small by lia.
  rewrite (proj2 (Z.leb_le _ _)) by lia. by wps.
Qed.

Lemma destroy_signed_message_run b mb sm bs m :
  heap m !! b = Some (BMsgs [sm]) -> sm_message sm = Ptr mb 0 ->
  heap m !! mb = Some bs -> b <> mb ->
  destroy_signed_message (Ptr b 0) m =
    Ok ((), Mem (delete b (delete mb (heap m))) (next m) (rng m) (ticks m)).
Proof.
  intros Hb Hm Hmb Hne. apply wp_eq. unfold destroy_signed_message. wps.
  rewrite Hm. by wps.
Qed.

(** [get_test_msg] writes only characters of its alphabet, and never indexes
    it out of range: [rand() % 36] is below 36. *)
Lemma get_test_msg_run len m :
  wf m -> 0 <= len ->
  wp (get_test_msg len)
    (fun tm m' => tm = TestMsg (Ptr (next m) 0) len /\
       exists bs, heap m' = <[next m := BBytes bs]> (heap m) /\
         length bs = Z.to_nat len /\ Forall (.∈ ALLOWED) bs /\ next m' = Pos.succ (next m) /\ rng m' = (Z.to_nat len + rng m)%nat) m.
Proof.
  intros Hwf Hlen. unfold get_test_msg. apply wp_bind, wp_tick, wp_bind. mem_cbn.
  unfold calloc. apply wp_alloc. mem_cbn. apply wp_bind. eapply wp_mono.
  - apply (wp_for (fun j m' => exists bs, heap m' = <[next m := BBytes (bs ++ replicate (Z.to_nat len - j) x00)]> (heap m)
      /\ length bs = j /\ Forall (.∈ ALLOWED) bs /\ next m' = Pos.succ (next m) /\ rng m' = (j + rng m)%nat)).
    + exists []. split; [|done]. cbn. by rewrite Nat.sub_0_r.
    + intros j m' Hj (bs & Hh & Hl & Hall & Hn & Hr0). apply wp_bind, wp_draw. mem_cbn.
      pose proof (Z.rem_bound_pos (rand (rng m')) nbAllowed (rand_nonneg _) ltac:(done)) as Hr.
      set (c := Z.rem _ _) in *.
      assert (is_Some (ALLOWED !! Z.to_nat c)) as [b Hb].
      { apply lookup_lt_is_Some. unfold nbAllowed in Hr. cbn. lia. }
      rewrite zlookup_nonneg, Hb by lia. unfold store_ix. mem_cbn. rewrite Z.add_0_l.
      destruct (Z.to_nat len - j)%nat as [|r] eqn:Er; [lia|].
      eapply wp_store; [rewrite Hh; apply lookup_insert_eq| |].
      { rewrite zlookup_of_nat, lookup_app_r, Hl, Nat.sub_diag by lia. done. }
      exists (bs ++ [b]). cbn [heap]. rewrite Hh, insert_insert_eq. split_and!.
      * do 2 f_equal. rewrite Nat2Z.id, insert_app_r_alt by lia. rewrite Hl, Nat.sub_diag.
        replace (Z.to_nat len - S j)%nat with r by lia. by rewrite <-app_assoc.
      * rewrite length_app, Hl. cbn. lia.
      * apply Forall_app. split; [done|]. apply Forall_singleton.
        by eapply list_elem_of_lookup_2.
      * done.
      * cbn [rng]. lia.
  - intros [] m' (bs & Hh & Hl & Hall & Hn & Hr0). wps. split; [done|]. exists bs.
    rewrite Nat.sub_diag, app_nil_r in Hh. done.
Qed.

(** The same for the message of [rand()] characters. *)
Lemma get_a_signed_msg_spec keys m :
  wf m -> length (uk_pk keys) = crypto_sign_PUBLICKEYBYTES ->
  length (uk_sk keys) = crypto_sign_SECRETKEYBYTES ->
  wp (get_a_signed_msg keys)
    (fun p m' => exists text pb mb, p = Ptr pb 0 /\ (next m <= pb < mb)%positive /\
       length text = 100%nat /\ Forall (.∈ ALLOWED) text /\
       heap m' = <[pb := BMsgs [SignedMessage (Ptr mb 0) 164 (uk_pk keys)]]>
                   (<[mb := BBytes (crypto_sign text (uk_sk keys))]> (heap m)) /\
       (mb < next m')%positive /\ rng m' = (100 + rng m)%nat) m.
Proof.
  intros Hwf Hpk Hsk. unfold get_a_signed_msg. apply wp_bind, wp_tick, wp_bind. mem_cbn.
  eapply wp_mono; [apply get_test_msg_run; [by apply wf_env|lia]|].
  intros tm m1 (-> & text & Hh & Hl & Hall & Hn & Hr). cbn [heap next rng] in *. wps. mem_cbn.
  assert (wf m1) as Hwf1.
  { intros b Hb. rewrite Hh, lookup_insert_ne by lia. apply Hwf. lia. }
  eapply wp_run.
  { eapply sign_a_message_run; [by apply wf_alloc| |by rewrite Hl|done].
    cbn [heap]. rewrite lookup_insert_ne, Hh by lia. apply lookup_insert_eq. }
  mem_cbn. wps. unfold put_a_PK. rewrite Hpk, Nat.leb_refl, take_ge by lia. wps.
  exists text, (next m1), (Pos.succ (next m1)). split_and!; [done|lia|lia|done|done| |lia|done]. rewrite Hh. heap_ext.
Qed.

(** C28: the life of a signed message.  With a generated key pair,
    [ls_get_a_signed_msg] makes a message of 164 bytes (64 of signature, 100 of
    text) that carries the key; [validate_a_message] accepts it under that key
    without changing anything; [destroy_signed_message] then returns the heap
    to what it was before, the text buffer included. *)
Theorem signed_message_lifecycle m :
  wf m ->
  wp (keys ← create_key_pair;
      p ← ls_get_a_signed_msg keys;
      sm ← load (A:=signed_message_t) p;
      v ← validate_a_message sm (uk_pk keys);
      destroy_signed_message p ;;
      mret (keys, sm, v))
    (fun '(keys, sm, v) m' => v = 1 /\ sm_length sm = 164 /\ sm_public_key sm = uk_pk keys /\ heap m' = heap m) m.
Proof.
  intros Hwf. unfold create_key_pair. wps. apply wp_draw. wps. cbn [uk_pk].
  eapply wp_run.
  { apply ls_get_a_signed_msg_spec; cbn [uk_pk uk_sk];
      [by apply wf_env|apply keypair_pk_length|apply keypair_sk_length]. }
  wps. cbn [uk_pk uk_sk].
  eapply wp_run.
  { eapply validate_a_message_run; cbn [sm_message sm_length];
      [apply bytes_at_all; [by heap_simpl|by autorewrite with chain_rw]|lia|by autorewrite with chain_rw|apply keypair_pk_length]. }
  wps. rewrite sign_open. eapply wp_run.
  { eapply destroy_signed_message_run; [by heap_simpl|done|by heap_simpl|lia]. }
  wps. split_and!; [done..|]. heap_ext.
Qed.

(** C29: what [validate_a_message] decides.  For a message of more than 64
    bytes in memory it returns 1 exactly when libsodium opens those bytes under
    the given key, 0 when it does not, and changes nothing; for a message of 64
    bytes or fewer the length of its output array is zero or wraps around, and
    the call is undefined. *)
Theorem validate_a_message_exact sm bs pk m :
  bytes_at (heap m) (sm_message sm) (Z.to_nat (sm_length sm)) = Ok bs ->
  0 <= sm_length sm < 2 ^ 64 -> length pk = crypto_sign_PUBLICKEYBYTES ->
  validate_a_message sm pk m =
    if sm_length sm <=? 64 then Fault OutOfBounds
    else Ok (match crypto_sign_open bs pk with Some _ => 1 | None => 0 end, m).
Proof.
  intros Hbs Hl Hpk. destruct (Z.leb_spec (sm_length sm) 64).
  - unfold validate_a_message. cbv zeta. rewrite (proj2 (Z.leb_le _ _)) by lia. done.
  - apply validate_a_message_run; [done|lia| |done]. rewrite (bytes_at_length _ _ _ _ Hbs). lia.
Qed.
End facts.

Lemma signed_message_lifecycle_witness :
  wp (keys ← create_key_pair (sod:=Toy.mixing);
      p ← ls_get_a_signed_msg (sod:=Toy.mixing) (clk:=Toy.toy_clock) keys;
      sm ← load (A:=signed_message_t) p;
      v ← validate_a_message (sod:=Toy.mixing) sm (uk_pk keys);
      destroy_signed_message p ;;
      mret (keys, sm, v))
    (fun '(keys, sm, v) m' => v = 1 /\ sm_length sm = 164 /\ sm_public_key sm = uk_pk keys /\ heap m' = ∅) (Mem ∅ 1 0 0).
Proof.
  exact (signed_message_lifecycle (sod:=Toy.mixing) (clk:=Toy.toy_clock) (ok:=Toy.mixing_ok) (Mem ∅ 1 0 0)
    (fun b _ => lookup_empty b)).
Defined.

(** A forged message: 64 zero bytes and a text, under key number 1. *)
Lemma validate_a_message_exact_witness :
  validate_a_message (sod:=Toy.mixing) (SignedMessage (Ptr 1 0) 70 []) (Toy.toy_keypair 1).1
    (Mem (<[1%positive := BBytes (zeros 70)]> ∅) 2 0 0) =
  Ok (0, Mem (<[1%positive := BBytes (zeros 70)]> ∅) 2 0 0).
Proof.
  exact (validate_a_message_exact (sod:=Toy.mixing) (ok:=Toy.mixing_ok) (SignedMessage (Ptr 1 0) 70 []) (zeros 70)
    (Toy.toy_keypair 1).1 (Mem (<[1%positive := BBytes (zeros 70)]> ∅) 2 0 0) eq_refl ltac:(cbn; lia) eq_refl).
Defined.
