(* ===== verification/Hashing.v ===== *)
(** * Hash points: the nodes of the Merkle tree

    sources/hashing/hashing.c.  Every function that returns a hash returns a
    freshly allocated 32-byte buffer its caller has to free. *)

From S2P Require Import Prelude.
From S2P Require Import CTypes.
From S2P Require Import Memory.
From S2P Require Import Platform.
From S2P Require Import Accounts.

Section hashing.
Context {sod : Sodium}.

Definition calc_hash (s_message : signed_message_t) : M ptr :=
  out_hash ← calloc (Z.of_nat crypto_generichash_BYTES) x00;
  bs ← load_bytes (sm_message s_message) (Z.to_nat (sm_length s_message));
  store_bytes out_hash (crypto_generichash bs) ;;
  mret out_hash.

Definition calc_hashof_hash (hash0 : ptr) : M ptr :=
  out_hash ← calloc (Z.of_nat crypto_generichash_BYTES) x00;
  bs ← load_bytes hash0 crypto_generichash_BYTES;
  store_bytes out_hash (crypto_generichash bs) ;;
  mret out_hash.

(** [merge_2hashses] on the two arrays' contents: the copies to [hash1tmp] and
    [hash2tmp] are not used, [hashS] is the 64 bytes hashed. *)
Definition merge_2hashses (hash1 hash2 : list byte) : M ptr :=
  if (length hash1 <? crypto_generichash_BYTES)%nat || (length hash2 <? crypto_generichash_BYTES)%nat
  then fail OutOfBounds else
  let hashS := take crypto_generichash_BYTES hash1 ++ take crypto_generichash_BYTES hash2 in
  out_hash ← calloc (Z.of_nat crypto_generichash_BYTES) x00;
  store_bytes out_hash (crypto_generichash hashS) ;;
  mret out_hash.

(** The same call with two pointers to hash bytes. *)
Definition merge_2hashses_at (hash1 hash2 : ptr) : M ptr :=
  h1 ← load_bytes hash1 crypto_generichash_BYTES;
  h2 ← load_bytes hash2 crypto_generichash_BYTES;
  merge_2hashses h1 h2.

(** Assignments to the fields of a hash point. *)
Definition set_hash (bs : list byte) (hp : hash_point) : hash_point :=
  HashPoint bs (hp_u hp) (FLAG0 hp).
Definition set_FLAG0 (z : Z) (hp : hash_point) : hash_point :=
  HashPoint (hp_hash hp) (hp_u hp) z.
Definition set_messages (f : smgs2 -> smgs2) (hp : hash_point) : hash_point :=
  match get_messages (hp_u hp) with
  | Some ms => HashPoint (hp_hash hp) (U_messages (f ms)) (FLAG0 hp)
  | None => hp
  end.
Definition set_hpoints (p1 p2 : ptr) (hp : hash_point) : hash_point :=
  HashPoint (hp_hash hp) (U_hpoints p1 p2) (FLAG0 hp).

Definition create_hpoint_message (s_msg1 s_msg2 : ptr) : M ptr :=
  hpoint ← calloc 1 zero_hash_point;
  update hpoint (set_messages (fun ms => Smgs2 s_msg1 (hashMSG1 ms) (smsg_p2 ms) (hashMSG2 ms))) ;;
  update hpoint (set_messages (fun ms => Smgs2 (smsg_p1 ms) (hashMSG1 ms) s_msg2 (hashMSG2 ms))) ;;
  sm1 ← load (A:=signed_message_t) s_msg1;
  hash_msg1 ← calc_hash sm1;
  b1 ← load_bytes hash_msg1 crypto_generichash_BYTES;
  update hpoint (set_messages (fun ms => Smgs2 (smsg_p1 ms) b1 (smsg_p2 ms) (hashMSG2 ms))) ;;
  sm2 ← load (A:=signed_message_t) s_msg2;
  hash_msg2 ← calc_hash sm2;
  b2 ← load_bytes hash_msg2 crypto_generichash_BYTES;
  update hpoint (set_messages (fun ms => Smgs2 (smsg_p1 ms) (hashMSG1 ms) (smsg_p2 ms) b2)) ;;
  hp ← load (A:=hash_point) hpoint;
  ms ← determinate (get_messages (hp_u hp));
  shash_p ← merge_2hashses (hashMSG1 ms) (hashMSG2 ms);
  bs ← load_bytes shash_p crypto_generichash_BYTES;
  update hpoint (set_hash bs) ;;
  update hpoint (set_FLAG0 0) ;;
  free hash_msg1 ;;
  free hash_msg2 ;;
  free shash_p ;;
  mret hpoint.

Definition destroy_hpoint_message (hpoint : ptr) : M unit := free hpoint.

(** [hp1->hash] is the pointer itself: the hash is the first field. *)
Definition create_hpoint_hashG (hp1 hp2 : ptr) : M ptr :=
  Shash ← merge_2hashses_at hp1 hp2;
  hpoint ← calloc 1 zero_hash_point;
  bs ← load_bytes Shash crypto_generichash_BYTES;
  update hpoint (set_hash bs) ;;
  free Shash ;;
  update hpoint (set_hpoints hp1 hp2) ;;
  update hpoint (set_FLAG0 1) ;;
  mret hpoint.

(** What the two hashing routines compute, as functions of bytes. *)
Definition hash_pair (a b : list byte) : list byte := crypto_generichash (a ++ b).

End hashing.

Section facts.
Context {sod : Sodium} {ok : SodiumOk sod}.

Lemma hash_pair_length a b : length (hash_pair a b) = crypto_generichash_BYTES.
Proof. apply generichash_length. Qed.

(** A fresh 32-byte buffer filled with a hash, and nothing else changed. *)
Lemma fill_fresh bs m :
  length bs = crypto_generichash_BYTES ->
  (out ← calloc (Z.of_nat crypto_generichash_BYTES) x00; store_bytes out bs ;; mret out) m =
    Ok (Ptr (next m) 0,
        Mem (<[next m := BBytes bs]> (heap m)) (Pos.succ (next m)) (rng m) (ticks m)).
Proof.
  intros Hl. apply wp_eq. wps.
  eapply wp_store_bytes; [by heap_simpl|lia|autorewrite with chain_rw; lia|].
  rewrite overwrite_all by (autorewrite with chain_rw; lia). wps.
  by rewrite insert_insert_eq.
Qed.

Lemma calc_hash_run sm bs m :
  wf m -> bytes_at (heap m) (sm_message sm) (Z.to_nat (sm_length sm)) = Ok bs ->
  calc_hash sm m =
    Ok (Ptr (next m) 0,
        Mem (<[next m := BBytes (crypto_generichash bs)]> (heap m))
          (Pos.succ (next m)) (rng m) (ticks m)).
Proof.
  intros Hwf Hbs. rewrite <-(fill_fresh (crypto_generichash bs)) by apply generichash_length.
  unfold calc_hash, calloc. rewrite !(bind_ok (alloc _) _ _ _ _ eq_refl).
  erewrite bind_ok; [reflexivity|]. unfold load_bytes.
  by erewrite bytes_at_grows; [..|exact Hbs]; [|done|by apply grows_alloc].
Qed.

Lemma calc_hashof_hash_run p bs m :
  wf m -> bytes_at (heap m) p crypto_generichash_BYTES = Ok bs ->
  calc_hashof_hash p m =
    Ok (Ptr (next m) 0,
        Mem (<[next m := BBytes (crypto_generichash bs)]> (heap m))
          (Pos.succ (next m)) (rng m) (ticks m)).
Proof.
  intros Hwf Hbs. apply (calc_hash_run (SignedMessage p 32 [])); done.
Qed.

Lemma merge_2hashses_run a b m :
  length a = crypto_generichash_BYTES -> length b = crypto_generichash_BYTES ->
  merge_2hashses a b m =
    Ok (Ptr (next m) 0,
        Mem (<[next m := BBytes (hash_pair a b)]> (heap m))
          (Pos.succ (next m)) (rng m) (ticks m)).
Proof.
  intros Ha Hb. unfold merge_2hashses. rewrite Ha, Hb, !take_ge by lia.
  apply fill_fresh, hash_pair_length.
Qed.

Lemma merge_2hashses_at_run p q a b m :
  bytes_at (heap m) p crypto_generichash_BYTES = Ok a ->
  bytes_at (heap m) q crypto_generichash_BYTES = Ok b ->
  length a = crypto_generichash_BYTES -> length b = crypto_generichash_BYTES ->
  merge_2hashses_at p q m =
    Ok (Ptr (next m) 0,
        Mem (<[next m := BBytes (hash_pair a b)]> (heap m))
          (Pos.succ (next m)) (rng m) (ticks m)).
Proof.
  intros Hp Hq Ha Hb. unfold merge_2hashses_at, load_bytes.
  erewrite bind_ok by by rewrite Hp. erewrite bind_ok by by rewrite Hq.
  by apply merge_2hashses_run.
Qed.

(** Reading the hash through a pointer to its node. *)
Lemma bytes_at_node h q hp :
  h !! q = Some (BHps [hp]) -> length (hp_hash hp) = crypto_generichash_BYTES ->
  bytes_at h (Ptr q 0) crypto_generichash_BYTES = Ok (hp_hash hp).
Proof. intros Hq Hl. simpl. rewrite Hq. cbn [zlookup]. simpl. rewrite Hl. cbn. by rewrite take_ge by lia. Qed.

Lemma create_hpoint_hashG_run p q a b m :
  wf m ->
  bytes_at (heap m) p crypto_generichash_BYTES = Ok a ->
  bytes_at (heap m) q crypto_generichash_BYTES = Ok b ->
  length a = crypto_generichash_BYTES -> length b = crypto_generichash_BYTES ->
  create_hpoint_hashG p q m =
    Ok (Ptr (Pos.succ (next m)) 0,
        Mem (<[Pos.succ (next m) := BHps [HashPoint (hash_pair a b) (U_hpoints p q) 1]]> (heap m))
          (Pos.succ (Pos.succ (next m))) (rng m) (ticks m)).
Proof.
  intros Hwf Hp Hq Ha Hb. apply wp_eq. unfold create_hpoint_hashG. wps.
  eapply wp_run; [by eapply merge_2hashses_at_run|]. wps.
  eapply wp_load_bytes; [apply bytes_at_all; [by heap_simpl|by rewrite hash_pair_length]|].
  wps. split; [done|]. f_equal. heap_ext.
Qed.

(** The node over two messages: both hashes, the hash of their concatenation,
    and the three temporary buffers released. *)
Lemma create_hpoint_message_run p1 p2 sm1 sm2 bs1 bs2 m :
  wf m -> msg_at (heap m) p1 sm1 bs1 -> msg_at (heap m) p2 sm2 bs2 ->
  let h1 := crypto_generichash bs1 in
  let h2 := crypto_generichash bs2 in
  create_hpoint_message p1 p2 m =
    Ok (Ptr (next m) 0,
        Mem (<[next m := BHps [HashPoint (hash_pair h1 h2) (U_messages (Smgs2 p1 h1 p2 h2)) 0]]> (heap m))
          (Pos.succ (Pos.succ (Pos.succ (Pos.succ (next m))))) (rng m) (ticks m)).
Proof.
  intros Hwf [(b1 & i1 & ms1 & -> & Hb1 & Hi1) Hbs1] [(b2 & i2 & ms2 & -> & Hb2 & Hi2) Hbs2] h1 h2.
  pose proof (wf_lt _ _ _ Hwf Hb1). pose proof (wf_lt _ _ _ Hwf Hb2).
  apply wp_eq. unfold create_hpoint_message. wps.
  eapply wp_run; [apply calc_hash_run; [solve_wf|];
    eapply bytes_at_old; [exact Hwf|exact Hbs1|]; intros; by heap_simpl|]. wps.
  eapply wp_load_bytes; [apply bytes_at_all; [by heap_simpl|by rewrite generichash_length]|]. wps.
  eapply wp_run; [apply calc_hash_run; [solve_wf|];
    eapply bytes_at_old; [exact Hwf|exact Hbs2|]; intros; by heap_simpl|]. wps.
  eapply wp_load_bytes; [apply bytes_at_all; [by heap_simpl|by rewrite generichash_length]|]. wps.
  eapply wp_run; [apply merge_2hashses_run; apply generichash_length|]. wps.
  eapply wp_load_bytes; [apply bytes_at_all; [by heap_simpl|by rewrite hash_pair_length]|]. wps.
  split; [done|]. f_equal. heap_ext.
Qed.

(** Two inputs at hand that differ and have the same hash. *)
Definition collide (a b : list byte) : Prop := a <> b /\ crypto_generichash a = crypto_generichash b.

#[global] Instance collide_dec a b : Decision (collide a b).
Proof. unfold collide. apply _. Defined.

Lemma generichash_same a b : crypto_generichash a = crypto_generichash b -> a = b \/ collide a b.
Proof. intros Hh. destruct (decide (a = b)) as [|Hne]; [by left|by right]. Qed.

Lemma hash_pair_same a b a' b' :
  length a = length a' -> hash_pair a b = hash_pair a' b' -> (a = a' /\ b = b') \/ collide (a ++ b) (a' ++ b').
Proof. intros Hl [Heq|]%generichash_same; [|by right]. left. by apply app_inj_1 in Heq. Qed.
End facts.
