(* ===== verification/Layering.v ===== *)
(** * Layers of the Merkle tree

    sources/block_data/layering.c.  A layer is a struct holding an array of
    pointers to hash points; the base layer points at message pairs, each layer
    above at pairs of the layer below. *)

From S2P Require Import Prelude.
From S2P Require Import CTypes.
From S2P Require Import Memory.
From S2P Require Import Platform.
From S2P Require Import Accounts.
From S2P Require Import Hashing.

Definition set_main_pointer (p : ptr) (l : layer_hp) : layer_hp := LayerHp p (lay_size l) (lay_level l).
Definition set_size (n : Z) (l : layer_hp) : layer_hp := LayerHp (main_pointer l) n (lay_level l).
Definition set_level (n : Z) (l : layer_hp) : layer_hp := LayerHp (main_pointer l) (lay_size l) n.

Section layering.
Context {sod : Sodium}.

(** [create_a_h_layer]: halves the caller's size variable (returned here) and
    builds a layer of that many nodes over the nodes at [start_hpointr].  In
    the loop [i = 2 k], and [*size_d_layer * 2] does not wrap because the size
    was just halved.  Only the root branch stores [level]. *)
Definition create_a_h_layer (size_d_layer : Z) (start_hpointr : ptr) : M (ptr * Z) :=
  let size := Z.shiftr size_d_layer 1 in
  let level := shift_level size in
  if size =? 1 then
    a_layer ← calloc 1 zero_layer_hp;
    update a_layer (set_size size) ;;
    update a_layer (set_level level) ;;
    beg_pointer ← calloc size NULL;
    update a_layer (set_main_pointer beg_pointer) ;;
    hp0 ← load start_hpointr;
    hp1 ← load_ix start_hpointr 1;
    node ← create_hpoint_hashG hp0 hp1;
    store beg_pointer node ;;
    mret (a_layer, size)
  else
    a_layer ← calloc 1 zero_layer_hp;
    update a_layer (set_size size) ;;
    beg_pointer ← calloc size NULL;
    update a_layer (set_main_pointer beg_pointer) ;;
    for_ (Z.to_nat size) (fun k =>
      let i := 2 * Z.of_nat k in
      hp0 ← load_ix start_hpointr i;
      hp1 ← load_ix start_hpointr (i + 1);
      node ← create_hpoint_hashG hp0 hp1;
      store_ix beg_pointer (Z.of_nat k) node) ;;
    mret (a_layer, size).

(** [fill_intermediate_levels]: [signed k] runs from [MSG_expt - 2], computed
    in [unsigned long long] and converted, down to 0. *)
Definition fill_intermediate_levels (MSG_expt n_msg : Z) (L_arrays L_arrays_p : ptr) : M Z :=
  let k0 := i32 (u64 (MSG_expt - 2)) in
  for_down (Z.to_nat (k0 + 1)) (fun k n_msg =>
    below ← load_ix (A:=ptr) L_arrays (Z.of_nat k + 1);
    lbelow ← load (A:=layer_hp) below;
    r ← create_a_h_layer n_msg (main_pointer lbelow);
    store_ix L_arrays (Z.of_nat k) r.1 ;;
    l ← load (A:=layer_hp) r.1;
    store_ix L_arrays_p (Z.of_nat k) l ;;
    mret r.2) n_msg.

(** [get_a_hashes_Hnode]: the first node of layer [N]; its hash is the node's
    own address, the side hashes are its child pointers. *)
Definition get_a_hashes_Hnode (a_layer : ptr) (N : Z) : M hashes_hashNode :=
  lp ← load_ix (A:=ptr) a_layer N;
  l ← load (A:=layer_hp) lp;
  node ← load (A:=ptr) (main_pointer l);
  hp ← load (A:=hash_point) node;
  h1 ← determinate (get_hpoint1 (hp_u hp));
  h2 ← determinate (get_hpoint2 (hp_u hp));
  mret (HashesHashNode node h1 h2).

(** [process_s_messagesV2]: the base layer over an array of message pointers. *)
Definition process_s_messagesV2 (s_msgN : Z) (star_msg : ptr) : M ptr :=
  let s_msgN := Z.shiftr s_msgN 1 in
  a_layer ← calloc 1 zero_layer_hp;
  update a_layer (set_size s_msgN) ;;
  let level := shift_level s_msgN in
  update a_layer (set_level level) ;;
  beg_pointer ← calloc s_msgN NULL;
  update a_layer (set_main_pointer beg_pointer) ;;
  for_ (Z.to_nat s_msgN) (fun k =>
    let i := 2 * Z.of_nat k in
    m0 ← load_ix star_msg i;
    m1 ← load_ix star_msg (i + 1);
    node ← create_hpoint_message m0 m1;
    store_ix beg_pointer (Z.of_nat k) node) ;;
  mret a_layer.

Definition get_s_msg_from_L0 (L0 : ptr) (n : Z) : M msg_link :=
  l ← load (A:=layer_hp) L0;
  if n >=? lay_size l then mret (MsgLink NULL NULL) else
  node ← load_ix (A:=ptr) (main_pointer l) n;
  hp ← load (A:=hash_point) node;
  ms ← determinate (get_messages (hp_u hp));
  mret (MsgLink (smsg_p1 ms) (smsg_p2 ms)).

Definition destoroy_a_layer (some_layer : ptr) : M unit :=
  l ← load (A:=layer_hp) some_layer;
  for_ (Z.to_nat (lay_size l)) (fun i =>
    node ← load_ix (A:=ptr) (main_pointer l) (Z.of_nat i);
    free node) ;;
  free (main_pointer l) ;;
  free some_layer.

End layering.

(** ** What a layer is in the heap *)

(** The blocks of a layer: the struct, the pointer array, the nodes. *)
Record lay_id := LayId { li_struct : positive; li_arr : positive; li_nodes : list positive }.

Definition li_blocks (l : lay_id) : list positive := li_struct l :: li_arr l :: li_nodes l.

Definition ptrs (qs : list positive) : list ptr := (fun q => Ptr q 0) <$> qs.

(** The node at position [k] of a layer. *)
Definition node_ptr (l : lay_id) (k : nat) : ptr :=
  match li_nodes l !! k with Some q => Ptr q 0 | None => NULL end.

(** The layer [l] of [n] nodes is in heap [h], its [k]-th node is [hp k]. *)
Record layer_rep (h : gmap positive block) (l : lay_id) (n : nat) (level : Z)
    (hp : nat -> hash_point) : Prop := LayerRep {
  lr_struct : h !! li_struct l = Some (BLayers [LayerHp (Ptr (li_arr l) 0) (Z.of_nat n) level]);
  lr_arr : h !! li_arr l = Some (BPtrs (ptrs (li_nodes l)));
  lr_len : length (li_nodes l) = n;
  lr_node k q : li_nodes l !! k = Some q -> h !! q = Some (BHps [hp k]) }.

Lemma layer_rep_grows m m' F W l n lv hp :
  wf m -> grows m m' F W -> (forall b, b ∈ li_blocks l -> b ∉ W) ->
  layer_rep (heap m) l n lv hp -> layer_rep (heap m') l n lv hp.
Proof.
  intros Hwf Hg HW []. split; [| |done|].
  1-2: eapply grows_old; [done..| |done]; apply HW; set_solver.
  intros k q Hq. eapply grows_old; [done..| |by apply lr_node0].
  apply HW. apply list_elem_of_lookup_2 in Hq. set_solver.
Qed.

Lemma layer_rep_ext h l n lv hp hp' :
  layer_rep h l n lv hp -> (forall k, (k < n)%nat -> hp k = hp' k) -> layer_rep h l n lv hp'.
Proof.
  intros [] Heq. split; try done. intros k q Hq.
  rewrite <-Heq by (apply lookup_lt_Some in Hq; lia). auto.
Qed.

Lemma node_ptr_lt l k : (k < length (li_nodes l))%nat ->
  exists q, li_nodes l !! k = Some q /\ node_ptr l k = Ptr q 0.
Proof.
  intros [q Hq]%lookup_lt_is_Some. exists q. unfold node_ptr. by rewrite Hq.
Qed.

Lemma lookup_ptrs qs k : ptrs qs !! k = (fun q => Ptr q 0) <$> qs !! k.
Proof. apply list_lookup_fmap. Qed.

Lemma layer_rep_lookup h l n lv hp k :
  layer_rep h l n lv hp -> (k < n)%nat ->
  exists q, node_ptr l k = Ptr q 0 /\ ptrs (li_nodes l) !! k = Some (node_ptr l k) /\
            h !! q = Some (BHps [hp k]).
Proof.
  intros [] Hk. destruct (node_ptr_lt l k) as (q & Hq & Hp); [lia|].
  exists q. rewrite Hp, lookup_ptrs, Hq. auto.
Qed.

(** ** The loop that builds the nodes of a layer

    [mk k] allocates the [k]-th node and leaves the rest of the heap alone; the
    loop stores its pointer in the array. *)
Section fill.
Context (arr : positive) (n : nat) (mk : nat -> M ptr) (hp : nat -> hash_point) (m0 : mem).

Definition mk_ok (c : nat) : Prop := forall k m,
  (k < c)%nat -> wf m -> (next m0 <= next m)%positive ->
  (forall b, (b < next m0)%positive -> b <> arr -> heap m !! b = heap m0 !! b) ->
  exists q m', mk k m = Ok (Ptr q 0, m') /\ heap m' = <[q := BHps [hp k]]> (heap m) /\
    (next m <= q < next m')%positive /\ wf m' /\ rng m' = rng m /\ ticks m' = ticks m.

Definition fill_inv (j : nat) (m : mem) : Prop := exists qs,
  length qs = j /\ NoDup qs /\
  heap m !! arr = Some (BPtrs (ptrs qs ++ replicate (n - j) NULL)) /\
  (forall k q, qs !! k = Some q -> heap m !! q = Some (BHps [hp k])) /\
  grows m0 m qs [arr].

(** The nodes so far and the new one are where they should be. *)
Lemma fill_nodes qs q j m m1 blk :
  length qs = j -> grows m0 m qs [arr] -> (arr < next m0)%positive -> (next m <= q)%positive ->
  (forall k q, qs !! k = Some q -> heap m !! q = Some (BHps [hp k])) ->
  heap m1 = <[q := BHps [hp j]]> (heap m) ->
  forall k q', (qs ++ [q]) !! k = Some q' -> <[arr := blk]> (heap m1) !! q' = Some (BHps [hp k]).
Proof.
  intros Hl Hg Harr Hq Hnodes Hh1 k q'. pose proof (g_next _ _ _ _ Hg).
  rewrite lookup_app_Some. intros [Hk|[Hk Hk2]].
  - assert (q' ∈ qs) as Hin by by eapply list_elem_of_lookup_2. apply (g_range _ _ _ _ Hg) in Hin as Hrg.
    rewrite lookup_insert_ne, Hh1, lookup_insert_ne by lia. by apply Hnodes.
  - apply list_lookup_singleton_Some in Hk2 as [Hz <-].
    replace k with j by lia. rewrite lookup_insert_ne by lia. rewrite Hh1. apply lookup_insert_eq.
Qed.

Lemma fill_step c j m :
  (arr < next m0)%positive -> mk_ok c -> (j < c)%nat -> (j < n)%nat -> fill_inv j m ->
  wp (node ← mk j; store_ix (Ptr arr 0) (Z.of_nat j) node) (fun _ m' => fill_inv (S j) m') m.
Proof.
  intros Harr Hmk Hc Hj (qs & Hl & Hnd & Hm & Hnodes & Hg).
  destruct (Hmk j m) as (q & m1 & Hrun & Hh1 & Hq & Hwf1 & Hr & Ht); [done|by eapply g_wf|by eapply g_next| |].
  { intros b Hb Hne. apply (g_frame _ _ _ _ Hg); [|by rewrite list_elem_of_singleton].
    intros Hin%(g_range _ _ _ _ Hg). lia. }
  pose proof (g_next _ _ _ _ Hg) as Hn.
  assert (heap m1 !! arr = Some (BPtrs (ptrs qs ++ replicate (n - j) NULL))) as Hm1
    by (rewrite Hh1, lookup_insert_ne by lia; done).
  assert (length (ptrs qs) = j) as Hlp by (unfold ptrs; rewrite length_fmap; done).
  destruct (n - j)%nat as [|r] eqn:Er; [lia|].
  apply wp_bind. eapply wp_run; [exact Hrun|]. unfold store_ix. mem_cbn. rewrite Z.add_0_l.
  eapply wp_store; [exact Hm1| |].
  { rewrite zlookup_of_nat, lookup_app_r, Hlp, Nat.sub_diag by lia. done. }
  assert (grows m m1 [q] []) as Hg1.
  { split; try done; [lia| |].
    - intros b ->%list_elem_of_singleton. lia.
    - intros b Hb _. rewrite Hh1, lookup_insert_ne; [done|]. intros ->. by apply Hb, list_elem_of_singleton. }
  exists (qs ++ [q]). split_and!.
  - rewrite length_app. cbn. lia.
  - eapply (grows_NoDup _ _ _ _ _ _ _ Hg Hg1); [done|apply NoDup_singleton].
  - cbn [heap]. rewrite lookup_insert_eq, Nat2Z.id, insert_app_r_alt by lia.
    rewrite Hlp, Nat.sub_diag. unfold ptrs. rewrite fmap_app, <-app_assoc. cbn.
    replace (n - S j)%nat with r by lia. done.
  - cbn [heap]. eapply fill_nodes; [exact Hl|exact Hg|done|lia|done|done].
  - eapply grows_weaken; [eapply grows_trans; [exact Hg|]; eapply grows_trans; [exact Hg1|]; by eapply grows_write|..].
    + intros b. by rewrite app_nil_r.
    + intros b. cbn. rewrite !elem_of_cons. tauto.
Qed.

Lemma fill_inv_0 : wf m0 -> heap m0 !! arr = Some (BPtrs (replicate n NULL)) -> fill_inv 0 m0.
Proof.
  intros Hwf0 Ha. exists []. rewrite Nat.sub_0_r. split_and!; [done|constructor|done|done|].
  eapply grows_weaken; [by apply grows_refl|done|intros b Hb; by apply not_elem_of_nil in Hb].
Qed.

Lemma wp_fill :
  wf m0 -> (arr < next m0)%positive ->
  heap m0 !! arr = Some (BPtrs (replicate n NULL)) -> mk_ok n ->
  wp (for_ n (fun k => node ← mk k; store_ix (Ptr arr 0) (Z.of_nat k) node))
     (fun _ m => fill_inv n m) m0.
Proof.
  intros Hwf0 Harr Ha Hmk. apply (wp_for fill_inv); [by apply fill_inv_0|].
  intros j m Hj Hinv. by apply (fill_step n).
Qed.

(** A node that cannot be made stops the loop. *)
Lemma fill_fault c f :
  wf m0 -> (arr < next m0)%positive -> (c < n)%nat ->
  heap m0 !! arr = Some (BPtrs (replicate n NULL)) -> mk_ok c ->
  (forall m, wf m -> (next m0 <= next m)%positive ->
     (forall b, (b < next m0)%positive -> b <> arr -> heap m !! b = heap m0 !! b) -> mk c m = Fault f) ->
  for_ n (fun k => node ← mk k; store_ix (Ptr arr 0) (Z.of_nat k) node) m0 = Fault f.
Proof.
  intros Hwf0 Harr Hc Ha Hmk Hf. apply (for_fault fill_inv _ _ c); [by apply fill_inv_0| |done|].
  - intros j m Hj Hinv. apply (fill_step c); [done|done|done|lia|done].
  - intros m (qs & _ & _ & _ & _ & Hg). apply bind_fault, Hf; [by eapply g_wf|by eapply g_next|].
    intros b Hb Hne. apply (g_frame _ _ _ _ Hg); [|by rewrite list_elem_of_singleton].
    intros Hin%(g_range _ _ _ _ Hg). lia.
Qed.
End fill.

(** The form both constructors have: two pointers are fetched, a node is made
    of them, its pointer is stored. *)
Lemma wp_fill_pairs arr n (g0 g1 : nat -> M ptr) (f : ptr -> ptr -> M ptr) hp m0 :
  wf m0 -> (arr < next m0)%positive ->
  heap m0 !! arr = Some (BPtrs (replicate n NULL)) ->
  mk_ok arr (fun k => x ← g0 k; y ← g1 k; f x y) hp m0 n ->
  wp (for_ n (fun k => x ← g0 k; y ← g1 k; node ← f x y; store_ix (Ptr arr 0) (Z.of_nat k) node))
     (fun _ m => fill_inv arr n hp m0 n m) m0.
Proof.
  intros Hwf Harr Ha Hmk.
  eapply wp_ext; [|by apply (wp_fill _ _ (fun k => x ← g0 k; y ← g1 k; f x y))].
  intros m. apply for_ext. intros k m'. rewrite bind_assoc. apply bind_ext. intros x m''.
  by rewrite bind_assoc.
Qed.

(** ** Specifications of the layer constructors *)
Section specs.
Context {sod : Sodium} {ok : SodiumOk sod}.

(** The node over children [p] and [q] with hashes [a] and [b]. *)
Definition inner_hp (p q : ptr) (a b : list byte) : hash_point :=
  HashPoint (hash_pair a b) (U_hpoints p q) 1.

(** The node over two messages [a] and [b] at [p] and [q]. *)
Definition base_hp (p q : ptr) (a b : list byte) : hash_point :=
  let h1 := crypto_generichash a in
  let h2 := crypto_generichash b in
  HashPoint (hash_pair h1 h2) (U_messages (Smgs2 p h1 q h2)) 0.

(** The nodes built over layer [l], whose [k]-th node is [hp k]. *)
Definition above_hp (l : lay_id) (hp : nat -> hash_point) (k : nat) : hash_point :=
  inner_hp (node_ptr l (2 * k)) (node_ptr l (2 * k + 1))
    (hp_hash (hp (2 * k)%nat)) (hp_hash (hp (2 * k + 1)%nat)).

(** A built layer: its blocks are new, everything else is as before. *)
Definition layer_built (m m' : mem) (l : lay_id) (n : nat) (level : Z) (hp : nat -> hash_point) : Prop :=
  layer_rep (heap m') l n level hp /\ NoDup (li_blocks l) /\ grows m m' (li_blocks l) [].

(** From the state where the struct and the empty array exist, the fill loop
    completes the layer. *)
Lemma fill_layer_built m st ar n level hp m1 m' :
  wf m -> st = next m -> ar = Pos.succ st ->
  heap m1 = <[ar := BPtrs (replicate n NULL)]>
             (<[st := BLayers [LayerHp (Ptr ar 0) (Z.of_nat n) level]]> (heap m)) ->
  next m1 = Pos.succ ar -> rng m1 = rng m -> ticks m1 = ticks m ->
  fill_inv ar n hp m1 n m' ->
  exists l, li_struct l = st /\ layer_built m m' l n level hp.
Proof.
  intros Hwf Hst Har Hh Hn Hr Ht (qs & Hl & Hnd & Ha & Hnodes & Hg).
  exists (LayId st ar qs). split; [done|]. unfold layer_built.
  assert (forall q, q ∈ qs -> (Pos.succ ar <= q)%positive) as Hq.
  { intros q Hq%(g_range _ _ _ _ Hg). lia. }
  split_and!.
  - split; simpl; [| |done|done].
    + rewrite (g_frame _ _ _ _ Hg); [|intros Hin%Hq; lia|set_solver by lia].
      rewrite Hh, lookup_insert_ne, lookup_insert_eq by lia. done.
    + rewrite Ha, Nat.sub_diag, app_nil_r. done.
  - unfold li_blocks. cbn [li_struct li_arr li_nodes].
    rewrite !NoDup_cons, not_elem_of_cons. split_and!; [lia| | |done]; intros Hin%Hq; lia.
  - unfold li_blocks. cbn [li_struct li_arr li_nodes]. destruct Hg as [Gn Gr Gf Gw Grg Gt]. split; try done; [lia| | |congruence|congruence].
    + intros b. rewrite !elem_of_cons. intros [->|[->|Hin%Gr]]; lia.
    + intros b Hb _. rewrite !not_elem_of_cons in Hb. destruct Hb as (? & ? & ?).
      rewrite Gf, Hh, !lookup_insert_ne by set_solver. done.
Qed.

(** An array [a] of [n] pointers to live messages: the [i]-th points to
    [mp i], whose buffer holds [mb i]. *)
Definition msgs_at (h : gmap positive block) (a : positive) (n : nat)
    (mp : nat -> ptr) (mb : nat -> list byte) : Prop :=
  exists ps, h !! a = Some (BPtrs ps) /\
    forall i, (i < n)%nat -> ps !! i = Some (mp i) /\ exists sm, msg_at h (mp i) sm (mb i).

(** The nodes of the base layer over those messages. *)
Definition base_hps (mp : nat -> ptr) (mb : nat -> list byte) (k : nat) : hash_point :=
  base_hp (mp (2 * k)%nat) (mp (2 * k + 1)%nat) (mb (2 * k)%nat) (mb (2 * k + 1)%nat).

(** The [k]-th node of the base layer. *)
Definition mk_base (a : ptr) (k : nat) : M ptr :=
  x ← load_ix a (2 * Z.of_nat k);
  y ← load_ix a (2 * Z.of_nat k + 1);
  create_hpoint_message x y.

Lemma mk_base_load a ps k p0 p1 m :
  heap m !! a = Some (BPtrs ps) -> ps !! (2 * k)%nat = Some p0 -> ps !! (2 * k + 1)%nat = Some p1 ->
  mk_base (Ptr a 0) k m = create_hpoint_message p0 p1 m.
Proof.
  intros Ha H0 H1. unfold mk_base.
  erewrite bind_ok by (eapply load_ix_ptr; [exact Ha|lia|replace (Z.to_nat _) with (2 * k)%nat by lia; exact H0]).
  erewrite bind_ok by (eapply load_ix_ptr; [exact Ha|lia|replace (Z.to_nat _) with (2 * k + 1)%nat by lia; exact H1]).
  done.
Qed.

Lemma mk_base_ok a ps c mp mb m m1 arr :
  wf m -> heap m !! a = Some (BPtrs ps) ->
  (forall i, (i < 2 * c)%nat -> ps !! i = Some (mp i) /\ exists sm, msg_at (heap m) (mp i) sm (mb i)) ->
  (next m <= arr)%positive ->
  (forall b, (b < next m)%positive -> heap m1 !! b = heap m !! b) -> (next m <= next m1)%positive ->
  mk_ok arr (mk_base (Ptr a 0)) (base_hps mp mb) m1 c.
Proof.
  intros Hwf Ha Hmsg Harr Hold1 Hn1 k m2 Hk Hwf2 Hnext Hold. pose proof (wf_lt _ _ _ Hwf Ha) as Hlt.
  assert (forall b, (b < next m)%positive -> heap m2 !! b = heap m !! b) as Hold'.
  { intros b Hb. rewrite Hold by lia. auto. }
  destruct (Hmsg (2 * k)%nat) as [Hp0 [sm0 Hm0]]; [lia|].
  destruct (Hmsg (2 * k + 1)%nat) as [Hp1 [sm1 Hm1]]; [lia|].
  rewrite <-Hold' in Ha by done. do 2 eexists. split.
  { rewrite (mk_base_load _ _ _ _ _ _ Ha Hp0 Hp1).
    eapply create_hpoint_message_run; [done|by eapply (msg_at_old m)..]. }
  split_and!; cbn [heap next rng ticks]; [done|lia|lia|solve_wf|done|done].
Qed.

(** The state in which the loop of [process_s_messagesV2] starts, and the rest
    of the function as that loop. *)
Definition base_start (m : mem) (n : nat) : mem :=
  Mem (<[Pos.succ (next m) := BPtrs (replicate n NULL)]>
        (<[next m := BLayers [LayerHp (Ptr (Pos.succ (next m)) 0) (Z.of_nat n) (Z.log2 (Z.of_nat n))]]> (heap m)))
    (Pos.succ (Pos.succ (next m))) (rng m) (ticks m).

Lemma process_s_messagesV2_loop p n m :
  (0 < n)%nat -> Z.of_nat n < 2 ^ 64 ->
  process_s_messagesV2 (Z.of_nat (2 * n)) p m =
    (for_ n (fun k => node ← mk_base p k; store_ix (Ptr (Pos.succ (next m)) 0) (Z.of_nat k) node) ;;
     mret (Ptr (next m) 0)) (base_start m n).
Proof.
  intros Hn Hn64. unfold process_s_messagesV2. rewrite shiftr_double. cbv zeta.
  rewrite shift_level_log2, Nat2Z.id by lia.
  unfold calloc. erewrite bind_ok by reflexivity. mem_cbn.
  do 2 (erewrite bind_ok by (eapply (update_run (H:=storable_layer)); [by heap_simpl|reflexivity]); mem_cbn).
  erewrite bind_ok by reflexivity. mem_cbn.
  erewrite bind_ok by (eapply (update_run (H:=storable_layer)); [by heap_simpl|reflexivity]). mem_cbn.
  match goal with |- _ ?m1 = _ => assert (m1 = base_start m n) as -> end.
  { unfold base_start. f_equal. rewrite Nat2Z.id. heap_ext. }
  apply bind_ext_l. intros m1. apply for_ext. intros k m2. unfold mk_base.
  rewrite bind_assoc. apply bind_ext. intros x m3. by rewrite bind_assoc.
Qed.

Lemma base_start_wf m n : wf m -> wf (base_start m n).
Proof. intros Hwf. unfold base_start. solve_wf. Qed.

Lemma base_start_old m n b : (b < next m)%positive -> heap (base_start m n) !! b = heap m !! b.
Proof. intros Hb. unfold base_start. by heap_simpl. Qed.

Lemma process_s_messagesV2_spec a n mp mb m :
  wf m -> (0 < n)%nat -> Z.of_nat n < 2 ^ 64 -> msgs_at (heap m) a (2 * n) mp mb ->
  wp (process_s_messagesV2 (Z.of_nat (2 * n)) (Ptr a 0))
    (fun p m' => exists l, p = Ptr (li_struct l) 0 /\
       layer_built m m' l n (Z.log2 (Z.of_nat n)) (base_hps mp mb)) m.
Proof.
  intros Hwf Hn Hn64 (ps & Ha & Hmsg).
  assert (wp (for_ n (fun k => node ← mk_base (Ptr a 0) k; store_ix (Ptr (Pos.succ (next m)) 0) (Z.of_nat k) node) ;;
     mret (Ptr (next m) 0)) (fun p m' => exists l, p = Ptr (li_struct l) 0 /\
       layer_built m m' l n (Z.log2 (Z.of_nat n)) (base_hps mp mb)) (base_start m n)) as (p & m' & Hrun & HQ).
  - apply wp_bind. eapply wp_mono; [apply (wp_fill _ n _ (base_hps mp mb)); [by apply base_start_wf|cbn; lia|apply lookup_insert_eq|]|].
    + eapply mk_base_ok; [done|exact Ha|done|lia|by apply base_start_old|cbn; lia].
    + intros [] m' Hinv. apply wp_ret.
      destruct (fill_layer_built m (next m) (Pos.succ (next m)) n (Z.log2 (Z.of_nat n)) (base_hps mp mb) (base_start m n) m')
        as (l & Hl & Hbuilt); try done. exists l. by rewrite Hl.
  - exists p, m'. split; [|done]. by rewrite process_s_messagesV2_loop.
Qed.

(** A null message pointer: whatever comes before it is hashed, then it is
    dereferenced. *)
Lemma create_hpoint_message_null p q m :
  p = NULL \/ (q = NULL /\ wf m /\ exists sm bs, msg_at (heap m) p sm bs) ->
  create_hpoint_message p q m = Fault NullDeref.
Proof.
  unfold create_hpoint_message, calloc. intros Hpq. erewrite bind_ok by reflexivity. mem_cbn.
  do 2 (erewrite bind_ok by (eapply (update_run (H:=storable_hp)); [by heap_simpl|reflexivity]); mem_cbn).
  destruct Hpq as [-> | (-> & Hwf & sm & bs & (b & i & ms & -> & Hb & Hi) & Hbs)]; [done|].
  pose proof (wf_lt _ _ _ Hwf Hb). erewrite bind_ok.
  2:{ unfold load. rewrite (block_at_ok (H:=storable_msg) _ _ _ ms) by (heap_simpl; exact Hb). by rewrite Hi. }
  erewrite bind_ok.
  2:{ apply calc_hash_run; [solve_wf|]. eapply bytes_at_old; [exact Hwf|exact Hbs|]. intros; by heap_simpl. }
  mem_cbn. erewrite bind_ok by (apply load_bytes_run, bytes_at_all; [apply lookup_insert_eq|by rewrite generichash_length]).
  erewrite bind_ok by (eapply (update_run (H:=storable_hp)); [by heap_simpl|reflexivity]). done.
Qed.

Lemma process_s_messagesV2_null a n j ps mp mb m :
  wf m -> Z.of_nat n < 2 ^ 64 -> heap m !! a = Some (BPtrs ps) -> (2 * n <= length ps)%nat ->
  (forall i, (i < j)%nat -> ps !! i = Some (mp i) /\ exists sm, msg_at (heap m) (mp i) sm (mb i)) ->
  (j < 2 * n)%nat -> ps !! j = Some NULL ->
  process_s_messagesV2 (Z.of_nat (2 * n)) (Ptr a 0) m = Fault NullDeref.
Proof.
  intros Hwf Hn64 Ha Hlen Hmsg Hj Hnull. rewrite process_s_messagesV2_loop by lia. apply bind_fault.
  pose proof (Nat.div_mod_eq j 2) as Hdm. pose proof (Nat.mod_upper_bound j 2 ltac:(lia)) as Hub.
  set (k := (j / 2)%nat) in *. pose proof (wf_lt _ _ _ Hwf Ha) as Hlt.
  apply (fill_fault _ n _ (base_hps mp mb) _ k); [by apply base_start_wf|cbn; lia|lia|apply lookup_insert_eq| |].
  - eapply mk_base_ok; [done|exact Ha|intros i Hi; apply Hmsg; lia|lia|by apply base_start_old|cbn; lia].
  - intros m2 Hwf2 Hn2 Hold.
    assert (forall b, (b < next m)%positive -> heap m2 !! b = heap m !! b) as Hold'.
    { intros b Hb. rewrite Hold by (cbn; lia). by apply base_start_old. }
    destruct (lookup_lt_is_Some_2 ps (2 * k)) as [p0 H0]; [lia|].
    destruct (lookup_lt_is_Some_2 ps (2 * k + 1)) as [p1 H1]; [lia|].
    rewrite <-Hold' in Ha by done. rewrite (mk_base_load _ _ _ _ _ _ Ha H0 H1).
    apply create_hpoint_message_null. destruct (decide (j mod 2 = 0)%nat).
    + left. replace (2 * k)%nat with j in H0 by lia. congruence.
    + right. replace (2 * k + 1)%nat with j in H1 by lia. split; [congruence|]. split; [done|].
      destruct (Hmsg (2 * k)%nat) as [Hp [sm Hsm]]; [lia|]. rewrite H0 in Hp. injection Hp as ->.
      exists sm, (mb (2 * k)%nat). by eapply (msg_at_old m).
Qed.

(** Making the [k]-th node over layer [l] in a later state. *)
Lemma mk_above_ok m m1 arr l n lv hp :
  wf m -> layer_rep (heap m) l (2 * n) lv hp ->
  (forall k, (k < 2 * n)%nat -> length (hp_hash (hp k)) = crypto_generichash_BYTES) ->
  (next m <= arr)%positive ->
  (forall b, (b < next m)%positive -> heap m1 !! b = heap m !! b) -> (next m <= next m1)%positive ->
  mk_ok arr (fun k =>
      x ← load_ix (Ptr (li_arr l) 0) (2 * Z.of_nat k);
      y ← load_ix (Ptr (li_arr l) 0) (2 * Z.of_nat k + 1);
      create_hpoint_hashG x y) (above_hp l hp) m1 n.
Proof.
  intros Hwf Hl Hlen Harr Hold1 Hn1 k m2 Hk Hwf2 Hnext Hold.
  assert (forall b, (b < next m)%positive -> heap m2 !! b = heap m !! b) as Hold'.
  { intros b Hb. rewrite Hold by lia. auto. }
  destruct (layer_rep_lookup _ _ _ _ _ (2 * k) Hl) as (q0 & Hp0 & Ha0 & Hq0); [lia|].
  destruct (layer_rep_lookup _ _ _ _ _ (2 * k + 1) Hl) as (q1 & Hp1 & Ha1 & Hq1); [lia|].
  pose proof (lr_arr _ _ _ _ _ Hl) as Har.
  rewrite <-Hold' in Har, Hq0, Hq1 by by eapply wf_lt.
  do 2 eexists. split.
  { erewrite bind_ok by (eapply load_ix_ptr; [exact Har|lia|by replace (Z.to_nat _) with (2 * k)%nat by lia]).
    erewrite bind_ok by (eapply load_ix_ptr; [exact Har|lia|by replace (Z.to_nat _) with (2 * k + 1)%nat by lia]).
    rewrite Hp0, Hp1. apply create_hpoint_hashG_run;
      [done|apply bytes_at_node; [done|apply Hlen; lia]..|apply Hlen; lia|apply Hlen; lia]. }
  unfold above_hp. rewrite Hp0, Hp1.
  split_and!; cbn [heap next rng ticks]; [done|lia|lia|solve_wf|done|done].
Qed.

Lemma create_a_h_layer_spec l0 n lv hp m :
  wf m -> (0 < n)%nat -> layer_rep (heap m) l0 (2 * n) lv hp ->
  (forall k, (k < 2 * n)%nat -> length (hp_hash (hp k)) = crypto_generichash_BYTES) ->
  wp (create_a_h_layer (Z.of_nat (2 * n)) (Ptr (li_arr l0) 0))
    (fun r m' => r.2 = Z.of_nat n /\ exists l, r.1 = Ptr (li_struct l) 0 /\
       layer_built m m' l n 0 (above_hp l0 hp)) m.
Proof.
  intros Hwf Hn Hl Hlen. unfold create_a_h_layer.
  rewrite shiftr_double.
  set (body := fun k => x ← load_ix (Ptr (li_arr l0) 0) (2 * Z.of_nat k);
    y ← load_ix (Ptr (li_arr l0) 0) (2 * Z.of_nat k + 1);
    node ← create_hpoint_hashG x y; store_ix (Ptr (Pos.succ (next m)) 0) (Z.of_nat k) node).
  assert (forall m1, heap m1 = <[Pos.succ (next m) := BPtrs (replicate n NULL)]>
             (<[next m := BLayers [LayerHp (Ptr (Pos.succ (next m)) 0) (Z.of_nat n) 0]]> (heap m)) ->
    next m1 = Pos.succ (Pos.succ (next m)) -> rng m1 = rng m -> ticks m1 = ticks m ->
    wp (for_ n body ;; mret (Ptr (next m) 0, Z.of_nat n))
      (fun r m' => r.2 = Z.of_nat n /\ exists l, r.1 = Ptr (li_struct l) 0 /\
         layer_built m m' l n 0 (above_hp l0 hp)) m1) as Hfill.
  { intros m1 Hh Hnx Hr Ht. apply wp_bind. eapply wp_mono; [apply (wp_fill_pairs _ n _ _ _ (above_hp l0 hp))|].
    - intros b Hb. rewrite Hh, !lookup_insert_ne by lia. apply Hwf. lia.
    - lia.
    - rewrite Hh. by rewrite lookup_insert_eq.
    - eapply mk_above_ok; [done..|lia| |lia]. intros b Hb. by rewrite Hh, !lookup_insert_ne by lia.
    - intros [] m' Hinv. apply wp_ret. split; [done|].
      eapply fill_layer_built in Hinv as (l & Hs & Hb); [|done..]. exists l. by rewrite Hs. }
  destruct (Z.eqb_spec (Z.of_nat n) 1) as [Hn1|Hn1].
  - assert (n = 1%nat) as -> by lia. change (Z.of_nat 1) with 1 in *. wps. apply wp_unbind.
    eapply wp_ext; [|apply Hfill; cbn [heap next rng ticks]; [heap_ext|done..]].
    intros m2. rewrite (bind_ext_l _ _ _ _ (for_1 _)). subst body. cbn beta.
    rewrite bind_assoc. apply bind_ext. intros x m3.
    rewrite bind_assoc. apply bind_ext. intros y m4. by rewrite bind_assoc.
  - rewrite Nat2Z.id. wps. rewrite Nat2Z.id.
    apply wp_unbind, Hfill; cbn [heap next rng ticks]; [heap_ext|done..].
Qed.
End specs.

(** ** Releasing and reading a layer *)

Lemma layer_rep_old h h' l n lv hp :
  layer_rep h l n lv hp -> (forall b, b ∈ li_blocks l -> h' !! b = h !! b) -> layer_rep h' l n lv hp.
Proof.
  intros [Hs Ha Hl Hn] Heq. split; [rewrite Heq; [done|set_solver]|rewrite Heq; [done|set_solver]|done|].
  intros k q Hq. rewrite Heq; [by apply Hn|]. apply list_elem_of_lookup_2 in Hq. set_solver.
Qed.

Lemma layer_rep_released m m' B l n lv hp :
  released m m' B -> (forall b, b ∈ li_blocks l -> b ∉ B) ->
  layer_rep (heap m) l n lv hp -> layer_rep (heap m') l n lv hp.
Proof.
  intros Hr HB Hl. eapply layer_rep_old; [exact Hl|]. intros b Hb. rewrite (r_heap _ _ _ Hr), decide_False by by apply HB. done.
Qed.

(** [destoroy_a_layer] frees the nodes, the array and the struct, each once. *)
Lemma destoroy_a_layer_spec l n lv hp m :
  layer_rep (heap m) l n lv hp -> NoDup (li_blocks l) ->
  wp (destoroy_a_layer (Ptr (li_struct l) 0)) (fun _ m' => released m m' (li_blocks l)) m.
Proof.
  intros Hl Hnd. unfold li_blocks in Hnd. rewrite !NoDup_cons, not_elem_of_cons in Hnd.
  destruct Hnd as ([Hsa Hsn] & Han & Hnd). pose proof Hl as [Hs Ha Hlen Hnode].
  unfold destoroy_a_layer. apply wp_bind. eapply wp_load; [exact Hs|done|].
  cbn [lay_size main_pointer]. rewrite Nat2Z.id. apply wp_bind. eapply wp_mono.
  - apply (wp_for (fun j m' => released m m' (take j (li_nodes l)))); [apply released_nil|].
    intros j m1 Hj Hr. destruct (lookup_lt_is_Some_2 (li_nodes l) j) as [q Hq]; [lia|].
    assert (q ∉ take j (li_nodes l)) as Hfresh.
    { intros (i & Hi & Hij)%elem_of_take. pose proof (NoDup_lookup _ _ _ _ Hnd Hi Hq). lia. }
    apply wp_bind. eapply wp_run.
    { eapply load_ix_ptr; [rewrite (r_heap _ _ _ Hr), decide_False; [exact Ha|]|lia|].
      - intros (i & Hi & _)%elem_of_take. apply Han. by eapply list_elem_of_lookup_2.
      - rewrite Nat2Z.id, lookup_ptrs, Hq. done. }
    eapply wp_mono; [eapply wp_free_released; rewrite (r_heap _ _ _ Hr), decide_False by done; by apply Hnode|].
    intros [] m2 Hr2. erewrite take_S_r by exact Hq. by eapply released_trans.
  - intros [] m1 Hr. rewrite take_ge in Hr by lia. apply wp_bind.
    eapply wp_mono; [eapply wp_free_released; rewrite (r_heap _ _ _ Hr), decide_False by done; exact Ha|].
    intros [] m2 Hr2. eapply wp_mono; [eapply wp_free_released|].
    + rewrite (r_heap _ _ _ Hr2), decide_False, (r_heap _ _ _ Hr), decide_False by set_solver. exact Hs.
    + intros [] m3 Hr3. eapply released_weaken; [eapply released_trans; [exact Hr|]; by eapply released_trans|].
      intros b. unfold li_blocks. set_solver.
Qed.
