(* ===== verification/MerkleTree.v ===== *)
(** * The Merkle tree as a whole

    The reference tree, the shape the layer builders leave in the heap, and
    the two functions that build a tree over a block of messages:
    [calc_merkle_tree] of the server (sources/networking/connection_handlers.c)
    and [calc_merkle_tree] of the client (sources/client/block_process.c). *)

From S2P Require Import Prelude.
From S2P Require Import CTypes.
From S2P Require Import Memory.
From S2P Require Import Platform.
From S2P Require Import Accounts.
From S2P Require Import Hashing.
From S2P Require Import Layering.

(** ** The reference: a textbook Merkle tree *)
Section reference.
Context {sod : Sodium}.

(** The root over [2^d] leaf hashes: split in halves, hash the two roots. *)
Fixpoint merkle_root (d : nat) (leaves : list (list byte)) : list byte :=
  match d with
  | O => match leaves with l :: _ => l | [] => [] end
  | S d => hash_pair (merkle_root d (take (2 ^ d) leaves)) (merkle_root d (drop (2 ^ d) leaves))
  end.

(** The hash at position [j] of the layer [d] steps above the base, when the
    leaf hashes are [lf 0], [lf 1], ... *)
Fixpoint node_hash (lf : nat -> list byte) (d j : nat) : list byte :=
  match d with
  | O => hash_pair (lf (2 * j)%nat) (lf (2 * j + 1)%nat)
  | S d => hash_pair (node_hash lf d (2 * j)) (node_hash lf d (2 * j + 1))
  end.

(** The nodes [d] steps above the base; [T d] names the layer's blocks. *)
Fixpoint level_hps (T : nat -> lay_id) (mp : nat -> ptr) (mb : nat -> list byte) (d : nat) :
    nat -> hash_point :=
  match d with
  | O => base_hps mp mb
  | S d => above_hp (T d) (level_hps T mp mb d)
  end.

(** The [level] field: set for the base layer only (the root's is 0 anyway). *)
Definition level_field (E d : nat) : Z := match d with O => Z.of_nat (E - 1) | S _ => 0 end.

(** The struct of the layer [d] steps above the base of a tree over [2^E]
    messages. *)
Definition layer_struct (E : nat) (T : nat -> lay_id) (d : nat) : layer_hp :=
  LayerHp (Ptr (li_arr (T d)) 0) (Z.of_nat (2 ^ (E - 1 - d))) (level_field E d).

(** Layers [0 .. c-1] above the base are in the heap. *)
Definition layers_rep (h : gmap positive block) (E : nat) (T : nat -> lay_id)
    (mp : nat -> ptr) (mb : nat -> list byte) (c : nat) : Prop :=
  forall d, (d < c)%nat ->
    layer_rep h (T d) (2 ^ (E - 1 - d)) (level_field E d) (level_hps T mp mb d).

(** The arrays [L_arrays] (of struct pointers) and [L_arrays_p] (of struct
    copies) hold those layers, the root at index 0. *)
Definition arrays_rep (h : gmap positive block) (E : nat) (T : nat -> lay_id)
    (la lp : positive) (c : nat) : Prop :=
  exists ps ls, h !! la = Some (BPtrs ps) /\ h !! lp = Some (BLayers ls) /\
    (E <= length ps)%nat /\ (E <= length ls)%nat /\
    forall d, (d < c)%nat ->
      ps !! (E - 1 - d)%nat = Some (Ptr (li_struct (T d)) 0) /\
      ls !! (E - 1 - d)%nat = Some (layer_struct E T d).

(** All blocks of layers [i .. i+c-1]. *)
Definition tree_blocks (T : nat -> lay_id) (i c : nat) : list positive :=
  flat_map (fun d => li_blocks (T d)) (List.seq i c).

End reference.

(** ** The two tree builders *)
Section code.
Context {sod : Sodium}.

(** The sequence both builders share: the base layer, its entry in the two
    arrays, [n_msg >>= 1], the layers above. *)
Definition build_layers (EXPONENT n_msg : Z) (msg_arr L_arrays L_arrays_p : ptr) : M Z :=
  base ← process_s_messagesV2 n_msg msg_arr;
  store_ix L_arrays (EXPONENT - 1) base ;;
  l ← load (A:=layer_hp) base;
  store_ix L_arrays_p (EXPONENT - 1) l ;;
  let n_msg := Z.shiftr n_msg 1 in
  fill_intermediate_levels EXPONENT n_msg L_arrays L_arrays_p.

(** The server's [calc_merkle_tree] with its constant [EXPONENT] as a
    parameter.  Its arrays [L_arrays] and [L_arrays_p] live on the stack: they
    are blocks released on return.  The result is the 32 bytes it prints. *)
Definition server_calc_merkle_tree_exp (EXPONENT : Z) (msg_pointer : ptr) : M (list byte) :=
  let n_msg := u64 (Z.shiftl 1 EXPONENT) in
  L_arrays ← calloc EXPONENT NULL;
  L_arrays_p ← calloc EXPONENT zero_layer_hp;
  msg_arr ← calloc n_msg NULL;
  for_ (Z.to_nat n_msg) (fun i =>
    p ← load_ix (A:=ptr) msg_pointer (Z.of_nat i);
    store_ix msg_arr (Z.of_nat i) p) ;;
  build_layers EXPONENT n_msg msg_arr L_arrays L_arrays_p ;;
  l0 ← load_ix (A:=ptr) L_arrays 0;
  ly ← load (A:=layer_hp) l0;
  node ← load (A:=ptr) (main_pointer ly);
  root ← load_bytes node crypto_generichash_BYTES;
  for_ (Z.to_nat EXPONENT) (fun i =>
    p ← load_ix (A:=ptr) L_arrays (Z.of_nat i);
    destoroy_a_layer p) ;;
  free msg_arr ;;
  free L_arrays ;;
  free L_arrays_p ;;
  mret root.

Definition server_calc_merkle_tree : ptr -> M (list byte) := server_calc_merkle_tree_exp 9.

(** The client's [calc_merkle_tree].  [L_arrays] is allocated with
    [sizeof(layer_hp)] per entry: room for three pointers each. *)
Definition client_calc_merkle_tree (EXPONENT : Z) (msg_pointer : ptr) : M ptr :=
  g_cont ← calloc 1 (LMsgContainer NULL NULL NULL);
  let n_msg := u64 (Z.shiftl 1 EXPONENT) in
  L_arrays ← calloc (3 * EXPONENT) NULL;
  L_arrays_p ← calloc EXPONENT zero_layer_hp;
  msg_arr ← calloc n_msg NULL;
  update g_cont (fun c => LMsgContainer (main_layer_pointer c) (layers_for_destr c) msg_arr) ;;
  update g_cont (fun c => LMsgContainer L_arrays_p (layers_for_destr c) (messages_arr c)) ;;
  update g_cont (fun c => LMsgContainer (main_layer_pointer c) L_arrays (messages_arr c)) ;;
  for_ (Z.to_nat n_msg) (fun i =>
    p ← mret (padd msg_pointer (Z.of_nat i));
    store_ix msg_arr (Z.of_nat i) p) ;;
  build_layers EXPONENT n_msg msg_arr L_arrays L_arrays_p ;;
  mret g_cont.
End code.

Section facts.
Context {sod : Sodium} {ok : SodiumOk sod}.
Implicit Types (T : nat -> lay_id) (mp : nat -> ptr) (mb : nat -> list byte).

Lemma level_hps_hash T mp mb d k :
  hp_hash (level_hps T mp mb d k) = node_hash (fun i => crypto_generichash (mb i)) d k.
Proof. revert k; induction d as [|d IH]; intros k; simpl; [done|]. by rewrite <-!IH. Qed.

Lemma node_hash_length lf d j : length (node_hash lf d j) = crypto_generichash_BYTES.
Proof. destruct d; apply hash_pair_length. Qed.

Lemma level_hps_ext T T' mp mb d k :
  (forall i, (i < d)%nat -> T i = T' i) -> level_hps T mp mb d k = level_hps T' mp mb d k.
Proof.
  revert k; induction d as [|d IH]; intros k HT; simpl; [done|].
  unfold above_hp. rewrite HT, !IH by lia || (intros; apply HT; lia). done.
Qed.

Lemma merkle_root_seq lf d j :
  merkle_root (S d) (lf <$> List.seq (2 ^ S d * j) (2 ^ S d)) = node_hash lf d j.
Proof.
  revert j; induction d as [|d IH]; intros j.
  - cbn [merkle_root node_hash]. change (2 ^ 1)%nat with 2%nat. change (2 ^ 0)%nat with 1%nat.
    cbn. do 2 f_equal; f_equal; lia.
  - cbn [node_hash]. rewrite <-!IH. remember (S d) as e eqn:He. clear He IH.
    cbn [merkle_root]. replace (2 ^ S e)%nat with (2 ^ e + 2 ^ e)%nat by (cbn; lia).
    rewrite List.seq_app, fmap_app.
    rewrite take_app_length', drop_app_length' by by rewrite length_fmap, List.length_seq.
    do 2 f_equal; f_equal; f_equal; lia.
Qed.

(** The layered construction computes the textbook root. *)
Lemma node_hash_root lf E :
  (0 < E)%nat -> node_hash lf (E - 1) 0 = merkle_root E (lf <$> List.seq 0 (2 ^ E)).
Proof.
  intros HE. rewrite <-merkle_root_seq. replace (S (E - 1)) with E by lia.
  by rewrite Nat.mul_0_r.
Qed.

Lemma tree_blocks_S T i c : tree_blocks T i (S c) = tree_blocks T i c ++ li_blocks (T (i + c)%nat).
Proof.
  unfold tree_blocks. rewrite List.seq_S, List.flat_map_app. simpl. by rewrite app_nil_r.
Qed.

Lemma tree_blocks_ext T T' i c :
  (forall d, (i <= d < i + c)%nat -> T d = T' d) -> tree_blocks T i c = tree_blocks T' i c.
Proof.
  induction c as [|c IH]; intros HT; [done|]. rewrite !tree_blocks_S, IH, HT; [done|lia|].
  intros. apply HT. lia.
Qed.

Lemma elem_of_tree_blocks T i c b :
  b ∈ tree_blocks T i c <-> exists d, (i <= d < i + c)%nat /\ b ∈ li_blocks (T d).
Proof.
  induction c as [|c IH].
  - cbn. split; [intros Hb; by apply not_elem_of_nil in Hb|intros (d & Hd & _); lia].
  - rewrite tree_blocks_S, elem_of_app, IH. split.
    + intros [(d & Hd & Hb)|Hb]; [exists d|exists (i + c)%nat]; (split; [lia|done]).
    + intros (d & Hd & Hb). destruct (decide (d = i + c)%nat) as [->|]; [by right|].
      left. exists d. split; [lia|done].
Qed.

(** [signed k = MSG_expt - 2] and the loop's [k >= 0]: [MSG_expt - 1] rounds,
    none for a tree of two messages. *)
Lemma fill_bound E :
  (0 < E < 64)%nat -> Z.to_nat (i32 (u64 (Z.of_nat E - 2)) + 1) = (E - 1)%nat.
Proof.
  intros HE.
  destruct (decide (E = 1%nat)) as [->|]; [done|].
  rewrite u64_small, i32_small by lia. lia.
Qed.

Lemma not_in_pair (b a c : positive) : b <> a /\ b <> c -> b ∉ [a; c].
Proof. intros [? ?]. rewrite !not_elem_of_cons. by split_and!; [..|apply not_elem_of_nil]. Qed.

(** Two writes to older blocks. *)
Lemma grows_write2 m a c va vc va' vc' :
  wf m -> a <> c -> heap m !! a = Some va -> heap m !! c = Some vc ->
  grows m (Mem (<[c := vc']> (<[a := va']> (heap m))) (next m) (rng m) (ticks m)) [] [a; c].
Proof.
  intros Hwf Hne Ha Hc. assert (grows m (Mem (<[a := va']> (heap m)) (next m) (rng m) (ticks m)) [] [a]) as Ga
    by by eapply grows_write.
  change [a; c] with ([a] ++ [c]). change (@nil positive) with (@nil positive ++ []).
  eapply grows_trans; [exact Ga|]. eapply (grows_write (Mem _ _ _ _)); [exact (g_wf _ _ _ _ Ga)|].
  cbn [heap]. by rewrite lookup_insert_ne.
Qed.

(** One layer more in the two arrays. *)
Lemma arrays_rep_insert h E T T' la lp ps ls c k ly :
  la <> lp -> (c < E)%nat -> k = (E - 1 - c)%nat -> (E <= length ps)%nat -> (E <= length ls)%nat ->
  (forall i, (i < c)%nat -> ps !! (E - 1 - i)%nat = Some (Ptr (li_struct (T i)) 0) /\
     ls !! (E - 1 - i)%nat = Some (layer_struct E T i)) ->
  (forall i, (i < c)%nat -> T' i = T i) -> ly = layer_struct E T' c ->
  arrays_rep (<[lp := BLayers (<[k := ly]> ls)]> (<[la := BPtrs (<[k := Ptr (li_struct (T' c)) 0]> ps)]> h)) E T' la lp (S c).
Proof.
  intros Hne Hc -> Hp Hl Hold HT ->.
  exists (<[(E - 1 - c)%nat := Ptr (li_struct (T' c)) 0]> ps), (<[(E - 1 - c)%nat := layer_struct E T' c]> ls).
  rewrite !length_insert. split_and!; [..|done|done|].
  - rewrite lookup_insert_ne by done. apply lookup_insert_eq.
  - apply lookup_insert_eq.
  - intros i Hi. destruct (decide (i = c)) as [->|Hic].
    + by rewrite !list_lookup_insert_eq by lia.
    + rewrite !list_lookup_insert_ne by lia. unfold layer_struct. rewrite HT by lia. apply Hold. lia.
Qed.

(** The three statements by which both builders enter a layer in the arrays. *)
Lemma wp_enter_layer {A} k la lp ps ls st ly (rest : M A) Q m :
  heap m !! la = Some (BPtrs ps) -> heap m !! lp = Some (BLayers ls) -> (k < length ps)%nat -> (k < length ls)%nat ->
  la <> lp -> st <> la -> heap m !! st = Some (BLayers [ly]) ->
  wp rest Q (Mem (<[lp := BLayers (<[k := ly]> ls)]> (<[la := BPtrs (<[k := Ptr st 0]> ps)]> (heap m))) (next m) (rng m) (ticks m)) ->
  wp (store_ix (Ptr la 0) (Z.of_nat k) (Ptr st 0) ;; l ← load (A:=layer_hp) (Ptr st 0);
      store_ix (Ptr lp 0) (Z.of_nat k) l ;; rest) Q m.
Proof.
  intros Hps Hls Hkp Hkl Hne Hst Hly Hrest.
  destruct (lookup_lt_is_Some_2 ps k Hkp) as [pk Hpk]. destruct (lookup_lt_is_Some_2 ls k Hkl) as [lk Hlk].
  unfold store_ix. mem_cbn. rewrite Z.add_0_l.
  apply wp_bind. eapply (wp_store (H:=storable_ptr)); [exact Hps|by rewrite zlookup_of_nat|].
  apply wp_bind. eapply (wp_load (H:=storable_layer)); [cbn [heap]; rewrite lookup_insert_ne by done; exact Hly|done|].
  apply wp_bind. eapply (wp_store (H:=storable_layer)); [cbn [heap]; rewrite lookup_insert_ne by done; exact Hls|by rewrite zlookup_of_nat|].
  cbn [heap next rng ticks]. by rewrite Nat2Z.id.
Qed.

(** The loop of [fill_intermediate_levels], with [n] layers still to build. *)
Section fill.
Context (E : nat) (la lp : positive) (mp : nat -> ptr) (mb : nat -> list byte) (m0 : mem) (l0 : lay_id).

Definition fill_levels_inv (n : nat) (n_msg : Z) (m : mem) : Prop :=
  n_msg = Z.of_nat (2 ^ n) /\ (n < E)%nat /\ exists T, T 0%nat = l0 /\
    layers_rep (heap m) E T mp mb (E - n) /\ arrays_rep (heap m) E T la lp (E - n) /\
    NoDup (tree_blocks T 1 (E - 1 - n)) /\ grows m0 m (tree_blocks T 1 (E - 1 - n)) [la; lp].

Context (Hne : la <> lp) (Hla : (la < next m0)%positive) (Hlp : (lp < next m0)%positive)
  (Hl0 : forall b, b ∈ li_blocks l0 -> b <> la /\ b <> lp).

Lemma levels_not_arrays T m c :
  T 0%nat = l0 -> grows m0 m (tree_blocks T 1 c) [la; lp] ->
  forall d b, (d < S c)%nat -> b ∈ li_blocks (T d) -> b <> la /\ b <> lp.
Proof.
  intros HT Hg [|d] b Hd Hb; [rewrite HT in Hb; auto|].
  assert (b ∈ tree_blocks T 1 c) as Hin%(g_range _ _ _ _ Hg); [|lia].
  apply elem_of_tree_blocks. exists (S d). split; [lia|done].
Qed.

(** Adding the layer [l] on top of layer [d], recorded at index [k] of the
    arrays. *)
Lemma fill_levels_extend k d T m m1 l ps ls :
  (S k < E)%nat -> d = (E - 2 - k)%nat -> wf m ->
  T 0%nat = l0 -> layers_rep (heap m) E T mp mb (S d) -> arrays_rep (heap m) E T la lp (S d) ->
  NoDup (tree_blocks T 1 d) -> grows m0 m (tree_blocks T 1 d) [la; lp] ->
  layer_built m m1 l (2 ^ k) 0 (above_hp (T d) (level_hps T mp mb d)) ->
  heap m1 !! la = Some (BPtrs ps) -> heap m1 !! lp = Some (BLayers ls) ->
  heap m !! la = heap m1 !! la -> heap m !! lp = heap m1 !! lp ->
  fill_levels_inv k (Z.of_nat (2 ^ k))
    (Mem (<[lp := BLayers (<[k := LayerHp (Ptr (li_arr l) 0) (Z.of_nat (2 ^ k)) 0]> ls)]>
           (<[la := BPtrs (<[k := Ptr (li_struct l) 0]> ps)]> (heap m1)))
       (next m1) (rng m1) (ticks m1)).
Proof.
  intros Hk Hd Hwf HT0 Hlay Harr Hnd Hg (Hrep & Hndl & Hgl) Hps Hls Eps Els.
  set (T' := fun i => if decide (i = S d) then l else T i).
  assert (T' (S d) = l) as HTd by (unfold T'; by rewrite decide_True).
  assert (forall i, (i < S d)%nat -> T' i = T i) as HTi.
  { intros i Hi. unfold T'. by rewrite decide_False by lia. }
  assert (T' 0%nat = l0) as HT0' by (rewrite HTi by lia; done).
  assert (tree_blocks T' 1 (E - 1 - k) = tree_blocks T 1 d ++ li_blocks l) as Hblocks.
  { replace (E - 1 - k)%nat with (S d) by lia. rewrite tree_blocks_S. cbn [Nat.add]. rewrite HTd.
    f_equal. apply tree_blocks_ext. intros. apply HTi. lia. }
  set (m2 := Mem _ _ _ _).
  assert (grows m1 m2 [] [la; lp]) as Hg2.
  { eapply grows_write2; [exact (g_wf _ _ _ _ Hgl)|done|exact Hps|exact Hls]. }
  assert (grows m m2 (li_blocks l) [la; lp]) as Hgm
    by (eapply grows_weaken; [by eapply grows_trans|set_solver|set_solver]).
  assert (grows m0 m2 (tree_blocks T' 1 (E - 1 - k)) [la; lp]) as Hgm0.
  { rewrite Hblocks. eapply grows_weaken; [by eapply grows_trans|done|set_solver]. }
  split; [done|]. split; [lia|]. exists T'. split; [done|].
  replace (E - k)%nat with (S (S d)) by lia. split_and!; [| | |done].
  - intros i Hi. destruct (decide (i = S d)) as [->|Hi'].
    + eapply layer_rep_grows; [exact (g_wf _ _ _ _ Hgl)|exact Hg2| |].
      * intros b Hb Hin. rewrite HTd in Hb. apply (g_range _ _ _ _ Hgl) in Hb.
        pose proof (g_next _ _ _ _ Hg). set_solver by lia.
      * rewrite HTd. replace (E - 1 - S d)%nat with k by lia. cbn [level_field level_hps].
        eapply layer_rep_ext; [exact Hrep|]. intros j Hj. unfold above_hp.
        rewrite HTi, !(level_hps_ext T' T) by lia || (intros; apply HTi; lia). done.
    + specialize (Hlay i ltac:(lia)). rewrite HTi by lia.
      eapply layer_rep_grows; [exact Hwf|exact Hgm| |].
      * intros b Hb Hin. destruct (levels_not_arrays T m d HT0 Hg i b); [lia|done|set_solver].
      * eapply layer_rep_ext; [exact Hlay|]. intros j Hj. symmetry.
        apply level_hps_ext. intros. apply HTi. lia.
  - destruct Harr as (ps' & ls' & Hps' & Hls' & Hlen1 & Hlen2 & Harr).
    rewrite Eps, Hps in Hps'. rewrite Els, Hls in Hls'.
    injection Hps' as <-. injection Hls' as <-.
    unfold m2. cbn [heap]. rewrite <-HTd. eapply arrays_rep_insert; [done|lia|lia|done|done|exact Harr|exact HTi|].
    unfold layer_struct. by replace (E - 1 - S d)%nat with k by lia.
  - rewrite Hblocks. by eapply grows_NoDup.
Qed.

Lemma fill_intermediate_levels_spec :
  wf m0 -> (0 < E < 64)%nat ->
  layer_rep (heap m0) l0 (2 ^ (E - 1)) (level_field E 0) (base_hps mp mb) ->
  arrays_rep (heap m0) E (fun _ => l0) la lp 1 ->
  wp (fill_intermediate_levels (Z.of_nat E) (Z.of_nat (2 ^ (E - 1))) (Ptr la 0) (Ptr lp 0))
     (fun r m => fill_levels_inv 0 r m) m0.
Proof.
  intros Hwf HE Hrep Harr. unfold fill_intermediate_levels. cbv zeta.
  rewrite fill_bound by done. apply (wp_for_down fill_levels_inv).
  - split; [done|]. split; [lia|]. exists (fun _ => l0). split; [done|].
    replace (E - (E - 1))%nat with 1%nat by lia. rewrite Nat.sub_diag. split_and!; [|done|constructor|].
    + intros d Hd. assert (d = 0%nat) as -> by lia. rewrite Nat.sub_0_r. done.
    + eapply grows_weaken; [by apply grows_refl|done|set_solver].
  - intros k n_msg m Hk (-> & _ & T & HT0 & Hlay & Ha & Hnd & Hg).
    set (d := (E - 2 - k)%nat) in *.
    replace (E - 1 - S k)%nat with d in * by lia. replace (E - S k)%nat with (S d) in * by lia.
    pose proof (g_wf _ _ _ _ Hg) as Hwfm. pose proof (Hlay d ltac:(lia)) as Hd.
    replace (E - 1 - d)%nat with (S k) in Hd by lia.
    pose proof Ha as (ps & ls & Hps & Hls & Hlen1 & Hlen2 & Hix).
    destruct (Hix d ltac:(lia)) as [Hpd _]. replace (E - 1 - d)%nat with (S k) in Hpd by lia.
    pose proof (g_next _ _ _ _ Hg) as Hnx.
    apply wp_bind. eapply wp_run; [eapply load_ix_ptr; [exact Hps|lia|]|].
    { by replace (Z.to_nat (Z.of_nat k + 1)) with (S k) by lia. }
    apply wp_bind. eapply wp_load; [exact (lr_struct _ _ _ _ _ Hd)|done|]. cbn [main_pointer].
    apply wp_bind. eapply wp_mono.
    { replace (2 ^ S k)%nat with (2 * 2 ^ k)%nat in * by (cbn; lia).
      eapply create_a_h_layer_spec; [done| |exact Hd|].
      - apply Nat.neq_0_lt_0, Nat.pow_nonzero. lia.
      - intros j _. rewrite level_hps_hash. apply node_hash_length. }
    intros [p n'] m1 (Hn' & l & Hp & Hbuilt). cbn [fst snd] in *. subst p n'.
    pose proof Hbuilt as (Hr & _ & Hgl).
    assert (forall b, (b < next m)%positive -> heap m !! b = heap m1 !! b) as Hsame.
    { intros b Hb. symmetry. apply (g_frame _ _ _ _ Hgl); [|apply not_elem_of_nil].
      intros Hin%(g_range _ _ _ _ Hgl). lia. }
    pose proof Hps as Hps1. rewrite Hsame in Hps1 by lia.
    pose proof Hls as Hls1. rewrite Hsame in Hls1 by lia.
    pose proof (g_range _ _ _ _ Hgl (li_struct l) ltac:(apply elem_of_cons; by left)) as Hs.
    eapply wp_enter_layer; [exact Hps1|exact Hls1|lia|lia|done|lia|exact (lr_struct _ _ _ _ _ Hr)|]. apply wp_ret.
    eapply fill_levels_extend; [lia|done|exact Hwfm|done..| |]; apply Hsame; lia.
Qed.
End fill.

(** A loop that copies pointers into a fresh array. *)
Lemma wp_copy arr n (src : nat -> M ptr) (mp : nat -> ptr) m0 :
  heap m0 !! arr = Some (BPtrs (replicate n NULL)) ->
  (forall i m, (i < n)%nat -> (forall b, b <> arr -> heap m !! b = heap m0 !! b) ->
     src i m = Ok (mp i, m)) ->
  wp (for_ n (fun i => p ← src i; store_ix (Ptr arr 0) (Z.of_nat i) p))
    (fun _ m => m = Mem (<[arr := BPtrs (mp <$> List.seq 0 n)]> (heap m0)) (next m0) (rng m0) (ticks m0)) m0.
Proof.
  intros Ha Hsrc. eapply wp_mono.
  - apply (wp_for (fun j m => m = Mem (<[arr := BPtrs ((mp <$> List.seq 0 j) ++ replicate (n - j) NULL)]> (heap m0))
      (next m0) (rng m0) (ticks m0))).
    + cbn. rewrite Nat.sub_0_r, insert_id by done. by destruct m0.
    + intros j m Hj ->. apply wp_bind. eapply wp_run.
      { apply Hsrc; [done|]. intros b Hb. cbn [heap]. by rewrite lookup_insert_ne. }
      unfold store_ix. mem_cbn. rewrite Z.add_0_l.
      destruct (n - j)%nat as [|r] eqn:Er; [lia|].
      assert (length (mp <$> List.seq 0 j) = j) as Hl by by rewrite length_fmap, List.length_seq.
      eapply wp_store; [cbn [heap]; apply lookup_insert_eq| |].
      { rewrite zlookup_of_nat, lookup_app_r, Hl, Nat.sub_diag by lia. done. }
      cbn [heap next rng ticks]. rewrite insert_insert_eq, List.seq_S, fmap_app, <-app_assoc.
      rewrite Nat2Z.id, insert_app_r_alt, Hl, Nat.sub_diag by lia.
      by replace (n - S j)%nat with r by lia.
  - intros [] m ->. by rewrite Nat.sub_diag, app_nil_r.
Qed.

(** The tree [T] over messages [mp], [mb], complete in the heap. *)
Definition tree_rep (h : gmap positive block) (E : nat) (T : nat -> lay_id) (mp : nat -> ptr)
    (mb : nat -> list byte) (la lp : positive) : Prop :=
  layers_rep h E T mp mb E /\ arrays_rep h E T la lp E.

Lemma tree_blocks_0 T c : (0 < c)%nat -> tree_blocks T 0 c = li_blocks (T 0%nat) ++ tree_blocks T 1 (c - 1).
Proof. intros. destruct c; [lia|]. cbn. by rewrite Nat.sub_0_r. Qed.

Lemma build_layers_spec E a la lp ps ls mp mb m :
  wf m -> (0 < E < 64)%nat -> la <> lp ->
  heap m !! la = Some (BPtrs ps) -> heap m !! lp = Some (BLayers ls) ->
  (E <= length ps)%nat -> (E <= length ls)%nat ->
  msgs_at (heap m) a (2 ^ E) mp mb ->
  wp (build_layers (Z.of_nat E) (Z.of_nat (2 ^ E)) (Ptr a 0) (Ptr la 0) (Ptr lp 0))
    (fun _ m' => exists T, tree_rep (heap m') E T mp mb la lp /\
       NoDup (tree_blocks T 0 E) /\ grows m m' (tree_blocks T 0 E) [la; lp]) m.
Proof.
  intros Hwf HE Hne Hps Hls Hlen1 Hlen2 Hmsgs. unfold build_layers.
  pose proof (wf_lt _ _ _ Hwf Hps) as Hla. pose proof (wf_lt _ _ _ Hwf Hls) as Hlp.
  replace (2 ^ E)%nat with (2 * 2 ^ (E - 1))%nat in * by (rewrite <-Nat.pow_succ_r'; f_equal; lia).
  assert (0 < 2 ^ (E - 1))%nat as Hpos by (apply Nat.neq_0_lt_0, Nat.pow_nonzero; lia).
  assert (Z.of_nat (2 ^ (E - 1)) = 2 ^ Z.of_nat (E - 1)) as Hpow by (by rewrite Nat2Z.inj_pow).
  assert (Z.of_nat (2 ^ (E - 1)) < 2 ^ 64) as Hlt.
  { rewrite Hpow. apply Z.pow_lt_mono_r; lia. }
  apply wp_bind. eapply wp_mono; [by eapply process_s_messagesV2_spec|].
  intros p m1 (l & -> & (Hrep & Hnd & Hg)).
  rewrite Hpow, Z.log2_pow2 in Hrep by lia.
  assert (forall b, (b < next m)%positive -> heap m1 !! b = heap m !! b) as Hold.
  { intros b Hb. apply (g_frame _ _ _ _ Hg); [|apply not_elem_of_nil].
    intros Hin%(g_range _ _ _ _ Hg). lia. }
  assert (forall b, b ∈ li_blocks l -> b <> la /\ b <> lp) as Hl0.
  { intros b Hin%(g_range _ _ _ _ Hg). lia. }
  destruct (Hl0 (li_struct l) ltac:(apply elem_of_cons; by left)) as [Hs1 Hs2].
  replace (Z.of_nat E - 1) with (Z.of_nat (E - 1)) by lia.
  eapply wp_enter_layer; [rewrite Hold by done; exact Hps|rewrite Hold by done; exact Hls|lia|lia|done|done|
    exact (lr_struct _ _ _ _ _ Hrep)|]. set (m2 := Mem _ _ _ _).
  assert (grows m1 m2 [] [la; lp]) as Hg2.
  { eapply grows_write2; [exact (g_wf _ _ _ _ Hg)|done|rewrite Hold by done; exact Hps|rewrite Hold by done; exact Hls]. }
  pose proof (g_wf _ _ _ _ Hg) as Hwf1. pose proof (g_next _ _ _ _ Hg) as Hn1.
  rewrite shiftr_double.
  eapply wp_mono; [eapply (fill_intermediate_levels_spec E la lp mp mb m2 l)|].
  - done.
  - cbn; lia.
  - cbn; lia.
  - done.
  - exact (g_wf _ _ _ _ Hg2).
  - done.
  - eapply layer_rep_grows; [exact Hwf1|exact Hg2| |exact Hrep].
    intros b Hb. apply not_in_pair. by apply Hl0.
  - unfold m2. cbn [heap]. apply (arrays_rep_insert _ E (fun _ => l) (fun _ => l)); [done|lia|lia|done|done|lia|done|].
    unfold layer_struct. by rewrite Nat.sub_0_r.
  - intros _ m' (_ & _ & T & HT0 & Hlay & Harr & HndT & HgT).
    rewrite Nat.sub_0_r in *. exists T. split; [by split|].
    rewrite tree_blocks_0, HT0 by lia.
    assert (grows m m2 (li_blocks l) [la; lp]) as Hgm.
    { eapply grows_weaken; [by eapply grows_trans|intros b; by rewrite app_nil_r|done]. }
    split; [by eapply grows_NoDup|].
    eapply grows_weaken; [by eapply grows_trans|done|].
    intros b. rewrite elem_of_app. tauto.
Qed.

Lemma tree_blocks_disjoint T c d d' b :
  NoDup (tree_blocks T 0 c) -> (d < d' < c)%nat -> b ∈ li_blocks (T d) -> b ∉ li_blocks (T d').
Proof.
  intros Hnd Hd Hb Hb'.
  replace c with (d' + (c - d'))%nat in Hnd by lia. unfold tree_blocks in Hnd.
  rewrite List.seq_app, List.flat_map_app in Hnd. apply NoDup_app in Hnd as (_ & Hdis & _).
  apply (Hdis b); apply elem_of_tree_blocks; [exists d|exists d']; (split; [lia|done]).
Qed.

Lemma tree_blocks_NoDup T c d : NoDup (tree_blocks T 0 c) -> (d < c)%nat -> NoDup (li_blocks (T d)).
Proof.
  intros Hnd Hd. induction c as [|c IH]; [lia|].
  rewrite tree_blocks_S in Hnd. apply NoDup_app in Hnd as (Hnd & _ & Hl).
  destruct (decide (d = c)) as [->|]; [done|]. apply IH; [done|lia].
Qed.

(** The loop that releases the layers, the root first; [src] finds layer [i]
    as long as nothing outside the layers has changed. *)
Lemma destroy_layers_from src E T mp mb m :
  layers_rep (heap m) E T mp mb E -> NoDup (tree_blocks T 0 E) ->
  (forall j m', (j < E)%nat -> (forall b, b ∉ tree_blocks T 0 E -> heap m' !! b = heap m !! b) ->
     src j m' = Ok (Ptr (li_struct (T (E - 1 - j)%nat)) 0, m')) ->
  wp (for_ E (fun i => p ← src i; destoroy_a_layer p)) (fun _ m' => released m m' (tree_blocks T 0 E)) m.
Proof.
  intros Hlay Hnd Hsrc. eapply wp_mono.
  - apply (wp_for (fun j m' => released m m' (tree_blocks T (E - j) j))); [apply released_nil|].
    intros j m' Hj Hr. specialize (Hlay (E - 1 - j)%nat ltac:(lia)).
    apply wp_bind. eapply wp_run.
    { apply Hsrc; [done|]. intros b Hb. rewrite (r_heap _ _ _ Hr), decide_False; [done|].
      intros (d & Hd & Hb')%elem_of_tree_blocks. apply Hb, elem_of_tree_blocks. exists d. split; [lia|done]. }
    eapply wp_mono; [eapply (destoroy_a_layer_spec (T (E - 1 - j)%nat)); [|eapply tree_blocks_NoDup; [exact Hnd|lia]]|].
    + eapply layer_rep_released; [exact Hr| |exact Hlay].
      intros b Hb (d & Hd & Hb')%elem_of_tree_blocks.
      eapply (tree_blocks_disjoint T E (E - 1 - j) d); [done|lia|done|done].
    + intros [] m2 Hr2. eapply released_weaken; [by eapply released_trans|].
      intros b. rewrite elem_of_app, !elem_of_tree_blocks. split.
      * intros [(d & Hd & Hb)|Hb]; [exists d|exists (E - 1 - j)%nat]; (split; [lia|done]).
      * intros (d & Hd & Hb). destruct (decide (d = (E - 1 - j)%nat)) as [->|]; [by right|].
        left. exists d. split; [lia|done].
  - intros [] m' Hr. by rewrite Nat.sub_diag in Hr.
Qed.

(** The pointer of the layer at index [j] of [L_arrays]. *)
Lemma layer_index E T la lp j m m' (B : list positive) :
  arrays_rep (heap m) E T la lp E -> la ∉ B -> (forall b, b ∉ B -> heap m' !! b = heap m !! b) -> (j < E)%nat ->
  load_ix (Ptr la 0) (Z.of_nat j) m' = Ok (Ptr (li_struct (T (E - 1 - j)%nat)) 0, m').
Proof.
  intros (ps & ls & Hps & _ & _ & _ & Hix) Hla Heq Hj. destruct (Hix (E - 1 - j)%nat) as [Hp _]; [lia|].
  replace (E - 1 - (E - 1 - j))%nat with j in Hp by lia.
  eapply load_ix_ptr; [rewrite Heq by done; exact Hps|lia|by rewrite Nat2Z.id].
Qed.

Lemma destroy_layers_spec E T mp mb la lp m :
  tree_rep (heap m) E T mp mb la lp -> NoDup (tree_blocks T 0 E) -> la ∉ tree_blocks T 0 E ->
  wp (for_ E (fun i => p ← load_ix (A:=ptr) (Ptr la 0) (Z.of_nat i); destoroy_a_layer p))
    (fun _ m' => released m m' (tree_blocks T 0 E)) m.
Proof.
  intros [Hlay Harr] Hnd Hla. apply (destroy_layers_from _ E T mp mb); [done|done|]. intros j m' Hj Heq. by eapply layer_index.
Qed.

(** Reading the root: the first node of the layer at index 0. *)
Lemma read_root E T mp mb la lp m {A} (k : list byte -> M A) (Q : A -> mem -> Prop) :
  (0 < E)%nat -> tree_rep (heap m) E T mp mb la lp ->
  wp (k (merkle_root E ((fun i => crypto_generichash (mb i)) <$> List.seq 0 (2 ^ E)))) Q m ->
  wp (l0 ← load_ix (A:=ptr) (Ptr la 0) 0; ly ← load (A:=layer_hp) l0;
      node ← load (A:=ptr) (main_pointer ly); root ← load_bytes node crypto_generichash_BYTES; k root)
    Q m.
Proof.
  intros HE [Hlay (ps & ls & Hps & _ & _ & _ & Hix)] Hk.
  destruct (Hix (E - 1)%nat) as [Hp _]; [lia|]. rewrite Nat.sub_diag in Hp.
  specialize (Hlay (E - 1)%nat ltac:(lia)). rewrite Nat.sub_diag in Hlay.
  destruct (layer_rep_lookup _ _ _ _ _ 0 Hlay) as (q & Hq & Ha & Hn); [cbn; lia|].
  apply wp_bind. eapply wp_run; [by eapply load_ix_ptr|].
  apply wp_bind. eapply (wp_load (H:=storable_layer)); [exact (lr_struct _ _ _ _ _ Hlay)|done|].
  cbn [main_pointer]. apply wp_bind.
  eapply (wp_load (H:=storable_ptr)); [exact (lr_arr _ _ _ _ _ Hlay)|exact Ha|].
  rewrite Hq. apply wp_bind. eapply wp_load_bytes.
  { apply bytes_at_node; [exact Hn|]. rewrite level_hps_hash. apply node_hash_length. }
  rewrite level_hps_hash, node_hash_root; done.
Qed.

Lemma u64_shiftl_pow E : (E < 64)%nat -> u64 (Z.shiftl 1 (Z.of_nat E)) = Z.of_nat (2 ^ E).
Proof.
  intros HE. rewrite Z.shiftl_1_l, Nat2Z.inj_pow. apply u64_small. split; [lia|].
  apply Z.pow_lt_mono_r; lia.
Qed.

(** Copying the message pointers keeps [msgs_at], now for the copy. *)
Lemma msgs_at_copied m m' a arr n mp mb :
  wf m -> msgs_at (heap m) a n mp mb -> (next m <= arr)%positive ->
  (forall b, (b < next m)%positive -> heap m' !! b = heap m !! b) ->
  heap m' !! arr = Some (BPtrs (mp <$> List.seq 0 n)) -> msgs_at (heap m') arr n mp mb.
Proof.
  intros Hwf (ps & Ha & Hmsg) Harr Hold Hc. eexists. split; [exact Hc|]. intros i Hi.
  destruct (Hmsg i Hi) as (_ & sm & Hsm). split.
  - rewrite list_lookup_fmap, lookup_seq_lt by done. done.
  - exists sm. by eapply msg_at_old.
Qed.

(** After the tree is built: release the layers and the three arrays. *)
Lemma server_release E T mp mb la lp arr (root : list byte) m0 m :
  wf m0 -> tree_rep (heap m) E T mp mb la lp -> is_Some (heap m !! arr) ->
  grows m0 m ([la; lp; arr] ++ tree_blocks T 0 E) [] -> NoDup ([la; lp; arr] ++ tree_blocks T 0 E) ->
  wp (for_ E (fun i => p ← load_ix (A:=ptr) (Ptr la 0) (Z.of_nat i); destoroy_a_layer p) ;;
      free (Ptr arr 0) ;; free (Ptr la 0) ;; free (Ptr lp 0) ;; mret root)
    (fun r m' => heap m' = heap m0 /\ (next m0 <= next m')%positive /\ r = root) m.
Proof.
  intros Hwf Htr [va Ha] Hg Hnd. pose proof Htr as [_ (ps & ls & Hps & Hls & _)].
  cbn [app] in Hnd. rewrite !NoDup_cons, !not_elem_of_cons in Hnd.
  destruct Hnd as ((N1 & N2 & N3) & (N4 & N5) & N6 & Hnd).
  apply wp_bind. eapply wp_mono; [by eapply destroy_layers_spec|]. intros [] m1 R1.
  apply wp_bind. eapply wp_mono; [eapply wp_free_released; by rewrite (r_heap _ _ _ R1), decide_False|].
  intros [] m2 R2. pose proof (released_trans _ _ _ _ _ R1 R2) as R12.
  apply wp_bind. eapply wp_mono; [eapply wp_free_released; rewrite (r_heap _ _ _ R12), decide_False;
    [exact Hps|by rewrite not_elem_of_app, list_elem_of_singleton]|].
  intros [] m3 R3. pose proof (released_trans _ _ _ _ _ R12 R3) as R123.
  apply wp_bind. eapply wp_mono; [eapply wp_free_released; rewrite (r_heap _ _ _ R123), decide_False;
    [exact Hls|by rewrite !not_elem_of_app, !list_elem_of_singleton]|].
  intros [] m4 R4. pose proof (released_trans _ _ _ _ _ R123 R4) as R.
  apply wp_ret. split; [|split; [rewrite (r_next _ _ _ R); exact (g_next _ _ _ _ Hg)|done]]. eapply grows_released; [exact Hwf|exact Hg|].
  eapply released_weaken; [exact R|]. intros b. cbn [app].
  rewrite !elem_of_app, !list_elem_of_singleton, !elem_of_cons. tauto.
Qed.

Lemma server_calc_merkle_tree_exp_spec E a mp mb m :
  wf m -> (0 < E < 64)%nat -> msgs_at (heap m) a (2 ^ E) mp mb ->
  wp (server_calc_merkle_tree_exp (Z.of_nat E) (Ptr a 0))
    (fun root m' => heap m' = heap m /\ (next m <= next m')%positive /\
       root = merkle_root E ((fun i => crypto_generichash (mb i)) <$> List.seq 0 (2 ^ E))) m.
Proof.
  intros Hwf HE Hmsgs. unfold server_calc_merkle_tree_exp. rewrite u64_shiftl_pow by lia. cbv zeta.
  rewrite !Nat2Z.id. wps. rewrite !Nat2Z.id.
  set (la := next m). set (lp := Pos.succ la). set (arr := Pos.succ lp).
  set (m1 := Mem _ _ _ _).
  assert (la < lp < arr)%positive as Hord by (subst arr lp; lia).
  assert (grows m m1 [la; lp; arr] []) as Hg1.
  { change [la; lp; arr] with ((([] ++ [la]) ++ [lp]) ++ [arr]). do 3 apply grows_then_alloc.
    rewrite <-mem_eta. by apply grows_refl. }
  eapply wp_mono.
  { apply (wp_copy arr (2 ^ E) _ mp m1); [by cbn; rewrite lookup_insert_eq|].
    intros i m2 Hi Heq. destruct Hmsgs as (ps & Ha & Hp). destruct (Hp i Hi) as [Hpi _].
    pose proof (wf_lt _ _ _ Hwf Ha) as Hlt. fold la in Hlt.
    eapply load_ix_ptr; [rewrite Heq by lia; cbn; rewrite !lookup_insert_ne by lia; exact Ha|lia|].
    by rewrite Nat2Z.id. }
  intros [] m2 Hm2. assert (grows m m2 [la; lp; arr] []) as Hg2.
  { subst m2. eapply grows_then_write; [rewrite <-mem_eta; exact Hg1|set_solver|apply lookup_insert_eq]. }
  assert (forall b, b <> arr -> heap m2 !! b = heap m1 !! b) as Heq2.
  { intros b Hb. rewrite Hm2. cbn [heap]. by rewrite lookup_insert_ne. }
  apply wp_bind. eapply wp_mono; [eapply (build_layers_spec E arr la lp _ _ mp mb)|].
  - exact (g_wf _ _ _ _ Hg2).
  - done.
  - lia.
  - rewrite Heq2 by lia. cbn. by rewrite !lookup_insert_ne, lookup_insert_eq by lia.
  - rewrite Heq2 by lia. cbn. by rewrite lookup_insert_ne, lookup_insert_eq by lia.
  - by rewrite length_replicate.
  - by rewrite length_replicate.
  - eapply msgs_at_copied; [exact Hwf|exact Hmsgs| | |rewrite Hm2; apply lookup_insert_eq]; fold la; [lia|].
    intros b Hb. rewrite Heq2 by lia. cbn. by rewrite !lookup_insert_ne by lia.
  - intros _ m3 (T & Htr & Hnd & Hg3). apply (read_root E T mp mb la lp); [lia|done|].
    eapply wp_mono; [eapply (server_release E T mp mb la lp arr _ m)|].
    + done.
    + done.
    + eapply mk_is_Some, grows_old; [exact (g_wf _ _ _ _ Hg2)|exact Hg3| |rewrite Hm2; apply lookup_insert_eq].
      apply not_in_pair. lia.
    + eapply (grows_absorb _ _ _ [la; lp] []); [|set_solver].
      eapply grows_weaken; [by eapply grows_trans|done|done].
    + eapply (grows_NoDup _ _ _ _ _ _ _ Hg2 Hg3); [|done].
      rewrite !NoDup_cons, !not_elem_of_cons. split_and!; [..|apply NoDup_nil_2]; try lia; apply not_elem_of_nil.
    + by intros root m' (? & ? & ->).
Qed.

(** A null slot among the messages: the server's tree computation dereferences
    it. *)
Lemma server_calc_merkle_tree_null E a ps j mp mb m :
  wf m -> (0 < E < 64)%nat -> heap m !! a = Some (BPtrs ps) -> (2 ^ E <= length ps)%nat ->
  (forall i, (i < j)%nat -> ps !! i = Some (mp i) /\ exists sm, msg_at (heap m) (mp i) sm (mb i)) ->
  (j < 2 ^ E)%nat -> ps !! j = Some NULL ->
  server_calc_merkle_tree_exp (Z.of_nat E) (Ptr a 0) m = Fault NullDeref.
Proof.
  intros Hwf HE Ha Hlen Hmsg Hj Hnull. unfold server_calc_merkle_tree_exp. rewrite u64_shiftl_pow by lia. cbv zeta.
  rewrite !Nat2Z.id. unfold calloc. do 3 (erewrite bind_ok by reflexivity; mem_cbn). rewrite !Nat2Z.id.
  pose proof (wf_lt _ _ _ Hwf Ha) as Hlt. set (arr := Pos.succ (Pos.succ (next m))). set (m1 := Mem _ _ _ _).
  assert (next m < arr)%positive as Harr by (subst arr; lia).
  assert (forall b, (b < next m)%positive -> heap m1 !! b = heap m !! b) as Hold.
  { intros b Hb. unfold m1. cbn. by rewrite !lookup_insert_ne by lia. }
  edestruct (wp_copy arr (2 ^ E) (fun i => load_ix (Ptr a 0) (Z.of_nat i)) (fun i => default NULL (ps !! i)) m1)
    as ([] & m2 & Hrun & Hm2).
  { unfold m1. cbn. by rewrite lookup_insert_eq. }
  { intros i m2 Hi Heq. destruct (lookup_lt_is_Some_2 ps i) as [p Hp]; [lia|]. rewrite Hp. cbn.
    eapply load_ix_ptr; [rewrite Heq, Hold by lia; exact Ha|lia|by rewrite Nat2Z.id]. }
  erewrite bind_ok by exact Hrun. apply bind_fault. unfold build_layers. apply bind_fault.
  assert (forall b, (b < next m)%positive -> heap m2 !! b = heap m !! b) as Hold2.
  { intros b Hb. rewrite Hm2. cbn. rewrite lookup_insert_ne by lia. by apply Hold. }
  replace (2 ^ E)%nat with (2 * 2 ^ (E - 1))%nat in * by (rewrite <-Nat.pow_succ_r'; f_equal; lia).
  eapply (process_s_messagesV2_null arr _ j _ mp mb).
  - rewrite Hm2. unfold m1. solve_wf.
  - rewrite Nat2Z.inj_pow. apply Z.pow_lt_mono_r; lia.
  - rewrite Hm2. apply lookup_insert_eq.
  - by rewrite length_fmap, List.length_seq.
  - intros i Hi. destruct (Hmsg i Hi) as [Hp [sm Hsm]].
    rewrite list_lookup_fmap, lookup_seq_lt by lia. cbn. rewrite Hp. split; [done|]. exists sm. by eapply (msg_at_old m).
  - done.
  - rewrite list_lookup_fmap, lookup_seq_lt by lia. cbn. by rewrite Hnull.
Qed.

(** What the client keeps of a built tree: the container [gc] with the two
    layer arrays and the copied message pointers. *)
Record client_tree (m m' : mem) (E : nat) (mp : nat -> ptr) (mb : nat -> list byte)
    (gc la lp arr : positive) (T : nat -> lay_id) : Prop := ClientTree {
  ct_cont : heap m' !! gc = Some (BConts [LMsgContainer (Ptr lp 0) (Ptr la 0) (Ptr arr 0)]);
  ct_arr : heap m' !! arr = Some (BPtrs (mp <$> List.seq 0 (2 ^ E)));
  ct_tree : tree_rep (heap m') E T mp mb la lp;
  ct_NoDup : NoDup ([gc; la; lp; arr] ++ tree_blocks T 0 E);
  ct_grows : grows m m' ([gc; la; lp; arr] ++ tree_blocks T 0 E) [] }.

Lemma client_calc_merkle_tree_spec E p mb m :
  wf m -> (0 < E < 64)%nat ->
  (forall i, (i < 2 ^ E)%nat -> exists sm, msg_at (heap m) (padd p (Z.of_nat i)) sm (mb i)) ->
  wp (client_calc_merkle_tree (Z.of_nat E) p)
    (fun c m' => exists gc la lp arr T, c = Ptr gc 0 /\
       client_tree m m' E (fun i => padd p (Z.of_nat i)) mb gc la lp arr T) m.
Proof.
  intros Hwf HE Hmsgs. unfold client_calc_merkle_tree. rewrite u64_shiftl_pow by lia. cbv zeta.
  wps. rewrite !Nat2Z.id.
  set (mp := fun i => padd p (Z.of_nat i)).
  set (gc := next m). set (la := Pos.succ gc). set (lp := Pos.succ la). set (arr := Pos.succ lp).
  assert (gc < la < lp /\ lp < arr)%positive as Hord by (subst arr lp la; lia).
  eapply wp_mono; [apply (wp_copy arr (2 ^ E) _ mp)|].
  { heap_simpl. done. }
  { done. }
  intros [] m2 Hm2. cbn [heap next rng ticks] in Hm2.
  assert (m2 = Mem (<[arr := BPtrs (mp <$> List.seq 0 (2 ^ E))]> (<[lp := BLayers (replicate E zero_layer_hp)]>
    (<[la := BPtrs (replicate (Z.to_nat (3 * Z.of_nat E)) NULL)]>
      (<[gc := BConts [LMsgContainer (Ptr lp 0) (Ptr la 0) (Ptr arr 0)]]> (heap m)))))
    (Pos.succ arr) (rng m) (ticks m)) as Hm2'.
  { rewrite Hm2. f_equal. heap_ext. }
  clear Hm2. rename Hm2' into Hm2.
  assert (grows m m2 [gc; la; lp; arr] []) as Hg2.
  { change [gc; la; lp; arr] with (((([] ++ [gc]) ++ [la]) ++ [lp]) ++ [arr]). rewrite Hm2.
    do 4 apply grows_then_alloc. rewrite <-mem_eta. by apply grows_refl. }
  apply wp_bind. eapply wp_mono; [eapply (build_layers_spec E arr la lp _ _ mp mb)|].
  - exact (g_wf _ _ _ _ Hg2).
  - done.
  - lia.
  - rewrite Hm2. cbn. by rewrite !lookup_insert_ne, lookup_insert_eq by lia.
  - rewrite Hm2. cbn. by rewrite lookup_insert_ne, lookup_insert_eq by lia.
  - rewrite length_replicate. lia.
  - by rewrite length_replicate.
  - eexists. split; [rewrite Hm2; apply lookup_insert_eq|]. intros i Hi. split.
    + by rewrite list_lookup_fmap, lookup_seq_lt.
    + destruct (Hmsgs i Hi) as [sm Hsm]. exists sm. eapply msg_at_old; [exact Hwf|exact Hsm|].
      intros b Hb. rewrite Hm2. cbn [heap]. fold gc in Hb. by rewrite !lookup_insert_ne by lia.
  - intros _ m3 (T & Htr & Hnd & Hg3). apply wp_ret. exists gc, la, lp, arr, T. split; [done|]. split.
    + eapply grows_old; [exact (g_wf _ _ _ _ Hg2)|exact Hg3|apply not_in_pair; lia|].
      rewrite Hm2. cbn. by rewrite !lookup_insert_ne, lookup_insert_eq by lia.
    + eapply grows_old; [exact (g_wf _ _ _ _ Hg2)|exact Hg3|apply not_in_pair; lia|].
      rewrite Hm2. apply lookup_insert_eq.
    + done.
    + eapply (grows_NoDup _ _ _ _ _ _ _ Hg2 Hg3); [|done].
      rewrite !NoDup_cons, !not_elem_of_cons. split_and!; [..|apply NoDup_nil_2]; try lia; apply not_elem_of_nil.
    + eapply (grows_absorb _ _ _ [la; lp] []); [|set_solver].
      eapply grows_weaken; [by eapply grows_trans|done|done].
Qed.

(** The bytes hashed at node [j] of level [d]. *)
Definition node_input (lf : nat -> list byte) (d j : nat) : list byte :=
  match d with
  | O => lf (2 * j)%nat ++ lf (2 * j + 1)%nat
  | S d => node_hash lf d (2 * j) ++ node_hash lf d (2 * j + 1)
  end.

Lemma node_hash_input lf d j : node_hash lf d j = crypto_generichash (node_input lf d j).
Proof. by destruct d. Qed.

(** Two trees of [E] levels, over [mb] and over [mb'], hash different bytes to
    the same value at the same place: at a message or at an inner node. *)
Definition tree_collides (E : nat) (mb mb' : nat -> list byte) : Prop :=
  (exists i, (i < 2 ^ E)%nat /\ collide (mb i) (mb' i)) \/
  (exists d j, (d < E)%nat /\ (j < 2 ^ (E - 1 - d))%nat /\
     collide (node_input (fun i => crypto_generichash (mb i)) d j) (node_input (fun i => crypto_generichash (mb' i)) d j)).

(** A node's hash determines the leaves below it, unless two nodes at the same
    place below it collide. *)
Lemma node_hash_binds lf lf' d j :
  (forall i, length (lf i) = length (lf' i)) -> node_hash lf d j = node_hash lf' d j ->
  (forall i, (2 ^ S d * j <= i < 2 ^ S d * (j + 1))%nat -> lf i = lf' i) \/
  exists e k, (e <= d)%nat /\ (2 ^ (d - e) * j <= k < 2 ^ (d - e) * (j + 1))%nat /\ collide (node_input lf e k) (node_input lf' e k).
Proof.
  intros Hlen. revert j; induction d as [|d IH]; intros j Heq.
  - cbn [node_hash] in Heq. apply hash_pair_same in Heq as [[H0 H1]|Hc]; [| |by apply Hlen].
    + left. intros i Hi. change (2 ^ 1)%nat with 2%nat in Hi. assert (i = 2 * j \/ i = 2 * j + 1)%nat as [->| ->] by lia; done.
    + right. exists 0%nat, j. split_and!; [lia|cbn; lia|cbn; lia|exact Hc].
  - cbn [node_hash] in Heq. apply hash_pair_same in Heq as [[H0 H1]|Hc]; [| |by rewrite !node_hash_length].
    + assert (forall e, (e <= d)%nat -> 2 ^ (S d - e) = 2 * 2 ^ (d - e))%nat as Hp
        by (intros e He; replace (S d - e)%nat with (S (d - e)) by lia; apply Nat.pow_succ_r').
      apply IH in H0 as [H0|(e & k & He & Hk & Hc)]; [|right; exists e, k; rewrite Hp by done; split_and!; [lia|nia|nia|done]].
      apply IH in H1 as [H1|(e & k & He & Hk & Hc)]; [|right; exists e, k; rewrite Hp by done; split_and!; [lia|nia|nia|done]].
      left. intros i Hi. rewrite (Nat.pow_succ_r' 2 (S d)) in Hi. set (P := (2 ^ S d)%nat) in *.
      destruct (decide (i < P * (2 * j + 1))%nat); [apply H0; nia|apply H1; nia].
    + right. exists (S d), j. rewrite Nat.sub_diag. split_and!; [lia|cbn; lia|cbn; lia|exact Hc].
Qed.

Lemma same_or_collide n (mb mb' : nat -> list byte) :
  (forall i, (i < n)%nat -> crypto_generichash (mb i) = crypto_generichash (mb' i)) ->
  (forall i, (i < n)%nat -> mb i = mb' i) \/ exists i, (i < n)%nat /\ collide (mb i) (mb' i).
Proof.
  induction n as [|n IH]; intros Hall; [left; lia|]. destruct IH as [Hi|(i & Hi & Hc)]; [auto| |right; exists i; split; [lia|done]].
  destruct (generichash_same _ _ (Hall n ltac:(lia))) as [Hn|Hc]; [|right; exists n; split; [lia|done]].
  left. intros i Hlt. destruct (decide (i = n)) as [->|]; [done|]. apply Hi. lia.
Qed.

(** Messages [mb] and [mb'] with the same root agree, or their trees collide. *)
Lemma root_binds E (mb mb' : nat -> list byte) :
  merkle_root E ((fun i => crypto_generichash (mb i)) <$> List.seq 0 (2 ^ E)) =
  merkle_root E ((fun i => crypto_generichash (mb' i)) <$> List.seq 0 (2 ^ E)) ->
  (forall i, (i < 2 ^ E)%nat -> mb i = mb' i) \/ tree_collides E mb mb'.
Proof.
  intros Heq. assert ((forall i, (i < 2 ^ E)%nat -> crypto_generichash (mb i) = crypto_generichash (mb' i)) \/ tree_collides E mb mb') as [Hall|]; [| |by right].
  - destruct E as [|E]; [left; intros i Hi; cbn in Hi, Heq; by replace i with 0%nat by lia|]. rewrite <-!node_hash_root in Heq by lia.
    apply node_hash_binds in Heq as [H|(e & k & He & Hk & Hc)]; [| |intros; by rewrite !generichash_length].
    + left. intros i Hi. apply H. replace (S (S E - 1)) with (S E) by lia. lia.
    + right. right. exists e, k. split_and!; [lia|lia|done].
  - destruct (same_or_collide _ mb mb' Hall) as [?|?]; [by left|right; by left].
Qed.
End facts.

(** Reading the root as the client does, from the array of struct copies. *)
Section client_root.
Context {sod : Sodium} {ok : SodiumOk sod}.

Definition client_root (cont : ptr) : M ptr :=
  c ← load (A:=l_msg_container) cont;
  l0 ← load (A:=layer_hp) (main_layer_pointer c);
  load (A:=ptr) (main_pointer l0).

Lemma client_root_run m m' E mp mb gc la lp arr T :
  (0 < E)%nat -> client_tree m m' E mp mb gc la lp arr T ->
  exists q, client_root (Ptr gc 0) m' = Ok (Ptr q 0, m') /\
    heap m' !! q = Some (BHps [level_hps T mp mb (E - 1) 0]) /\
    bytes_at (heap m') (Ptr q 0) crypto_generichash_BYTES =
      Ok (merkle_root E ((fun i => crypto_generichash (mb i)) <$> List.seq 0 (2 ^ E))).
Proof.
  intros HE [Hc _ [Hlay (ps & ls & _ & Hls & _ & _ & Hix)] _ _].
  destruct (Hix (E - 1)%nat) as [_ Hl]; [lia|]. rewrite Nat.sub_diag in Hl.
  specialize (Hlay (E - 1)%nat ltac:(lia)). rewrite Nat.sub_diag in Hlay.
  destruct (layer_rep_lookup _ _ _ _ _ 0 Hlay) as (q & Hq & Ha & Hn); [cbn; lia|].
  exists q. split; [|split; [done|]].
  - apply wp_eq. unfold client_root. apply wp_bind.
    eapply (wp_load (H:=storable_cont)); [exact Hc|done|]. cbn [main_layer_pointer]. apply wp_bind.
    eapply (wp_load (H:=storable_layer)); [exact Hls|exact Hl|].
    eapply (wp_load (H:=storable_ptr)); [exact (lr_arr _ _ _ _ _ Hlay)|exact Ha|]. by rewrite Hq.
  - rewrite (bytes_at_node _ _ _ Hn), level_hps_hash by (rewrite level_hps_hash; apply node_hash_length).
    by rewrite node_hash_root.
Qed.
End client_root.

(** ** Sample states *)
Module Sample.

(** An array of [n] pointers to one message of four bytes. *)
Definition server_mem (n : nat) : mem :=
  Mem (<[1%positive := BPtrs (replicate n (Ptr 2 0))]>
        (<[2%positive := BMsgs [SignedMessage (Ptr 3 0) 4 (zeros 32)]]>
          (<[3%positive := BBytes [x01; x02; x03; x04]]> ∅))) 4 0 0.

Lemma server_mem_wf n : wf (server_mem n).
Proof. intros b Hb. cbn in *. rewrite !lookup_insert_ne by lia. apply lookup_empty. Qed.

Lemma server_mem_msgs n :
  msgs_at (heap (server_mem n)) 1 n (fun _ => Ptr 2 0) (fun _ => [x01; x02; x03; x04]).
Proof.
  exists (replicate n (Ptr 2 0)). split; [reflexivity|]. intros i Hi.
  split; [by apply lookup_replicate_2|]. eexists. split; [do 3 eexists; split; [done|]|]; [split|]; done.
Qed.

(** Eight received messages of two bytes each, in one array. *)
Definition text : list byte := [x01; x02; x03; x04; x05; x06; x07; x08; x09].

Definition client_mem : mem :=
  Mem (<[1%positive := BMsgs ((fun i => SignedMessage (Ptr 2 i) 2 (zeros 32)) <$> [0; 1; 2; 3; 4; 5; 6; 7])]>
        (<[2%positive := BBytes text]> ∅)) 3 0 0.

Definition client_text (i : nat) : list byte := take 2 (drop i text).

Lemma client_mem_wf : wf client_mem.
Proof. intros b Hb. cbn in *. rewrite !lookup_insert_ne by lia. apply lookup_empty. Qed.

Lemma client_mem_msgs i :
  (i < 2 ^ 3)%nat -> exists sm, msg_at (heap client_mem) (padd (Ptr 1 0) (Z.of_nat i)) sm (client_text i).
Proof.
  intros Hi. change (2 ^ 3)%nat with 8%nat in Hi. do 8 (destruct i as [|i];
    [eexists; split; [do 3 eexists; split; [done|split; reflexivity]|reflexivity]|]). lia.
Qed.
End Sample.

(** ** Correctness of the tree builders *)
Section claims.
Context {sod : Sodium} {ok : SodiumOk sod}.

(** C23: the server's [calc_merkle_tree], run on any array of 512 live
    messages, ends without a fault, prints exactly the textbook Merkle root
    over the hashes of the 512 messages in order, and leaves the heap as it
    found it: every layer, node and temporary buffer is freed once. *)
Theorem server_calc_merkle_tree_correct a mp mb m :
  wf m -> msgs_at (heap m) a 512 mp mb ->
  wp (server_calc_merkle_tree (Ptr a 0))
    (fun root m' => heap m' = heap m /\
       root = merkle_root 9 ((fun i => crypto_generichash (mb i)) <$> List.seq 0 512)) m.
Proof.
  intros Hwf Hm. eapply wp_mono; [exact (server_calc_merkle_tree_exp_spec 9 a mp mb m Hwf ltac:(lia) Hm)|].
  by intros root m' (? & _ & ?).
Qed.

(** C13: the server and a client that received its messages agree.  The root
    the server prints for 512 messages is the root in the client's tree when
    the client holds the same 512 messages; and if the two roots are equal, the
    messages are the same, one by one, or at one of the 512 messages or 511
    nodes the two trees hash different bytes to the same value. *)
Theorem server_client_roots_agree a mp mb ms p mb' mc :
  wf ms -> msgs_at (heap ms) a 512 mp mb -> wf mc ->
  (forall i, (i < 512)%nat -> exists sm, msg_at (heap mc) (padd p (Z.of_nat i)) sm (mb' i)) ->
  exists rs ms' rc mc', server_calc_merkle_tree (Ptr a 0) ms = Ok (rs, ms') /\
    (c ← client_calc_merkle_tree 9 p; node ← client_root c; load_bytes node crypto_generichash_BYTES) mc = Ok (rc, mc') /\
    ((forall i, (i < 512)%nat -> mb i = mb' i) -> rs = rc) /\
    (rs = rc -> (forall i, (i < 512)%nat -> mb i = mb' i) \/ tree_collides 9 mb mb').
Proof.
  intros Hws Hs Hwc Hc.
  destruct (server_calc_merkle_tree_exp_spec 9 a mp mb ms Hws ltac:(lia) Hs) as (rs & ms' & Rs & _ & _ & ->).
  destruct (client_calc_merkle_tree_spec 9 p mb' mc Hwc ltac:(lia) Hc) as (c & m1 & Rc & gc & la & lp & arr & T & -> & Hct).
  destruct (client_root_run _ _ 9 _ _ _ _ _ _ _ ltac:(lia) Hct) as (q & Hq & _ & Hb).
  do 4 eexists. split; [exact Rs|]. split.
  { erewrite bind_ok by exact Rc. erewrite bind_ok by exact Hq. unfold load_bytes. by rewrite Hb. }
  split; [|exact (root_binds 9 mb mb')]. intros Heq. f_equal. apply list_fmap_ext. intros i j Hj.
  apply lookup_seq in Hj as [-> Hj]. by rewrite Heq.
Qed.
End claims.

(** 512 received messages, in an array of structs. *)
Definition sample_512 : mem :=
  Mem (<[1%positive := BMsgs (replicate 512 (SignedMessage (Ptr 2 0) 4 (zeros 32)))]>
        (<[2%positive := BBytes [x01; x02; x03; x04]]> ∅)) 3 0 0.

Lemma sample_512_wf : wf sample_512.
Proof. intros b Hb. cbn in *. rewrite !lookup_insert_ne by lia. apply lookup_empty. Qed.

Lemma sample_512_msgs i :
  (i < 512)%nat -> exists sm, msg_at (heap sample_512) (padd (Ptr 1 0) (Z.of_nat i)) sm [x01; x02; x03; x04].
Proof.
  intros Hi. eexists. split; [do 3 eexists; split; [done|split; [reflexivity|]]|].
  - rewrite Z.add_0_l, zlookup_of_nat. by apply lookup_replicate_2.
  - reflexivity.
Qed.

Lemma server_client_roots_agree_witness :
  exists rs ms' rc mc',
    server_calc_merkle_tree (sod:=Toy.mixing) (Ptr 1 0) (Sample.server_mem 512) = Ok (rs, ms') /\
    (c ← client_calc_merkle_tree (sod:=Toy.mixing) 9 (Ptr 1 0);
     node ← client_root c; load_bytes node crypto_generichash_BYTES) sample_512 = Ok (rc, mc') /\ rs = rc.
Proof.
  destruct (server_client_roots_agree (sod:=Toy.mixing) (ok:=Toy.mixing_ok) 1 (fun _ => Ptr 2 0) (fun _ => [x01; x02; x03; x04])
    (Sample.server_mem 512) (Ptr 1 0) (fun _ => [x01; x02; x03; x04]) sample_512
    (Sample.server_mem_wf 512) (Sample.server_mem_msgs 512) sample_512_wf sample_512_msgs)
    as (rs & ms' & rc & mc' & Hs & Hc & Heq & _).
  exists rs, ms', rc, mc'. split; [exact Hs|]. split; [exact Hc|]. apply Heq. done.
Defined.

Lemma server_calc_merkle_tree_correct_witness :
  wp (server_calc_merkle_tree (sod:=Toy.mixing) (Ptr 1 0))
    (fun root m' => heap m' = heap (Sample.server_mem 512) /\
       root = merkle_root (sod:=Toy.mixing) 9
         ((fun _ => Toy.toy_hash [x01; x02; x03; x04]) <$> List.seq 0 512)) (Sample.server_mem 512).
Proof.
  exact (server_calc_merkle_tree_correct (sod:=Toy.mixing) (ok:=Toy.mixing_ok) 1 (fun _ => Ptr 2 0) (fun _ => [x01; x02; x03; x04])
    _ (Sample.server_mem_wf 512) (Sample.server_mem_msgs 512)).
Defined.
