(* ===== verification/MerkleVerify.v ===== *)
(** * Checking a message against the Merkle tree

    sources/block_data/merkle_process.c.  [merkle_verify_message] recomputes
    the hash of the message pair, compares it with the base node and then walks
    up the layers.  The theorems give its verdict on every tree-shaped
    structure, whatever the hashes stored in the nodes. *)

From S2P Require Import Prelude.
From S2P Require Import CTypes.
From S2P Require Import Memory.
From S2P Require Import Platform.
From S2P Require Import Accounts.
From S2P Require Import Hashing.
From S2P Require Import Layering.
From S2P Require Import MerkleTree.

Section code.
Context {sod : Sodium}.

(** [Layers_pointer[i].main_pointer[n]] *)
Definition node_at (Layers_pointer : ptr) (i n : Z) : M ptr :=
  l ← load_ix (A:=layer_hp) Layers_pointer i;
  load_ix (A:=ptr) (main_pointer l) n.

(** The loop over the layers, [i = k - 1] down to 0.  [inl r] is a [return r]
    from inside the loop, [inr Sret] the loop's end. *)
Fixpoint verify_levels (k : nat) (Layers_pointer : ptr) (req_msg_first_nodeN Sret : Z) : M (Z + Z) :=
  match k with
  | O => mret (inr Sret)
  | S i' =>
      let i := Z.of_nat i' in
      let req_msg_first_nodeN := Z.shiftr req_msg_first_nodeN 1 in
      if i =? 0 then
        root ← node_at Layers_pointer i i;
        hp ← load (A:=hash_point) root;
        hpoint1 ← determinate (get_hpoint1 (hp_u hp));
        root2 ← node_at Layers_pointer i i;
        hp2 ← load (A:=hash_point) root2;
        hpoint2 ← determinate (get_hpoint2 (hp_u hp2));
        Shash ← merge_2hashses_at hpoint1 hpoint2;
        top ← node_at Layers_pointer i req_msg_first_nodeN;
        rez ← memcmp Shash top crypto_generichash_BYTES;
        if rez =? 0 then free Shash ;; mret (inr (Sret + rez)) else mret (inl 0)
      else
        let neighbor_number :=
          if req_msg_first_nodeN mod 2 =? 0 then req_msg_first_nodeN + 1 else req_msg_first_nodeN - 1 in
        Shash ← (if req_msg_first_nodeN mod 2 =? 0 then
                   a ← node_at Layers_pointer i req_msg_first_nodeN;
                   b ← node_at Layers_pointer i neighbor_number;
                   merge_2hashses_at a b
                 else
                   a ← node_at Layers_pointer i neighbor_number;
                   b ← node_at Layers_pointer i req_msg_first_nodeN;
                   merge_2hashses_at a b);
        up ← node_at Layers_pointer (i - 1) (Z.shiftr req_msg_first_nodeN 1);
        rez ← memcmp Shash up crypto_generichash_BYTES;
        if rez =? 0 then
          free Shash ;; verify_levels i' Layers_pointer req_msg_first_nodeN (Sret + rez)
        else mret (inl 1)
  end.

Definition merkle_verify_message (EXPONENT msg_num : Z) (Layers_pointer : ptr) : M Z :=
  let req_msg_first_nodeN := Z.shiftr msg_num 1 in
  let flip := if req_msg_first_nodeN mod 2 =? 0 then 1 else 0 in
  node ← node_at Layers_pointer (u64 (EXPONENT - 1)) req_msg_first_nodeN;
  hp ← load (A:=hash_point) node;
  ms ← determinate (get_messages (hp_u hp));
  sm1 ← load (A:=signed_message_t) (smsg_p1 ms);
  hash_msg1_f ← calc_hash sm1;
  Shash2 ← calloc (Z.of_nat crypto_generichash_BYTES) x00;
  node' ← node_at Layers_pointer (u64 (EXPONENT - 1)) req_msg_first_nodeN;
  hp' ← load (A:=hash_point) node';
  ms' ← determinate (get_messages (hp_u hp'));
  sm2 ← load (A:=signed_message_t) (smsg_p2 ms');
  hash_msg2_f ← calc_hash sm2;
  Shash ← merge_2hashses_at hash_msg1_f hash_msg2_f;
  up ← node_at Layers_pointer (u64 (EXPONENT - 2)) (Z.shiftr req_msg_first_nodeN 1);
  uhp ← load (A:=hash_point) up;
  child ← determinate (if flip =? 0 then get_hpoint2 (hp_u uhp) else get_hpoint1 (hp_u uhp));
  ret_gr_lev ← memcmp Shash child crypto_generichash_BYTES;
  if negb (ret_gr_lev =? 0) then mret 0 else
  free Shash ;;
  r ← verify_levels (Z.to_nat (i32 (u64 (EXPONENT - 2)) + 1)) Layers_pointer req_msg_first_nodeN 0;
  match r with
  | inl ret => mret ret
  | inr Sret =>
      free hash_msg2_f ;;
      free hash_msg1_f ;;
      free Shash2 ;;
      mret (if Sret + ret_gr_lev =? 0 then 1 else 0)
  end.
End code.

(** ** Tree-shaped structures *)

(** A structure of the shape the builders produce over the messages [mp],
    [mb], with arbitrary hashes in its nodes: [hp d i] is node [i] of the layer
    [d] steps above the base. *)
Record vtree (h : gmap positive block) (lp : positive) (E : nat) (T : nat -> lay_id)
    (mp : nat -> ptr) (mb : nat -> list byte) (hp : nat -> nat -> hash_point) : Prop := VTree {
  vt_layers : exists ls, h !! lp = Some (BLayers ls) /\
    forall d, (d < E)%nat -> exists size level,
      ls !! (E - 1 - d)%nat = Some (LayerHp (Ptr (li_arr (T d)) 0) size level);
  vt_arr d : (d < E)%nat -> h !! li_arr (T d) = Some (BPtrs (ptrs (li_nodes (T d))));
  vt_size d : (d < E)%nat -> length (li_nodes (T d)) = (2 ^ (E - 1 - d))%nat;
  vt_node d i q : (d < E)%nat -> li_nodes (T d) !! i = Some q -> h !! q = Some (BHps [hp d i]);
  vt_len d i : length (hp_hash (hp d i)) = crypto_generichash_BYTES;
  vt_base i : exists a b,
    hp_u (hp 0%nat i) = U_messages (Smgs2 (mp (2 * i)%nat) a (mp (2 * i + 1)%nat) b);
  vt_inner d i : hp_u (hp (S d) i) = U_hpoints (node_ptr (T d) (2 * i)) (node_ptr (T d) (2 * i + 1));
  vt_msg i : (i < 2 ^ E)%nat -> exists sm, msg_at h (mp i) sm (mb i) }.

(** Reading such a structure in a heap that still has all its blocks. *)
Lemma vtree_old m (h' : gmap positive block) lp E T mp mb hp :
  wf m -> vtree (heap m) lp E T mp mb hp ->
  (forall b, (b < next m)%positive -> h' !! b = heap m !! b) -> vtree h' lp E T mp mb hp.
Proof.
  intros Hwf [(ls & Hls & Hix) Ha Hs Hn Hl Hb Hi Hm] Heq.
  split; [|intros d Hd|done|intros d i q Hd Hq|done|done|done|intros i Hlt].
  - exists ls. split; [|done]. rewrite Heq; [done|by eapply wf_lt].
  - rewrite Heq; [by apply Ha|]. eapply wf_lt; [done|by apply Ha].
  - rewrite Heq; [by apply Hn|]. eapply wf_lt; [done|by apply (Hn d i)].
  - destruct (Hm i Hlt) as [sm Hsm]. exists sm. by eapply msg_at_old.
Qed.

(** The trees of the builders have this shape, also after everything that is
    not part of the tree was changed at will: its node hashes stay those of the
    messages [mb], the messages are the new ones. *)
Lemma tree_rep_rewritten {sod : Sodium} {ok : SodiumOk sod} h1 h2 E T mp mb mb' la lp :
  tree_rep h1 E T mp mb la lp -> (forall b, b ∈ lp :: tree_blocks T 0 E -> h2 !! b = h1 !! b) ->
  (forall i, (i < 2 ^ E)%nat -> exists sm, msg_at h2 (mp i) sm (mb' i)) ->
  vtree h2 lp E T mp mb' (level_hps T mp mb).
Proof.
  intros [Hlay (ps & ls & _ & Hls & _ & _ & Hix)] Heq Hm.
  assert (forall d b, (d < E)%nat -> b ∈ li_blocks (T d) -> h2 !! b = h1 !! b) as Heqd.
  { intros d b Hd Hb. apply Heq, elem_of_cons. right. apply elem_of_tree_blocks. exists d. split; [lia|done]. }
  split; try done.
  - exists ls. split; [rewrite Heq; [done|set_solver]|]. intros d Hd.
    destruct (Hix d Hd) as [_ H]. do 2 eexists. exact H.
  - intros d Hd. rewrite (Heqd d); [exact (lr_arr _ _ _ _ _ (Hlay d Hd))|done|]. unfold li_blocks. set_solver.
  - intros d Hd. exact (lr_len _ _ _ _ _ (Hlay d Hd)).
  - intros d i q Hd Hq. rewrite (Heqd d); [by apply (lr_node _ _ _ _ _ (Hlay d Hd))|done|].
    apply list_elem_of_lookup_2 in Hq. unfold li_blocks. set_solver.
  - intros d i. rewrite level_hps_hash. apply node_hash_length.
  - intros i. do 2 eexists. done.
Qed.

Lemma tree_rep_vtree {sod : Sodium} {ok : SodiumOk sod} h E T mp mb la lp :
  tree_rep h E T mp mb la lp -> (forall i, (i < 2 ^ E)%nat -> exists sm, msg_at h (mp i) sm (mb i)) ->
  vtree h lp E T mp mb (level_hps T mp mb).
Proof. intros Ht. by eapply tree_rep_rewritten. Qed.

Section facts.
Context {sod : Sodium} {ok : SodiumOk sod}.
Context (lp : positive) (E : nat) (T : nat -> lay_id) (mp : nat -> ptr) (mb : nat -> list byte)
  (hp : nat -> nat -> hash_point).

(** The hash stored in node [i] of layer [d]. *)
Definition stored (d i : nat) : list byte := hp_hash (hp d i).

(** The base node [k] holds the hash of its two messages. *)
Definition base_ok (k : nat) : bool :=
  bool_decide (hash_pair (crypto_generichash (mb (2 * k)%nat)) (crypto_generichash (mb (2 * k + 1)%nat)) = stored 0 k).

(** Node [j] of layer [S d] holds the hash of its two children. *)
Definition link_ok (d j : nat) : bool :=
  bool_decide (hash_pair (stored d (2 * j)) (stored d (2 * j + 1)) = stored (S d) j).

(** The loop's outcome: the value it returns with, if it returns. *)
Fixpoint levels_verdict (k n : nat) : option Z :=
  match k with
  | O => None
  | S O => if link_ok (E - 2) 0 then None else Some 0
  | S i => if link_ok (E - 1 - i) (n / 2 / 2) then levels_verdict i (n / 2) else Some 1
  end.

Lemma levels_verdict_SS i n :
  levels_verdict (S (S i)) n =
    if link_ok (E - 1 - S i) (n / 2 / 2) then levels_verdict (S i) (n / 2) else Some 1.
Proof. done. Qed.

Lemma node_at_run m d i :
  vtree (heap m) lp E T mp mb hp -> (d < E)%nat -> (i < 2 ^ (E - 1 - d))%nat ->
  exists q, node_ptr (T d) i = Ptr q 0 /\ heap m !! q = Some (BHps [hp d i]) /\
    node_at (Ptr lp 0) (Z.of_nat (E - 1 - d)) (Z.of_nat i) m = Ok (Ptr q 0, m).
Proof.
  intros Hv Hd Hi. destruct (vt_layers _ _ _ _ _ _ _ Hv) as (ls & Hls & Hix).
  destruct (Hix d Hd) as (size & level & Hl).
  destruct (node_ptr_lt (T d) i) as (q & Hq & Hp); [by rewrite (vt_size _ _ _ _ _ _ _ Hv) by done|].
  exists q. split; [done|]. split; [by apply (vt_node _ _ _ _ _ _ _ Hv)|].
  apply wp_eq. unfold node_at, load_ix. mem_cbn. apply wp_bind.
  eapply (wp_load (H:=storable_layer)); [exact Hls|by rewrite Z.add_0_l, zlookup_of_nat|].
  cbn [main_pointer padd]. eapply (wp_load (H:=storable_ptr)); [by apply (vt_arr _ _ _ _ _ _ _ Hv)|..].
  - by rewrite Z.add_0_l, zlookup_of_nat, lookup_ptrs, Hq.
  - done.
Qed.

(** Later allocations do not change what is reached. *)
Lemma node_at_old m1 i n p m :
  wf m -> node_at (Ptr lp 0) i n m = Ok (p, m) ->
  (forall b, (b < next m)%positive -> heap m1 !! b = heap m !! b) ->
  node_at (Ptr lp 0) i n m1 = Ok (p, m1).
Proof.
  intros Hwf Hr Heq. unfold node_at, load_ix in *.
  apply (wp_run _ (fun p' _ => p' = p)) in Hr as Hw; [|done].
  apply wp_unbind in Hw as (l & m' & Hl & Hw).
  pose proof (load_same _ _ _ _ Hl) as ->.
  destruct Hw as (p' & m2 & Hp & ->). pose proof (load_same _ _ _ _ Hp) as ->.
  erewrite bind_ok by exact (load_old _ _ _ _ _ Hwf Hl Heq).
  exact (load_old _ _ _ _ _ Hwf Hp Heq).
Qed.

Lemma node_at_fresh blk i n p m :
  wf m -> node_at (Ptr lp 0) i n m = Ok (p, m) ->
  let m1 := Mem (<[next m := blk]> (heap m)) (Pos.succ (next m)) (rng m) (ticks m) in
  node_at (Ptr lp 0) i n m1 = Ok (p, m1).
Proof.
  intros Hwf Hr m1. eapply node_at_old; [done..|]. intros b Hb. cbn. by rewrite lookup_insert_ne by lia.
Qed.

Lemma node_bytes d i q m :
  vtree (heap m) lp E T mp mb hp -> heap m !! q = Some (BHps [hp d i]) ->
  bytes_at (heap m) (Ptr q 0) crypto_generichash_BYTES = Ok (stored d i).
Proof. intros Hv Hq. apply bytes_at_node; [done|]. by apply (vt_len _ _ _ _ _ _ _ Hv). Qed.

(** Both branches of the parity test hash the two children in order. *)
Lemma sibling_hash_run d n m :
  vtree (heap m) lp E T mp mb hp -> (S d < E)%nat -> (n < 2 ^ (E - 1 - d))%nat ->
  let j := (n / 2)%nat in
  let N := Z.of_nat n in
  let nb := if N mod 2 =? 0 then N + 1 else N - 1 in
  (if N mod 2 =? 0
   then a ← node_at (Ptr lp 0) (Z.of_nat (E - 1 - d)) N; b ← node_at (Ptr lp 0) (Z.of_nat (E - 1 - d)) nb;
        merge_2hashses_at a b
   else a ← node_at (Ptr lp 0) (Z.of_nat (E - 1 - d)) nb; b ← node_at (Ptr lp 0) (Z.of_nat (E - 1 - d)) N;
        merge_2hashses_at a b) m =
  Ok (Ptr (next m) 0,
      Mem (<[next m := BBytes (hash_pair (stored d (2 * j)) (stored d (2 * j + 1)))]> (heap m))
        (Pos.succ (next m)) (rng m) (ticks m)).
Proof.
  intros Hv Hd Hn j N nb.
  assert (2 * j + 1 < 2 ^ (E - 1 - d))%nat as Hj.
  { replace (E - 1 - d)%nat with (S (E - 2 - d)) in * by lia. cbn [Nat.pow] in *.
    subst j. pose proof (Nat.div_mod_eq n 2). pose proof (Nat.mod_upper_bound n 2). lia. }
  destruct (node_at_run m d (2 * j) Hv) as (q0 & _ & Hq0 & R0); [lia|lia|].
  destruct (node_at_run m d (2 * j + 1) Hv) as (q1 & _ & Hq1 & R1); [lia|lia|].
  pose proof (Nat.div_mod_eq n 2) as Hdm. pose proof (Nat.mod_upper_bound n 2 ltac:(lia)) as Hub.
  fold j in Hdm. subst N nb. change 2 with (Z.of_nat 2). rewrite <-Nat2Z.inj_mod.
  destruct (Z.eqb_spec (Z.of_nat (n mod 2)) 0) as [Hm|Hm].
  - replace (Z.of_nat n) with (Z.of_nat (2 * j)) by lia.
    replace (Z.of_nat (2 * j) + 1) with (Z.of_nat (2 * j + 1)) by lia.
    erewrite bind_ok by exact R0. erewrite bind_ok by exact R1.
    apply merge_2hashses_at_run; try (by eapply node_bytes); by apply (vt_len _ _ _ _ _ _ _ Hv).
  - replace (Z.of_nat n) with (Z.of_nat (2 * j + 1)) by lia.
    replace (Z.of_nat (2 * j + 1) - 1) with (Z.of_nat (2 * j)) by lia.
    erewrite bind_ok by exact R0. erewrite bind_ok by exact R1.
    apply merge_2hashses_at_run; try (by eapply node_bytes); by apply (vt_len _ _ _ _ _ _ _ Hv).
Qed.

(** A freshly computed hash against the one stored in node [i] of layer [d]. *)
Lemma compare_run d i q bs m :
  wf m -> vtree (heap m) lp E T mp mb hp -> heap m !! q = Some (BHps [hp d i]) ->
  length bs = crypto_generichash_BYTES ->
  let m1 := Mem (<[next m := BBytes bs]> (heap m)) (Pos.succ (next m)) (rng m) (ticks m) in
  memcmp (Ptr (next m) 0) (Ptr q 0) crypto_generichash_BYTES m1 =
    Ok (if decide (bs = stored d i) then 0 else 1, m1).
Proof.
  intros Hwf Hv Hq Hl m1. pose proof (wf_lt _ _ _ Hwf Hq) as Hlt. apply memcmp_run.
  - apply bytes_at_all; [apply lookup_insert_eq|done].
  - apply bytes_at_node; [cbn; rewrite lookup_insert_ne by lia; exact Hq|].
    by apply (vt_len _ _ _ _ _ _ _ Hv).
Qed.

(** What the loop leaves: nothing when it ends, one buffer when it returns. *)
Definition levels_post (k n : nat) (Sret : Z) (m : mem) (r : Z + Z) (m' : mem) : Prop :=
  (next m <= next m')%positive /\ rng m' = rng m /\ ticks m' = ticks m /\
  match levels_verdict k n with
  | None => r = inr Sret /\ heap m' = heap m
  | Some z => r = inl z /\ exists q bs, (next m <= q < next m')%positive /\ heap m' = <[q := BBytes bs]> (heap m)
  end.

(** The comparison that ends a round: the buffer is freed, or kept. *)
Lemma round_end d i q bs m {A} (yes : Z -> M A) (no : M A) (Q : A -> mem -> Prop) :
  wf m -> vtree (heap m) lp E T mp mb hp -> heap m !! q = Some (BHps [hp d i]) ->
  length bs = crypto_generichash_BYTES ->
  let m1 := Mem (<[next m := BBytes bs]> (heap m)) (Pos.succ (next m)) (rng m) (ticks m) in
  (bs = stored d i -> wp (yes 0) Q (Mem (heap m) (Pos.succ (next m)) (rng m) (ticks m))) ->
  (bs <> stored d i -> wp no Q m1) ->
  wp (rez ← memcmp (Ptr (next m) 0) (Ptr q 0) crypto_generichash_BYTES;
      if rez =? 0 then free (Ptr (next m) 0) ;; yes rez else no) Q m1.
Proof.
  intros Hwf Hv Hq Hl m1 Hyes Hno. apply wp_bind. eapply wp_run; [by eapply compare_run|].
  destruct (decide (bs = stored d i)) as [Heq|Hne]; [|by apply Hno].
  apply wp_bind. eapply wp_free; [apply lookup_insert_eq|]. cbn [heap next rng ticks m1].
  rewrite heap_delete_fresh by (apply Hwf; lia). by apply Hyes.
Qed.

Lemma levels_post_fail n k Sret z bs m :
  levels_verdict k n = Some z ->
  levels_post k n Sret m (inl z) (Mem (<[next m := BBytes bs]> (heap m)) (Pos.succ (next m)) (rng m) (ticks m)).
Proof.
  intros Hz. unfold levels_post. rewrite Hz. cbn [heap next rng ticks]. split_and!; [lia|done..|].
  exists (next m), bs. split; [lia|done].
Qed.

Lemma verify_root_spec n Sret m :
  wf m -> vtree (heap m) lp E T mp mb hp -> (1 < E)%nat -> (n < 2)%nat ->
  wp (verify_levels 1 (Ptr lp 0) (Z.of_nat n) Sret) (levels_post 1 n Sret m) m.
Proof.
  intros Hwf Hv HE Hn. cbn [verify_levels]. cbv zeta.
  replace (Z.shiftr (Z.of_nat n) 1) with (Z.of_nat 0) by (destruct n as [|[|]]; [done|done|lia]).
  change (Z.of_nat 0 =? 0) with true. cbv iota.
  assert (2 ^ (E - 1 - (E - 2)) = 2)%nat as H2 by (by replace (E - 1 - (E - 2))%nat with 1%nat by lia).
  destruct (node_at_run m (E - 1) 0 Hv) as (q & _ & Hq & Hr); [lia|rewrite Nat.sub_diag; cbn; lia|].
  destruct (node_at_run m (E - 2) 0 Hv) as (q0 & P0 & Hq0 & _); [lia|lia|].
  destruct (node_at_run m (E - 2) 1 Hv) as (q1 & P1 & Hq1 & _); [lia|lia|].
  rewrite Nat.sub_diag in Hr. pose proof (vt_inner _ _ _ _ _ _ _ Hv (E - 2) 0) as Hu.
  replace (S (E - 2)) with (E - 1)%nat in Hu by lia.
  cbn [Nat.mul Nat.add] in Hu. rewrite P0, P1 in Hu.
  apply wp_bind. eapply wp_run; [exact Hr|].
  apply wp_bind. eapply (wp_load (H:=storable_hp)); [exact Hq|done|].
  rewrite Hu. wps. eapply wp_run; [exact Hr|]. wps.
  rewrite Hu. wps.
  eapply wp_run; [eapply merge_2hashses_at_run; try (by eapply node_bytes); by apply (vt_len _ _ _ _ _ _ _ Hv)|].
  apply wp_bind. eapply wp_run; [by apply node_at_fresh|].
  eapply (round_end (E - 1) 0); [done..|apply hash_pair_length| |]; intros Hc; apply wp_ret.
  - unfold levels_post. cbn [levels_verdict]. unfold link_ok. cbn [Nat.mul Nat.add].
    replace (S (E - 2)) with (E - 1)%nat by lia.
    rewrite bool_decide_eq_true_2 by done. cbn [heap next rng ticks]. rewrite Z.add_0_r.
    split_and!; [lia|done..].
  - apply levels_post_fail. cbn [levels_verdict]. unfold link_ok. cbn [Nat.mul Nat.add].
    replace (S (E - 2)) with (E - 1)%nat by lia. by rewrite bool_decide_eq_false_2.
Qed.

Lemma verify_levels_spec k n Sret m :
  wf m -> vtree (heap m) lp E T mp mb hp -> (0 < k < E)%nat -> (n < 2 ^ k)%nat ->
  wp (verify_levels k (Ptr lp 0) (Z.of_nat n) Sret) (levels_post k n Sret m) m.
Proof.
  revert n Sret m; induction k as [|[|i] IH]; intros n Sret m Hwf Hv Hk Hn; [lia| |].
  { apply verify_root_spec; [done..|lia|done]. }
  assert (n / 2 < 2 ^ S i)%nat as Hn2 by (apply Nat.Div0.div_lt_upper_bound; cbn [Nat.pow] in *; lia).
  assert (n / 2 / 2 < 2 ^ i)%nat as Hn4 by (apply Nat.Div0.div_lt_upper_bound; cbn [Nat.pow] in *; lia).
  set (d := (E - 1 - S i)%nat). assert (S i = (E - 1 - d)%nat) as Hd by lia.
  assert (i = (E - 1 - S d)%nat) as Hi by lia.
  remember (S i) as si eqn:Hsi. cbn [verify_levels]. cbv zeta.
  rewrite <-(shiftr_div2 n), (proj2 (Z.eqb_neq _ _)) by lia.
  apply wp_bind. eapply wp_run; [rewrite Hd; apply sibling_hash_run; [done|lia|by rewrite <-Hd]|].
  destruct (node_at_run m (S d) (n / 2 / 2) Hv) as (q & _ & Hq & Hr); [lia|by rewrite <-Hi|].
  apply wp_bind. rewrite <-shiftr_div2. eapply wp_run.
  { apply node_at_fresh; [done|]. replace (Z.of_nat si - 1) with (Z.of_nat (E - 1 - S d)) by lia. exact Hr. }
  eapply (round_end (S d)); [done..|apply hash_pair_length| |]; intros Hc.
  - rewrite Z.add_0_r. eapply wp_mono; [apply IH; [|done|lia|done]|].
    { eapply wf_next; [exact Hwf|lia]. }
    intros r m'. unfold levels_post. cbn [next rng ticks heap].
    subst si. rewrite levels_verdict_SS. fold d. unfold link_ok at 1. rewrite bool_decide_eq_true_2 by done.
    intros (? & ? & ? & Hres). split_and!; [lia|done..|].
    destruct (levels_verdict (S i) (n / 2)); [|done].
    destruct Hres as (? & q' & bs & ? & ?). split; [done|]. exists q', bs. split; [lia|done].
  - apply wp_ret, levels_post_fail. subst si. rewrite levels_verdict_SS. fold d. unfold link_ok.
    by rewrite bool_decide_eq_false_2.
Qed.

(** From the second layer on, the walk never rejects: the root's own check
    repeats the one that precedes it. *)
Lemma levels_verdict_accepts k n :
  (1 < k)%nat -> (n < 2 ^ k)%nat -> (k < E)%nat -> levels_verdict k n = None \/ levels_verdict k n = Some 1.
Proof.
  revert n. induction k as [|[|[|i]] IH]; intros n Hk Hn HE; [lia|lia| |].
  - rewrite levels_verdict_SS. cbn [levels_verdict]. replace (E - 1 - 1)%nat with (E - 2)%nat by lia.
    assert (n / 2 / 2 = 0)%nat as ->.
    { rewrite Nat.Div0.div_div. apply Nat.div_small. cbn in Hn. lia. }
    destruct (link_ok (E - 2) 0); auto.
  - rewrite levels_verdict_SS. destruct (link_ok _ _); [|by right]. apply IH; [lia| |lia].
    apply Nat.Div0.div_lt_upper_bound. cbn [Nat.pow] in *. lia.
Qed.

(** The function's verdict on the pair of messages [2 k], [2 k + 1]. *)
Definition verdict (k : nat) : Z :=
  if base_ok k then match levels_verdict (E - 1) k with None => 1 | Some z => z end else 0.

(** The runs that reach the function's end. *)
Definition clean (k : nat) : bool := base_ok k && bool_decide (levels_verdict (E - 1) k = None).

(** The child pointer the parity test picks is the base node itself. *)
Lemma child_ptr k :
  (if (if Z.of_nat k mod 2 =? 0 then 1 else 0) =? 0
   then Some (node_ptr (T 0%nat) (2 * (k / 2) + 1)) else Some (node_ptr (T 0%nat) (2 * (k / 2)))) =
  Some (node_ptr (T 0%nat) k).
Proof.
  pose proof (Nat.div_mod_eq k 2) as Hdm. pose proof (Nat.mod_upper_bound k 2 ltac:(lia)) as Hub.
  change 2 with (Z.of_nat 2). rewrite <-Nat2Z.inj_mod.
  destruct (Z.eqb_spec (Z.of_nat (k mod 2)) 0); cbn [Z.eqb]; do 2 f_equal; lia.
Qed.

(** [m'] has [n] blocks that [m] did not have, and otherwise the same heap. *)
Definition leaks (m m' : mem) (n : nat) : Prop :=
  exists F, length F = n /\ NoDup F /\ (forall b, b ∈ F -> is_Some (heap m' !! b)) /\ grows m m' F [].

(** One block more. *)
Lemma leaks_one m m3 m' F q v :
  grows m m3 F [] -> NoDup F -> (forall b, b ∈ F -> is_Some (heap m3 !! b)) ->
  heap m' = <[q := v]> (heap m3) -> (next m3 <= q < next m')%positive ->
  rng m' = rng m3 -> ticks m' = ticks m3 -> leaks m m' (length F + 1).
Proof.
  intros Hg Hnd Hlive Hh Hq Hr Ht.
  assert (grows m3 m' [q] []) as Hg1.
  { split; [lia|intros b ->%list_elem_of_singleton; lia| | |done|done].
    - intros b Hb _. rewrite Hh, lookup_insert_ne; [done|]. intros ->. by apply Hb, list_elem_of_singleton.
    - intros b Hb. rewrite Hh, lookup_insert_ne by lia. apply (g_wf _ _ _ _ Hg). lia. }
  exists (F ++ [q]). split_and!.
  - by rewrite length_app.
  - eapply grows_NoDup; [exact Hg|exact Hg1|done|apply NoDup_singleton].
  - intros b [Hb|Hb]%elem_of_app.
    + rewrite Hh. destruct (decide (b = q)) as [->|]; [rewrite lookup_insert_eq; by eexists|].
      rewrite lookup_insert_ne by done. by apply Hlive.
    + apply list_elem_of_singleton in Hb as ->. rewrite Hh, lookup_insert_eq. by eexists.
  - change (@nil positive) with (@nil positive ++ []). by eapply grows_trans.
Qed.

Lemma leaks_none m m' :
  wf m -> heap m' = heap m -> (next m <= next m')%positive -> rng m' = rng m -> ticks m' = ticks m ->
  leaks m m' 0.
Proof.
  intros Hwf Hh Hn Hr Ht. exists []. split_and!; [done|apply NoDup_nil_2|by intros b ?%not_elem_of_nil|].
  split; [done|by intros b ?%not_elem_of_nil|by intros; rewrite Hh| |done|done].
  intros b Hb. rewrite Hh. apply Hwf. lia.
Qed.

(** The second half of the function, with the three buffers of the first
    half in the heap. *)
Lemma verify_tail k q bs v1 v2 v3 m :
  wf m -> vtree (heap m) lp E T mp mb hp -> (1 < E)%nat -> (k < 2 ^ (E - 1))%nat ->
  heap m !! q = Some (BHps [hp 0%nat k]) -> length bs = crypto_generichash_BYTES ->
  bs = hash_pair (crypto_generichash (mb (2 * k)%nat)) (crypto_generichash (mb (2 * k + 1)%nat)) ->
  let a1 := next m in let a2 := Pos.succ a1 in let a3 := Pos.succ a2 in let a4 := Pos.succ a3 in
  wp (ret_gr_lev ← memcmp (Ptr a4 0) (Ptr q 0) crypto_generichash_BYTES;
      if negb (ret_gr_lev =? 0) then mret 0 else
      free (Ptr a4 0) ;;
      r ← verify_levels (E - 1) (Ptr lp 0) (Z.of_nat k) 0;
      match r with
      | inl ret => mret ret
      | inr Sret => free (Ptr a3 0) ;; free (Ptr a1 0) ;; free (Ptr a2 0) ;;
                    mret (if Sret + ret_gr_lev =? 0 then 1 else 0)
      end)
    (fun r m' => r = verdict k /\ leaks m m' (if clean k then 0 else 4)%nat)
    (Mem (<[a4 := BBytes bs]> (<[a3 := v3]> (<[a2 := v2]> (<[a1 := v1]> (heap m)))))
       (Pos.succ a4) (rng m) (ticks m)).
Proof.
  intros Hwf Hv HE Hk Hq Hl Hbs a1 a2 a3 a4. pose proof (wf_lt _ _ _ Hwf Hq) as Hlt.
  assert (a1 < a2 < a3 /\ a3 < a4 /\ next m <= a1)%positive as Hord by (subst a4 a3 a2 a1; lia).
  set (m3 := Mem (<[a3 := v3]> (<[a2 := v2]> (<[a1 := v1]> (heap m)))) a4 (rng m) (ticks m)).
  assert (grows m m3 [a1; a2; a3] []) as Hg3.
  { change [a1; a2; a3] with ((([] ++ [a1]) ++ [a2]) ++ [a3]). do 3 apply grows_then_alloc.
    rewrite <-mem_eta. by apply grows_refl. }
  pose proof (g_wf _ _ _ _ Hg3) as Hwf3.
  assert (vtree (heap m3) lp E T mp mb hp) as Hv3.
  { eapply vtree_old; [exact Hwf|exact Hv|]. intros b Hb. cbn. by rewrite !lookup_insert_ne by lia. }
  assert (heap m3 !! q = Some (BHps [hp 0%nat k])) as Hq3 by (cbn; by rewrite !lookup_insert_ne by lia).
  assert (NoDup [a1; a2; a3]) as Hnd.
  { rewrite !NoDup_cons, !not_elem_of_cons. split_and!; [..|apply NoDup_nil_2]; try lia; apply not_elem_of_nil. }
  assert (forall b, b ∈ [a1; a2; a3] -> is_Some (heap m3 !! b)) as Hlive.
  { intros b. rewrite !elem_of_cons. intros [->|[->|[->|[]%not_elem_of_nil]]]; unfold m3; heap_simpl; by eexists. }
  apply wp_bind. eapply wp_run; [exact (compare_run 0 k q bs m3 Hwf3 Hv3 Hq3 Hl)|].
  unfold verdict, clean, base_ok. rewrite <-Hbs.
  destruct (decide (bs = stored 0 k)) as [Hc|Hc]; cbn [negb Z.eqb].
  - rewrite (bool_decide_eq_true_2 (bs = stored 0 k)) by done. cbn [andb].
    apply wp_bind. eapply wp_free; [apply lookup_insert_eq|]. cbn [heap next rng ticks].
    rewrite heap_delete_fresh by (apply Hwf3; cbn; lia).
    apply wp_bind. eapply wp_mono; [apply verify_levels_spec|].
    { eapply wf_next; [exact Hwf3|lia]. } { exact Hv3. } { lia. } { exact Hk. }
    intros r m' (Hn & Hr & Ht & Hres). cbn [next rng ticks heap] in *.
    destruct (levels_verdict (E - 1) k) as [z|].
    + destruct Hres as (-> & q' & bs' & Hq' & Hh). apply wp_ret. split; [done|].
      rewrite bool_decide_eq_false_2 by done.
      apply (leaks_one m m3 m' [a1; a2; a3] q' (BBytes bs')); try done. lia.
    + destruct Hres as [-> Hh]. rewrite bool_decide_eq_true_2 by done.
      destruct m' as [h' n' r' t']. cbn [heap next rng ticks] in *. subst h' r' t'. unfold m3 in Hn |- *.
      cbn [heap next rng ticks] in *. wps. split; [done|]. apply leaks_none; cbn [heap next rng ticks]; [done| |lia|done|done].
      heap_ext.
  - rewrite (bool_decide_eq_false_2 (bs = stored 0 k)) by done. cbn [andb]. apply wp_ret. split; [done|].
    apply (leaks_one m m3 _ [a1; a2; a3] a4 (BBytes bs)); try done. cbn. lia.
Qed.

Lemma merkle_verify_message_spec n m :
  wf m -> vtree (heap m) lp E T mp mb hp -> (1 < E < 64)%nat -> (n < 2 ^ E)%nat ->
  wp (merkle_verify_message (Z.of_nat E) (Z.of_nat n) (Ptr lp 0))
    (fun r m' => r = verdict (n / 2) /\ leaks m m' (if clean (n / 2) then 0 else 4)%nat) m.
Proof.
  intros Hwf Hv HE Hn. unfold merkle_verify_message. cbv zeta. rewrite <-(shiftr_div2 n).
  rewrite (fill_bound E) by lia. rewrite !u64_small by lia. set (k := (n / 2)%nat).
  assert (2 ^ E = 2 * 2 ^ (E - 1))%nat as HE2 by (rewrite <-Nat.pow_succ_r'; f_equal; lia).
  assert (k < 2 ^ (E - 1))%nat as Hk by (apply Nat.Div0.div_lt_upper_bound; lia).
  replace (Z.of_nat E - 1) with (Z.of_nat (E - 1 - 0)) by lia.
  destruct (node_at_run m 0 k Hv) as (q & Hqp & Hq & Hr); [lia|by rewrite Nat.sub_0_r|].
  destruct (vt_base _ _ _ _ _ _ _ Hv k) as (s1 & s2 & Hu).
  destruct (vt_msg _ _ _ _ _ _ _ Hv (2 * k)) as (sm1 & (b1 & i1 & ms1 & E1 & Hb1 & Hi1) & Hbs1); [lia|].
  destruct (vt_msg _ _ _ _ _ _ _ Hv (2 * k + 1)) as (sm2 & (b2 & i2 & ms2 & E2 & Hb2 & Hi2) & Hbs2); [lia|].
  rewrite E1, E2 in Hu.
  pose proof (wf_lt _ _ _ Hwf Hb1). pose proof (wf_lt _ _ _ Hwf Hb2). pose proof (wf_lt _ _ _ Hwf Hq).
  apply wp_bind. eapply wp_run; [exact Hr|]. wps. rewrite Hu. wps. cbn [smsg_p1]. wps.
  eapply wp_run; [apply calc_hash_run; [done|exact Hbs1]|]. wps.
  eapply wp_run; [eapply node_at_old; [exact Hwf|exact Hr|]; intros; by heap_simpl|]. wps.
  rewrite Hu. wps. cbn [smsg_p2]. wps.
  eapply wp_run; [apply calc_hash_run; [solve_wf|]; eapply bytes_at_old; [exact Hwf|exact Hbs2|]; intros; by heap_simpl|]. wps.
  eapply wp_run.
  { apply merge_2hashses_at_run; [..|apply (generichash_length (mb (2 * k)%nat))|apply (generichash_length (mb (2 * k + 1)%nat))];
      (apply bytes_at_all; [by heap_simpl|by rewrite generichash_length]). }
  wps. rewrite <-shiftr_div2. replace (Z.of_nat E - 2) with (Z.of_nat (E - 1 - 1)) by lia.
  destruct (node_at_run m 1 (k / 2) Hv) as (u & _ & Hup & Hru); [lia| |].
  { apply Nat.Div0.div_lt_upper_bound. rewrite <-Nat.pow_succ_r'. by replace (S (E - 1 - 1)) with (E - 1)%nat by lia. }
  pose proof (wf_lt _ _ _ Hwf Hup).
  eapply wp_run; [eapply node_at_old; [exact Hwf|exact Hru|]; intros; by heap_simpl|]. wps.
  rewrite (vt_inner _ _ _ _ _ _ _ Hv 0 (k / 2)). cbn [get_hpoint1 get_hpoint2].
  rewrite child_ptr. wps. rewrite Hqp.
  apply wp_unbind, (verify_tail k q); [done|done|lia|done|done|apply hash_pair_length|done].
Qed.
End facts.

(** ** Consequences *)
Section verdicts.
Context {sod : Sodium} {ok : SodiumOk sod}.
Implicit Types (T : nat -> lay_id) (mp : nat -> ptr) (mb : nat -> list byte) (hp : nat -> nat -> hash_point).

Lemma verdict_base E mb hp k :
  (2 < E)%nat -> (k < 2 ^ (E - 1))%nat -> verdict E mb hp k = if base_ok mb hp k then 1 else 0.
Proof.
  intros HE Hk. unfold verdict. destruct (base_ok mb hp k); [|done].
  destruct (levels_verdict_accepts E hp (E - 1) k) as [-> | ->]; [lia|done|lia|done|done].
Qed.

Lemma half_lt n E : (0 < E)%nat -> (n < 2 ^ E)%nat -> (n / 2 < 2 ^ (E - 1))%nat.
Proof.
  intros HE Hn. apply Nat.Div0.div_lt_upper_bound. rewrite <-Nat.pow_succ_r'. by replace (S (E - 1)) with E by lia.
Qed.

(** In a genuine tree every check passes. *)
Lemma levels_verdict_genuine E T mp mb k n :
  (1 < E)%nat -> levels_verdict E (level_hps T mp mb) k n = None.
Proof.
  intros HE. assert (forall d j, link_ok (level_hps T mp mb) d j = true) as Hl.
  { intros d j. unfold link_ok, stored. apply bool_decide_eq_true_2. by rewrite !level_hps_hash. }
  revert n; induction k as [|[|k] IH]; intros n; [done|cbn; by rewrite Hl|].
  rewrite levels_verdict_SS, Hl. apply IH.
Qed.

Lemma base_ok_genuine T mp mb k : base_ok mb (level_hps T mp mb) k = true.
Proof. unfold base_ok, stored. apply bool_decide_eq_true_2. by rewrite level_hps_hash. Qed.

Lemma clean_verdict E mb hp k : clean E mb hp k = true -> verdict E mb hp k = 1.
Proof.
  unfold clean, verdict. intros [Hb Hl]%andb_true_iff. rewrite Hb.
  apply bool_decide_eq_true in Hl. by rewrite Hl.
Qed.

Lemma client_tree_vtree m m' E p mb gc la lp arr T :
  wf m -> client_tree m m' E (fun i => padd p (Z.of_nat i)) mb gc la lp arr T ->
  (forall i, (i < 2 ^ E)%nat -> exists sm, msg_at (heap m) (padd p (Z.of_nat i)) sm (mb i)) ->
  vtree (heap m') lp E T (fun i => padd p (Z.of_nat i)) mb (level_hps T (fun i => padd p (Z.of_nat i)) mb).
Proof.
  intros Hwf [_ _ Ht _ Hg] Hm. eapply tree_rep_vtree; [exact Ht|]. intros i Hi. destruct (Hm i Hi) as [sm Hsm].
  exists sm. eapply msg_at_old; [exact Hwf|exact Hsm|]. intros b Hb.
  apply (g_frame _ _ _ _ Hg); [|apply not_elem_of_nil]. intros Hin%(g_range _ _ _ _ Hg). lia.
Qed.

(** Checking a message of a genuine tree. *)
Lemma verify_genuine lp E T mp mb n m :
  wf m -> vtree (heap m) lp E T mp mb (level_hps T mp mb) -> (1 < E < 64)%nat -> (n < 2 ^ E)%nat ->
  wp (merkle_verify_message (Z.of_nat E) (Z.of_nat n) (Ptr lp 0))
    (fun r m' => r = 1 /\ heap m' = heap m /\ wf m' /\ (next m <= next m')%positive) m.
Proof.
  intros Hwf Hv HE Hn. eapply wp_mono; [by eapply merkle_verify_message_spec|].
  assert (clean E mb (level_hps T mp mb) (n / 2) = true) as Hc
    by (unfold clean; by rewrite base_ok_genuine, levels_verdict_genuine by lia).
  intros r m2 [-> Hl]. rewrite Hc in Hl. destruct Hl as (F & ->%nil_length_inv & _ & _ & Hg).
  split_and!; [by apply clean_verdict| |exact (g_wf _ _ _ _ Hg)|exact (g_next _ _ _ _ Hg)].
  apply map_eq. intros b. by rewrite (g_frame _ _ _ _ Hg) by apply not_elem_of_nil.
Qed.

(** C22: the client's [calc_merkle_tree] over [2^E] live messages returns a
    container whose layer array holds, at index [E-1-d] and position [i], a
    node with the hash of the textbook tree at that place; the node at the top
    holds the Merkle root over all messages; nothing that existed before is
    changed. *)
Theorem client_calc_merkle_tree_correct E p mb m :
  wf m -> (0 < E < 64)%nat ->
  (forall i, (i < 2 ^ E)%nat -> exists sm, msg_at (heap m) (padd p (Z.of_nat i)) sm (mb i)) ->
  let leaf i := crypto_generichash (mb i) in
  wp (client_calc_merkle_tree (Z.of_nat E) p)
    (fun c m' => exists lp la arr, load c m' = Ok (LMsgContainer (Ptr lp 0) la arr, m') /\
       (forall d i, (d < E)%nat -> (i < 2 ^ (E - 1 - d))%nat -> exists node,
          node_at (Ptr lp 0) (Z.of_nat (E - 1 - d)) (Z.of_nat i) m' = Ok (node, m') /\
          load_bytes node crypto_generichash_BYTES m' = Ok (node_hash leaf d i, m')) /\
       node_hash leaf (E - 1) 0 = merkle_root E (leaf <$> List.seq 0 (2 ^ E)) /\
       (forall b, (b < next m)%positive -> heap m' !! b = heap m !! b)) m.
Proof.
  intros Hwf HE Hm leaf. eapply wp_mono; [by apply client_calc_merkle_tree_spec|].
  intros c m' (gc & la & lp & arr & T & -> & Hct). pose proof (client_tree_vtree _ _ _ _ _ _ _ _ _ _ Hwf Hct Hm) as Hv.
  exists lp, (Ptr la 0), (Ptr arr 0). split_and!.
  - unfold load. by erewrite (block_at_ok (H:=storable_cont)) by exact (ct_cont _ _ _ _ _ _ _ _ _ _ Hct).
  - intros d i Hd Hi. destruct (node_at_run _ _ _ _ _ _ m' d i Hv Hd Hi) as (q & _ & Hq & Hr).
    exists (Ptr q 0). split; [exact Hr|]. unfold load_bytes.
    rewrite (node_bytes _ _ _ _ _ _ _ _ _ _ Hv Hq). unfold stored. by rewrite level_hps_hash.
  - apply node_hash_root. lia.
  - intros b Hb. apply (g_frame _ _ _ _ (ct_grows _ _ _ _ _ _ _ _ _ _ Hct)); [|apply not_elem_of_nil].
    intros Hin%(g_range _ _ _ _ (ct_grows _ _ _ _ _ _ _ _ _ _ Hct)). lia.
Qed.

(** C24: completeness of verification.  On the tree the client builds over
    its messages (at least four of them), [merkle_verify_message] returns 1
    for every message number and leaves the heap exactly as it was. *)
Theorem merkle_verify_complete E p mb n m :
  wf m -> (1 < E < 64)%nat -> (n < 2 ^ E)%nat ->
  (forall i, (i < 2 ^ E)%nat -> exists sm, msg_at (heap m) (padd p (Z.of_nat i)) sm (mb i)) ->
  wp (client_calc_merkle_tree (Z.of_nat E) p)
    (fun c m1 =>
       wp (cont ← load (A:=l_msg_container) c;
           merkle_verify_message (Z.of_nat E) (Z.of_nat n) (main_layer_pointer cont))
         (fun r m2 => r = 1 /\ heap m2 = heap m1) m1) m.
Proof.
  intros Hwf HE Hn Hm. eapply wp_mono; [apply client_calc_merkle_tree_spec; [done|lia|done]|].
  intros c m1 (gc & la & lp & arr & T & -> & Hct). pose proof (client_tree_vtree _ _ _ _ _ _ _ _ _ _ Hwf Hct Hm) as Hv.
  apply wp_bind. eapply (wp_load (H:=storable_cont)); [exact (ct_cont _ _ _ _ _ _ _ _ _ _ Hct)|done|].
  cbn [main_layer_pointer].
  eapply wp_mono; [eapply verify_genuine; [|exact Hv|lia|done]|].
  { exact (g_wf _ _ _ _ (ct_grows _ _ _ _ _ _ _ _ _ _ Hct)). }
  intros r m2 (-> & Hh & _). done.
Qed.

(** C14: the exact verdict from three layers on.  On a tree-shaped structure
    with arbitrary hashes in its nodes, [merkle_verify_message] returns 1 when
    the base node of the message's pair holds the hash of that pair and 0
    otherwise: no node above the base, the root included, has any influence.
    When it rejects, or when it met a mismatch it ignored, exactly four
    buffers stay allocated. *)
Theorem merkle_verify_exact_verdict lp E T mp mb hp n m :
  wf m -> vtree (heap m) lp E T mp mb hp -> (2 < E < 64)%nat -> (n < 2 ^ E)%nat ->
  wp (merkle_verify_message (Z.of_nat E) (Z.of_nat n) (Ptr lp 0))
    (fun r m' => r = (if base_ok mb hp (n / 2) then 1 else 0) /\
       leaks m m' (if clean E mb hp (n / 2) then 0 else 4)%nat) m.
Proof.
  intros Hwf Hv HE Hn. eapply wp_mono; [eapply merkle_verify_message_spec; [done|exact Hv|lia|done]|].
  intros r m' [-> Hl]. split; [|done]. apply verdict_base; [lia|]. apply half_lt; [lia|done].
Qed.

(** The client's tree after everything older was changed at will: its shape
    and node hashes stay, the messages are the new ones. *)
Lemma client_tree_rewritten m m1 m2 E p mb mb' gc la lp arr T :
  let mp := fun i => padd p (Z.of_nat i) in
  client_tree m m1 E mp mb gc la lp arr T ->
  (forall b, (next m <= b)%positive -> heap m2 !! b = heap m1 !! b) ->
  (forall i, (i < 2 ^ E)%nat -> exists sm, msg_at (heap m2) (mp i) sm (mb' i)) ->
  vtree (heap m2) lp E T mp mb' (level_hps T mp mb).
Proof.
  intros mp [_ _ Ht _ Hg] Heq Hm. eapply tree_rep_rewritten; [exact Ht| |exact Hm].
  intros b Hb. apply Heq, (g_range _ _ _ _ Hg). set_solver.
Qed.

(** The hash of the pair of messages number [k]. *)
Definition pair_hash (mb : nat -> list byte) (k : nat) : list byte :=
  hash_pair (crypto_generichash (mb (2 * k)%nat)) (crypto_generichash (mb (2 * k + 1)%nat)).

(** The three places where that hash can miss a change of the pair. *)
Definition pair_collides (mb mb' : nat -> list byte) (k : nat) : Prop :=
  let h i := crypto_generichash (mb i) in
  let h' i := crypto_generichash (mb' i) in
  collide (mb (2 * k)%nat) (mb' (2 * k)%nat) \/ collide (mb (2 * k + 1)%nat) (mb' (2 * k + 1)%nat) \/
  collide (h (2 * k)%nat ++ h (2 * k + 1)%nat) (h' (2 * k)%nat ++ h' (2 * k + 1)%nat).

Lemma pair_hash_binds mb mb' k :
  pair_hash mb k = pair_hash mb' k ->
  (mb (2 * k)%nat = mb' (2 * k)%nat /\ mb (2 * k + 1)%nat = mb' (2 * k + 1)%nat) \/ pair_collides mb mb' k.
Proof.
  intros Heq. unfold pair_collides. apply hash_pair_same in Heq as [[H0 H1]|Hc]; [| |by rewrite !generichash_length]; [|by auto].
  apply generichash_same in H0 as [H0|Hc]; [|by auto]. apply generichash_same in H1 as [H1|Hc]; by auto.
Qed.

(** C15: a change of a message after the tree was built is detected.  Whatever
    is done to the memory that existed before the tree was built, checking
    message [n] then returns 1 when the pair of [n] still has the hash it had and
    0 otherwise; and when one of the two messages of the pair differs from what
    it was, the hash is the same only if these very messages, or the two strings
    of their hashes, are different inputs with the same hash. *)
Theorem merkle_verify_detects_change E p mb n m :
  wf m -> (1 < E < 64)%nat -> (n < 2 ^ E)%nat ->
  (forall i, (i < 2 ^ E)%nat -> exists sm, msg_at (heap m) (padd p (Z.of_nat i)) sm (mb i)) ->
  wp (client_calc_merkle_tree (Z.of_nat E) p)
    (fun c m1 => forall m2 mb', wf m2 ->
       (forall b, (next m <= b)%positive -> heap m2 !! b = heap m1 !! b) ->
       (forall i, (i < 2 ^ E)%nat -> exists sm, msg_at (heap m2) (padd p (Z.of_nat i)) sm (mb' i)) ->
       wp (cont ← load (A:=l_msg_container) c;
           merkle_verify_message (Z.of_nat E) (Z.of_nat n) (main_layer_pointer cont))
         (fun r _ => r = if decide (pair_hash mb' (n / 2) = pair_hash mb (n / 2)) then 1 else 0) m2 /\
       (mb' (2 * (n / 2))%nat <> mb (2 * (n / 2))%nat \/ mb' (2 * (n / 2) + 1)%nat <> mb (2 * (n / 2) + 1)%nat ->
        pair_hash mb' (n / 2) = pair_hash mb (n / 2) -> pair_collides mb' mb (n / 2))) m.
Proof.
  intros Hwf HE Hn Hm. eapply wp_mono; [apply client_calc_merkle_tree_spec; [done|lia|done]|].
  intros c m1 (gc & la & lp & arr & T & -> & Hct) m2 mb' Hwf2 Heq Hm'.
  pose proof (client_tree_rewritten _ _ _ _ _ _ _ _ _ _ _ _ Hct Heq Hm') as Hv. split.
  - apply wp_bind. eapply (wp_load (H:=storable_cont)).
    { rewrite Heq; [exact (ct_cont _ _ _ _ _ _ _ _ _ _ Hct)|].
      apply (g_range _ _ _ _ (ct_grows _ _ _ _ _ _ _ _ _ _ Hct)). set_solver. }
    { done. }
    cbn [main_layer_pointer].
    eapply wp_mono; [eapply merkle_verify_message_spec; [done|exact Hv|lia|done]|].
    intros r m' [-> _]. unfold verdict, base_ok, stored. rewrite level_hps_hash, levels_verdict_genuine by lia.
    cbn [node_hash]. unfold pair_hash. case_bool_decide; by case_decide.
  - intros Hdiff Hsame. destruct (pair_hash_binds _ _ _ Hsame) as [[H0 H1]|?]; [destruct Hdiff; congruence|done].
Qed.
End verdicts.

Lemma client_calc_merkle_tree_correct_witness :
  wp (client_calc_merkle_tree (sod:=Toy.mixing) 3 (Ptr 1 0))
    (fun c m' => exists lp la arr, load c m' = Ok (LMsgContainer (Ptr lp 0) la arr, m')) Sample.client_mem.
Proof.
  eapply wp_mono; [exact (client_calc_merkle_tree_correct (sod:=Toy.mixing) (ok:=Toy.mixing_ok) 3 (Ptr 1 0) Sample.client_text
    Sample.client_mem Sample.client_mem_wf ltac:(lia) Sample.client_mem_msgs)|].
  intros c m' (lp & la & arr & H & _). exists lp, la, arr. exact H.
Defined.

Lemma merkle_verify_complete_witness :
  wp (client_calc_merkle_tree (sod:=Toy.mixing) 3 (Ptr 1 0))
    (fun c m1 => wp (cont ← load (A:=l_msg_container) c;
           merkle_verify_message (sod:=Toy.mixing) 3 5 (main_layer_pointer cont))
         (fun r m2 => r = 1 /\ heap m2 = heap m1) m1) Sample.client_mem.
Proof.
  exact (merkle_verify_complete (sod:=Toy.mixing) (ok:=Toy.mixing_ok) 3 (Ptr 1 0) Sample.client_text 5
    Sample.client_mem Sample.client_mem_wf ltac:(lia) ltac:(cbn; lia) Sample.client_mem_msgs).
Defined.

(** A genuine tree over the eight sample messages satisfies the shape. *)
Lemma merkle_verify_exact_verdict_witness :
  wp (client_calc_merkle_tree (sod:=Toy.mixing) 3 (Ptr 1 0))
    (fun c m1 => exists lp, wp (merkle_verify_message (sod:=Toy.mixing) 3 5 (Ptr lp 0))
         (fun r m2 => r = 1) m1) Sample.client_mem.
Proof.
  eapply wp_mono; [exact (client_calc_merkle_tree_spec (sod:=Toy.mixing) (ok:=Toy.mixing_ok) 3 (Ptr 1 0) Sample.client_text
    Sample.client_mem Sample.client_mem_wf ltac:(lia) Sample.client_mem_msgs)|].
  intros c m1 (gc & la & lp & arr & T & -> & Hct). exists lp.
  pose proof (client_tree_vtree (ok:=Toy.mixing_ok) _ _ _ _ _ _ _ _ _ _ Sample.client_mem_wf Hct Sample.client_mem_msgs) as Hv.
  eapply wp_mono; [apply (merkle_verify_exact_verdict (ok:=Toy.mixing_ok) lp 3 _ _ _ _ 5 m1
    (g_wf _ _ _ _ (ct_grows _ _ _ _ _ _ _ _ _ _ Hct)) Hv ltac:(lia) ltac:(cbn; lia))|].
  intros r m2 [-> _]. by rewrite (base_ok_genuine (sod:=Toy.mixing)).
Defined.

(** The sample messages after the first byte of the text was changed. *)
Definition altered (m : mem) : mem :=
  Mem (<[2%positive := BBytes (xff :: tail Sample.text)]> (heap m)) (next m) (rng m) (ticks m).

Definition altered_text (i : nat) : list byte := take 2 (drop i (xff :: tail Sample.text)).

Lemma altered_msgs m1 i :
  heap m1 !! 1%positive = heap Sample.client_mem !! 1%positive ->
  (i < 2 ^ 3)%nat -> exists sm, msg_at (heap (altered m1)) (padd (Ptr 1 0) (Z.of_nat i)) sm (altered_text i).
Proof.
  intros H1 Hi. change (2 ^ 3)%nat with 8%nat in Hi. unfold altered. cbn [heap].
  do 8 (destruct i as [|i];
    [eexists; split; [do 3 eexists; split; [done|split; [rewrite lookup_insert_ne, H1 by done; reflexivity|reflexivity]]|
      cbn [sm_message sm_length bytes_at]; rewrite lookup_insert_eq; reflexivity]|]). lia.
Qed.

Lemma merkle_verify_detects_change_witness :
  wp (client_calc_merkle_tree (sod:=Toy.mixing) 3 (Ptr 1 0))
    (fun c m1 => wp (cont ← load (A:=l_msg_container) c;
           merkle_verify_message (sod:=Toy.mixing) 3 1 (main_layer_pointer cont))
         (fun r _ => r = 0) (altered m1)) Sample.client_mem.
Proof.
  pose proof (client_calc_merkle_tree_spec (sod:=Toy.mixing) (ok:=Toy.mixing_ok) 3 (Ptr 1 0) Sample.client_text
    Sample.client_mem Sample.client_mem_wf ltac:(lia) Sample.client_mem_msgs) as Hspec.
  pose proof (merkle_verify_detects_change (sod:=Toy.mixing) (ok:=Toy.mixing_ok) 3 (Ptr 1 0) Sample.client_text 1
    Sample.client_mem Sample.client_mem_wf ltac:(lia) ltac:(cbn; lia) Sample.client_mem_msgs) as Hdet.
  destruct Hspec as (c & m1 & Hrun & gc & la & lp & arr & T & _ & Hct).
  destruct Hdet as (c' & m1' & Hrun' & Hdet). assert ((c', m1') = (c, m1)) as [= -> ->] by congruence.
  exists c, m1. split; [done|].
  pose proof (ct_grows _ _ _ _ _ _ _ _ _ _ Hct) as Hg. destruct (Hdet (altered m1) altered_text) as [Hver _].
  - intros b Hb. unfold altered in *. cbn [heap next] in *. pose proof (g_next _ _ _ _ Hg) as Hn. cbn in Hn.
    rewrite lookup_insert_ne by lia. by apply (g_wf _ _ _ _ Hg).
  - intros b Hb. unfold altered. cbn in *. by rewrite lookup_insert_ne by lia.
  - intros i. apply altered_msgs. apply (g_frame _ _ _ _ Hg); [|apply not_elem_of_nil].
    intros Hin%(g_range _ _ _ _ Hg). cbn in Hin. lia.
  - eapply wp_mono; [exact Hver|]. intros r _ ->. vm_compute. reflexivity.
Defined.
