(* ===== verification/Leftover.v ===== *)
(** * What a run leaves allocated

    Programs that allocate, release some of it and leave the rest: [kept] says
    which blocks are left, [leftover] how many.  Used by the theorems on the
    program's own tests (Tests.v), some of which leak. *)

From S2P Require Import Prelude.
From S2P Require Import CTypes.
From S2P Require Import Memory.
From S2P Require Import Platform.
From S2P Require Import MerkleVerify.

(** Membership in lists built by [++] and [::]. *)
Ltac in_lists :=
  repeat match goal with H : _ ∈ _ |- _ => revert H end; clear;
  rewrite ?elem_of_app, ?elem_of_cons, ?elem_of_nil; tauto.

(** ** What a run leaves allocated *)

(** From [m] to [m'] the blocks [F] were allocated and are still there, nothing
    else changed, and [k] draws were made from the random source. *)
Record kept (m m' : mem) (F : list positive) (k : nat) : Prop := Kept {
  k_next : (next m <= next m')%positive;
  k_range b : b ∈ F -> (next m <= b < next m')%positive;
  k_NoDup : NoDup F;
  k_live b : b ∈ F -> is_Some (heap m' !! b);
  k_frame b : b ∉ F -> heap m' !! b = heap m !! b;
  k_wf0 : wf m;
  k_wf : wf m';
  k_rng : rng m' = (k + rng m)%nat }.

(** The same with the number of blocks only. *)
Definition leftover (m m' : mem) (n k : nat) : Prop := exists F, length F = n /\ kept m m' F k.

(** And whatever was drawn. *)
Definition left_over (m m' : mem) (n : nat) : Prop := exists k, leftover m m' n k.

Section kept.
Implicit Types (m : mem) (F B : list positive).

Lemma kept_refl m : wf m -> kept m m [] 0.
Proof. intros. split; try done; [by intros ? ?%not_elem_of_nil|apply NoDup_nil_2|by intros ? ?%not_elem_of_nil]. Qed.

Lemma kept_perm m m' F F' k : kept m m' F k -> F ≡ₚ F' -> kept m m' F' k.
Proof.
  intros [] HF. split; try done; [intros b; rewrite <-HF; auto|by rewrite <-HF|intros b; rewrite <-HF; auto|intros b; rewrite <-HF; auto].
Qed.

Lemma kept_trans m1 m2 m3 F F' k k' : kept m1 m2 F k -> kept m2 m3 F' k' -> kept m1 m3 (F' ++ F) (k + k').
Proof.
  intros [N1 R1 D1 L1 H1 W0 W1 K1] [N2 R2 D2 L2 H2 _ W2 K2]. split; [lia| | | | |done|done|lia].
  - intros b [Hb|Hb]%elem_of_app; [apply R2 in Hb|apply R1 in Hb]; lia.
  - apply NoDup_app. split_and!; [done| |done]. intros b Hb2%R2 Hb1%R1. lia.
  - intros b [Hb|Hb]%elem_of_app; [by apply L2|]. rewrite H2; [by apply L1|]. intros Hb2%R2. apply R1 in Hb. lia.
  - intros b [Hb1 Hb2]%not_elem_of_app. by rewrite H2, H1.
Qed.

(** Blocks of the run are written while new ones are allocated. *)
Lemma kept_grows m m1 m2 F B W k :
  kept m m1 F k -> grows m1 m2 B W -> NoDup B -> (forall b, b ∈ W -> b ∈ F) ->
  (forall b, b ∈ B ++ W -> is_Some (heap m2 !! b)) -> kept m m2 (B ++ F) k.
Proof.
  intros [N1 R1 D1 L1 H1 W0 W1 K1] [N2 R2 H2 W2 K2 _] HB HW HL. split; [lia| | | | |done|done|congruence].
  - intros b [Hb|Hb]%elem_of_app; [apply R2 in Hb|apply R1 in Hb]; lia.
  - apply NoDup_app. split_and!; [done| |done]. intros b Hb2%R2 Hb1%R1. lia.
  - intros b [Hb|Hb]%elem_of_app; [apply HL, elem_of_app; by left|]. destruct (decide (b ∈ W)) as [HbW|HbW].
    + apply HL, elem_of_app. by right.
    + rewrite H2; [by apply L1| |done]. intros Hb2%R2. apply R1 in Hb. lia.
  - intros b [Hb1 Hb2]%not_elem_of_app. rewrite H2, H1; [done..|]. intros Hb%HW. done.
Qed.

(** Blocks of the run are released. *)
Lemma kept_released m m1 m2 F G B k : kept m m1 F k -> released m1 m2 B -> F ≡ₚ B ++ G -> kept m m2 G k.
Proof.
  intros Hk [H2 N2 K2 T2] HF. apply (kept_perm _ _ _ _ _ Hk) in HF as [N1 R1 D1 L1 H1 W0 W1 K1]. apply NoDup_app in D1 as (_ & Hdis & D1).
  split; [lia| |done| | |done| |congruence].
  - intros b Hb. rewrite N2. apply R1, elem_of_app. by right.
  - intros b Hb. rewrite H2, decide_False by (intros HB; by apply (Hdis b)). apply L1, elem_of_app. by right.
  - intros b Hb. rewrite H2. case_decide as HB; [|apply H1; by apply not_elem_of_app]. symmetry. apply W0, R1, elem_of_app. by left.
  - by eapply released_wf; [|split].
Qed.

Lemma kept_free {A} m m1 F G b k (c : M A) Q :
  kept m m1 F k -> F ≡ₚ b :: G -> (forall m2, kept m m2 G k -> released m1 m2 [b] -> wp c Q m2) -> wp (free (Ptr b 0) ;; c) Q m1.
Proof.
  intros Hk HF Hc. apply wp_bind. destruct (k_live _ _ _ _ Hk b) as [blk Hb]; [rewrite HF; apply elem_of_cons; by left|].
  eapply wp_mono; [by eapply wp_free_released|]. intros [] m2 Hr. apply Hc; [by eapply kept_released|done].
Qed.

(** One allocation more, one write to a block of the run, one draw or clock
    reading more. *)
Lemma kept_alloc m h n r t F k blk : kept m (Mem h n r t) F k -> kept m (Mem (<[n := blk]> h) (Pos.succ n) r t) (n :: F) k.
Proof.
  intros Hk. apply (kept_grows _ _ _ _ [n] [] _ Hk).
  - apply (grows_alloc (Mem h n r t)), (k_wf _ _ _ _ Hk).
  - apply NoDup_singleton.
  - by intros ? ?%not_elem_of_nil.
  - intros b ->%list_elem_of_singleton. cbn. rewrite lookup_insert_eq. by eexists.
Qed.

Lemma kept_write m h n r t F k b blk : kept m (Mem h n r t) F k -> b ∈ F -> kept m (Mem (<[b := blk]> h) n r t) F k.
Proof.
  intros Hk Hb. destruct (k_live _ _ _ _ Hk b Hb) as [old Hold]. apply (kept_grows _ _ _ _ [] [b] _ Hk).
  - by eapply (grows_write (Mem h n r t)); [apply (k_wf _ _ _ _ Hk)|].
  - apply NoDup_nil_2.
  - by intros ? ->%list_elem_of_singleton.
  - intros c ->%list_elem_of_singleton. cbn. rewrite lookup_insert_eq. by eexists.
Qed.

Lemma kept_delete m h n r t F G k b : kept m (Mem h n r t) F k -> F ≡ₚ b :: G -> kept m (Mem (delete b h) n r t) G k.
Proof.
  intros Hk HF. apply (kept_released _ _ _ _ G [b] _ Hk); [|done]. split; try done. intros c. cbn. rewrite lookup_delete.
  repeat case_decide; set_solver.
Qed.

Lemma kept_env m h n r r' t t' F k d : kept m (Mem h n r t) F k -> r' = (d + r)%nat -> kept m (Mem h n r' t') F (k + d).
Proof. intros [] ->. split; try done. cbn in *. lia. Qed.

Lemma kept_skip m h n n' r t F k : kept m (Mem h n r t) F k -> (n <= n')%positive -> kept m (Mem h n' r t) F k.
Proof.
  intros [N R D L H W0 W K] Hn. split; try done; cbn [next heap rng] in *; [lia| |].
  - intros b Hb%R. lia.
  - by apply (wf_next (Mem h n r t)).
Qed.

Lemma kept_old m m' F k b : kept m m' F k -> (b < next m)%positive -> heap m' !! b = heap m !! b.
Proof. intros Hk Hb. apply (k_frame _ _ _ _ Hk). intros Hin%(k_range _ _ _ _ Hk). lia. Qed.

(** Nothing kept: the heap is as it was. *)
Lemma kept_nil m m' k : kept m m' [] k -> heap m' = heap m.
Proof. intros Hk. apply map_eq. intros b. apply (k_frame _ _ _ _ Hk), not_elem_of_nil. Qed.

Lemma leaks_kept m m' n : wf m -> leaks m m' n -> exists F, length F = n /\ kept m m' F 0.
Proof.
  intros Hwf (F & Hl & Hnd & Hlive & Hg). exists F. split; [done|]. rewrite <-(app_nil_r F).
  apply (kept_grows _ _ _ _ _ [] _ (kept_refl m Hwf) Hg Hnd); [by intros ? ?%not_elem_of_nil|]. intros b Hb. rewrite app_nil_r in Hb. auto.
Qed.

Lemma leftover_trans m1 m2 m3 n n' k k' : leftover m1 m2 n k -> leftover m2 m3 n' k' -> leftover m1 m3 (n + n') (k + k').
Proof. intros (F & <- & HF) (F' & <- & HF'). exists (F' ++ F). split; [rewrite length_app; lia|by eapply kept_trans]. Qed.
End kept.
