(* ===== verification/Misc.v ===== *)
(** * Clocks and time stamps

    The time functions of sources/misc/misc.c: [get_timestamp],
    [get_epoch_ns], [get_date_usec_rec].  The C library calls they make
    ([gmtime], [strftime], [snprintf]) are given by their documented results
    for the formats used here; the clocks themselves are the parameters of
    [Clock]. *)

From S2P Require Import Prelude.
From S2P Require Import CTypes.
From S2P Require Import Memory.
From S2P Require Import Platform.

(** ** gmtime *)

Record tm := Tm {
  tm_year : Z;  (** calendar year, [tm_year + 1900] of the C struct *)
  tm_mon : Z;   (** 1 to 12, [tm_mon + 1] of the C struct *)
  tm_mday : Z;
  tm_hour : Z;
  tm_min : Z;
  tm_sec : Z }.

(** Day number since 1970-01-01 to year, month, day in the proleptic Gregorian
    calendar: count from 0000-03-01 in eras of 400 years (146097 days). *)
Definition civil (days : Z) : Z * Z * Z :=
  let z := days + 719468 in
  let era := z / 146097 in
  let doe := z mod 146097 in
  let yoe := (doe - doe / 1460 + doe / 36524 - doe / 146096) / 365 in
  let doy := doe - (365 * yoe + yoe / 4 - yoe / 100) in
  let mp := (5 * doy + 2) / 153 in
  let d := doy - (153 * mp + 2) / 5 + 1 in
  let m := if mp <? 10 then mp + 3 else mp - 9 in
  (yoe + era * 400 + (if m <=? 2 then 1 else 0), m, d).

(** The inverse: year, month, day to day number. *)
Definition days_from_civil (y m d : Z) : Z :=
  let y := if m <=? 2 then y - 1 else y in
  let era := y / 400 in
  let yoe := y mod 400 in
  let doy := (153 * (if m <=? 2 then m + 9 else m - 3) + 2) / 5 + d - 1 in
  let doe := yoe * 365 + yoe / 4 - yoe / 100 + doy in
  era * 146097 + doe - 719468.

Definition gmtime (t : Z) : tm :=
  let '(y, m, d) := civil (t / 86400) in
  let s := t mod 86400 in
  Tm y m d (s / 3600) (s / 60 mod 60) (s mod 60).

(** ** strftime with "%d/%m/%Y %H:%M:%S GMT" *)

Definition digit (z : Z) : byte := byte_of_Z (48 + z mod 10).

(** [%d], [%m], [%H], [%M], [%S]: two digits. *)
Definition dec2 (z : Z) : list byte := [digit (z / 10); digit z].

(** [%Y] for a year of four digits. *)
Definition dec4 (z : Z) : list byte := [digit (z / 1000); digit (z / 100); digit (z / 10); digit z].

Abbreviation SLASH := x2f.
Abbreviation SPACE := x20.
Abbreviation COLON := x3a.

Definition strftime_stamp (t : tm) : list byte :=
  dec2 (tm_mday t) ++ [SLASH] ++ dec2 (tm_mon t) ++ [SLASH] ++ dec4 (tm_year t) ++ [SPACE] ++
  dec2 (tm_hour t) ++ [COLON] ++ dec2 (tm_min t) ++ [COLON] ++ dec2 (tm_sec t) ++ [SPACE; x47; x4d; x54].

Section misc.
Context {clk : Clock}.

(** The string [get_timestamp] prints, with its terminating zero. *)
Definition stamp (t : Z) : list byte := strftime_stamp (gmtime t) ++ [x00].

(** [get_timestamp]: [snprintf(buffer, strlen(date) + 1, "%s", date)] copies
    the string with its zero and returns its length.  The text and its zero
    have 24 bytes, within [date[32]]. *)
Definition get_timestamp_at (write : list byte -> M unit) : M Z :=
  t ← tick time_now;
  write (stamp t) ;;
  mret (Z.of_nat (length (strftime_stamp (gmtime t)))).

Definition get_timestamp (buffer : ptr) : M Z := get_timestamp_at (store_bytes buffer).

(** [get_epoch_ns]: computed in [u_int64_t]; 0 when the clock fails. *)
Definition get_epoch_ns : M Z :=
  o ← tick clock_gettime;
  match o with
  | None => mret 0
  | Some (sec, ns) => mret (u64 (u64 sec * 1000000000 + u64 ns))
  end.

(** [get_date_usec_rec]: computed in [long long], where an overflow has no
    value; 0 when the clock fails. *)
Definition get_date_usec_rec : M Z :=
  o ← tick gettimeofday;
  match o with
  | None => mret 0
  | Some (tv_sec, tv_usec) =>
      let ret := tv_sec * 1000 + Z.quot tv_usec 1000 in
      if decide (i64 (tv_sec * 1000) = tv_sec * 1000 /\ i64 ret = ret) then mret ret else fail Indeterminate
  end.
End misc.

(** ** Facts *)

Lemma strftime_stamp_length t : length (strftime_stamp t) = 23%nat.
Proof. done. Qed.

Ltac div_lia := Z.to_euclidean_division_equations; lia.

(** The year of the era and the day of the year. *)
Lemma yoe_bounds doe :
  0 <= doe < 146097 ->
  let yoe := (doe - doe / 1460 + doe / 36524 - doe / 146096) / 365 in
  0 <= yoe <= 399 /\ 0 <= doe - (365 * yoe + yoe / 4 - yoe / 100) <= 365.
Proof. intros Hd yoe. subst yoe. div_lia. Qed.

Lemma month_bounds doy :
  0 <= doy <= 365 ->
  let mp := (5 * doy + 2) / 153 in 0 <= mp <= 11 /\ 1 <= doy - (153 * mp + 2) / 5 + 1 <= 31.
Proof. intros Hd mp. subst mp. div_lia. Qed.

(** The last day whose year surely has four digits in this computation:
    9599-02-28 and 24 eras from 0000-03-01. *)
Definition last_day : Z := 24 * 146097 - 719468.

(** The calendar date of a day: a month of 1 to 12, a day of 1 to 31, a
    four-digit year, and counting back gives the day. *)
Lemma civil_spec days :
  0 <= days < last_day ->
  let '(y, m, d) := civil days in
  1000 <= y <= 9999 /\ 1 <= m <= 12 /\ 1 <= d <= 31 /\ days_from_civil y m d = days.
Proof.
  intros Hd. unfold last_day in Hd. unfold civil. cbv zeta.
  pose proof (Z.mod_pos_bound (days + 719468) 146097 ltac:(lia)) as Hdoe.
  pose proof (Z.div_mod (days + 719468) 146097 ltac:(lia)) as Hera.
  set (era := (days + 719468) / 146097) in *. set (doe := (days + 719468) mod 146097) in *.
  assert (4 <= era <= 23) as He by lia.
  pose proof (yoe_bounds doe Hdoe) as [Hy Hdoy]. cbv zeta in *.
  set (yoe := (doe - doe / 1460 + doe / 36524 - doe / 146096) / 365) in *.
  set (doy := doe - (365 * yoe + yoe / 4 - yoe / 100)) in *.
  pose proof (month_bounds doy Hdoy) as [Hmp Hday]. cbv zeta in *.
  set (mp := (5 * doy + 2) / 153) in *. clearbody mp.
  unfold days_from_civil.
  destruct (Z.ltb_spec mp 10); cbv zeta.
  - rewrite (proj2 (Z.leb_gt (mp + 3) 2)) by lia. replace (mp + 3 - 3) with mp by lia.
    rewrite Z.add_0_r, Z.div_add, Z.mod_add, (Z.div_small yoe 400), (Z.mod_small yoe 400) by lia. split_and!; lia.
  - rewrite (proj2 (Z.leb_le (mp - 9) 2)) by lia. replace (mp - 9 + 9) with mp by lia.
    replace (yoe + era * 400 + 1 - 1) with (yoe + era * 400) by lia.
    rewrite Z.div_add, Z.mod_add, (Z.div_small yoe 400), (Z.mod_small yoe 400) by lia. split_and!; lia.
Qed.

Lemma gmtime_spec t :
  0 <= t < last_day * 86400 ->
  let g := gmtime t in
  1000 <= tm_year g <= 9999 /\ 1 <= tm_mon g <= 12 /\ 1 <= tm_mday g <= 31 /\
  0 <= tm_hour g < 24 /\ 0 <= tm_min g < 60 /\ 0 <= tm_sec g < 60 /\
  (days_from_civil (tm_year g) (tm_mon g) (tm_mday g) * 24 + tm_hour g) * 3600 + tm_min g * 60 + tm_sec g = t.
Proof.
  intros Ht g. assert (0 <= t / 86400 < last_day) as Hd by (unfold last_day in *; div_lia).
  pose proof (civil_spec _ Hd) as Hc. subst g. unfold gmtime.
  destruct (civil (t / 86400)) as [[y m] d]. destruct Hc as (? & ? & ? & Hdays).
  cbn [tm_year tm_mon tm_mday tm_hour tm_min tm_sec]. rewrite Hdays. clear Hdays Hd Ht. split_and!; div_lia.
Qed.

Lemma Z_of_digit z : Z_of_byte (digit z) = 48 + z mod 10.
Proof.
  unfold digit. rewrite Z_of_byte_of_Z. pose proof (Z.mod_pos_bound z 10 ltac:(lia)). apply Z.mod_small. lia.
Qed.

(** Reading the stamp back: the value of two and of four digits. *)
Definition val (bs : list byte) : Z := fold_left (fun acc b => acc * 10 + (Z_of_byte b - 48)) bs 0.

Lemma val_dec2 z : 0 <= z < 100 -> val (dec2 z) = z.
Proof. intros Hz. cbn [val dec2 fold_left]. unfold val, dec2. cbn [fold_left]. rewrite !Z_of_digit. div_lia. Qed.

Lemma val_dec4 z : 0 <= z < 10000 -> val (dec4 z) = z.
Proof. intros Hz. unfold val, dec4. cbn [fold_left]. rewrite !Z_of_digit. div_lia. Qed.

(** The time a stamp denotes. *)
Definition parse_stamp (bs : list byte) : Z :=
  let f i n := val (take n (drop i bs)) in
  (days_from_civil (f 6 4)%nat (f 3 2)%nat (f 0 2)%nat * 24 + (f 11 2)%nat) * 3600 + (f 14 2)%nat * 60 + (f 17 2)%nat.

Lemma parse_stamp_gmtime t : 0 <= t < last_day * 86400 -> parse_stamp (strftime_stamp (gmtime t)) = t.
Proof.
  intros Ht. pose proof (gmtime_spec t Ht) as Hg. cbv zeta in Hg. set (g := gmtime t) in *. clearbody g.
  destruct Hg as (? & ? & ? & ? & ? & ? & Heq).
  change (parse_stamp (strftime_stamp g)) with
    ((days_from_civil (val (dec4 (tm_year g))) (val (dec2 (tm_mon g))) (val (dec2 (tm_mday g))) * 24
      + val (dec2 (tm_hour g))) * 3600 + val (dec2 (tm_min g)) * 60 + val (dec2 (tm_sec g))).
  rewrite val_dec4, !val_dec2 by lia. done.
Qed.

Lemma stamp_length t : length (stamp t) = 24%nat.
Proof. done. Qed.

Section claims.
Context {clk : Clock}.

Lemma get_timestamp_run b l m :
  heap m !! b = Some (BBytes l) -> (24 <= length l)%nat ->
  get_timestamp (Ptr b 0) m =
    Ok (23, Mem (<[b := BBytes (stamp (time_now (ticks m)) ++ drop 24 l)]> (heap m))
              (next m) (rng m) (S (ticks m))).
Proof.
  intros Hb Hl. apply wp_eq. unfold get_timestamp, get_timestamp_at. apply wp_bind, wp_tick, wp_bind. mem_cbn.
  eapply wp_store_bytes; [exact Hb|lia|rewrite stamp_length; cbn; lia|]. apply wp_ret.
  mem_cbn. by unfold overwrite.
Qed.

(** C40: [get_timestamp] writes 24 bytes, the text of 23 characters and its
    zero, leaves the rest of the buffer, returns 23, and the text denotes the
    time the clock gave: reading the date and time back yields the same second
    (for clocks between 1970 and the year 9599). *)
Theorem get_timestamp_roundtrip b l m :
  heap m !! b = Some (BBytes l) -> (24 <= length l)%nat -> 0 <= time_now (ticks m) < last_day * 86400 ->
  exists s, get_timestamp (Ptr b 0) m =
    Ok (23, Mem (<[b := BBytes (s ++ [x00] ++ drop 24 l)]> (heap m)) (next m) (rng m) (S (ticks m))) /\
    length s = 23%nat /\ parse_stamp s = time_now (ticks m).
Proof.
  intros Hb Hl Ht. exists (strftime_stamp (gmtime (time_now (ticks m)))).
  split; [|split; [done|by apply parse_stamp_gmtime]].
  rewrite (get_timestamp_run _ _ _ Hb Hl). unfold stamp. by rewrite <-app_assoc.
Qed.

(** The nanoseconds the [i]-th reading of the clock gives. *)
Definition epoch_ns (i : nat) : Z :=
  match clock_gettime i with Some (sec, ns) => u64 (sec * 1000000000 + ns) | None => 0 end.

Lemma epoch_ns_range i : 0 <= epoch_ns i < 2 ^ 64.
Proof. unfold epoch_ns. destruct (clock_gettime i) as [[]|]; [apply u64_range|lia]. Qed.

Lemma get_epoch_ns_run m :
  get_epoch_ns m = Ok (epoch_ns (ticks m), Mem (heap m) (next m) (rng m) (S (ticks m))).
Proof.
  unfold get_epoch_ns, epoch_ns, mbind, M_bind, tick. destruct (clock_gettime (ticks m)) as [[sec ns]|]; [|done].
  assert (u64 (u64 sec * 1000000000 + u64 ns) = u64 (sec * 1000000000 + ns)) as ->; [|done]. unfold u64.
  by rewrite Zplus_mod_idemp_r, <-Zplus_mod_idemp_l, Zmult_mod_idemp_l, Zplus_mod_idemp_l.
Qed.

(** The clock values.  [get_epoch_ns] is the time in nanoseconds, without
    wrap-around until the year 2554, and 0 when the clock fails;
    [get_date_usec_rec] is the time in milliseconds, or 0. *)
Theorem clock_values m sec ns usec :
  clock_gettime (ticks m) = Some (sec, ns) -> gettimeofday (ticks m) = Some (sec, usec) ->
  0 <= sec < 18446744073 -> 0 <= ns < 1000000000 -> 0 <= usec < 1000000 ->
  let m' := Mem (heap m) (next m) (rng m) (S (ticks m)) in
  get_epoch_ns m = Ok (sec * 1000000000 + ns, m') /\
  get_date_usec_rec m = Ok (sec * 1000 + usec / 1000, m').
Proof.
  intros Hc Hg Hs Hn Hu m'. split.
  - rewrite get_epoch_ns_run. unfold epoch_ns. rewrite Hc, u64_small by lia. done.
  - unfold get_date_usec_rec, mbind, M_bind, tick. rewrite Hg. rewrite Z.quot_div_nonneg by lia.
    assert (0 <= usec / 1000 < 1000) by div_lia. rewrite decide_True; [done|].
    unfold i64. rewrite !Z.mod_small by lia. lia.
Qed.
End claims.

Lemma get_timestamp_roundtrip_witness :
  exists s, get_timestamp (clk:=Toy.toy_clock) (Ptr 1 0)
      (Mem (<[1%positive := BBytes (zeros 35)]> ∅) 2 0 0) =
    Ok (23, Mem (<[1%positive := BBytes (s ++ [x00] ++ zeros 11)]> (<[1%positive := BBytes (zeros 35)]> ∅)) 2 0 1) /\
    parse_stamp s = 1700000000.
Proof.
  destruct (get_timestamp_roundtrip (clk:=Toy.toy_clock) 1 (zeros 35) (Mem (<[1%positive := BBytes (zeros 35)]> ∅) 2 0 0))
    as (s & Hr & _ & Hp); [reflexivity|vm_compute; lia|vm_compute; split; [discriminate|reflexivity]|].
  exists s. split; [exact Hr|exact Hp].
Defined.

Lemma clock_values_witness :
  get_epoch_ns (clk:=Toy.toy_clock) (Mem ∅ 1 0 0) = Ok (1700000000123456789, Mem ∅ 1 0 1) /\
  get_date_usec_rec (clk:=Toy.toy_clock) (Mem ∅ 1 0 0) = Ok (1700000000654, Mem ∅ 1 0 1).
Proof.
  destruct (clock_values (clk:=Toy.toy_clock) (Mem ∅ 1 0 0) 1700000000 123456789 654321) as [H1 H2];
    [reflexivity|reflexivity|lia|lia|lia|].
  split; [exact H1|exact H2].
Defined.
