(* ===== verification/Dump.v ===== *)
(** * Printed dumps

    misc/misc.c [DumpHex] (networking/xmisc.c has the same body) and
    block_data/blockdata.c [print_block_data]: what they write to the
    terminal, as bytes.  The 17-character array [ascii] is not initialised and
    keeps the characters of the row before; an element not yet written has no
    value, and printing it would be a fault. *)

From stdpp Require Import strings.
From S2P Require Import Prelude.
From S2P Require Import CTypes.
From S2P Require Import Memory.

Local Open Scope list_scope.
Local Open Scope Z_scope.

(** A string literal's characters. *)
Definition str (s : string) : list byte := String.list_byte_of_string s.

Definition hex_digit (n : Z) : byte := byte_of_Z (if n <? 10 then 48 + n else 55 + n).

(** ["%02X "] *)
Definition hex (b : byte) : list byte :=
  [hex_digit (Z_of_byte b / 16); hex_digit (Z_of_byte b mod 16); byte_of_Z 32].

(** ["%s"]: the characters before the first zero. *)
Fixpoint print_s (l : list (option byte)) : res (list byte) :=
  match l with
  | [] => Fault OutOfBounds
  | None :: _ => Fault Indeterminate
  | Some b :: l =>
      if Z_of_byte b =? 0 then Ok [] else
      match print_s l with Ok s => Ok (b :: s) | r => r end
  end.

(** ["|  %s \n"] *)
Definition ascii_column (s : list byte) : list byte := str "|  " ++ s ++ [byte_of_Z 32; byte_of_Z 10].

Definition printable (b : byte) : byte :=
  if (32 <=? Z_of_byte b) && (Z_of_byte b <=? 126) then b else byte_of_Z 46.

Definition prefix_out (out : list byte) (r : res (list byte)) : res (list byte) :=
  match r with Ok s => Ok (out ++ s) | r => r end.

(** The loop from index [i] over the bytes left. *)
Fixpoint dump_loop (size i : nat) (ascii : list (option byte)) (data : list byte) : res (list byte) :=
  match data with
  | [] => Ok []
  | b :: data =>
      let ascii := <[(i mod 16)%nat := Some (printable b)]> ascii in
      prefix_out (hex b)
        (if ((i + 1) mod 8 =? 0)%nat || (i + 1 =? size)%nat then
           prefix_out (str " ")
             (if ((i + 1) mod 16 =? 0)%nat then
                match print_s ascii with
                | Ok s => prefix_out (ascii_column s) (dump_loop size (i + 1) ascii data)
                | r => r
                end
              else if (i + 1 =? size)%nat then
                let ascii := <[((i + 1) mod 16)%nat := Some x00]> ascii in
                prefix_out (if ((i + 1) mod 16 <=? 8)%nat then str " " else [])
                  (prefix_out (concat (replicate (16 - (i + 1) mod 16)%nat (str "   ")))
                     match print_s ascii with
                     | Ok s => prefix_out (ascii_column s) (dump_loop size (i + 1) ascii data)
                     | r => r
                     end)
              else dump_loop size (i + 1) ascii data)
         else dump_loop size (i + 1) ascii data)
  end.

Definition dump (data : list byte) : res (list byte) :=
  dump_loop (length data) 0 (replicate 16 None ++ [Some x00]) data.

Definition lift_res {A} (r : res A) : M A := fun m =>
  match r with Ok a => Ok (a, m) | Fault f => Fault f | Die => Die | NoFuel => NoFuel end.

(** [DumpHex(p, size)] *)
Definition DumpHex (p : ptr) (size : nat) : M (list byte) :=
  data ← load_bytes p size; lift_res (dump data).

(** The same on an array inside a struct. *)
Definition DumpHex_field (l : list byte) (size : nat) : M (list byte) :=
  if (size <=? length l)%nat then lift_res (dump (take size l)) else fail OutOfBounds.

Definition newline : list byte := [byte_of_Z 10].

Definition print_block_data (block : ptr) : M (list byte) :=
  b ← load (A:=block_t) block;
  date ← DumpHex_field (bl_date b) 32;
  nonce ← DumpHex_field (bl_nonce b) 15;
  root ← DumpHex_field (bl_merkle_root b) 32;
  mret (str "-----------------block content starts-----------------" ++ newline ++
    str "block data creation:" ++ newline ++ date ++ str "block nonce:" ++ newline ++ nonce ++
    str "block merkle root:" ++ newline ++ root ++
    str "-----------------block content ends-------------------" ++ newline).

(** ** The layout

    A row shows up to 16 bytes: their hexadecimal digits, a gap after the
    eighth, padded to 50 columns, then the printable characters. *)

Definition hexes (l : list byte) : list byte := concat (hex <$> l).

Definition digits (l : list byte) : list byte :=
  hexes (take 8 l) ++ (if (8 <=? length l)%nat then str " " else []) ++ hexes (drop 8 l).

Definition row (l : list byte) : list byte :=
  digits l ++ replicate (50 - length (digits l)) (byte_of_Z 32) ++ ascii_column (printable <$> l).

Fixpoint rows (fuel : nat) (l : list byte) : list byte :=
  match fuel, l with
  | S fuel, _ :: _ => row (take 16 l) ++ rows fuel (drop 16 l)
  | _, _ => []
  end.

Definition layout (l : list byte) : list byte := rows (length l) l.

Lemma rows_fuel fuel l : (length l <= fuel)%nat -> rows fuel l = layout l.
Proof.
  unfold layout. revert l; induction fuel as [fuel IH] using lt_wf_ind; intros l Hl.
  destruct fuel as [|fuel]; destruct l as [|b l]; cbn in Hl; try done; [lia|]. cbn [rows length].
  assert (length (drop 16 (b :: l)) <= length l)%nat by (rewrite length_drop; cbn; lia).
  f_equal. rewrite (IH fuel), (IH (length l)) by lia. done.
Qed.

Lemma layout_cons l : l <> [] -> layout l = row (take 16 l) ++ layout (drop 16 l).
Proof.
  intros Hl. destruct l as [|b l]; [done|]. unfold layout at 1. cbn [length rows]. f_equal.
  apply rows_fuel. rewrite length_drop. cbn. lia.
Qed.

Lemma layout_short l : (0 < length l <= 16)%nat -> layout l = row l.
Proof.
  intros Hl. rewrite layout_cons by (by intros ->; cbn in Hl; lia).
  rewrite take_ge, drop_ge by lia. apply app_nil_r.
Qed.

(** ** The columns *)

Lemma hexes_app l l' : hexes (l ++ l') = hexes l ++ hexes l'.
Proof. unfold hexes. by rewrite fmap_app, concat_app. Qed.

Lemma length_hexes l : length (hexes l) = (3 * length l)%nat.
Proof. unfold hexes. induction l as [|b l IH]; [done|]. cbn in *. lia. Qed.

(** One byte more, and the gap when it is the eighth. *)
Lemma digits_snoc l b :
  digits (l ++ [b]) = digits l ++ hex b ++ (if (length l + 1 =? 8)%nat then str " " else []).
Proof.
  unfold digits. rewrite length_app. cbn [length].
  destruct (Nat.lt_ge_cases (length l) 8) as [Hlt|Hge].
  - rewrite (proj2 (Nat.leb_gt _ _) Hlt), (take_ge (l ++ [b])), (take_ge l) by (rewrite ?length_app; cbn; lia).
    rewrite (drop_ge (l ++ [b])), (drop_ge l) by (rewrite ?length_app; cbn; lia).
    rewrite hexes_app. assert (hexes [b] = hex b) as -> by done. cbn [hexes fmap list_fmap concat app]. rewrite !app_nil_r, <-!app_assoc. do 2 f_equal.
    destruct (Nat.eqb_spec (length l + 1) 8), (Nat.leb_spec 8 (length l + 1)); by (lia || done).
  - rewrite (proj2 (Nat.leb_le 8 (length l)) Hge), (proj2 (Nat.leb_le 8 (length l + 1))) by lia.
    rewrite (proj2 (Nat.eqb_neq (length l + 1) 8)) by lia.
    rewrite take_app_le, drop_app_le by lia. rewrite hexes_app. by rewrite <-!app_assoc.
Qed.

Lemma length_digits l : length (digits l) = (3 * length l + (if (8 <=? length l)%nat then 1 else 0))%nat.
Proof.
  unfold digits. rewrite !length_app, !length_hexes, length_take, length_drop.
  assert (length (str " ") = 1%nat) as Hs by done. destruct (Nat.leb_spec 8 (length l)); rewrite ?Hs; cbn [length]; lia.
Qed.

(** The characters of a row, up to its zero. *)
Lemma print_s_app s l :
  Forall (fun b => Z_of_byte b <> 0) s -> print_s (fmap Some s ++ Some x00 :: l) = Ok s.
Proof.
  induction s as [|b s IH]; intros Hs; [done|]. apply Forall_cons_1 in Hs as [Hb Hs]. cbn.
  rewrite (proj2 (Z.eqb_neq _ _)) by done. by rewrite IH.
Qed.

Lemma printable_nonzero l : Forall (fun b => Z_of_byte b <> 0) (printable <$> l).
Proof.
  apply Forall_fmap, Forall_true. intros b. cbn. unfold printable.
  destruct ((32 <=? _) && _) eqn:Hb; [|by rewrite Z_of_byte_of_Z].
  apply andb_prop in Hb as [Hb%Z.leb_le _]. lia.
Qed.

(** ** The loop *)

(** The array [ascii] while the bytes [cur] of the current row are printed. *)
Record shows (ascii : list (option byte)) (cur : list byte) : Prop := Shows {
  sw_len : length ascii = 17%nat;
  sw_end : ascii !! 16%nat = Some (Some x00);
  sw_cur : take (length cur) ascii = Some <$> (printable <$> cur) }.

Lemma shows_snoc ascii cur b :
  shows ascii cur -> (length cur < 16)%nat -> shows (<[length cur := Some (printable b)]> ascii) (cur ++ [b]).
Proof.
  intros [Hl He Hc] Hlt. split.
  - by rewrite length_insert.
  - by rewrite list_lookup_insert_ne by lia.
  - rewrite length_app, Nat.add_1_r. erewrite take_S_r by (apply list_lookup_insert_eq; lia).
    rewrite take_insert_ge by lia. rewrite Hc. by rewrite !fmap_app.
Qed.

Lemma shows_restart ascii cur : shows ascii cur -> shows ascii [].
Proof. by intros [Hl He _]. Qed.

(** A full row's characters end at the array's last element; a short row's at
    the zero written after them. *)
Lemma shows_full ascii cur : shows ascii cur -> length cur = 16%nat -> print_s ascii = Ok (printable <$> cur).
Proof.
  intros [Hl He Hc] H16. rewrite H16 in Hc. rewrite <-(take_drop 16 ascii), Hc.
  rewrite (drop_S _ _ _ He). apply print_s_app, printable_nonzero.
Qed.

Lemma shows_short ascii cur :
  shows ascii cur -> (length cur < 16)%nat -> print_s (<[length cur := Some x00]> ascii) = Ok (printable <$> cur).
Proof.
  intros [Hl He Hc] Hlt. rewrite <-(take_drop (length cur) (<[_:=_]> ascii)), take_insert_ge, Hc by lia.
  erewrite drop_S by (apply list_lookup_insert_eq; lia). apply print_s_app, printable_nonzero.
Qed.

Lemma concat_spaces n : concat (replicate n (str "   ")) = replicate (3 * n) (byte_of_Z 32).
Proof. induction n as [|n IH]; [done|]. rewrite replicate_S. cbn [concat]. rewrite IH, Nat.mul_succ_r, Nat.add_comm. done. Qed.

(** The padding of the last row. *)
Lemma last_row cur :
  (0 < length cur < 16)%nat ->
  digits cur ++ (if (length cur =? 8)%nat then [] else str " ") ++ (if (length cur <=? 8)%nat then str " " else []) ++
    concat (replicate (16 - length cur) (str "   ")) ++ ascii_column (printable <$> cur) = row cur.
Proof.
  intros Hl. unfold row. f_equal. rewrite concat_spaces, length_digits, !app_assoc. f_equal.
  change (str " ") with (replicate 1 (byte_of_Z 32)). change (@nil byte) with (replicate 0 (byte_of_Z 32)).
  destruct (Nat.eqb_spec (length cur) 8), (Nat.leb_spec (length cur) 8), (Nat.leb_spec 8 (length cur)); try lia;
    rewrite <-!replicate_add; f_equal; lia.
Qed.

Lemma full_row cur : length cur = 16%nat -> digits cur ++ str " " ++ ascii_column (printable <$> cur) = row cur.
Proof. intros Hl. unfold row. by rewrite length_digits, Hl. Qed.

Lemma prefix_out_Ok out s r : r = Ok s -> prefix_out out r = Ok (out ++ s).
Proof. by intros ->. Qed.

Lemma mod16 q r : ((16 * q + r) mod 16 = r mod 16)%nat.
Proof. rewrite Nat.add_comm, Nat.mul_comm. apply Nat.Div0.mod_add. Qed.

Lemma mod8 q r : ((16 * q + r) mod 8 = r mod 8)%nat.
Proof. replace (16 * q + r)%nat with (r + (2 * q) * 8)%nat by lia. apply Nat.Div0.mod_add. Qed.

Lemma mod8_zero k : (0 < k < 16)%nat -> (k mod 8 =? 0)%nat = (k =? 8)%nat.
Proof.
  intros Hk. destruct (Nat.lt_ge_cases k 8).
  - rewrite Nat.mod_small by lia. destruct (Nat.eqb_spec k 0), (Nat.eqb_spec k 8); lia || done.
  - replace k with ((k - 8) + 1 * 8)%nat at 1 by lia. rewrite Nat.Div0.mod_add, Nat.mod_small by lia.
    destruct (Nat.eqb_spec (k - 8) 0), (Nat.eqb_spec k 8); lia || done.
Qed.

(** From inside a row, the loop prints the rest of that row and the rows after. *)
Lemma dump_loop_spec data : forall q cur ascii,
  shows ascii cur -> (length cur < 16)%nat -> (cur <> [] -> data <> []) ->
  exists out, dump_loop (16 * q + (length cur + length data)) (16 * q + length cur) ascii data = Ok out /\
    digits cur ++ out = layout (cur ++ data).
Proof.
  induction data as [|b data IH]; intros q cur ascii Hsh Hcur Hne.
  { destruct cur; [|by destruct Hne]. by exists []. }
  apply (shows_snoc _ _ b) in Hsh; [|done].
  assert (length (cur ++ [b]) = length cur + 1)%nat as Hl by (rewrite length_app; done).
  assert (cur ++ b :: data = (cur ++ [b]) ++ data) as -> by (by rewrite <-app_assoc).
  pose proof (digits_snoc cur b) as Hd. cbn [dump_loop length].
  rewrite <-!(Nat.add_assoc (16 * q)), !mod16, mod8, (Nat.mod_small (length cur)) by lia.
  replace (length cur + S (length data))%nat with (length (cur ++ [b]) + length data)%nat by lia.
  assert (0 < length (cur ++ [b]) <= 16)%nat as Hpos by lia.
  rewrite <-!Hl in *. clear Hl Hcur Hne.
  set (cur' := cur ++ [b]) in *. set (ascii' := <[_:=_]> ascii) in *. clearbody cur' ascii'.
  destruct (Nat.eq_dec (length cur') 16) as [H16|H16].
  { destruct (IH (S q) [] ascii' (shows_restart _ _ Hsh)) as (out & Hout & Hlay); [cbn; lia|done|].
    replace (16 * S q + (length [] + length data))%nat with (16 * q + (length cur' + length data))%nat in Hout by (cbn; lia).
    replace (16 * S q + length [])%nat with (16 * q + length cur')%nat in Hout by (cbn; lia).
    rewrite (shows_full _ _ Hsh H16), Hout. rewrite H16 in Hd |- *. eexists; split; [reflexivity|].
    rewrite (layout_cons (cur' ++ data)) by (destruct cur'; done).
    rewrite take_app_length', drop_app_length' by done. rewrite <-(full_row cur') by done.
    change (out = layout data) in Hlay. rewrite <-Hlay, Hd. by rewrite <-!app_assoc. }
  rewrite mod8_zero, (Nat.mod_small (length cur')), (proj2 (Nat.eqb_neq (length cur') 0)) by lia.
  destruct (Nat.eqb_spec (16 * q + length cur') (16 * q + (length cur' + length data))) as [He|He].
  - assert (length data = 0%nat) as ->%nil_length_inv by lia.
    rewrite orb_true_r, (shows_short _ _ Hsh) by lia. eexists; split; [reflexivity|].
    rewrite (app_nil_r cur'), (layout_short cur'), <-(last_row cur'), Hd by lia. cbn [prefix_out]. rewrite app_nil_r.
    destruct (Nat.eqb_spec (length cur') 8); by rewrite <-?app_assoc.
  - destruct (IH q cur' ascii' Hsh) as (out & Hout & Hlay); [lia|intros _ ->; cbn in He; lia|].
    rewrite orb_false_r, Hout. exists (hex b ++ (if (length cur' =? 8)%nat then str " " else []) ++ out). split.
    + by destruct (Nat.eqb_spec (length cur') 8).
    + by rewrite <-Hlay, Hd, <-!app_assoc.
Qed.

Lemma dump_layout data : dump data = Ok (layout data).
Proof.
  destruct (dump_loop_spec data 0 [] (replicate 16 None ++ [Some x00])) as (out & Hout & Hlay); [done|cbn; lia|done|].
  unfold dump. change (out = layout data) in Hlay. by rewrite <-Hlay.
Qed.

(** C27: [DumpHex] faults only when its bytes cannot be read; it never prints an
    element of its array that was not written, and it prints the layout: rows
    of 16 bytes, each byte as two hexadecimal digits, at most 49 columns of
    them, so that the character column is at the same place in every row, a
    short last row included; nothing for no bytes. *)
Theorem DumpHex_layout p n m :
  DumpHex p n m = (bs ← load_bytes p n; mret (layout bs)) m /\
  (forall l, length (digits (take 16 l)) <= 49)%nat /\ layout [] = [].
Proof.
  split_and!; [|intros l|done].
  - unfold DumpHex, mbind, M_bind. destruct (load_bytes p n m) as [[bs m']| | |]; [|done..].
    unfold lift_res. by rewrite dump_layout.
  - rewrite length_digits, length_take. destruct (8 <=? _)%nat; lia.
Qed.

(** ** A block *)

Definition block_text (b : block_t) : list byte :=
  str "-----------------block content starts-----------------" ++ newline ++
  str "block data creation:" ++ newline ++ layout (take 32 (bl_date b)) ++
  str "block nonce:" ++ newline ++ layout (take 15 (bl_nonce b)) ++
  str "block merkle root:" ++ newline ++ layout (take 32 (bl_merkle_root b)) ++
  str "-----------------block content ends-------------------" ++ newline.

Lemma DumpHex_field_run l n m : (n <= length l)%nat -> DumpHex_field l n m = Ok (layout (take n l), m).
Proof.
  intros Hn. unfold DumpHex_field. rewrite (proj2 (Nat.leb_le _ _) Hn). unfold lift_res. by rewrite dump_layout.
Qed.

Lemma print_block_data_run p b m :
  load (A:=block_t) p m = Ok (b, m) -> (32 <= length (bl_date b))%nat -> (15 <= length (bl_nonce b))%nat ->
  (32 <= length (bl_merkle_root b))%nat -> print_block_data p m = Ok (block_text b, m).
Proof.
  intros Hb Hd Hn Hr. unfold print_block_data, mbind, M_bind. by rewrite Hb, !DumpHex_field_run by done.
Qed.
