(* ===== verification/BlockData.v ===== *)
(** * Blocks and the proof-of-work puzzle

    sources/block_data/blockdata.c: creating a block, setting its nonce and
    predecessor, and the search for a nonce whose hash with the Merkle root
    begins with [difficulty] zero bytes.  The search draws nonces until one
    fits: its loop takes fuel, and the theorems say which fuel is enough. *)

From S2P Require Import Prelude.
From S2P Require Import CTypes.
From S2P Require Import Memory.
From S2P Require Import Platform.
From S2P Require Import Accounts.
From S2P Require Import Hashing.
From S2P Require Import Misc.

(** [block_t] is packed: its bytes are those of its fields in order, integers
    in little-endian order. *)
Definition bytes_of_block (b : block_t) : list byte :=
  bl_nonce b ++ bl_date b ++ le_bytes 8 (bl_timestamp_begin b) ++ le_bytes 8 (bl_timestamp_end b) ++
  le_bytes 8 (bl_difficulty b) ++ bl_previous_block b ++ bl_merkle_root b.

(** Assignments to the fields of a block. *)
Definition set_nonce (x : list byte) (b : block_t) : block_t :=
  Block x (bl_date b) (bl_timestamp_begin b) (bl_timestamp_end b) (bl_difficulty b) (bl_previous_block b) (bl_merkle_root b).
Definition set_date (f : list byte -> list byte) (b : block_t) : block_t :=
  Block (bl_nonce b) (f (bl_date b)) (bl_timestamp_begin b) (bl_timestamp_end b) (bl_difficulty b) (bl_previous_block b) (bl_merkle_root b).
Definition set_timestamp_begin (x : Z) (b : block_t) : block_t :=
  Block (bl_nonce b) (bl_date b) x (bl_timestamp_end b) (bl_difficulty b) (bl_previous_block b) (bl_merkle_root b).
Definition set_timestamp_end (x : Z) (b : block_t) : block_t :=
  Block (bl_nonce b) (bl_date b) (bl_timestamp_begin b) x (bl_difficulty b) (bl_previous_block b) (bl_merkle_root b).
Definition set_difficulty (x : Z) (b : block_t) : block_t :=
  Block (bl_nonce b) (bl_date b) (bl_timestamp_begin b) (bl_timestamp_end b) x (bl_previous_block b) (bl_merkle_root b).
Definition set_previous_block (x : list byte) (b : block_t) : block_t :=
  Block (bl_nonce b) (bl_date b) (bl_timestamp_begin b) (bl_timestamp_end b) (bl_difficulty b) x (bl_merkle_root b).
Definition set_merkle_root (x : list byte) (b : block_t) : block_t :=
  Block (bl_nonce b) (bl_date b) (bl_timestamp_begin b) (bl_timestamp_end b) (bl_difficulty b) (bl_previous_block b) x.

Section blockdata.
Context {sod : Sodium} {clk : Clock}.

Definition create_block_dummy (prev_block merkle_root : ptr) : M ptr :=
  blk ← calloc 1 zero_block_t;
  temp_hash ← calc_hashof_hash merkle_root;
  h ← load_bytes temp_hash crypto_generichash_BYTES;
  update blk (set_merkle_root h) ;;
  free temp_hash ;;
  get_timestamp_at (fun bs =>
    if (length bs <=? DATE_LEN)%nat then update blk (set_date (fun d => overwrite d bs 0))
    else fail OutOfBounds) ;;
  ns ← get_epoch_ns;
  update blk (set_timestamp_begin ns) ;;
  update blk (set_timestamp_end 0) ;;
  (if decide (prev_block = NULL) then
     update blk (set_previous_block (zeros crypto_generichash_BYTES))
   else
     prev ← load (A:=block_t) prev_block;
     update blk (set_previous_block (crypto_generichash (bytes_of_block prev)))) ;;
  update blk (set_difficulty 0) ;;
  update blk (set_nonce (zeros NONCE_LEN)) ;;
  mret blk.

Definition set_nonce_to_block (blk nonce : ptr) : M unit :=
  n ← load_bytes nonce NONCE_LEN;
  update blk (set_nonce n) ;;
  ns ← get_epoch_ns;
  update blk (set_timestamp_end ns) ;;
  free nonce.

(** [calc_hashof_hash(blk_prev->merkle_root)]: the argument is the field's
    32 bytes. *)
Definition set_prev_block_hash (blk_current blk_prev : ptr) : M unit :=
  if decide (blk_prev = NULL) then
    update blk_current (set_previous_block (zeros crypto_generichash_BYTES))
  else
    prev ← load (A:=block_t) blk_prev;
    field ← alloc (bl_merkle_root prev);
    prev_block_hash_of_hash ← calc_hashof_hash field;
    free field ;;
    h ← load_bytes prev_block_hash_of_hash crypto_generichash_BYTES;
    update blk_current (set_previous_block h) ;;
    free prev_block_hash_of_hash.

(** [test_solution]: the buffers are on the stack; the result is 1 when the
    hash of nonce and root is the expected one. *)
Definition test_solution (merkle_root nonce answer : ptr) : M Z :=
  n ← load_bytes nonce NONCE_LEN;
  r ← load_bytes merkle_root crypto_generichash_BYTES;
  let out_hash := crypto_generichash (n ++ r) in
  a ← load_bytes answer crypto_generichash_BYTES;
  mret (if decide (out_hash = a) then 1 else 0).

(** The [do ... while] loop both solvers share: draw a nonce into the first 15
    bytes of [CONCAT_BYTES], hash all 47 into [out_hash], until [difficulty]
    bytes are zero. *)
Fixpoint puzzle_loop (fuel : nat) (CONCAT_BYTES out_hash : ptr) (difficulty : nat) : M unit :=
  match fuel with
  | O => no_fuel
  | S fuel =>
      bs ← draw (fun i => randombytes_buf i NONCE_LEN);
      store_bytes CONCAT_BYTES bs ;;
      input ← load_bytes CONCAT_BYTES (crypto_generichash_BYTES + NONCE_LEN);
      store_bytes out_hash (crypto_generichash input) ;;
      o ← load_bytes out_hash difficulty;
      if decide (o = zeros difficulty) then mret () else
      puzzle_loop fuel CONCAT_BYTES out_hash difficulty
  end.

(** [difficulty] is forced into 1 to 5. *)
Definition clamp_difficulty (difficulty : Z) : Z :=
  let difficulty := if difficulty >? 5 then 5 else difficulty in
  if difficulty =? 0 then 1 else difficulty.

Definition solve_puzzle (fuel : nat) (merkle_root : ptr) (difficulty : Z) : M ptr :=
  let difficulty := clamp_difficulty difficulty in
  (if sodium_init <? 0 then die else mret ()) ;;
  nonce_answ ← calloc (Z.of_nat NONCE_LEN) x00;
  CONCAT_BYTES ← calloc (Z.of_nat (NONCE_LEN + crypto_generichash_BYTES)) x00;
  memcpy (padd CONCAT_BYTES (Z.of_nat NONCE_LEN)) merkle_root crypto_generichash_BYTES ;;
  out_hash ← calloc (Z.of_nat crypto_generichash_BYTES) x00;
  puzzle_loop fuel CONCAT_BYTES out_hash (Z.to_nat difficulty) ;;
  memcpy nonce_answ CONCAT_BYTES NONCE_LEN ;;
  free CONCAT_BYTES ;;
  test_solution merkle_root nonce_answ out_hash ;;
  free out_hash ;;
  mret nonce_answ.

(** The thread's version: difficulty 3, the answer goes to [pc->nonce]. *)
Definition solve_puzzle_fixed_diff (fuel : nat) (pc : ptr) : M Z :=
  (if sodium_init <? 0 then die else mret ()) ;;
  CONCAT_BYTES ← calloc (Z.of_nat (NONCE_LEN + crypto_generichash_BYTES)) x00;
  c ← load (A:=puzzle_thr_container) pc;
  memcpy (padd CONCAT_BYTES (Z.of_nat NONCE_LEN)) (pz_merkle_root_p c) crypto_generichash_BYTES ;;
  out_hash ← calloc (Z.of_nat crypto_generichash_BYTES) x00;
  puzzle_loop fuel CONCAT_BYTES out_hash 3 ;;
  c ← load (A:=puzzle_thr_container) pc;
  memcpy (pz_nonce c) CONCAT_BYTES NONCE_LEN ;;
  free CONCAT_BYTES ;;
  test_solution (pz_merkle_root_p c) (pz_nonce c) out_hash ;;
  free out_hash ;;
  mret 1.
End blockdata.

(** ** The search *)
Section search.
Context {sod : Sodium} {ok : SodiumOk sod}.

(** Draw [i] solves the puzzle for [root]. *)
Definition solves (root : list byte) (d i : nat) : Prop :=
  take d (crypto_generichash (randombytes_buf i NONCE_LEN ++ root)) = zeros d.

#[global] Instance solves_dec root d i : Decision (solves root d i).
Proof. unfold solves. apply _. Defined.

(** One round of the loop. *)
Lemma puzzle_round fuel cb ob x root o d m :
  heap m !! cb = Some (BBytes (x ++ root)) -> length x = NONCE_LEN ->
  length root = crypto_generichash_BYTES -> heap m !! ob = Some (BBytes o) ->
  length o = crypto_generichash_BYTES -> cb <> ob -> (d <= 32)%nat ->
  let n := randombytes_buf (rng m) NONCE_LEN in
  let m1 := Mem (<[ob := BBytes (crypto_generichash (n ++ root))]> (<[cb := BBytes (n ++ root)]> (heap m)))
              (next m) (S (rng m)) (ticks m) in
  puzzle_loop (S fuel) (Ptr cb 0) (Ptr ob 0) d m =
    if decide (solves root d (rng m)) then Ok ((), m1) else puzzle_loop fuel (Ptr cb 0) (Ptr ob 0) d m1.
Proof.
  intros Hcb Hx Hroot Hob Ho Hne Hd n m1.
  assert (length n = NONCE_LEN) as Hn by apply randombytes_length.
  cbn [puzzle_loop]. unfold draw. erewrite bind_ok by reflexivity. cbv beta iota.
  assert (wp (store_bytes (Ptr cb 0) n) (fun _ m' => m' = Mem (<[cb := BBytes (n ++ root)]> (heap m)) (next m) (S (rng m)) (ticks m))
    (Mem (heap m) (next m) (S (rng m)) (ticks m))) as ([] & m' & R1 & ->).
  { eapply wp_store_bytes; [exact Hcb|lia|rewrite length_app; cbn; lia|]. mem_cbn.
    unfold overwrite. rewrite take_0, Nat.add_0_l, Hn, <-Hx, drop_app_length. done. }
  erewrite bind_ok by exact R1.
  erewrite bind_ok by (apply load_bytes_run, bytes_at_all; [apply lookup_insert_eq|rewrite length_app; lia]).
  assert (wp (store_bytes (Ptr ob 0) (crypto_generichash (n ++ root))) (fun _ m' => m' = m1)
    (Mem (<[cb := BBytes (n ++ root)]> (heap m)) (next m) (S (rng m)) (ticks m))) as ([] & m' & R2 & ->).
  { eapply wp_store_bytes; [mem_cbn; rewrite lookup_insert_ne by done; exact Hob|lia|rewrite generichash_length; cbn; lia|].
    mem_cbn. rewrite overwrite_all; [done|by rewrite generichash_length]. }
  erewrite bind_ok by exact R2.
  erewrite bind_ok by (apply load_bytes_run, bytes_at_prefix; [apply lookup_insert_eq|by rewrite generichash_length]).
  cbv beta. unfold solves. fold n. by destruct (decide _).
Qed.

(** The search stops at the first draw that solves the puzzle. *)
Lemma puzzle_loop_run k fuel cb ob x root o d m :
  heap m !! cb = Some (BBytes (x ++ root)) -> length x = NONCE_LEN ->
  length root = crypto_generichash_BYTES -> heap m !! ob = Some (BBytes o) ->
  length o = crypto_generichash_BYTES -> cb <> ob -> (d <= 32)%nat ->
  (forall j, (j < k)%nat -> ~ solves root d (rng m + j)) -> solves root d (rng m + k) -> (k < fuel)%nat ->
  let n := randombytes_buf (rng m + k) NONCE_LEN in
  puzzle_loop fuel (Ptr cb 0) (Ptr ob 0) d m =
    Ok ((), Mem (<[ob := BBytes (crypto_generichash (n ++ root))]> (<[cb := BBytes (n ++ root)]> (heap m)))
              (next m) (rng m + k + 1) (ticks m)).
Proof.
  revert fuel x o m; induction k as [|k IH]; intros fuel x o m Hcb Hx Hroot Hob Ho Hne Hd Hno Hyes Hf n;
    (destruct fuel as [|fuel]; [lia|]); rewrite (puzzle_round _ _ _ x root o) by done.
  - subst n. rewrite Nat.add_0_r in *. rewrite decide_True by done. by rewrite Nat.add_1_r.
  - rewrite decide_False.
    2:{ specialize (Hno 0%nat ltac:(lia)). by rewrite Nat.add_0_r in Hno. }
    subst n. replace (rng m + S k)%nat with (S (rng m) + k)%nat in * by lia.
    rewrite (IH fuel (randombytes_buf (rng m) NONCE_LEN) (crypto_generichash (randombytes_buf (rng m) NONCE_LEN ++ root))).
    + cbn [heap next rng ticks]. rewrite !(insert_insert_ne _ cb ob), !insert_insert_eq by done. done.
    + cbn. rewrite lookup_insert_ne by done. apply lookup_insert_eq.
    + apply randombytes_length.
    + done.
    + apply lookup_insert_eq.
    + apply generichash_length.
    + done.
    + done.
    + intros j Hj. cbn [rng]. replace (S (rng m) + j)%nat with (rng m + S j)%nat by lia. apply Hno. lia.
    + done.
    + lia.
Qed.

(** With no solution among the draws the loop goes on. *)
Lemma puzzle_loop_none fuel cb ob x root o d m :
  heap m !! cb = Some (BBytes (x ++ root)) -> length x = NONCE_LEN ->
  length root = crypto_generichash_BYTES -> heap m !! ob = Some (BBytes o) ->
  length o = crypto_generichash_BYTES -> cb <> ob -> (d <= 32)%nat ->
  (forall j, (j < fuel)%nat -> ~ solves root d (rng m + j)) ->
  puzzle_loop fuel (Ptr cb 0) (Ptr ob 0) d m = NoFuel.
Proof.
  revert x o m; induction fuel as [|fuel IH]; intros x o m Hcb Hx Hroot Hob Ho Hne Hd Hno; [done|].
  rewrite (puzzle_round _ _ _ x root o), decide_False by
    (done || (specialize (Hno 0%nat ltac:(lia)); by rewrite Nat.add_0_r in Hno)).
  apply (IH (randombytes_buf (rng m) NONCE_LEN) (crypto_generichash (randombytes_buf (rng m) NONCE_LEN ++ root)));
    [cbn; rewrite lookup_insert_ne by done; apply lookup_insert_eq|apply randombytes_length|done|
     apply lookup_insert_eq|apply generichash_length|done|done|].
  intros j Hj. cbn [rng]. replace (S (rng m) + j)%nat with (rng m + S j)%nat by lia. apply Hno. lia.
Qed.

Lemma test_solution_run mr np ap n r a m :
  bytes_at (heap m) np NONCE_LEN = Ok n -> bytes_at (heap m) mr crypto_generichash_BYTES = Ok r ->
  bytes_at (heap m) ap crypto_generichash_BYTES = Ok a ->
  test_solution mr np ap m = Ok (if decide (crypto_generichash (n ++ r) = a) then 1 else 0, m).
Proof.
  intros Hn Hr Ha. unfold test_solution.
  do 3 erewrite bind_ok by (apply load_bytes_run; eassumption). done.
Qed.

(** The concatenation buffer after the root was copied behind the nonce. *)
Lemma concat_buffer root :
  length root = crypto_generichash_BYTES ->
  overwrite (replicate 47 x00) root 15 = zeros NONCE_LEN ++ root.
Proof. intros Hr. unfold overwrite. rewrite Hr. by rewrite drop_ge, app_nil_r by (rewrite length_replicate; lia). Qed.

Lemma clamp_range d : 0 <= d -> 1 <= clamp_difficulty d <= 5.
Proof.
  intros Hd. unfold clamp_difficulty. cbv zeta.
  destruct (Z.gtb_spec d 5); [done|]. destruct (Z.eqb_spec d 0); lia.
Qed.

Lemma solve_puzzle_run fuel k mr root difficulty m :
  wf m -> bytes_at (heap m) mr crypto_generichash_BYTES = Ok root -> 0 <= difficulty ->
  let d := Z.to_nat (clamp_difficulty difficulty) in
  (forall j, (j < k)%nat -> ~ solves root d (rng m + j)) -> solves root d (rng m + k) -> (k < fuel)%nat ->
  solve_puzzle fuel mr difficulty m =
    Ok (Ptr (next m) 0,
        Mem (<[next m := BBytes (randombytes_buf (rng m + k) NONCE_LEN)]> (heap m))
          (Pos.succ (Pos.succ (Pos.succ (next m)))) (rng m + k + 1) (ticks m)).
Proof.
  intros Hwf Hmr Hd d Hno Hyes Hf. pose proof (bytes_at_length _ _ _ _ Hmr) as Hroot.
  assert (1 <= d <= 5)%nat as Hd5 by (pose proof (clamp_range _ Hd); lia).
  apply wp_eq. unfold solve_puzzle. cbv zeta. fold d.
  rewrite (proj2 (Z.ltb_ge _ _) sodium_init_ok). wps.
  eapply wp_run.
  { eapply memcpy_run; [|by heap_simpl|lia|autorewrite with chain_rw; lia].
    eapply bytes_at_old; [exact Hwf|exact Hmr|]. intros; by heap_simpl. }
  change (overwrite _ root _) with (overwrite (replicate 47 x00) root 15). rewrite concat_buffer by done. wps.
  eapply wp_run; [eapply (puzzle_loop_run k fuel _ _ (zeros NONCE_LEN) root (zeros crypto_generichash_BYTES));
    [by heap_simpl|done|done|by heap_simpl|done|lia|lia|done|done|done]|]. wps.
  set (n := randombytes_buf (rng m + k) NONCE_LEN).
  assert (length n = NONCE_LEN) as Hn by apply randombytes_length.
  eapply wp_run.
  { eapply memcpy_run; [apply bytes_at_prefix; [by heap_simpl|rewrite length_app; lia]|by heap_simpl|lia|done]. }
  wps. rewrite take_app_le, (take_ge n), overwrite_all by (rewrite ?length_replicate; lia || done).
  eapply wp_run.
  { eapply test_solution_run; [apply bytes_at_all; [by heap_simpl|done]| |apply bytes_at_all; [by heap_simpl|by rewrite generichash_length]].
    eapply bytes_at_old; [exact Hwf|exact Hmr|]. intros; by heap_simpl. }
  wps. split; [done|]. f_equal. heap_ext.
Qed.

Lemma solve_puzzle_out_of_fuel fuel k mr root difficulty m :
  wf m -> bytes_at (heap m) mr crypto_generichash_BYTES = Ok root -> 0 <= difficulty ->
  (forall j, (j < k)%nat -> ~ solves root (Z.to_nat (clamp_difficulty difficulty)) (rng m + j)) ->
  (fuel <= k)%nat -> solve_puzzle fuel mr difficulty m = NoFuel.
Proof.
  intros Hwf Hmr Hd Hno Hf. pose proof (bytes_at_length _ _ _ _ Hmr) as Hroot.
  pose proof (clamp_range _ Hd). unfold solve_puzzle. cbv zeta.
  rewrite (proj2 (Z.ltb_ge _ _) sodium_init_ok). unfold calloc.
  erewrite bind_ok by reflexivity. erewrite bind_ok by reflexivity. erewrite bind_ok by reflexivity. mem_cbn.
  erewrite bind_ok.
  2:{ eapply memcpy_run; [|by heap_simpl|lia|autorewrite with chain_rw; lia].
      eapply bytes_at_old; [exact Hwf|exact Hmr|]. intros; by heap_simpl. }
  change (overwrite _ root _) with (overwrite (replicate 47 x00) root 15). rewrite concat_buffer by done.
  erewrite bind_ok by reflexivity. apply bind_no_fuel.
  eapply (puzzle_loop_none fuel _ _ (zeros NONCE_LEN) root (zeros crypto_generichash_BYTES));
    [by heap_simpl|done|done|by heap_simpl|done|cbn; lia|lia|]. intros j Hj. cbn [rng]. apply Hno. lia.
Qed.

Lemma solve_puzzle_fixed_diff_run fuel k pcb rb root nb old m :
  wf m -> heap m !! pcb = Some (BPuzzle [PuzzleThr (Ptr rb 0) (Ptr nb 0)]) ->
  heap m !! rb = Some (BBytes root) -> length root = crypto_generichash_BYTES ->
  heap m !! nb = Some (BBytes old) -> length old = NONCE_LEN -> rb <> nb ->
  (forall j, (j < k)%nat -> ~ solves root 3 (rng m + j)) -> solves root 3 (rng m + k) -> (k < fuel)%nat ->
  solve_puzzle_fixed_diff fuel (Ptr pcb 0) m =
    Ok (1, Mem (<[nb := BBytes (randombytes_buf (rng m + k) NONCE_LEN)]> (heap m))
          (Pos.succ (Pos.succ (next m))) (rng m + k + 1) (ticks m)).
Proof.
  intros Hwf Hpc Hrb Hroot Hnb Hold Hne Hno Hyes Hf.
  pose proof (wf_lt _ _ _ Hwf Hpc). pose proof (wf_lt _ _ _ Hwf Hnb). pose proof (wf_lt _ _ _ Hwf Hrb).
  assert (pcb <> nb) by congruence.
  apply wp_eq. unfold solve_puzzle_fixed_diff.
  rewrite (proj2 (Z.ltb_ge _ _) sodium_init_ok). wps. cbn [pz_merkle_root_p pz_nonce].
  eapply wp_run.
  { eapply memcpy_run; [apply bytes_at_all; [by heap_simpl|done]|by heap_simpl|lia|autorewrite with chain_rw; lia]. }
  change (overwrite _ root _) with (overwrite (replicate 47 x00) root 15). rewrite concat_buffer by done. wps.
  eapply wp_run; [eapply (puzzle_loop_run k fuel _ _ (zeros NONCE_LEN) root (zeros crypto_generichash_BYTES));
    [by heap_simpl|done|done|by heap_simpl|done|lia|lia|done|done|done]|]. wps. cbn [pz_merkle_root_p pz_nonce].
  set (n := randombytes_buf (rng m + k) NONCE_LEN).
  assert (length n = NONCE_LEN) as Hn by apply randombytes_length.
  eapply wp_run.
  { eapply memcpy_run; [apply bytes_at_prefix; [by heap_simpl|rewrite length_app; lia]|by heap_simpl|lia|cbn; lia]. }
  rewrite take_app_le, (take_ge n), overwrite_all by lia. wps.
  eapply wp_run.
  { eapply test_solution_run; (apply bytes_at_all; [by heap_simpl|done || by rewrite generichash_length]). }
  wps. split; [done|]. f_equal. heap_ext.
Qed.
End search.

(** ** Creating a block *)
Section blocks.
Context {sod : Sodium} {clk : Clock} {ok : SodiumOk sod}.

(** [prev_block] is null, or points at the block [b]. *)
Definition prev_at (h : gmap positive block) (p : ptr) (o : option block_t) : Prop :=
  match o with
  | None => p = NULL
  | Some b => exists q i bs, p = Ptr q i /\ h !! q = Some (BBlks bs) /\ zlookup bs i = Some b
  end.

Definition prev_hash (o : option block_t) : list byte :=
  match o with None => zeros crypto_generichash_BYTES | Some b => crypto_generichash (bytes_of_block b) end.

Lemma create_block_dummy_run prev o mr root m :
  wf m -> bytes_at (heap m) mr crypto_generichash_BYTES = Ok root -> prev_at (heap m) prev o ->
  create_block_dummy prev mr m =
    Ok (Ptr (next m) 0,
        Mem (<[next m := BBlks [Block (zeros NONCE_LEN) (stamp (time_now (ticks m)) ++ zeros 11) (epoch_ns (S (ticks m))) 0 0
                                  (prev_hash o) (crypto_generichash root)]]> (heap m))
          (Pos.succ (Pos.succ (next m))) (rng m) (S (S (ticks m)))).
Proof.
  intros Hwf Hmr Hprev. apply wp_eq. unfold create_block_dummy. wps.
  eapply wp_run; [apply calc_hashof_hash_run; [solve_wf|]; eapply bytes_at_old; [exact Hwf|exact Hmr|]; intros; by heap_simpl|].
  wps. eapply wp_load_bytes; [apply bytes_at_all; [by heap_simpl|by rewrite generichash_length]|]. wps.
  unfold get_timestamp_at. wps. apply wp_tick. wps. rewrite stamp_length. cbn [Nat.leb]. wps.
  eapply wp_run; [apply get_epoch_ns_run|]. wps.
  destruct o as [b|]; cbn [prev_at] in Hprev.
  - destruct Hprev as (q & i & bs & -> & Hq & Hi). pose proof (wf_lt _ _ _ Hwf Hq).
    rewrite decide_False by done. wps.
    split; [done|]. f_equal. heap_ext.
  - subst prev. rewrite decide_True by done. wps. split; [done|]. f_equal. heap_ext.
Qed.

Lemma set_nonce_to_block_run blk b nb n m :
  heap m !! blk = Some (BBlks [b]) -> heap m !! nb = Some (BBytes n) -> length n = NONCE_LEN -> blk <> nb ->
  set_nonce_to_block (Ptr blk 0) (Ptr nb 0) m =
    Ok ((), Mem (delete nb (<[blk := BBlks [set_timestamp_end (epoch_ns (ticks m)) (set_nonce n b)]]> (heap m)))
              (next m) (rng m) (S (ticks m))).
Proof.
  intros Hb Hn Hl Hne. apply wp_eq. unfold set_nonce_to_block. wps.
  eapply wp_load_bytes; [by apply bytes_at_all|]. wps.
  eapply wp_run; [apply get_epoch_ns_run|]. wps. split; [done|]. f_equal. by rewrite insert_insert_eq.
Qed.

(** A null predecessor clears the field; otherwise it is the hash of the
    predecessor's Merkle root, and the temporary buffer is released. *)
Lemma set_prev_block_hash_run blk b prev o m :
  wf m -> heap m !! blk = Some (BBlks [b]) -> prev_at (heap m) prev o ->
  (forall pb, o = Some pb -> length (bl_merkle_root pb) = crypto_generichash_BYTES) ->
  wp (set_prev_block_hash (Ptr blk 0) prev)
    (fun _ m' => heap m' = <[blk := BBlks [set_previous_block
       (match o with None => zeros crypto_generichash_BYTES | Some pb => crypto_generichash (bl_merkle_root pb) end) b]]> (heap m)) m.
Proof.
  intros Hwf Hb Hprev Hlen. pose proof (wf_lt _ _ _ Hwf Hb). unfold set_prev_block_hash.
  destruct o as [pb|]; cbn [prev_at] in Hprev.
  - destruct Hprev as (q & i & bs & -> & Hq & Hi). pose proof (wf_lt _ _ _ Hwf Hq).
    rewrite decide_False by done. wps.
    eapply wp_run; [apply calc_hashof_hash_run; [solve_wf|]; apply bytes_at_all; [by heap_simpl|by rewrite Hlen]|]. wps.
    eapply wp_load_bytes; [apply bytes_at_all; [by heap_simpl|by rewrite generichash_length]|]. wps. heap_ext.
  - subst prev. rewrite decide_True by done. by wps.
Qed.

Lemma bytes_of_block_length b :
  length (bl_nonce b) = NONCE_LEN -> length (bl_date b) = DATE_LEN ->
  length (bl_previous_block b) = crypto_generichash_BYTES -> length (bl_merkle_root b) = crypto_generichash_BYTES ->
  length (bytes_of_block b) = 138%nat.
Proof. intros H1 H2 H3 H4. unfold bytes_of_block. rewrite !length_app, !length_le_bytes. lia. Qed.

(** C25: the proof-of-work search finds the first solution.  If draw [k]
    is the first whose hash with the Merkle root begins with the required
    number of zero bytes (1 to 5, whatever the argument), then any fuel above
    [k] is enough, [solve_puzzle] returns a fresh buffer with exactly that
    nonce, has released its work buffers, and [test_solution] accepts the
    nonce; and with no solution among the first [fuel] draws the loop is still
    running. *)
Theorem solve_puzzle_finds_first fuel k mr root difficulty m :
  wf m -> bytes_at (heap m) mr crypto_generichash_BYTES = Ok root -> 0 <= difficulty ->
  let d := Z.to_nat (clamp_difficulty difficulty) in
  (forall j, (j < k)%nat -> ~ solves root d (rng m + j)) ->
  (1 <= d <= 5)%nat /\
  (solves root d (rng m + k) -> (k < fuel)%nat ->
     wp (solve_puzzle fuel mr difficulty)
       (fun p m' => heap m' = <[next m := BBytes (randombytes_buf (rng m + k) NONCE_LEN)]> (heap m) /\
          p = Ptr (next m) 0 /\ rng m' = (rng m + k + 1)%nat /\
          forall ans, bytes_at (heap m') ans crypto_generichash_BYTES =
                        Ok (crypto_generichash (randombytes_buf (rng m + k) NONCE_LEN ++ root)) ->
            test_solution mr p ans m' = Ok (1, m')) m) /\
  ((fuel <= k)%nat -> solve_puzzle fuel mr difficulty m = NoFuel).
Proof.
  intros Hwf Hmr Hd d Hno. split; [pose proof (clamp_range _ Hd); lia|]. split.
  - intros Hyes Hf. eapply wp_run; [by eapply (solve_puzzle_run fuel k)|]. split_and!; [done..|].
    intros ans Hans. erewrite test_solution_run; [by rewrite decide_True| | |exact Hans].
    + apply bytes_at_all; [apply lookup_insert_eq|by rewrite randombytes_length].
    + eapply bytes_at_old; [exact Hwf|exact Hmr|]. intros; by heap_simpl.
  - intros Hf. by apply (solve_puzzle_out_of_fuel fuel k _ root).
Qed.
End blocks.

(** With the toy hash that keeps the first bytes, the third draw is zero. *)
Lemma solve_puzzle_finds_first_witness :
  let m := Mem (<[1%positive := BBytes (replicate 32 x07)]> ∅) 2 0 0 in
  wp (solve_puzzle (sod:=Toy.prefixing) 3 (Ptr 1 0) 9)
    (fun p m' => p = Ptr 2 0 /\ heap m' = <[2%positive := BBytes (zeros 15)]> (heap m)) m.
Proof.
  intros m.
  destruct (solve_puzzle_finds_first (sod:=Toy.prefixing) (ok:=Toy.prefixing_ok) 3 2 (Ptr 1 0) (replicate 32 x07) 9 m)
    as (_ & Hrun & _).
  - intros b Hb. cbn in *. rewrite lookup_insert_ne by lia. apply lookup_empty.
  - reflexivity.
  - lia.
  - intros j Hj. assert (j = 0 \/ j = 1)%nat as [-> | ->] by lia; vm_compute; discriminate.
  - eapply wp_mono; [apply Hrun; [vm_compute; reflexivity|lia]|]. intros p m' (Hh & Hp & _). split; [exact Hp|exact Hh].
Defined.
