(* ===== verification/BlockProcess.v ===== *)
(** * Turning a block of messages into a block

    sources/client/block_process.c: [processing_block] takes the container of
    the built tree, solves the puzzle for its root and makes the block. *)

From S2P Require Import Prelude.
From S2P Require Import CTypes.
From S2P Require Import Memory.
From S2P Require Import Platform.
From S2P Require Import Accounts.
From S2P Require Import Hashing.
From S2P Require Import Layering.
From S2P Require Import MerkleTree.
From S2P Require Import Misc.
From S2P Require Import BlockData.

Section code.
Context {sod : Sodium} {clk : Clock}.

(** [processing_block]: the root's hash bytes are read three times (printed,
    hashed for display, copied to the stack array [merkle_root_first]).  The
    solver's thread is created and joined at once, so it runs like a call;
    creating a thread is taken to succeed. *)
Definition processing_block (fuel : nat) (L_arrays_p_cont : ptr) : M ptr :=
  node ← client_root L_arrays_p_cont;
  load_bytes node crypto_generichash_BYTES ;;
  node ← client_root L_arrays_p_cont;
  temp_hash ← calc_hashof_hash node;
  load_bytes temp_hash crypto_generichash_BYTES ;;
  free temp_hash ;;
  merkle_root_first ← calloc (Z.of_nat crypto_generichash_BYTES) x00;
  node ← client_root L_arrays_p_cont;
  memcpy merkle_root_first node crypto_generichash_BYTES ;;
  pc ← calloc 1 (PuzzleThr NULL NULL);
  nonce_answ ← calloc (Z.of_nat NONCE_LEN) x00;
  update pc (fun c => PuzzleThr merkle_root_first (pz_nonce c)) ;;
  update pc (fun c => PuzzleThr (pz_merkle_root_p c) nonce_answ) ;;
  solve_puzzle_fixed_diff fuel pc ;;
  block_dummy ← create_block_dummy NULL merkle_root_first;
  set_nonce_to_block block_dummy nonce_answ ;;
  set_prev_block_hash block_dummy NULL ;;
  free pc ;;
  free merkle_root_first ;;
  mret block_dummy.
End code.

Section facts.
Context {sod : Sodium} {clk : Clock} {ok : SodiumOk sod}.

(** The block made of a root and the nonce of draw [i], at clock reading [t]. *)
Definition made_block (root : list byte) (i t : nat) : block_t :=
  Block (randombytes_buf i NONCE_LEN) (stamp (time_now t) ++ zeros 11) (epoch_ns (S t)) (epoch_ns (S (S t))) 0
    (zeros crypto_generichash_BYTES) (crypto_generichash root).

(** Reading the root is not disturbed by later allocations. *)
Lemma client_root_old c p m m1 :
  wf m -> client_root c m = Ok (p, m) ->
  (forall b, (b < next m)%positive -> heap m1 !! b = heap m !! b) -> client_root c m1 = Ok (p, m1).
Proof.
  intros Hwf Hr Heq. unfold client_root in *.
  apply (wp_run _ (fun p' _ => p' = p)) in Hr as Hw; [|done].
  apply wp_unbind in Hw as (cc & m' & Hc & Hw). pose proof (load_same _ _ _ _ Hc) as ->.
  apply wp_unbind in Hw as (l & m' & Hl & Hw). pose proof (load_same _ _ _ _ Hl) as ->.
  destruct Hw as (p' & m2 & Hp & ->). pose proof (load_same _ _ _ _ Hp) as ->.
  erewrite bind_ok by exact (load_old _ _ _ _ _ Hwf Hc Heq).
  erewrite bind_ok by exact (load_old _ _ _ _ _ Hwf Hl Heq).
  exact (load_old _ _ _ _ _ Hwf Hp Heq).
Qed.

Lemma processing_block_run fuel k c q root m :
  wf m -> client_root c m = Ok (Ptr q 0, m) ->
  bytes_at (heap m) (Ptr q 0) crypto_generichash_BYTES = Ok root ->
  (forall j, (j < k)%nat -> ~ solves root 3 (rng m + j)) -> solves root 3 (rng m + k) -> (k < fuel)%nat ->
  wp (processing_block fuel c)
    (fun p m' => exists b, p = Ptr b 0 /\ (next m <= b)%positive /\
       heap m' = <[b := BBlks [made_block root (rng m + k) (ticks m)]]> (heap m) /\ wf m') m.
Proof.
  intros Hwf Hcr Hq Hno Hyes Hf. pose proof (bytes_at_length _ _ _ _ Hq) as Hroot.
  unfold processing_block. wps. eapply wp_run; [exact Hcr|]. wps.
  eapply wp_load_bytes; [exact Hq|]. wps. eapply wp_run; [exact Hcr|]. wps.
  eapply wp_run; [by apply calc_hashof_hash_run|]. wps.
  eapply wp_load_bytes; [apply bytes_at_all; [by heap_simpl|by rewrite generichash_length]|]. wps.
  eapply wp_run; [eapply client_root_old; [exact Hwf|exact Hcr|]; intros; by heap_simpl|]. wps.
  eapply wp_run.
  { eapply memcpy_run; [|by heap_simpl|lia|autorewrite with chain_rw; lia].
    eapply bytes_at_old; [exact Hwf|exact Hq|]. intros; by heap_simpl. }
  rewrite overwrite_all by by rewrite length_replicate. wps.
  eapply wp_run.
  { eapply (solve_puzzle_fixed_diff_run fuel k _ _ root);
      [solve_wf|by heap_simpl|by heap_simpl|done|by heap_simpl|done|lia|done|done|done]. }
  wps. eapply wp_run.
  { eapply (create_block_dummy_run _ None _ root); [solve_wf|apply bytes_at_all; [by heap_simpl|done]|done]. }
  wps. eapply wp_run.
  { eapply set_nonce_to_block_run; [by heap_simpl|by heap_simpl|apply randombytes_length|lia]. }
  wps. unfold set_prev_block_hash. rewrite decide_True by done. wps.
  eexists. split; [done|]. split_and!; [lia| |].
  - heap_ext.
  - solve_wf.
Qed.

(** C16: from a built tree to a block.  Run on the container of a tree over
    [2^E] messages, [processing_block] ends (given fuel for the first nonce
    that solves the puzzle for the tree's root) and leaves one new block: its
    nonce makes the hash of nonce and Merkle root begin with three zero bytes
    and is the first drawn that does, its [merkle_root] field holds the hash of
    that root, its predecessor is zero, its [difficulty] field 0; all buffers,
    the solver's container included, are released. *)
Theorem processing_block_correct fuel k m0 m E mp mb gc la lp arr T :
  (0 < E)%nat -> client_tree m0 m E mp mb gc la lp arr T ->
  let root := merkle_root E ((fun i => crypto_generichash (mb i)) <$> List.seq 0 (2 ^ E)) in
  (forall j, (j < k)%nat -> ~ solves root 3 (rng m + j)) -> solves root 3 (rng m + k) -> (k < fuel)%nat ->
  wp (processing_block fuel (Ptr gc 0))
    (fun p m' => exists b blk, p = Ptr b 0 /\ (next m <= b)%positive /\
       heap m' = <[b := BBlks [blk]]> (heap m) /\
       take 3 (crypto_generichash (bl_nonce blk ++ root)) = zeros 3 /\
       bl_nonce blk = randombytes_buf (rng m + k) NONCE_LEN /\
       bl_merkle_root blk = crypto_generichash root /\
       bl_previous_block blk = zeros 32 /\ bl_difficulty blk = 0 /\
       length (bytes_of_block blk) = 138%nat) m.
Proof.
  intros HE Hct root Hno Hyes Hf.
  destruct (client_root_run _ _ _ _ _ _ _ _ _ _ HE Hct) as (q & Hr & _ & Hb).
  eapply wp_mono; [eapply processing_block_run; [|exact Hr|exact Hb|exact Hno|exact Hyes|exact Hf]|].
  { exact (g_wf _ _ _ _ (ct_grows _ _ _ _ _ _ _ _ _ _ Hct)). }
  intros p m' (b & -> & Hlt & Hh & _). exists b, (made_block root (rng m + k) (ticks m)).
  split_and!; try done. apply bytes_of_block_length; cbn; [apply randombytes_length|done|done|apply generichash_length].
Qed.
End facts.

(** The tree over the eight sample messages; with the toy hash that keeps the
    first bytes, the third draw (zeros) solves the puzzle. *)
Lemma processing_block_correct_witness :
  wp (c ← client_calc_merkle_tree (sod:=Toy.prefixing) 3 (Ptr 1 0);
      processing_block (sod:=Toy.prefixing) (clk:=Toy.toy_clock) 3 c)
    (fun p m' => exists b blk, p = Ptr b 0 /\ heap m' !! b = Some (BBlks [blk]) /\
       bl_nonce blk = zeros 15 /\ bl_previous_block blk = zeros 32) Sample.client_mem.
Proof.
  apply wp_bind. eapply wp_mono; [exact (client_calc_merkle_tree_spec (sod:=Toy.prefixing) (ok:=Toy.prefixing_ok) 3 (Ptr 1 0)
    Sample.client_text Sample.client_mem Sample.client_mem_wf ltac:(lia) Sample.client_mem_msgs)|].
  intros c m (gc & la & lp & arr & T & -> & Hct).
  pose proof (g_rng _ _ _ _ (ct_grows _ _ _ _ _ _ _ _ _ _ Hct)) as Hrng. cbn in Hrng.
  eapply wp_mono; [apply (processing_block_correct (sod:=Toy.prefixing) (clk:=Toy.toy_clock) (ok:=Toy.prefixing_ok)
    3 2 _ _ 3 _ _ _ _ _ _ _ ltac:(lia) Hct)|].
  - intros j Hj. rewrite Hrng. assert (j = 0 \/ j = 1)%nat as [-> | ->] by lia; vm_compute; discriminate.
  - rewrite Hrng. vm_compute. reflexivity.
  - lia.
  - intros p m' (b & blk & -> & _ & Hh & _ & Hn & _ & Hp & _). exists b, blk. split_and!; [done| |rewrite Hn, Hrng; reflexivity|done].
    rewrite Hh. by rewrite lookup_insert_eq.
Defined.
