(* ===== verification/RequestData.v ===== *)
(** * Completion tags

    The 64-bit value attached to every submitted io_uring operation: the event
    type in the upper half, the client's descriptor in the lower
    ([make_request_data], [request_data_client_fd],
    [request_data_event_type] of sources/networking/connection_handlers.c and,
    with their own event types, of sources/client/dhandlers_p2p.c and
    sources/client/p2p_listen.c); and the per-client slots the descriptor
    selects. *)

From S2P Require Import Prelude.
From S2P Require Import CTypes.
From S2P Require Import Memory.

Definition UINT_MAX : Z := 2 ^ 32 - 1.
Definition ULLONG_MAX : Z := 2 ^ 64 - 1.

(** [(uint64_t)(flag) << 32 | client_fd]: the [int] descriptor is converted to
    64 bits, with its sign. *)
Definition make_request_data (client_fd flag : Z) : Z :=
  Z.lor (u64 (Z.shiftl flag 32)) (u64 client_fd).

Definition request_data_client_fd (request_data : Z) : Z := i32 (Z.land request_data UINT_MAX).

Definition request_data_event_type (request_data : Z) : Z :=
  let mask := u64 (ULLONG_MAX - UINT_MAX) in
  Z.shiftr (Z.land request_data mask) 32.

(** [flag_state] of the server. *)
Inductive flag_state :=
| FLAG_ACCEPT | TEST_RESPONSE | READ_RESPONSE | WAIT_ACKNOWLEDGEMENT
| FLAG_SEND_TRANSACTIONS | FLAG_CLOSE_CONNECTION | FLAG_READ | FLAG_WRITE.

#[global] Instance flag_state_eq_decision : EqDecision flag_state.
Proof. solve_decision. Defined.

Definition flag_num (f : flag_state) : Z :=
  match f with
  | FLAG_ACCEPT => 0 | TEST_RESPONSE => 1 | READ_RESPONSE => 2 | WAIT_ACKNOWLEDGEMENT => 3
  | FLAG_SEND_TRANSACTIONS => 4 | FLAG_CLOSE_CONNECTION => 5 | FLAG_READ => 6 | FLAG_WRITE => 7
  end.

(** The enumerator with a value, none for other values of the enum's type. *)
Definition flag_of (z : Z) : option flag_state :=
  if z =? 0 then Some FLAG_ACCEPT else if z =? 1 then Some TEST_RESPONSE else
  if z =? 2 then Some READ_RESPONSE else if z =? 3 then Some WAIT_ACKNOWLEDGEMENT else
  if z =? 4 then Some FLAG_SEND_TRANSACTIONS else if z =? 5 then Some FLAG_CLOSE_CONNECTION else
  if z =? 6 then Some FLAG_READ else if z =? 7 then Some FLAG_WRITE else None.

(** [STATE_P2P] of the peer server. *)
Inductive state_p2p :=
| P_ACCEPT | P_WAIT_PONG | P_TEST_RESPONSE | P_BLOCK_SENDED | P_BLOCK_NOT_READY | P_READ_RESPONSE.

#[global] Instance state_p2p_eq_decision : EqDecision state_p2p.
Proof. solve_decision. Defined.

Definition state_p2p_num (f : state_p2p) : Z :=
  match f with
  | P_ACCEPT => 0 | P_WAIT_PONG => 1 | P_TEST_RESPONSE => 2 | P_BLOCK_SENDED => 3
  | P_BLOCK_NOT_READY => 4 | P_READ_RESPONSE => 5
  end.

Definition state_p2p_of (z : Z) : option state_p2p :=
  if z =? 0 then Some P_ACCEPT else if z =? 1 then Some P_WAIT_PONG else
  if z =? 2 then Some P_TEST_RESPONSE else if z =? 3 then Some P_BLOCK_SENDED else
  if z =? 4 then Some P_BLOCK_NOT_READY else if z =? 5 then Some P_READ_RESPONSE else None.

(** [cl_p2p_state] of the connecting peer. *)
Inductive cl_p2p_state :=
| CL_TEST | ACCEPTED_PING | SEND_PONG | PROCESS_RESPONSE | ASK_FOR_A_BLOCK
| PROCESS_BLOCK_REQUEST | CL_READ_RESPONSE.

#[global] Instance cl_p2p_state_eq_decision : EqDecision cl_p2p_state.
Proof. solve_decision. Defined.

Definition cl_p2p_num (f : cl_p2p_state) : Z :=
  match f with
  | CL_TEST => 0 | ACCEPTED_PING => 1 | SEND_PONG => 2 | PROCESS_RESPONSE => 3
  | ASK_FOR_A_BLOCK => 4 | PROCESS_BLOCK_REQUEST => 5 | CL_READ_RESPONSE => 6
  end.

Definition cl_p2p_of (z : Z) : option cl_p2p_state :=
  if z =? 0 then Some CL_TEST else if z =? 1 then Some ACCEPTED_PING else
  if z =? 2 then Some SEND_PONG else if z =? 3 then Some PROCESS_RESPONSE else
  if z =? 4 then Some ASK_FOR_A_BLOCK else if z =? 5 then Some PROCESS_BLOCK_REQUEST else
  if z =? 6 then Some CL_READ_RESPONSE else None.

Lemma flag_of_num f : flag_of (flag_num f) = Some f.
Proof. by destruct f. Qed.
Lemma state_p2p_of_num f : state_p2p_of (state_p2p_num f) = Some f.
Proof. by destruct f. Qed.
Lemma cl_p2p_of_num f : cl_p2p_of (cl_p2p_num f) = Some f.
Proof. by destruct f. Qed.

Lemma flag_num_range f : 0 <= flag_num f < 2 ^ 32.
Proof. destruct f; cbn; lia. Qed.
Lemma state_p2p_num_range f : 0 <= state_p2p_num f < 2 ^ 32.
Proof. destruct f; cbn; lia. Qed.
Lemma cl_p2p_num_range f : 0 <= cl_p2p_num f < 2 ^ 32.
Proof. destruct f; cbn; lia. Qed.

(** ** Packing *)

Lemma land_UINT_MAX z : Z.land z UINT_MAX = z mod 2 ^ 32.
Proof. unfold UINT_MAX. change (2 ^ 32 - 1) with (Z.ones 32). by rewrite Z.land_ones by lia. Qed.

(** With a non-negative descriptor the two halves do not overlap. *)
Lemma make_request_data_add fd flag :
  0 <= fd < 2 ^ 31 -> 0 <= flag < 2 ^ 32 -> make_request_data fd flag = flag * 2 ^ 32 + fd.
Proof.
  intros Hfd Hf. unfold make_request_data. rewrite Z.shiftl_mul_pow2 by lia. rewrite !u64_small by lia.
  symmetry. apply Z.add_nocarry_lor. apply Z.bits_inj'. intros i Hi. rewrite Z.land_spec, Z.bits_0.
  destruct (Z.ltb_spec i 32) as [Hlt|Hge]; [by rewrite Z.mul_pow2_bits_low by lia|].
  assert (Z.testbit fd i = false) as ->; [|apply andb_false_r].
  destruct (decide (fd = 0)) as [->|]; [apply Z.bits_0|]. apply Z.bits_above_log2; [lia|].
  assert (Z.log2 fd < 31) by (apply Z.log2_lt_pow2; lia). lia.
Qed.

Lemma event_type_div z : 0 <= z < 2 ^ 64 -> request_data_event_type z = z / 2 ^ 32.
Proof.
  intros Hz. unfold request_data_event_type. cbv zeta.
  rewrite Z.shiftr_land, <-Z.shiftr_div_pow2 by lia.
  change (Z.shiftr (u64 (ULLONG_MAX - UINT_MAX)) 32) with (Z.ones 32).
  rewrite Z.land_ones, Z.shiftr_div_pow2 by lia. apply Z.mod_small.
  split; [apply Z.div_pos; lia|apply Z.div_lt_upper_bound; lia].
Qed.

Lemma make_request_data_range fd flag : 0 <= make_request_data fd flag < 2 ^ 64.
Proof.
  unfold make_request_data. pose proof (u64_range (Z.shiftl flag 32)). pose proof (u64_range fd).
  split; [apply Z.lor_nonneg; lia|]. set (a := u64 (Z.shiftl flag 32)) in *. set (b := u64 fd) in *.
  destruct (decide (Z.lor a b = 0)) as [->|]; [lia|]. apply Z.log2_lt_pow2.
  { pose proof (proj2 (Z.lor_nonneg a b)). lia. }
  rewrite Z.log2_lor by lia.
  apply Z.max_lub_lt; (destruct (decide (0 < a)); [|replace a with 0 by lia; cbn; lia] || idtac);
    (apply Z.log2_lt_pow2; lia) || (destruct (decide (0 < b)); [apply Z.log2_lt_pow2; lia|replace b with 0 by lia; cbn; lia]).
Qed.

Lemma request_data_fd_small fd : 0 <= fd < 2 ^ 31 -> request_data_client_fd fd = fd.
Proof. intros Hfd. unfold request_data_client_fd. rewrite land_UINT_MAX, Z.mod_small, i32_small by lia. done. Qed.

(** A tag passed where a descriptor ([int]) is expected keeps its lower half. *)
Lemma request_data_i32 fd flag : 0 <= fd < 2 ^ 31 -> 0 <= flag < 2 ^ 32 -> i32 (make_request_data fd flag) = fd.
Proof.
  intros Hfd Hf. rewrite make_request_data_add by done. unfold i32.
  replace (flag * 2 ^ 32 + fd + 2 ^ 31) with (fd + 2 ^ 31 + flag * 2 ^ 32) by lia.
  rewrite Z.mod_add, Z.mod_small by lia. lia.
Qed.

Lemma request_data_fd fd flag :
  0 <= fd < 2 ^ 31 -> 0 <= flag < 2 ^ 32 -> request_data_client_fd (make_request_data fd flag) = fd.
Proof.
  intros Hfd Hf. unfold request_data_client_fd. rewrite land_UINT_MAX, make_request_data_add by done.
  rewrite Z.add_comm, Z.mod_add, Z.mod_small, i32_small by lia. done.
Qed.

Lemma request_data_type fd flag :
  0 <= fd < 2 ^ 31 -> 0 <= flag < 2 ^ 32 -> request_data_event_type (make_request_data fd flag) = flag.
Proof.
  intros Hfd Hf. rewrite event_type_div by apply make_request_data_range. rewrite make_request_data_add by done.
  rewrite Z.add_comm, Z.div_add, Z.div_small by lia. lia.
Qed.

(** C30: a completion tag gives back what was put in.  For every descriptor a
    system call can return (0 to 2^31 - 1) and every event type of the three
    state machines, the type and the descriptor read from the tag are those it
    was made of. *)
Theorem request_data_roundtrip fd (f : flag_state) (g : state_p2p) (c : cl_p2p_state) :
  0 <= fd < 2 ^ 31 ->
  (forall n, n ∈ [flag_num f; state_p2p_num g; cl_p2p_num c] ->
     request_data_client_fd (make_request_data fd n) = fd) /\
  flag_of (request_data_event_type (make_request_data fd (flag_num f))) = Some f /\
  state_p2p_of (request_data_event_type (make_request_data fd (state_p2p_num g))) = Some g /\
  cl_p2p_of (request_data_event_type (make_request_data fd (cl_p2p_num c))) = Some c.
Proof.
  intros Hfd. split_and!.
  - intros n. rewrite !elem_of_cons. intros [->|[->|[->|[]%not_elem_of_nil]]]; apply request_data_fd;
      auto using flag_num_range, state_p2p_num_range, cl_p2p_num_range.
  - by rewrite request_data_type, flag_of_num by auto using flag_num_range.
  - by rewrite request_data_type, state_p2p_of_num by auto using state_p2p_num_range.
  - by rewrite request_data_type, cl_p2p_of_num by auto using cl_p2p_num_range.
Qed.

Lemma request_data_roundtrip_witness :
  flag_of (request_data_event_type (make_request_data 7 (flag_num FLAG_CLOSE_CONNECTION))) = Some FLAG_CLOSE_CONNECTION.
Proof.
  destruct (request_data_roundtrip 7 FLAG_CLOSE_CONNECTION P_ACCEPT CL_TEST ltac:(lia)) as (_ & H & _). exact H.
Defined.

(** A negative descriptor destroys the event type.  A failed accept or
    receive carries a negative result; used as the descriptor of the next
    request, its sign extension sets every bit of the type field: whatever
    type was meant, the tag decodes to no event type at all. *)
Theorem request_data_negative_fd fd (f : flag_state) :
  - 2 ^ 31 <= fd < 0 ->
  request_data_event_type (make_request_data fd (flag_num f)) = UINT_MAX /\
  flag_of (request_data_event_type (make_request_data fd (flag_num f))) = None /\
  request_data_client_fd (make_request_data fd (flag_num f)) = fd.
Proof.
  intros Hfd. pose proof (flag_num_range f) as Hf.
  assert (u64 fd = 2 ^ 64 + fd) as Hu.
  { unfold u64. replace fd with (fd + 2 ^ 64 + (-1) * 2 ^ 64) by lia. rewrite Z.mod_add, Z.mod_small by lia. lia. }
  assert (make_request_data fd (flag_num f) / 2 ^ 32 = UINT_MAX) as Ht.
  { rewrite <-Z.shiftr_div_pow2 by lia. unfold make_request_data.
    rewrite Z.shiftr_lor, Hu. assert (Z.shiftr (2 ^ 64 + fd) 32 = Z.ones 32) as ->.
    { rewrite Z.shiftr_div_pow2 by lia. change (Z.ones 32) with (2 ^ 32 - 1).
      symmetry. apply (Z.div_unique_pos _ _ _ (fd + 2 ^ 32)); lia. }
    change UINT_MAX with (Z.ones 32). apply Z.lor_ones_low; [|].
    - apply Z.shiftr_nonneg, u64_range.
    - rewrite u64_small by (rewrite Z.shiftl_mul_pow2 by lia; lia).
      rewrite Z.shiftr_shiftl_l by lia. by destruct f. }
  split_and!.
  - by rewrite event_type_div by apply make_request_data_range.
  - rewrite event_type_div, Ht by apply make_request_data_range. done.
  - unfold request_data_client_fd, make_request_data. rewrite Z.land_lor_distr_l, !land_UINT_MAX, Hu.
    rewrite (u64_small (Z.shiftl _ _)) by (rewrite Z.shiftl_mul_pow2 by lia; lia).
    rewrite Z.shiftl_mul_pow2, Z.mod_mul, Z.lor_0_l by lia.
    replace (2 ^ 64 + fd) with (2 ^ 32 + fd + (2 ^ 32 - 1) * 2 ^ 32) by lia.
    rewrite Z.mod_add, Z.mod_small by lia. unfold i32.
    replace (2 ^ 32 + fd + 2 ^ 31) with (fd + 2 ^ 31 + 1 * 2 ^ 32) by lia.
    rewrite Z.mod_add, Z.mod_small by lia. lia.
Qed.

Lemma request_data_negative_fd_witness :
  flag_of (request_data_event_type (make_request_data (-11) (flag_num READ_RESPONSE))) = None.
Proof. exact (proj1 (proj2 (request_data_negative_fd (-11) READ_RESPONSE ltac:(lia)))). Defined.
