(* ===== verification/Codec.v ===== *)
(** * Messages on the wire

    The message types of sources/serdes/transaction.proto and
    sources/client/serdes_client/p2ptransaction.proto, and the interface to
    protobuf-c: [Protobuf] has the pack and unpack functions of both types,
    [ProtobufOk] their documented behaviour (unpacking what was packed gives
    the message back; a bound on the packed size; nothing is not a message,
    since both types have required fields).  Module [Wire] is an
    implementation of the interface in the proto2 wire format, proved to
    satisfy it. *)

From S2P Require Import Prelude.
From S2P Require Import CTypes.

(** ** IpcMessage: server and client *)

(** [IpcMessage__Status] *)
Abbreviation IPC_TEST := 0.
Abbreviation IPC_OK := 1.
Abbreviation IPC_ERROR := 2.
Abbreviation IPC_FINISH := 3.
Abbreviation IPC_WAIT := 4.
Abbreviation IPC_ASK_NEED_MSG := 5.
Abbreviation IPC_NEED_MORE := 6.
Abbreviation IPC_ACKN_OK := 7.
Abbreviation IPC_MESSAGE_SENDED := 8.
Abbreviation IPC_ENOUGH := 9.
Abbreviation IPC_ALL_BLOCK_MSG_SENDED := 10.
Abbreviation IPC_ALL_BLOCK_RECEIVED := 11.

(** [struct IpcMessage]: a [has_] flag and its data are an option, the
    timestamp is the C string's characters. *)
Record IpcMessage := MkIpcMessage {
  transaction_msg : option (list byte);
  pubkey : option (list byte);
  timestamp : list byte;
  time_num : Z;
  status_code : Z }.

(** ** P2pIpcMessage: peer to peer *)

(** [P2pIpcMessage__Status] *)
Abbreviation P2P_TEST := 0.
Abbreviation P2P_OK := 1.
Abbreviation P2P_ERROR := 2.
Abbreviation P2P_FINISH := 3.
Abbreviation P2P_WAIT := 4.
Abbreviation P2P_BLOCK := 5.
Abbreviation P2P_PING := 6.
Abbreviation P2P_PONG := 7.
Abbreviation P2P_ASK_IF_BLOCK_READY := 8.
Abbreviation P2P_BLOCK_READY := 9.
Abbreviation P2P_BLOCK_NOT_READY := 10.
Abbreviation P2P_ACKN := 11.

Record P2pIpcMessage := MkP2pIpcMessage {
  p_date : list byte;
  p_timestamp_begin : option Z;
  p_timestamp_end : option Z;
  p_difficulty : option Z;
  p_merkle_root : option (list byte);
  p_nonce : option (list byte);
  p_prev_block : option (list byte);
  p_status_code : Z }.

(** ** The interface *)

Definition olen (o : option (list byte)) : nat := match o with Some l => length l | None => 0 end.

(** Messages the library can represent: 64-bit integers, enum values of the
    declared range, fields below 2^31 bytes. *)
Definition ipc_wf (m : IpcMessage) : Prop :=
  0 <= time_num m < 2 ^ 64 /\ 0 <= status_code m < 12 /\
  Z.of_nat (olen (transaction_msg m)) < 2 ^ 31 /\ Z.of_nat (olen (pubkey m)) < 2 ^ 31 /\
  Z.of_nat (length (timestamp m)) < 2 ^ 31.

Definition u64_opt (o : option Z) : Prop := match o with Some z => 0 <= z < 2 ^ 64 | None => True end.

Definition p2p_wf (m : P2pIpcMessage) : Prop :=
  u64_opt (p_timestamp_begin m) /\ u64_opt (p_timestamp_end m) /\ u64_opt (p_difficulty m) /\
  0 <= p_status_code m < 12 /\
  Z.of_nat (olen (p_merkle_root m)) < 2 ^ 31 /\ Z.of_nat (olen (p_nonce m)) < 2 ^ 31 /\
  Z.of_nat (olen (p_prev_block m)) < 2 ^ 31 /\ Z.of_nat (length (p_date m)) < 2 ^ 31.

Class Protobuf := {
  ipc_message__pack : IpcMessage -> list byte;
  ipc_message__unpack : list byte -> option IpcMessage;
  p2p__ipc_message__pack : P2pIpcMessage -> list byte;
  p2p__ipc_message__unpack : list byte -> option P2pIpcMessage }.

Class ProtobufOk (pb : Protobuf) : Prop := {
  ipc_unpack_pack m : ipc_wf m -> ipc_message__unpack (ipc_message__pack m) = Some m;
  ipc_pack_size m : ipc_wf m ->
    (length (ipc_message__pack m) <=
       olen (transaction_msg m) + olen (pubkey m) + length (timestamp m) + 60)%nat;
  p2p_unpack_pack m : p2p_wf m -> p2p__ipc_message__unpack (p2p__ipc_message__pack m) = Some m;
  p2p_pack_size m : p2p_wf m ->
    (length (p2p__ipc_message__pack m) <=
       olen (p_merkle_root m) + olen (p_nonce m) + olen (p_prev_block m) + length (p_date m) + 90)%nat;
  (** both types have required fields *)
  ipc_unpack_nil : ipc_message__unpack [] = None;
  p2p_unpack_nil : p2p__ipc_message__unpack [] = None }.

Lemma ipc_pack_nonempty `{ProtobufOk} m : ipc_wf m -> (0 < length (ipc_message__pack m))%nat.
Proof.
  intros Hm. destruct (ipc_message__pack m) eqn:Hp; [|cbn; lia]. pose proof (ipc_unpack_pack m Hm) as Hu.
  by rewrite Hp, ipc_unpack_nil in Hu.
Qed.

Lemma p2p_pack_nonempty `{ProtobufOk} m : p2p_wf m -> (0 < length (p2p__ipc_message__pack m))%nat.
Proof.
  intros Hm. destruct (p2p__ipc_message__pack m) eqn:Hp; [|cbn; lia]. pose proof (p2p_unpack_pack m Hm) as Hu.
  by rewrite Hp, p2p_unpack_nil in Hu.
Qed.

(** What the encoding promises for two packets that arrive as one: the fields
    of the second replace those of the first. *)
Definition later_opt {A} (a b : option A) : option A := match b with Some x => Some x | None => a end.

Definition p2p_merge (a b : P2pIpcMessage) : P2pIpcMessage :=
  MkP2pIpcMessage (p_date b) (later_opt (p_timestamp_begin a) (p_timestamp_begin b)) (later_opt (p_timestamp_end a) (p_timestamp_end b))
    (later_opt (p_difficulty a) (p_difficulty b)) (later_opt (p_merkle_root a) (p_merkle_root b)) (later_opt (p_nonce a) (p_nonce b))
    (later_opt (p_prev_block a) (p_prev_block b)) (p_status_code b).

Class ProtobufMerges (pb : Protobuf) : Prop :=
  p2p_unpack_joined a b : p2p_wf a -> p2p_wf b ->
    p2p__ipc_message__unpack (p2p__ipc_message__pack a ++ p2p__ipc_message__pack b) = Some (p2p_merge a b).

(** And for a packet cut short: the status, the last field of both messages,
    is required, so no strict prefix decodes. *)
Class ProtobufCuts (pb : Protobuf) : Prop := {
  ipc_unpack_cut m p : ipc_wf m -> p `prefix_of` ipc_message__pack m -> p <> ipc_message__pack m -> ipc_message__unpack p = None;
  p2p_unpack_cut m p : p2p_wf m -> p `prefix_of` p2p__ipc_message__pack m -> p <> p2p__ipc_message__pack m -> p2p__ipc_message__unpack p = None }.

(** ** The proto2 wire format *)
Module Wire.

(** Base-128 integers, at most ten bytes. *)
Fixpoint varint (fuel : nat) (z : Z) : list byte :=
  match fuel with
  | O => []
  | S fuel => if z <? 128 then [byte_of_Z z] else byte_of_Z (128 + z mod 128) :: varint fuel (z / 128)
  end.

Fixpoint unvarint (fuel : nat) (bs : list byte) : option (Z * list byte) :=
  match fuel, bs with
  | S fuel, b :: bs =>
      let v := Z_of_byte b in
      if v <? 128 then Some (v, bs)
      else '(r, rest) ← unvarint fuel bs; Some (v - 128 + 128 * r, rest)
  | _, _ => None
  end.

(** A field: its number and an integer or a byte string. *)
Inductive wire := WInt (z : Z) | WBytes (bs : list byte).

Definition put_field (f : Z * wire) : list byte :=
  match f with
  | (n, WInt z) => byte_of_Z (8 * n) :: varint 10 z
  | (n, WBytes bs) => byte_of_Z (8 * n + 2) :: varint 10 (Z.of_nat (length bs)) ++ bs
  end.

Definition put_fields (fs : list (Z * wire)) : list byte := flat_map put_field fs.

Definition get_field (bs : list byte) : option ((Z * wire) * list byte) :=
  match bs with
  | [] => None
  | b :: bs =>
      let t := Z_of_byte b in
      '(v, rest) ← unvarint 10 bs;
      if t mod 8 =? 0 then Some ((t / 8, WInt v), rest) else
      if t mod 8 =? 2 then
        if (Z.to_nat v <=? length rest)%nat
        then Some ((t / 8, WBytes (take (Z.to_nat v) rest)), drop (Z.to_nat v) rest) else None
      else None
  end.

Fixpoint get_fields (fuel : nat) (bs : list byte) : option (list (Z * wire)) :=
  match bs with
  | [] => Some []
  | _ => match fuel with
         | O => None
         | S fuel => '(f, rest) ← get_field bs; fs ← get_fields fuel rest; Some (f :: fs)
         end
  end.

(** The last field with a number, as its type. *)
Definition find_field (n : Z) (fs : list (Z * wire)) : option wire :=
  fold_left (fun acc f => if f.1 =? n then Some f.2 else acc) fs None.
Definition get_int (n : Z) (fs : list (Z * wire)) : option Z :=
  match find_field n fs with Some (WInt z) => Some z | _ => None end.
Definition get_bytes (n : Z) (fs : list (Z * wire)) : option (list byte) :=
  match find_field n fs with Some (WBytes b) => Some b | _ => None end.

Definition opt_int (n : Z) (o : option Z) : list (Z * wire) :=
  match o with Some z => [(n, WInt z)] | None => [] end.
Definition opt_bytes (n : Z) (o : option (list byte)) : list (Z * wire) :=
  match o with Some b => [(n, WBytes b)] | None => [] end.

Definition ipc_fields (m : IpcMessage) : list (Z * wire) :=
  opt_bytes 1 (transaction_msg m) ++ opt_bytes 2 (pubkey m) ++
  [(3, WBytes (timestamp m)); (4, WInt (time_num m)); (5, WInt (status_code m))].

Definition ipc_pack (m : IpcMessage) : list byte := put_fields (ipc_fields m).

Definition ipc_unpack (bs : list byte) : option IpcMessage :=
  fs ← get_fields (length bs) bs;
  ts ← get_bytes 3 fs; t ← get_int 4 fs; s ← get_int 5 fs;
  Some (MkIpcMessage (get_bytes 1 fs) (get_bytes 2 fs) ts t s).

Definition p2p_fields (m : P2pIpcMessage) : list (Z * wire) :=
  [(1, WBytes (p_date m))] ++ opt_int 2 (p_timestamp_begin m) ++ opt_int 3 (p_timestamp_end m) ++
  opt_int 4 (p_difficulty m) ++ opt_bytes 5 (p_merkle_root m) ++ opt_bytes 6 (p_nonce m) ++
  opt_bytes 7 (p_prev_block m) ++ [(8, WInt (p_status_code m))].

Definition p2p_pack (m : P2pIpcMessage) : list byte := put_fields (p2p_fields m).

Definition p2p_unpack (bs : list byte) : option P2pIpcMessage :=
  fs ← get_fields (length bs) bs;
  d ← get_bytes 1 fs; s ← get_int 8 fs;
  Some (MkP2pIpcMessage d (get_int 2 fs) (get_int 3 fs) (get_int 4 fs) (get_bytes 5 fs) (get_bytes 6 fs) (get_bytes 7 fs) s).

(** ** Round trips *)

Lemma unvarint_varint fuel z rest :
  0 <= z < 128 ^ Z.of_nat fuel -> (0 < fuel)%nat -> unvarint fuel (varint fuel z ++ rest) = Some (z, rest).
Proof.
  revert z; induction fuel as [|fuel IH]; intros z Hz Hf; [lia|]. cbn [varint].
  rewrite Nat2Z.inj_succ, Z.pow_succ_r in Hz by lia.
  destruct (Z.ltb_spec z 128) as [Hlt|Hge].
  - cbn. rewrite Z_of_byte_of_Z, Z.mod_small by lia. by rewrite (proj2 (Z.ltb_lt _ _)) by lia.
  - pose proof (Z.mod_pos_bound z 128 ltac:(lia)) as Hm. pose proof (Z.div_mod z 128 ltac:(lia)) as Hdm.
    cbn [unvarint app]. rewrite Z_of_byte_of_Z, Z.mod_small by lia.
    rewrite (proj2 (Z.ltb_ge _ _)) by lia.
    destruct fuel as [|fuel]; [cbn in Hz; lia|].
    rewrite IH; [|split; [apply Z.div_pos; lia|apply Z.div_lt_upper_bound; lia]|lia]. cbn. do 2 f_equal. lia.
Qed.

Lemma length_varint fuel z : (length (varint fuel z) <= fuel)%nat.
Proof. revert z; induction fuel as [|fuel IH]; intros z; cbn; [lia|]. destruct (z <? 128); cbn; [lia|]. specialize (IH (z / 128)). lia. Qed.

(** Field numbers of one byte, 64-bit values. *)
Definition field_ok (f : Z * wire) : Prop :=
  0 < f.1 < 16 /\ match f.2 with WInt z => 0 <= z < 2 ^ 64 | WBytes b => Z.of_nat (length b) < 2 ^ 31 end.

Lemma get_put_field f rest : field_ok f -> get_field (put_field f ++ rest) = Some (f, rest).
Proof.
  destruct f as [n [z|b]]; intros [Hn Hv]; cbn [fst snd] in *; cbn [put_field app get_field];
    rewrite Z_of_byte_of_Z, (Z.mod_small _ 256) by lia.
  - rewrite unvarint_varint by (change (128 ^ Z.of_nat 10) with (2 ^ 70); lia). cbn [mbind option_bind].
    rewrite Z.mul_comm, Z.mod_mul, Z.div_mul by lia. done.
  - rewrite <-app_assoc, unvarint_varint by (change (128 ^ Z.of_nat 10) with (2 ^ 70); lia). cbn [mbind option_bind].
    assert ((8 * n + 2) mod 8 = 2) as -> by (rewrite Z.add_comm, Z.mul_comm, Z.mod_add by lia; done).
    assert ((8 * n + 2) / 8 = n) as -> by (symmetry; apply (Z.div_unique_pos _ _ _ 2); lia).
    cbn [Z.eqb]. rewrite Nat2Z.id, length_app, (proj2 (Nat.leb_le _ _)) by lia.
    by rewrite take_app_length, drop_app_length.
Qed.

Lemma put_field_cons f : exists b l, put_field f = b :: l.
Proof. destruct f as [n [z|b]]; cbn; eauto. Qed.

Lemma get_put_fields fuel fs :
  Forall field_ok fs -> (length fs <= fuel)%nat -> get_fields fuel (put_fields fs) = Some fs.
Proof.
  revert fuel; induction fs as [|f fs IH]; intros fuel Hok Hf; [by destruct fuel|].
  apply Forall_cons_1 in Hok as [Hf1 Hok]. destruct fuel as [|fuel]; [cbn in Hf; lia|].
  unfold put_fields. cbn [flat_map]. fold (put_fields fs).
  destruct (put_field_cons f) as (b & l & Heq).
  assert (get_fields (S fuel) (put_field f ++ put_fields fs) =
    ('(f, rest) ← get_field (put_field f ++ put_fields fs); fs ← get_fields fuel rest; Some (f :: fs))) as ->
    by (rewrite Heq; done).
  rewrite get_put_field by done. cbn [mbind option_bind]. rewrite IH; [done|done|cbn in Hf; lia].
Qed.

Lemma length_put_fields fs : (length fs <= length (put_fields fs))%nat.
Proof.
  induction fs as [|f fs IH]; [done|]. unfold put_fields. cbn [flat_map]. fold (put_fields fs).
  destruct (put_field_cons f) as (b & l & ->). cbn. rewrite length_app. lia.
Qed.

#[export] Instance proto2 : Protobuf := {|
  ipc_message__pack := ipc_pack; ipc_message__unpack := ipc_unpack;
  p2p__ipc_message__pack := p2p_pack; p2p__ipc_message__unpack := p2p_unpack |}.

Lemma length_put_bytes n b : (length (put_field (n, WBytes b)) <= length b + 11)%nat.
Proof. cbn [put_field length]. rewrite length_app. pose proof (length_varint 10 (Z.of_nat (length b))). lia. Qed.
Lemma length_put_int n z : (length (put_field (n, WInt z)) <= 11)%nat.
Proof. cbn [put_field length]. pose proof (length_varint 10 z). lia. Qed.
Lemma length_put_opt_bytes n o : (length (put_fields (opt_bytes n o)) <= olen o + 11)%nat.
Proof.
  destruct o as [b|]; cbn [opt_bytes put_fields flat_map]; [|cbn; lia].
  rewrite app_nil_r. apply length_put_bytes.
Qed.
Lemma length_put_opt_int n o : (length (put_fields (opt_int n o)) <= 11)%nat.
Proof.
  destruct o as [b|]; cbn [opt_int put_fields flat_map]; [|cbn; lia].
  rewrite app_nil_r. apply length_put_int.
Qed.
Lemma put_fields_app fs gs : put_fields (fs ++ gs) = put_fields fs ++ put_fields gs.
Proof. apply List.flat_map_app. Qed.
Lemma put_fields_cons f fs : put_fields (f :: fs) = put_field f ++ put_fields fs.
Proof. done. Qed.

(** A small integer takes one byte after its tag. *)
Lemma length_put_small n z : z < 128 -> length (put_field (n, WInt z)) = 2%nat.
Proof. intros Hz. cbn [put_field varint]. by rewrite (proj2 (Z.ltb_lt _ _) Hz). Qed.

#[export] Instance proto2_ok : ProtobufOk proto2.
Proof.
  split.
  - intros [tr pk ts tn st] (H1 & H2 & H3 & H4 & H5). cbn [transaction_msg pubkey timestamp time_num status_code] in *.
    cbn [ipc_message__unpack ipc_message__pack proto2]. unfold ipc_unpack, ipc_pack.
    rewrite get_put_fields; [..|apply length_put_fields].
    + by destruct tr, pk.
    + destruct tr, pk; repeat constructor; cbn in *; lia.
  - intros m (H1 & H2 & _). cbn [ipc_message__pack proto2]. unfold ipc_pack, ipc_fields.
    rewrite !put_fields_app, !put_fields_cons, !length_app, (length_put_small 5) by lia.
    pose proof (length_put_opt_bytes 1 (transaction_msg m)). pose proof (length_put_opt_bytes 2 (pubkey m)).
    pose proof (length_put_bytes 3 (timestamp m)). pose proof (length_put_int 4 (time_num m)). cbn [put_fields flat_map length]. lia.
  - intros [d tb te df mr no pv st] (H1 & H2 & H3 & H4 & H5 & H6 & H7 & H8).
    cbn [p_date p_timestamp_begin p_timestamp_end p_difficulty p_merkle_root p_nonce p_prev_block p_status_code] in *.
    cbn [p2p__ipc_message__unpack p2p__ipc_message__pack proto2]. unfold p2p_unpack, p2p_pack.
    rewrite get_put_fields; [..|apply length_put_fields].
    + by destruct tb, te, df, mr, no, pv.
    + destruct tb, te, df, mr, no, pv; repeat constructor; cbn in *; lia.
  - intros m (_ & _ & _ & H4 & _). cbn [p2p__ipc_message__pack proto2]. unfold p2p_pack, p2p_fields.
    rewrite !put_fields_app, !put_fields_cons, !length_app, (length_put_small 8) by lia.
    pose proof (length_put_bytes 1 (p_date m)). pose proof (length_put_opt_int 2 (p_timestamp_begin m)).
    pose proof (length_put_opt_int 3 (p_timestamp_end m)). pose proof (length_put_opt_int 4 (p_difficulty m)).
    pose proof (length_put_opt_bytes 5 (p_merkle_root m)). pose proof (length_put_opt_bytes 6 (p_nonce m)).
    pose proof (length_put_opt_bytes 7 (p_prev_block m)). cbn [put_fields flat_map length]. lia.
  - done.
  - done.
Qed.

(** ** Joined packets *)

Lemma find_field_snoc n fs g : find_field n (fs ++ [g]) = if g.1 =? n then Some g.2 else find_field n fs.
Proof. unfold find_field. by rewrite fold_left_app. Qed.

Lemma find_field_app n fs gs :
  find_field n (fs ++ gs) = match find_field n gs with Some w => Some w | None => find_field n fs end.
Proof.
  induction gs as [|g gs IH] using rev_ind; [by rewrite app_nil_r|].
  rewrite app_assoc, !find_field_snoc. by destruct (g.1 =? n).
Qed.

(** Each field of a message is found under its number. *)
Lemma p2p_fields_find m :
  find_field 1 (p2p_fields m) = Some (WBytes (p_date m)) /\ find_field 2 (p2p_fields m) = WInt <$> p_timestamp_begin m /\
  find_field 3 (p2p_fields m) = WInt <$> p_timestamp_end m /\ find_field 4 (p2p_fields m) = WInt <$> p_difficulty m /\
  find_field 5 (p2p_fields m) = WBytes <$> p_merkle_root m /\ find_field 6 (p2p_fields m) = WBytes <$> p_nonce m /\
  find_field 7 (p2p_fields m) = WBytes <$> p_prev_block m /\ find_field 8 (p2p_fields m) = Some (WInt (p_status_code m)).
Proof. destruct m as [d [] [] [] [] [] [] s]; split_and!; reflexivity. Qed.

Lemma p2p_fields_ok m : p2p_wf m -> Forall field_ok (p2p_fields m).
Proof.
  destruct m as [d tb te df mr no pv st]. intros (H1 & H2 & H3 & H4 & H5 & H6 & H7 & H8).
  cbn [p_date p_timestamp_begin p_timestamp_end p_difficulty p_merkle_root p_nonce p_prev_block p_status_code] in *.
  destruct tb, te, df, mr, no, pv; repeat constructor; cbn in *; lia.
Qed.

Lemma ipc_fields_ok m : ipc_wf m -> Forall field_ok (ipc_fields m).
Proof.
  destruct m as [tr pk ts tn st]. intros (H1 & H2 & H3 & H4 & H5). cbn [transaction_msg pubkey timestamp time_num status_code] in *.
  destruct tr, pk; repeat constructor; cbn in *; lia.
Qed.

#[export] Instance proto2_merges : ProtobufMerges proto2.
Proof.
  intros a b Ha Hb. cbn [p2p__ipc_message__unpack p2p__ipc_message__pack proto2]. unfold p2p_unpack, p2p_pack.
  rewrite <-put_fields_app, get_put_fields; [..|apply length_put_fields].
  2:{ apply Forall_app. split; by apply p2p_fields_ok. }
  cbn [mbind option_bind]. unfold get_bytes, get_int. rewrite !find_field_app.
  destruct (p2p_fields_find a) as (A1 & A2 & A3 & A4 & A5 & A6 & A7 & A8).
  destruct (p2p_fields_find b) as (B1 & B2 & B3 & B4 & B5 & B6 & B7 & B8).
  rewrite A1, A2, A3, A4, A5, A6, A7, A8, B1, B2, B3, B4, B5, B6, B7, B8. cbn [fmap option_fmap option_map mbind option_bind].
  unfold p2p_merge. f_equal. f_equal; unfold later_opt.
  - by destruct (p_timestamp_begin b), (p_timestamp_begin a).
  - by destruct (p_timestamp_end b), (p_timestamp_end a).
  - by destruct (p_difficulty b), (p_difficulty a).
  - by destruct (p_merkle_root b), (p_merkle_root a).
  - by destruct (p_nonce b), (p_nonce a).
  - by destruct (p_prev_block b), (p_prev_block a).
Qed.

(** ** Packets cut short *)

(** A strict prefix, as the bytes that are missing. *)
Definition cut (p l : list byte) : Prop := exists k, k <> [] /\ l = p ++ k.

(** The cut is in the first part, or after it. *)
Lemma cut_app p a b : cut p (a ++ b) -> cut p a \/ exists q, p = a ++ q /\ cut q b.
Proof.
  intros (k & Hk & Hp). apply app_eq_inv in Hp as [(q & -> & ->)|(q & -> & ->)].
  - destruct q as [|x q]; [right; exists []; split; [by rewrite !app_nil_r|by exists b]|left; by exists (x :: q)].
  - right. exists q. split; [done|by exists k].
Qed.

Lemma unvarint_cut fuel z p : 0 <= z < 128 ^ Z.of_nat fuel -> cut p (varint fuel z) -> unvarint fuel p = None.
Proof.
  revert z p. induction fuel as [|fuel IH]; intros z p Hz (k & Hk & Hp); [done|].
  rewrite Nat2Z.inj_succ, Z.pow_succ_r in Hz by lia. destruct p as [|x p]; [done|]. cbn [varint] in Hp.
  destruct (Z.ltb_spec z 128) as [Hlt|Hge].
  - injection Hp as _ Hp. destruct p; [|done]. cbn in Hp. congruence.
  - injection Hp as <- Hp. cbn [unvarint]. pose proof (Z.mod_pos_bound z 128 ltac:(lia)).
    rewrite Z_of_byte_of_Z, Z.mod_small by lia. rewrite (proj2 (Z.ltb_ge _ _)) by lia.
    rewrite (IH (z / 128)); [done| |by exists k]. split; [apply Z.div_pos; lia|apply Z.div_lt_upper_bound; lia].
Qed.

Lemma get_field_cut f p : field_ok f -> cut p (put_field f) -> get_field p = None.
Proof.
  destruct f as [n [z|b]]; intros [Hn Hv] (k & Hk & Hp); (destruct p as [|x p]; [done|]); cbn [fst snd put_field] in *.
  - injection Hp as <- Hp. cbn [get_field]. rewrite (unvarint_cut 10 z p); [done|change (128 ^ Z.of_nat 10) with (2 ^ 70); lia|by exists k].
  - injection Hp as <- Hp. cbn [get_field].
    assert (0 <= Z.of_nat (length b) < 128 ^ Z.of_nat 10) as Hr by (change (128 ^ Z.of_nat 10) with (2 ^ 70); lia).
    destruct (cut_app p (varint 10 (Z.of_nat (length b))) b) as [Hc|(q & -> & k' & Hk' & Hb)]; [by exists k|by rewrite (unvarint_cut 10 _ p Hr Hc)|].
    rewrite unvarint_varint by (done || lia). cbn [mbind option_bind]. rewrite Z_of_byte_of_Z, (Z.mod_small _ 256) by lia.
    assert ((8 * n + 2) mod 8 = 2) as -> by (rewrite Z.add_comm, Z.mul_comm, Z.mod_add by lia; done).
    cbn [Z.eqb]. rewrite Nat2Z.id, (proj2 (Nat.leb_gt _ _)); [done|]. apply (f_equal length) in Hb. rewrite length_app in Hb.
    destruct k'; [done|cbn in Hb; lia].
Qed.

(** What decodes of a packet cut short lacks its last field. *)
Lemma get_fields_cut fuel fs p gs :
  Forall field_ok fs -> cut p (put_fields fs) -> get_fields fuel p = Some gs -> exists k, k <> [] /\ fs = gs ++ k.
Proof.
  revert fuel p gs. induction fs as [|f fs IH]; intros fuel p gs Hok Hc Hg.
  { destruct Hc as (k & Hk & Hp). symmetry in Hp. by apply app_eq_nil in Hp as [_ ?]. }
  apply Forall_cons_1 in Hok as [Hf Hok]. destruct p as [|x p]; [destruct fuel; injection Hg as <-; by exists (f :: fs)|].
  destruct fuel as [|fuel]; [done|]. cbn [get_fields] in Hg. rewrite put_fields_cons in Hc.
  apply cut_app in Hc as [Hc|(q & Hq & Hc)]; [by rewrite (get_field_cut f _ Hf Hc) in Hg|].
  rewrite Hq, get_put_field in Hg by done. cbn [mbind option_bind] in Hg.
  destruct (get_fields fuel q) as [gs'|] eqn:Hg'; [|done]. injection Hg as <-.
  destruct (IH fuel q gs' Hok Hc Hg') as (k' & Hk' & ->). by exists k'.
Qed.

(** A field that comes last and once is not found. *)
Lemma find_last_cut n w fs gs k : k <> [] -> fs ++ [(n, w)] = gs ++ k -> find_field n fs = None -> find_field n gs = None.
Proof.
  intros Hk Heq Hn. destruct k as [|y k _] using rev_ind; [done|]. rewrite app_assoc in Heq. apply app_inj_tail in Heq as [-> _].
  rewrite find_field_app in Hn. by destruct (find_field n k).
Qed.

Lemma prefix_cut (p l : list byte) : p `prefix_of` l -> p <> l -> cut p l.
Proof. intros [k ->] Hne. exists k. split; [|done]. intros ->. by rewrite app_nil_r in Hne. Qed.

#[export] Instance proto2_cuts : ProtobufCuts proto2.
Proof.
  split; intros m p Hm Hpre Hne; pose proof (prefix_cut _ _ Hpre Hne) as Hc.
  - cbn [ipc_message__unpack ipc_message__pack proto2] in *. unfold ipc_unpack, ipc_pack in *.
    destruct (get_fields (length p) p) as [gs|] eqn:Hg; [|done]. cbn [mbind option_bind].
    destruct (get_fields_cut _ _ _ _ (ipc_fields_ok m Hm) Hc Hg) as (k & Hk & Heq).
    assert (find_field 5 gs = None) as H5.
    { apply (find_last_cut 5 (WInt (status_code m)) (opt_bytes 1 (transaction_msg m) ++ opt_bytes 2 (pubkey m) ++
        [(3, WBytes (timestamp m)); (4, WInt (time_num m))]) gs k Hk).
      - rewrite <-Heq. unfold ipc_fields. by rewrite <-!app_assoc.
      - by destruct (transaction_msg m), (pubkey m). }
    unfold get_int. rewrite H5. destruct (get_bytes 3 gs); [|done]. by destruct (find_field 4 gs) as [[]|].
  - cbn [p2p__ipc_message__unpack p2p__ipc_message__pack proto2] in *. unfold p2p_unpack, p2p_pack in *.
    destruct (get_fields (length p) p) as [gs|] eqn:Hg; [|done]. cbn [mbind option_bind].
    destruct (get_fields_cut _ _ _ _ (p2p_fields_ok m Hm) Hc Hg) as (k & Hk & Heq).
    assert (find_field 8 gs = None) as H8.
    { eapply (find_last_cut 8 (WInt (p_status_code m)) _ gs k Hk).
      - rewrite <-Heq. unfold p2p_fields. rewrite !app_assoc. reflexivity.
      - by destruct m as [d [] [] [] [] [] [] s]. }
    unfold get_int. rewrite H8. by destruct (get_bytes 1 gs).
Qed.
End Wire.
