(* ===== verification/Generated.v ===== *)
(** * The generated protobuf code

    serdes/transaction.pb-c.c and client/serdes_client/p2ptransaction.pb-c.c:
    the descriptor tables of the two message types, the initial values of
    their structs and the functions the rest of the program calls.  The tables
    are data of the repository; the library that interprets them, protobuf-c,
    is not, and is the class [ProtobufC] with its documented behaviour
    [ProtobufCOk].  From these the interface [ProtobufOk] of [Codec], which
    every theorem about packets uses, is derived for the generated code
    ([generated], [generated_codec]).  Module [Driven] is an implementation of
    [ProtobufC] that encodes any message by walking its descriptor. *)

From stdpp Require Import strings.
From S2P Require Import Prelude.
From S2P Require Import CTypes.
From S2P Require Import Codec.

Local Open Scope string_scope.
Local Open Scope list_scope.
Local Open Scope Z_scope.

(** ** protobuf-c.h: the descriptor types

    The members of the public structs that carry meaning; [offsetof(S, x)] is
    the member's name. *)

Inductive ProtobufCLabel := LABEL_REQUIRED | LABEL_OPTIONAL.
Inductive ProtobufCType := TYPE_UINT64 | TYPE_ENUM | TYPE_STRING | TYPE_BYTES.

Record ProtobufCEnumValue := EnumValue { ev_name : string; ev_c_name : string; ev_value : Z }.
Record ProtobufCEnumValueIndex := EnumValueIndex { evi_name : string; evi_index : nat }.
Record ProtobufCIntRange := IntRange { start_value : Z; orig_index : nat }.

Record ProtobufCEnumDescriptor := EnumDescriptor {
  ed_name : string;
  ed_n_values : nat;
  ed_values : list ProtobufCEnumValue;
  ed_n_value_names : nat;
  ed_values_by_name : list ProtobufCEnumValueIndex;
  ed_n_value_ranges : nat;
  ed_value_ranges : list ProtobufCIntRange }.

Record ProtobufCFieldDescriptor := FieldDescriptor {
  fd_name : string;
  fd_id : Z;
  fd_label : ProtobufCLabel;
  fd_type : ProtobufCType;
  (** the member with the [has_] flag; 0 in the tables for a required field *)
  fd_quantifier_offset : option string;
  fd_offset : string;
  fd_descriptor : option ProtobufCEnumDescriptor }.

Record ProtobufCMessageDescriptor := MessageDescriptor {
  md_name : string;
  md_n_fields : nat;
  md_fields : list ProtobufCFieldDescriptor;
  md_fields_sorted_by_name : list nat;
  md_n_field_ranges : nat;
  md_field_ranges : list ProtobufCIntRange }.

#[global] Instance label_eq_decision : EqDecision ProtobufCLabel.
Proof. solve_decision. Defined.
#[global] Instance type_eq_decision : EqDecision ProtobufCType.
Proof. solve_decision. Defined.
#[global] Instance enum_value_eq_decision : EqDecision ProtobufCEnumValue.
Proof. solve_decision. Defined.
#[global] Instance enum_value_index_eq_decision : EqDecision ProtobufCEnumValueIndex.
Proof. solve_decision. Defined.
#[global] Instance int_range_eq_decision : EqDecision ProtobufCIntRange.
Proof. solve_decision. Defined.
#[global] Instance enum_descriptor_eq_decision : EqDecision ProtobufCEnumDescriptor.
Proof. solve_decision. Defined.
#[global] Instance field_descriptor_eq_decision : EqDecision ProtobufCFieldDescriptor.
Proof. solve_decision. Defined.
#[global] Instance message_descriptor_eq_decision : EqDecision ProtobufCMessageDescriptor.
Proof. solve_decision. Defined.

(** The value of a struct member. *)
Inductive cval :=
| VBool (b : bool)
| VUint64 (z : Z)
| VEnum (z : Z)
| VString (s : option (list byte))
| VBinary (bs : list byte).

(** A message: the descriptor its [base] points to, and its members. *)
Record ProtobufCMessage := Message {
  base_descriptor : ProtobufCMessageDescriptor;
  members : gmap string cval }.

(** The value of a field, read through the offsets of its descriptor. *)
Definition field_value (f : ProtobufCFieldDescriptor) (m : ProtobufCMessage) : option cval :=
  match fd_label f, fd_quantifier_offset f with
  | LABEL_REQUIRED, _ => members m !! fd_offset f
  | LABEL_OPTIONAL, Some q =>
      match members m !! q with Some (VBool true) => members m !! fd_offset f | _ => None end
  | LABEL_OPTIONAL, None => None
  end.

(** ** transaction.pb-c.c *)

Definition ipc_message__status__enum_values_by_number : list ProtobufCEnumValue := [
  EnumValue "TEST" "IPC_MESSAGE__STATUS__TEST" 0;
  EnumValue "OK" "IPC_MESSAGE__STATUS__OK" 1;
  EnumValue "ERROR" "IPC_MESSAGE__STATUS__ERROR" 2;
  EnumValue "FINISH" "IPC_MESSAGE__STATUS__FINISH" 3;
  EnumValue "WAIT" "IPC_MESSAGE__STATUS__WAIT" 4;
  EnumValue "ASK_NEED_MSG" "IPC_MESSAGE__STATUS__ASK_NEED_MSG" 5;
  EnumValue "NEED_MORE" "IPC_MESSAGE__STATUS__NEED_MORE" 6;
  EnumValue "ACKN_OK" "IPC_MESSAGE__STATUS__ACKN_OK" 7;
  EnumValue "MESSAGE_SENDED" "IPC_MESSAGE__STATUS__MESSAGE_SENDED" 8;
  EnumValue "ENOUGH" "IPC_MESSAGE__STATUS__ENOUGH" 9;
  EnumValue "ALL_BLOCK_MSG_SENDED" "IPC_MESSAGE__STATUS__ALL_BLOCK_MSG_SENDED" 10;
  EnumValue "ALL_BLOCK_RECEIVED" "IPC_MESSAGE__STATUS__ALL_BLOCK_RECEIVED" 11 ].

Definition ipc_message__status__value_ranges : list ProtobufCIntRange := [IntRange 0 0; IntRange 0 12].

Definition ipc_message__status__enum_values_by_name : list ProtobufCEnumValueIndex := [
  EnumValueIndex "ACKN_OK" 7;
  EnumValueIndex "ALL_BLOCK_MSG_SENDED" 10;
  EnumValueIndex "ALL_BLOCK_RECEIVED" 11;
  EnumValueIndex "ASK_NEED_MSG" 5;
  EnumValueIndex "ENOUGH" 9;
  EnumValueIndex "ERROR" 2;
  EnumValueIndex "FINISH" 3;
  EnumValueIndex "MESSAGE_SENDED" 8;
  EnumValueIndex "NEED_MORE" 6;
  EnumValueIndex "OK" 1;
  EnumValueIndex "TEST" 0;
  EnumValueIndex "WAIT" 4 ].

Definition ipc_message__status__descriptor : ProtobufCEnumDescriptor :=
  EnumDescriptor "IpcMessage.Status" 12 ipc_message__status__enum_values_by_number
    12 ipc_message__status__enum_values_by_name 1 ipc_message__status__value_ranges.

Definition ipc_message__field_descriptors : list ProtobufCFieldDescriptor := [
  FieldDescriptor "transaction_msg" 1 LABEL_OPTIONAL TYPE_BYTES (Some "has_transaction_msg") "transaction_msg" None;
  FieldDescriptor "pubkey" 2 LABEL_OPTIONAL TYPE_BYTES (Some "has_pubkey") "pubkey" None;
  FieldDescriptor "timestamp" 3 LABEL_REQUIRED TYPE_STRING None "timestamp" None;
  FieldDescriptor "time_num" 4 LABEL_REQUIRED TYPE_UINT64 None "time_num" None;
  FieldDescriptor "status_code" 5 LABEL_REQUIRED TYPE_ENUM None "status_code" (Some ipc_message__status__descriptor) ].

Definition ipc_message__field_indices_by_name : list nat := [1; 4; 3; 2; 0]%nat.

Definition ipc_message__number_ranges : list ProtobufCIntRange := [IntRange 1 0; IntRange 0 5].

Definition ipc_message__descriptor : ProtobufCMessageDescriptor :=
  MessageDescriptor "IpcMessage" 5 ipc_message__field_descriptors
    ipc_message__field_indices_by_name 1 ipc_message__number_ranges.

(** [IPC_MESSAGE__INIT] *)
Definition ipc_message__init : ProtobufCMessage :=
  Message ipc_message__descriptor (list_to_map [
    ("has_transaction_msg", VBool false); ("transaction_msg", VBinary []);
    ("has_pubkey", VBool false); ("pubkey", VBinary []);
    ("timestamp", VString None); ("time_num", VUint64 0); ("status_code", VEnum IPC_TEST) ]).

(** ** p2ptransaction.pb-c.c *)

Definition p2p__ipc_message__status__enum_values_by_number : list ProtobufCEnumValue := [
  EnumValue "TEST" "P2P__IPC_MESSAGE__STATUS__TEST" 0;
  EnumValue "OK" "P2P__IPC_MESSAGE__STATUS__OK" 1;
  EnumValue "ERROR" "P2P__IPC_MESSAGE__STATUS__ERROR" 2;
  EnumValue "FINISH" "P2P__IPC_MESSAGE__STATUS__FINISH" 3;
  EnumValue "WAIT" "P2P__IPC_MESSAGE__STATUS__WAIT" 4;
  EnumValue "BLOCK" "P2P__IPC_MESSAGE__STATUS__BLOCK" 5;
  EnumValue "PING" "P2P__IPC_MESSAGE__STATUS__PING" 6;
  EnumValue "PONG" "P2P__IPC_MESSAGE__STATUS__PONG" 7;
  EnumValue "ASK_IF_BLOCK_READY" "P2P__IPC_MESSAGE__STATUS__ASK_IF_BLOCK_READY" 8;
  EnumValue "BLOCK_READY" "P2P__IPC_MESSAGE__STATUS__BLOCK_READY" 9;
  EnumValue "BLOCK_NOT_READY" "P2P__IPC_MESSAGE__STATUS__BLOCK_NOT_READY" 10;
  EnumValue "ACKN" "P2P__IPC_MESSAGE__STATUS__ACKN" 11 ].

Definition p2p__ipc_message__status__value_ranges : list ProtobufCIntRange := [IntRange 0 0; IntRange 0 12].

Definition p2p__ipc_message__status__enum_values_by_name : list ProtobufCEnumValueIndex := [
  EnumValueIndex "ACKN" 11;
  EnumValueIndex "ASK_IF_BLOCK_READY" 8;
  EnumValueIndex "BLOCK" 5;
  EnumValueIndex "BLOCK_NOT_READY" 10;
  EnumValueIndex "BLOCK_READY" 9;
  EnumValueIndex "ERROR" 2;
  EnumValueIndex "FINISH" 3;
  EnumValueIndex "OK" 1;
  EnumValueIndex "PING" 6;
  EnumValueIndex "PONG" 7;
  EnumValueIndex "TEST" 0;
  EnumValueIndex "WAIT" 4 ].

Definition p2p__ipc_message__status__descriptor : ProtobufCEnumDescriptor :=
  EnumDescriptor "p2p_IpcMessage.Status" 12 p2p__ipc_message__status__enum_values_by_number
    12 p2p__ipc_message__status__enum_values_by_name 1 p2p__ipc_message__status__value_ranges.

Definition p2p__ipc_message__field_descriptors : list ProtobufCFieldDescriptor := [
  FieldDescriptor "date" 1 LABEL_REQUIRED TYPE_STRING None "date" None;
  FieldDescriptor "timestamp_begin" 2 LABEL_OPTIONAL TYPE_UINT64 (Some "has_timestamp_begin") "timestamp_begin" None;
  FieldDescriptor "timestamp_end" 3 LABEL_OPTIONAL TYPE_UINT64 (Some "has_timestamp_end") "timestamp_end" None;
  FieldDescriptor "difficulty" 4 LABEL_OPTIONAL TYPE_UINT64 (Some "has_difficulty") "difficulty" None;
  FieldDescriptor "merkle_root" 5 LABEL_OPTIONAL TYPE_BYTES (Some "has_merkle_root") "merkle_root" None;
  FieldDescriptor "nonce" 6 LABEL_OPTIONAL TYPE_BYTES (Some "has_nonce") "nonce" None;
  FieldDescriptor "prev_block" 7 LABEL_OPTIONAL TYPE_BYTES (Some "has_prev_block") "prev_block" None;
  FieldDescriptor "status_code" 8 LABEL_REQUIRED TYPE_ENUM None "status_code"
    (Some p2p__ipc_message__status__descriptor) ].

Definition p2p__ipc_message__field_indices_by_name : list nat := [0; 3; 4; 5; 6; 7; 1; 2]%nat.

Definition p2p__ipc_message__number_ranges : list ProtobufCIntRange := [IntRange 1 0; IntRange 0 8].

Definition p2p__ipc_message__descriptor : ProtobufCMessageDescriptor :=
  MessageDescriptor "p2p_IpcMessage" 8 p2p__ipc_message__field_descriptors
    p2p__ipc_message__field_indices_by_name 1 p2p__ipc_message__number_ranges.

(** [P2P__IPC_MESSAGE__INIT] *)
Definition p2p__ipc_message__init : ProtobufCMessage :=
  Message p2p__ipc_message__descriptor (list_to_map [
    ("date", VString None);
    ("has_timestamp_begin", VBool false); ("timestamp_begin", VUint64 0);
    ("has_timestamp_end", VBool false); ("timestamp_end", VUint64 0);
    ("has_difficulty", VBool false); ("difficulty", VUint64 0);
    ("has_merkle_root", VBool false); ("merkle_root", VBinary []);
    ("has_nonce", VBool false); ("nonce", VBinary []);
    ("has_prev_block", VBool false); ("prev_block", VBinary []);
    ("status_code", VEnum P2P_TEST) ]).

(** ** What the library expects of the tables *)

(** protobuf-c.h, [ProtobufCIntRange]: consecutive numbers [start_value ...]
    have consecutive indices from [orig_index]; how many follows from the next
    range's [orig_index], and a last dummy range closes the table. *)
Fixpoint range_lookup (rs : list ProtobufCIntRange) (v : Z) : option nat :=
  match rs with
  | r :: ((r' :: _) as rs') =>
      if (start_value r <=? v) && (v <? start_value r + Z.of_nat (orig_index r' - orig_index r))
      then Some (orig_index r + Z.to_nat (v - start_value r))%nat
      else range_lookup rs' v
  | _ => None
  end.

(** The position of the first element that satisfies a test. *)
Fixpoint index_of {A} (P : A -> bool) (l : list A) : option nat :=
  match l with
  | [] => None
  | x :: l => if P x then Some 0%nat else S <$> index_of P l
  end.

Definition strictly_ordered {A} (lt : A -> A -> bool) : list A -> bool :=
  fix go l := match l with
              | x :: ((y :: _) as l') => lt x y && go l'
              | _ => true
              end.

(** An enum's tables: counted, by increasing value, found by value through
    the ranges and by name through the sorted names. *)
Record enum_wf (e : ProtobufCEnumDescriptor) : Prop := EnumWf {
  ew_count : length (ed_values e) = ed_n_values e /\ length (ed_values_by_name e) = ed_n_value_names e /\
    length (ed_value_ranges e) = S (ed_n_value_ranges e);
  ew_sorted : strictly_ordered Z.ltb (ev_value <$> ed_values e) = true;
  ew_ranges v : range_lookup (ed_value_ranges e) v = index_of (fun x => ev_value x =? v) (ed_values e);
  ew_names : strictly_ordered String.ltb (evi_name <$> ed_values_by_name e) = true;
  ew_by_name : Forall (fun i => ev_name <$> ed_values e !! evi_index i = Some (evi_name i)) (ed_values_by_name e) }.

(** A message's tables; the members of its fields are all different. *)
Definition field_members (f : ProtobufCFieldDescriptor) : list string :=
  match fd_quantifier_offset f with Some q => [q; fd_offset f] | None => [fd_offset f] end.

Record field_wf (f : ProtobufCFieldDescriptor) : Prop := FieldWf {
  fw_id : 0 < fd_id f < 16;
  fw_label : fd_label f = LABEL_REQUIRED <-> fd_quantifier_offset f = None;
  fw_enum : fd_type f = TYPE_ENUM <-> fd_descriptor f <> None;
  fw_enum_wf e : fd_descriptor f = Some e -> enum_wf e;
  fw_string : fd_type f = TYPE_STRING -> fd_label f = LABEL_REQUIRED }.

Record message_wf (d : ProtobufCMessageDescriptor) : Prop := MessageWf {
  mw_count : length (md_fields d) = md_n_fields d /\ length (md_field_ranges d) = S (md_n_field_ranges d);
  mw_fields : Forall field_wf (md_fields d);
  mw_sorted : strictly_ordered Z.ltb (fd_id <$> md_fields d) = true;
  mw_ranges n : range_lookup (md_field_ranges d) n = index_of (fun f => fd_id f =? n) (md_fields d);
  mw_perm : md_fields_sorted_by_name d ≡ₚ seq 0 (md_n_fields d);
  mw_names : exists names, mapM (fun i => fd_name <$> md_fields d !! i) (md_fields_sorted_by_name d) = Some names /\
    strictly_ordered String.ltb names = true;
  mw_members : NoDup (concat (field_members <$> md_fields d)) }.

(** Consecutive numbers from [s], looked up either way. *)
Lemma range_consecutive {A} (key : A -> Z) (s : Z) (l : list A) (v : Z) :
  (forall i x, l !! i = Some x -> key x = s + Z.of_nat i) ->
  range_lookup [IntRange s 0; IntRange 0 (length l)] v = index_of (fun x => key x =? v) l.
Proof.
  cbn [range_lookup start_value orig_index]. rewrite Nat.sub_0_r. revert s; induction l as [|x l IH]; intros s Hl.
  - cbn [length]. destruct (Z.leb_spec s v), (Z.ltb_spec v (s + Z.of_nat 0)); cbn [andb index_of]; [lia|done..].
  - cbn [index_of]. rewrite (Hl 0%nat x) by done. rewrite Z.add_0_r.
    destruct (Z.eqb_spec s v) as [->|Hne].
    + rewrite (proj2 (Z.leb_le _ _)), (proj2 (Z.ltb_lt _ _)) by (cbn; lia). cbn. f_equal. lia.
    + rewrite <-(IH (s + 1)); [|intros i y Hy; rewrite (Hl (S i) y) by done; lia].
      destruct (Z.leb_spec s v), (Z.ltb_spec v (s + Z.of_nat (length (x :: l)))),
        (Z.leb_spec (s + 1) v), (Z.ltb_spec v (s + 1 + Z.of_nat (length l))); cbn in *; try lia; try done.
      f_equal. lia.
Qed.

Ltac consecutive key s l := intros v; refine (range_consecutive key s l v _);
  intros i x Hx; repeat (destruct i as [|i]; [cbn in Hx; injection Hx as <-; reflexivity|]); discriminate Hx.

Lemma ipc_status_table : enum_wf ipc_message__status__descriptor.
Proof.
  split; [done|done|consecutive ev_value 0 ipc_message__status__enum_values_by_number|done|repeat constructor].
Qed.

Lemma p2p_status_table : enum_wf p2p__ipc_message__status__descriptor.
Proof.
  split; [done|done|consecutive ev_value 0 p2p__ipc_message__status__enum_values_by_number|done|repeat constructor].
Qed.

Ltac field_table := split; cbn; [lia|by split|by split| |try done];
  intros ? [= <-]; (apply ipc_status_table || apply p2p_status_table).
Ltac field_tables := repeat first [apply Forall_nil_2 | apply Forall_cons_2; [field_table|]].

Lemma ipc_descriptor_wf : message_wf ipc_message__descriptor.
Proof.
  split; [done|field_tables|done|consecutive fd_id 1 ipc_message__field_descriptors|
    by apply (bool_decide_unpack _)|by eexists|by apply (bool_decide_unpack _)].
Qed.

Lemma p2p_descriptor_wf : message_wf p2p__ipc_message__descriptor.
Proof.
  split; [done|field_tables|done|consecutive fd_id 1 p2p__ipc_message__field_descriptors|
    by apply (bool_decide_unpack _)|by eexists|by apply (bool_decide_unpack _)].
Qed.

(** ** The library *)

Class ProtobufC := {
  protobuf_c_message_get_packed_size : ProtobufCMessage -> Z;
  protobuf_c_message_pack : ProtobufCMessage -> list byte;
  (** appends to a [ProtobufCBuffer] *)
  protobuf_c_message_pack_to_buffer : ProtobufCMessage -> list byte -> list byte;
  protobuf_c_message_unpack : ProtobufCMessageDescriptor -> list byte -> option ProtobufCMessage }.

(** The type of a member's value. *)
Definition typed (t : ProtobufCType) (v : cval) : Prop :=
  match t, v with
  | TYPE_UINT64, VUint64 _ | TYPE_ENUM, VEnum _ | TYPE_STRING, VString (Some _) | TYPE_BYTES, VBinary _ => True
  | _, _ => False
  end.

(** Values the wire can carry. *)
Definition in_range (v : cval) : Prop :=
  match v with
  | VUint64 z => 0 <= z < 2 ^ 64
  | VEnum z => 0 <= z < 2 ^ 31
  | VString (Some bs) | VBinary bs => Z.of_nat (length bs) < 2 ^ 31
  | _ => True
  end.

(** The bytes a value takes beside its tag and length. *)
Definition payload (v : cval) : nat :=
  match v with VString (Some bs) | VBinary bs => length bs | _ => 0 end.

(** A message whose members have the types its descriptor gives them, the
    required ones present. *)
Definition well_typed (m : ProtobufCMessage) : Prop :=
  forall f, f ∈ md_fields (base_descriptor m) ->
    (fd_label f = LABEL_REQUIRED -> is_Some (field_value f m)) /\
    (forall v, field_value f m = Some v -> typed (fd_type f) v).

Definition packable (m : ProtobufCMessage) : Prop :=
  well_typed m /\ forall f v, f ∈ md_fields (base_descriptor m) -> field_value f m = Some v -> in_range v.

Class ProtobufCOk (lib : ProtobufC) : Prop := {
  packed_size m : packable m ->
    protobuf_c_message_get_packed_size m = Z.of_nat (length (protobuf_c_message_pack m));
  pack_appends m buf : protobuf_c_message_pack_to_buffer m buf = buf ++ protobuf_c_message_pack m;
  (** tags up to 15 take one byte, an integer at most ten *)
  pack_length m : message_wf (base_descriptor m) -> packable m ->
    (length (protobuf_c_message_pack m) <=
       list_sum ((fun f => 11 + match field_value f m with Some v => payload v | None => 0 end)
                 <$> md_fields (base_descriptor m)))%nat;
  (** what was packed is unpacked with the value of every field *)
  unpack_packed m : message_wf (base_descriptor m) -> packable m ->
    exists m', protobuf_c_message_unpack (base_descriptor m) (protobuf_c_message_pack m) = Some m' /\
      forall f, f ∈ md_fields (base_descriptor m) -> field_value f m' = field_value f m;
  (** what is unpacked is a message of the descriptor *)
  unpack_typed d bs m : message_wf d -> protobuf_c_message_unpack d bs = Some m ->
    base_descriptor m = d /\ well_typed m;
  (** a required field must be there *)
  unpack_empty d f : message_wf d -> f ∈ md_fields d -> fd_label f = LABEL_REQUIRED ->
    protobuf_c_message_unpack d [] = None }.

(** ** The generated functions

    [assert] ends the program when it fails: no result. *)
Section generated.
Context {lib : ProtobufC}.

Definition ipc_message__get_packed_size_c (message : ProtobufCMessage) : option Z :=
  if decide (base_descriptor message = ipc_message__descriptor)
  then Some (protobuf_c_message_get_packed_size message) else None.

Definition ipc_message__pack_c (message : ProtobufCMessage) : option (list byte) :=
  if decide (base_descriptor message = ipc_message__descriptor)
  then Some (protobuf_c_message_pack message) else None.

Definition ipc_message__pack_to_buffer (message : ProtobufCMessage) (buffer : list byte) : option (list byte) :=
  if decide (base_descriptor message = ipc_message__descriptor)
  then Some (protobuf_c_message_pack_to_buffer message buffer) else None.

Definition ipc_message__unpack_c (data : list byte) : option ProtobufCMessage :=
  protobuf_c_message_unpack ipc_message__descriptor data.

(** A null message is accepted; the storage of any other is the library's. *)
Definition ipc_message__free_unpacked (message : option ProtobufCMessage) : option () :=
  match message with
  | None => Some ()
  | Some message => if decide (base_descriptor message = ipc_message__descriptor) then Some () else None
  end.

Definition p2p__ipc_message__get_packed_size_c (message : ProtobufCMessage) : option Z :=
  if decide (base_descriptor message = p2p__ipc_message__descriptor)
  then Some (protobuf_c_message_get_packed_size message) else None.

Definition p2p__ipc_message__pack_c (message : ProtobufCMessage) : option (list byte) :=
  if decide (base_descriptor message = p2p__ipc_message__descriptor)
  then Some (protobuf_c_message_pack message) else None.

Definition p2p__ipc_message__pack_to_buffer (message : ProtobufCMessage) (buffer : list byte) : option (list byte) :=
  if decide (base_descriptor message = p2p__ipc_message__descriptor)
  then Some (protobuf_c_message_pack_to_buffer message buffer) else None.

Definition p2p__ipc_message__unpack_c (data : list byte) : option ProtobufCMessage :=
  protobuf_c_message_unpack p2p__ipc_message__descriptor data.

Definition p2p__ipc_message__free_unpacked (message : option ProtobufCMessage) : option () :=
  match message with
  | None => Some ()
  | Some message => if decide (base_descriptor message = p2p__ipc_message__descriptor) then Some () else None
  end.
End generated.

(** ** The structs and the records of [Codec] *)

Definition set_member (k : string) (v : cval) (m : ProtobufCMessage) : ProtobufCMessage :=
  Message (base_descriptor m) (<[k := v]> (members m)).

(** [has_x = 1; x = v], left alone for an absent field. *)
Definition set_optional (q k : string) (v : option cval) (m : ProtobufCMessage) : ProtobufCMessage :=
  match v with Some v => set_member k v (set_member q (VBool true) m) | None => m end.

(** [__init] followed by the assignments of the program's encoders. *)
Definition ipc_struct (r : IpcMessage) : ProtobufCMessage :=
  set_member "status_code" (VEnum (status_code r))
  (set_member "time_num" (VUint64 (time_num r))
  (set_member "timestamp" (VString (Some (timestamp r)))
  (set_optional "has_pubkey" "pubkey" (VBinary <$> pubkey r)
  (set_optional "has_transaction_msg" "transaction_msg" (VBinary <$> transaction_msg r) ipc_message__init)))).

Definition p2p_struct (r : P2pIpcMessage) : ProtobufCMessage :=
  set_member "status_code" (VEnum (p_status_code r))
  (set_optional "has_prev_block" "prev_block" (VBinary <$> p_prev_block r)
  (set_optional "has_nonce" "nonce" (VBinary <$> p_nonce r)
  (set_optional "has_merkle_root" "merkle_root" (VBinary <$> p_merkle_root r)
  (set_optional "has_difficulty" "difficulty" (VUint64 <$> p_difficulty r)
  (set_optional "has_timestamp_end" "timestamp_end" (VUint64 <$> p_timestamp_end r)
  (set_optional "has_timestamp_begin" "timestamp_begin" (VUint64 <$> p_timestamp_begin r)
  (set_member "date" (VString (Some (p_date r))) p2p__ipc_message__init))))))).

(** Reading the members of an unpacked message. *)
Definition of_binary (v : cval) : option (list byte) := match v with VBinary bs => Some bs | _ => None end.
Definition of_string (v : cval) : option (list byte) := match v with VString s => s | _ => None end.
Definition of_uint64 (v : cval) : option Z := match v with VUint64 z => Some z | _ => None end.
Definition of_enum (v : cval) : option Z := match v with VEnum z => Some z | _ => None end.

Definition member (k : string) (m : ProtobufCMessage) : option cval := members m !! k.
Definition optional_member (q k : string) (m : ProtobufCMessage) : option cval :=
  match members m !! q with Some (VBool true) => members m !! k | _ => None end.

Definition ipc_of_struct (m : ProtobufCMessage) : option IpcMessage :=
  ts ← member "timestamp" m ≫= of_string;
  tn ← member "time_num" m ≫= of_uint64;
  st ← member "status_code" m ≫= of_enum;
  Some (MkIpcMessage (optional_member "has_transaction_msg" "transaction_msg" m ≫= of_binary)
    (optional_member "has_pubkey" "pubkey" m ≫= of_binary) ts tn st).

Definition p2p_of_struct (m : ProtobufCMessage) : option P2pIpcMessage :=
  d ← member "date" m ≫= of_string;
  st ← member "status_code" m ≫= of_enum;
  Some (MkP2pIpcMessage d (optional_member "has_timestamp_begin" "timestamp_begin" m ≫= of_uint64)
    (optional_member "has_timestamp_end" "timestamp_end" m ≫= of_uint64)
    (optional_member "has_difficulty" "difficulty" m ≫= of_uint64)
    (optional_member "has_merkle_root" "merkle_root" m ≫= of_binary)
    (optional_member "has_nonce" "nonce" m ≫= of_binary)
    (optional_member "has_prev_block" "prev_block" m ≫= of_binary) st).

(** The interface the rest of the program is proved against, by the generated
    code. *)
Definition generated {lib : ProtobufC} : Protobuf := {|
  ipc_message__pack r := default [] (ipc_message__pack_c (ipc_struct r));
  ipc_message__unpack bs := ipc_message__unpack_c bs ≫= ipc_of_struct;
  p2p__ipc_message__pack r := default [] (p2p__ipc_message__pack_c (p2p_struct r));
  p2p__ipc_message__unpack bs := p2p__ipc_message__unpack_c bs ≫= p2p_of_struct |}.

(** ** The generated code implements the interface *)
Section refinement.
Context {lib : ProtobufC} {ok : ProtobufCOk lib}.
#[local] Existing Instance generated.

Lemma ipc_struct_base r : base_descriptor (ipc_struct r) = ipc_message__descriptor.
Proof. by destruct r as [[] []]. Qed.

Lemma p2p_struct_base r : base_descriptor (p2p_struct r) = p2p__ipc_message__descriptor.
Proof. by destruct r as [? [] [] [] [] [] []]. Qed.

(** The value of each field of a struct the encoders filled. *)
Lemma ipc_struct_values r :
  (fun f => field_value f (ipc_struct r)) <$> ipc_message__field_descriptors =
  [VBinary <$> transaction_msg r; VBinary <$> pubkey r; Some (VString (Some (timestamp r)));
   Some (VUint64 (time_num r)); Some (VEnum (status_code r))].
Proof. by destruct r as [[] []]. Qed.

Lemma p2p_struct_values r :
  (fun f => field_value f (p2p_struct r)) <$> p2p__ipc_message__field_descriptors =
  [Some (VString (Some (p_date r))); VUint64 <$> p_timestamp_begin r; VUint64 <$> p_timestamp_end r;
   VUint64 <$> p_difficulty r; VBinary <$> p_merkle_root r; VBinary <$> p_nonce r; VBinary <$> p_prev_block r;
   Some (VEnum (p_status_code r))].
Proof. by destruct r as [? [] [] [] [] [] []]. Qed.

(** A field's value, present where required, of its type and in range. *)
Definition value_ok (f : ProtobufCFieldDescriptor) (o : option cval) : Prop :=
  match o with
  | Some v => typed (fd_type f) v /\ in_range v
  | None => fd_label f = LABEL_OPTIONAL
  end.

Lemma packable_values m vs :
  (fun f => field_value f m) <$> md_fields (base_descriptor m) = vs ->
  Forall2 value_ok (md_fields (base_descriptor m)) vs -> packable m.
Proof.
  intros <- Hok. rewrite Forall2_fmap_r in Hok.
  assert (forall f, f ∈ md_fields (base_descriptor m) -> value_ok f (field_value f m)) as Hval.
  { intros f [i Hi]%list_elem_of_lookup. by eapply (Forall2_lookup_lr _ _ _ i f f) in Hok. }
  clear Hok. unfold value_ok in Hval. rename Hval into Hok. split.
  - intros f Hf. specialize (Hok f Hf). destruct (field_value f m) as [v|].
    + destruct Hok. split; [eauto|by intros ? [= <-]].
    + split; [congruence|done].
  - intros f v Hf Hv. specialize (Hok f Hf). rewrite Hv in Hok. by destruct Hok.
Qed.

Lemma ipc_packable r : ipc_wf r -> packable (ipc_struct r).
Proof.
  intros (H1 & H2 & H3 & H4 & H5). eapply packable_values; rewrite ipc_struct_base; [apply ipc_struct_values|].
  destruct r as [[tr|] [pk|] ts tn st]; repeat constructor; cbn in *; lia.
Qed.

Lemma p2p_packable r : p2p_wf r -> packable (p2p_struct r).
Proof.
  intros (H1 & H2 & H3 & H4 & H5 & H6 & H7 & H8).
  eapply packable_values; rewrite p2p_struct_base; [apply p2p_struct_values|].
  destruct r as [d [tb|] [te|] [df|] [mr|] [no|] [pv|] st]; repeat constructor; cbn in *; lia.
Qed.

(** A struct with the field values of a record is read as the record. *)
Lemma ipc_of_struct_values m r :
  (fun f => field_value f m) <$> ipc_message__field_descriptors =
  (fun f => field_value f (ipc_struct r)) <$> ipc_message__field_descriptors ->
  ipc_of_struct m = Some r.
Proof.
  rewrite ipc_struct_values. cbn. intros [= H1 H2 H3 H4 H5]. unfold ipc_of_struct, optional_member, member.
  rewrite H1, H2, H3, H4, H5. by destruct r as [[] []].
Qed.

Lemma p2p_of_struct_values m r :
  (fun f => field_value f m) <$> p2p__ipc_message__field_descriptors =
  (fun f => field_value f (p2p_struct r)) <$> p2p__ipc_message__field_descriptors ->
  p2p_of_struct m = Some r.
Proof.
  rewrite p2p_struct_values. cbn. intros [= H1 H2 H3 H4 H5 H6 H7 H8]. unfold p2p_of_struct, optional_member, member.
  rewrite H1, H2, H3, H4, H5, H6, H7, H8. by destruct r as [? [] [] [] [] [] []].
Qed.

Lemma fmap_values (fs : list ProtobufCFieldDescriptor) m m' :
  (forall f, f ∈ fs -> field_value f m' = field_value f m) ->
  (fun f => field_value f m') <$> fs = (fun f => field_value f m) <$> fs.
Proof. intros H. apply list_fmap_ext. intros i f Hf. by eapply H, list_elem_of_lookup_2. Qed.

(** The length bound as a sum over the values. *)
Lemma length_pack_values m vs :
  message_wf (base_descriptor m) -> packable m ->
  (fun f => field_value f m) <$> md_fields (base_descriptor m) = vs ->
  (length (protobuf_c_message_pack m) <=
     list_sum ((fun o => 11 + match o with Some v => payload v | None => 0 end) <$> vs))%nat.
Proof. intros Hwf Hp <-. rewrite <-list_fmap_compose. by apply pack_length. Qed.

Lemma ipc_pack_generated r : ipc_message__pack r = protobuf_c_message_pack (ipc_struct r).
Proof. cbn. unfold ipc_message__pack_c. by rewrite decide_True by apply ipc_struct_base. Qed.

Lemma p2p_pack_generated r : p2p__ipc_message__pack r = protobuf_c_message_pack (p2p_struct r).
Proof. cbn. unfold p2p__ipc_message__pack_c. by rewrite decide_True by apply p2p_struct_base. Qed.

Lemma generated_ok : ProtobufOk generated.
Proof.
  split.
  - intros r Hr. rewrite ipc_pack_generated. cbn. unfold ipc_message__unpack_c.
    destruct (unpack_packed (ipc_struct r)) as (m' & Hu & Hv); rewrite ?ipc_struct_base in *;
      [apply ipc_descriptor_wf|by apply ipc_packable|].
    rewrite Hu. cbn. by apply ipc_of_struct_values, fmap_values.
  - intros r Hr. rewrite ipc_pack_generated.
    etrans; [apply length_pack_values; rewrite ?ipc_struct_base; [apply ipc_descriptor_wf|by apply ipc_packable|apply ipc_struct_values]|].
    destruct r as [[] []]; cbn; lia.
  - intros r Hr. rewrite p2p_pack_generated. cbn. unfold p2p__ipc_message__unpack_c.
    destruct (unpack_packed (p2p_struct r)) as (m' & Hu & Hv); rewrite ?p2p_struct_base in *;
      [apply p2p_descriptor_wf|by apply p2p_packable|].
    rewrite Hu. cbn. by apply p2p_of_struct_values, fmap_values.
  - intros r Hr. rewrite p2p_pack_generated.
    etrans; [apply length_pack_values; rewrite ?p2p_struct_base; [apply p2p_descriptor_wf|by apply p2p_packable|apply p2p_struct_values]|].
    destruct r as [? [] [] [] [] [] []]; cbn; lia.
  - cbn. unfold ipc_message__unpack_c. by erewrite unpack_empty; [|apply ipc_descriptor_wf|do 3 right; left|].
  - cbn. unfold p2p__ipc_message__unpack_c. by erewrite unpack_empty; [|apply p2p_descriptor_wf|left|].
Qed.

(** A required field of a well-typed message, read as its type. *)
Lemma required_member m k f {B} (rd : cval -> option B) :
  well_typed m -> f ∈ md_fields (base_descriptor m) -> fd_label f = LABEL_REQUIRED -> fd_offset f = k ->
  (forall v, typed (fd_type f) v -> is_Some (rd v)) -> is_Some (member k m ≫= rd).
Proof.
  intros Ht Hf Hl <- Hof. destruct (Ht f Hf) as [Hreq Hty]. destruct (Hreq Hl) as [v Hv]. specialize (Hty v Hv).
  unfold field_value in Hv. rewrite Hl in Hv. unfold member. rewrite Hv. by apply Hof.
Qed.

(** The records lose nothing: what the library decodes is read as a record. *)
Lemma ipc_of_struct_total m :
  base_descriptor m = ipc_message__descriptor -> well_typed m -> is_Some (ipc_of_struct m).
Proof.
  intros Hb Ht. unfold ipc_of_struct.
  assert (forall f, f ∈ ipc_message__field_descriptors -> f ∈ md_fields (base_descriptor m)) as Hin by (by rewrite Hb).
  destruct (required_member m "timestamp" (FieldDescriptor "timestamp" 3 LABEL_REQUIRED TYPE_STRING None "timestamp" None) of_string)
    as [ts ->]; [done|by apply Hin; do 2 right; left|done|done|by intros [| | |[]|] ?|].
  destruct (required_member m "time_num" (FieldDescriptor "time_num" 4 LABEL_REQUIRED TYPE_UINT64 None "time_num" None) of_uint64)
    as [tn ->]; [done|by apply Hin; do 3 right; left|done|done|by intros [] ?|].
  destruct (required_member m "status_code" (FieldDescriptor "status_code" 5 LABEL_REQUIRED TYPE_ENUM None "status_code"
    (Some ipc_message__status__descriptor)) of_enum) as [st ->]; [done|by apply Hin; do 4 right; left|done|done|by intros [] ?|].
  by eexists.
Qed.

Lemma p2p_of_struct_total m :
  base_descriptor m = p2p__ipc_message__descriptor -> well_typed m -> is_Some (p2p_of_struct m).
Proof.
  intros Hb Ht. unfold p2p_of_struct.
  assert (forall f, f ∈ p2p__ipc_message__field_descriptors -> f ∈ md_fields (base_descriptor m)) as Hin by (by rewrite Hb).
  destruct (required_member m "date" (FieldDescriptor "date" 1 LABEL_REQUIRED TYPE_STRING None "date" None) of_string)
    as [d ->]; [done|by apply Hin; left|done|done|by intros [| | |[]|] ?|].
  destruct (required_member m "status_code" (FieldDescriptor "status_code" 8 LABEL_REQUIRED TYPE_ENUM None "status_code"
    (Some p2p__ipc_message__status__descriptor)) of_enum) as [st ->]; [done|by apply Hin; do 7 right; left|done|done|by intros [] ?|].
  by eexists.
Qed.

Lemma ipc_unpack_none bs : ipc_message__unpack bs = None <-> ipc_message__unpack_c bs = None.
Proof.
  cbn. unfold ipc_message__unpack_c. destruct (protobuf_c_message_unpack _ bs) as [m|] eqn:Hu; cbn; [|done].
  apply unpack_typed in Hu as [Hb Ht]; [|apply ipc_descriptor_wf].
  destruct (ipc_of_struct_total m Hb Ht) as [r ->]. by split.
Qed.

Lemma p2p_unpack_none bs : p2p__ipc_message__unpack bs = None <-> p2p__ipc_message__unpack_c bs = None.
Proof.
  cbn. unfold p2p__ipc_message__unpack_c. destruct (protobuf_c_message_unpack _ bs) as [m|] eqn:Hu; cbn; [|done].
  apply unpack_typed in Hu as [Hb Ht]; [|apply p2p_descriptor_wf].
  destruct (p2p_of_struct_total m Hb Ht) as [r ->]. by split.
Qed.

(** C11: the generated code, over any protobuf-c that behaves as documented,
    implements the interface the packet theorems are proved against: what is
    packed is unpacked to the same message, within the size bounds, nothing is
    not a message; the assertions on the descriptor hold for every message the
    encoders fill, and unpacking fails only when the library's does. *)
Theorem generated_codec :
  ProtobufOk generated /\
  (forall r, is_Some (ipc_message__pack_c (ipc_struct r)) /\ is_Some (ipc_message__get_packed_size_c (ipc_struct r))) /\
  (forall r, is_Some (p2p__ipc_message__pack_c (p2p_struct r)) /\ is_Some (p2p__ipc_message__get_packed_size_c (p2p_struct r))) /\
  (forall bs, ipc_message__unpack bs = None <-> ipc_message__unpack_c bs = None) /\
  (forall bs, p2p__ipc_message__unpack bs = None <-> p2p__ipc_message__unpack_c bs = None).
Proof.
  split_and!; [apply generated_ok|intros r|intros r|apply ipc_unpack_none|apply p2p_unpack_none].
  - unfold ipc_message__pack_c, ipc_message__get_packed_size_c. rewrite !decide_True by apply ipc_struct_base. eauto.
  - unfold p2p__ipc_message__pack_c, p2p__ipc_message__get_packed_size_c. rewrite !decide_True by apply p2p_struct_base. eauto.
Qed.
End refinement.

(** ** A library driven by the descriptors

    Encodes the fields in the descriptor's order in the proto2 wire format and
    decodes by looking each field up by its number. *)
Module Driven.
Import Wire.

Definition wire_of (v : cval) : wire :=
  match v with
  | VBool b => WInt (if b then 1 else 0)
  | VUint64 z | VEnum z => WInt z
  | VString s => WBytes (default [] s)
  | VBinary bs => WBytes bs
  end.

Definition of_wire (t : ProtobufCType) (w : wire) : option cval :=
  match t, w with
  | TYPE_UINT64, WInt z => Some (VUint64 z)
  | TYPE_ENUM, WInt z => Some (VEnum z)
  | TYPE_STRING, WBytes bs => Some (VString (Some bs))
  | TYPE_BYTES, WBytes bs => Some (VBinary bs)
  | _, _ => None
  end.

Definition wire_field (m : ProtobufCMessage) (f : ProtobufCFieldDescriptor) : list (Z * wire) :=
  match field_value f m with Some v => [(fd_id f, wire_of v)] | None => [] end.

Definition pack (m : ProtobufCMessage) : list byte :=
  put_fields (flat_map (wire_field m) (md_fields (base_descriptor m))).

(** The members one field fills. *)
Definition read_field (fs : list (Z * wire)) (f : ProtobufCFieldDescriptor) : option (list (string * cval)) :=
  match find_field (fd_id f) fs with
  | Some w =>
      v ← of_wire (fd_type f) w;
      Some (match fd_quantifier_offset f with
            | Some q => [(q, VBool true); (fd_offset f, v)]
            | None => [(fd_offset f, v)]
            end)
  | None =>
      match fd_label f, fd_quantifier_offset f with
      | LABEL_OPTIONAL, Some q => Some [(q, VBool false)]
      | _, _ => None
      end
  end.

Definition unpack (d : ProtobufCMessageDescriptor) (bs : list byte) : option ProtobufCMessage :=
  fs ← get_fields (length bs) bs;
  ms ← mapM (read_field fs) (md_fields d);
  Some (Message d (list_to_map (concat ms))).

Definition driven : ProtobufC := {|
  protobuf_c_message_get_packed_size m := Z.of_nat (length (pack m));
  protobuf_c_message_pack := pack;
  protobuf_c_message_pack_to_buffer m buf := buf ++ pack m;
  protobuf_c_message_unpack := unpack |}.

Lemma ordered_above x l : strictly_ordered Z.ltb (x :: l) = true -> Forall (fun y => x < y) l.
Proof.
  revert x; induction l as [|y l IH]; intros x Hl; [done|].
  cbn in Hl. apply andb_prop in Hl as [Hxy%Z.ltb_lt Hl]. constructor; [done|].
  eapply Forall_impl; [by apply IH|]. cbn. lia.
Qed.

Lemma ordered_NoDup l : strictly_ordered Z.ltb l = true -> NoDup l.
Proof.
  induction l as [|x l IH]; intros Hl; [constructor|]. constructor.
  - intros Hx. pose proof (ordered_above _ _ Hl) as Ha. rewrite Forall_forall in Ha. specialize (Ha x Hx). lia.
  - apply IH. destruct l; [done|]. cbn in Hl. by apply andb_prop in Hl as [_ ?].
Qed.

(** The search leaves what it had over fields with other numbers. *)
Lemma find_other n m fs acc :
  n ∉ (fd_id <$> fs) ->
  fold_left (fun acc (f : Z * wire) => if f.1 =? n then Some f.2 else acc) (flat_map (wire_field m) fs) acc = acc.
Proof.
  revert acc; induction fs as [|f fs IH]; intros acc Hn; [done|]. cbn in Hn.
  apply not_elem_of_cons in Hn as [Hne Hn]. cbn [flat_map]. rewrite fold_left_app.
  unfold wire_field at 2. destruct (field_value f m); cbn; [|by apply IH].
  rewrite (proj2 (Z.eqb_neq _ _)) by congruence. by apply IH.
Qed.

Lemma find_encoded m fs f :
  NoDup (fd_id <$> fs) -> f ∈ fs -> find_field (fd_id f) (flat_map (wire_field m) fs) = wire_of <$> field_value f m.
Proof.
  unfold find_field. induction fs as [|g fs IH]; intros Hnd Hf; [by apply not_elem_of_nil in Hf|].
  cbn in Hnd. apply NoDup_cons in Hnd as [Hg Hnd]. cbn [flat_map]. rewrite fold_left_app.
  apply elem_of_cons in Hf as [->|Hf].
  - rewrite find_other by done. unfold wire_field. destruct (field_value g m); cbn; [|done].
    by rewrite Z.eqb_refl.
  - assert (fd_id g <> fd_id f) as Hne.
    { intros He. apply Hg. rewrite He. by apply list_elem_of_fmap_2. }
    unfold wire_field at 2. destruct (field_value g m); cbn; [|by apply IH].
    rewrite (proj2 (Z.eqb_neq _ _)) by done. by apply IH.
Qed.

(** The members of a field are found in the assembled struct. *)
Lemma find_member fields (ms : list (list (string * cval))) i f e k v :
  NoDup (concat (field_members <$> fields)) ->
  Forall2 (fun f e => e.*1 ⊆+ field_members f) fields ms ->
  fields !! i = Some f -> ms !! i = Some e -> (k, v) ∈ e ->
  (list_to_map (concat ms) : gmap string cval) !! k = Some v.
Proof.
  intros Hnd Hsub Hi He Hkv. apply elem_of_list_to_map_1.
  - assert ((concat ms).*1 ⊆+ concat (field_members <$> fields)) as Hs.
    { clear -Hsub. induction Hsub as [|f e fs ms Hfe Hsub IH]; [done|]. cbn. rewrite fmap_app. by apply submseteq_app. }
    apply submseteq_Permutation in Hs as [k' Hk]. rewrite Hk in Hnd. by apply NoDup_app in Hnd as [? _].
  - apply list_elem_of_In, List.in_concat. exists e. split; apply list_elem_of_In; [by eapply list_elem_of_lookup_2|done].
Qed.

Lemma read_field_sub fs f e : field_wf f -> read_field fs f = Some e -> e.*1 ⊆+ field_members f.
Proof.
  unfold read_field, field_members. intros [_ Hl _ _ _]. destruct (find_field _ fs) as [w|].
  - destruct (of_wire _ w); cbn; [|done]. by destruct (fd_quantifier_offset f); intros [= <-].
  - destruct (fd_label f), (fd_quantifier_offset f); try done. intros [= <-]. cbn.
    by apply submseteq_skip, submseteq_nil_l.
Qed.

Lemma read_fields_sub fs fields ms :
  Forall field_wf fields -> mapM (read_field fs) fields = Some ms ->
  Forall2 (fun f e => e.*1 ⊆+ field_members f) fields ms.
Proof.
  intros Hwf Hms%mapM_Some_1. induction Hms; decompose_Forall_hyps; constructor; eauto using read_field_sub.
Qed.

(** The value a decoded field has: the wire's, of the right type. *)
Lemma unpacked_value d fs ms f :
  message_wf d -> mapM (read_field fs) (md_fields d) = Some ms -> f ∈ md_fields d ->
  field_value f (Message d (list_to_map (concat ms))) = find_field (fd_id f) fs ≫= of_wire (fd_type f) /\
  (fd_label f = LABEL_REQUIRED -> is_Some (find_field (fd_id f) fs ≫= of_wire (fd_type f))).
Proof.
  intros Hwf Hms Hf. pose proof (mw_fields _ Hwf) as Hfw.
  pose proof (read_fields_sub _ _ _ Hfw Hms) as Hsub. apply list_elem_of_lookup in Hf as [i Hi].
  pose proof (mapM_Some_1 _ _ _ Hms) as Hall. destruct (Forall2_lookup_l _ _ _ i f Hall Hi) as (e & He & Hr).
  pose proof (fun k v => find_member _ _ i f e k v (mw_members _ Hwf) Hsub Hi He) as Hfind.
  rewrite Forall_forall in Hfw. specialize (Hfw f (list_elem_of_lookup_2 _ _ _ Hi)).
  destruct Hfw as [_ [Hl1 Hl2] _ _ _]. unfold read_field in Hr. unfold field_value. cbn [members].
  destruct (find_field (fd_id f) fs) as [w|]; cbn.
  - destruct (of_wire (fd_type f) w) as [v|]; cbn in *; [|done]. split; [|eauto].
    destruct (fd_label f), (fd_quantifier_offset f) as [q|]; try (by specialize (Hl1 eq_refl)); try (by specialize (Hl2 eq_refl));
      simplify_eq; [by apply Hfind; left|]. rewrite (Hfind q (VBool true)) by left. by apply Hfind; right; left.
  - destruct (fd_label f), (fd_quantifier_offset f) as [q|]; simplify_eq.
    split; [|done]. by rewrite (Hfind q (VBool false)) by left.
Qed.

Lemma of_wire_of t v : typed t v -> of_wire t (wire_of v) = Some v.
Proof. by destruct t, v as [| | |[]|]. Qed.

Lemma of_wire_typed t w v : of_wire t w = Some v -> typed t v.
Proof. by destruct t, w; cbn; intros; simplify_eq. Qed.

Lemma wire_fields_ok m :
  message_wf (base_descriptor m) -> packable m -> Forall field_ok (flat_map (wire_field m) (md_fields (base_descriptor m))).
Proof.
  intros Hwf [Ht Hr]. apply Forall_forall. intros w Hw. apply list_elem_of_In, List.in_flat_map in Hw as (f & Hf & Hw).
  apply list_elem_of_In in Hf. unfold wire_field in Hw. destruct (field_value f m) as [v|] eqn:Hv; [|done].
  destruct Hw as [<-|[]]. pose proof (mw_fields _ Hwf) as Hfw. rewrite Forall_forall in Hfw.
  split; [by apply (fw_id _ (Hfw f Hf))|]. cbn. specialize (Hr f v Hf Hv). destruct (Ht f Hf) as [_ Hty].
  specialize (Hty v Hv). by destruct (fd_type f), v as [| | |[]|]; cbn in *; try done; lia.
Qed.

Lemma read_encoded m f :
  message_wf (base_descriptor m) -> well_typed m -> f ∈ md_fields (base_descriptor m) ->
  is_Some (read_field (flat_map (wire_field m) (md_fields (base_descriptor m))) f).
Proof.
  intros Hwf Ht Hf. unfold read_field.
  rewrite find_encoded by (done || apply ordered_NoDup, mw_sorted; done). destruct (Ht f Hf) as [Hreq Hty].
  destruct (field_value f m) as [v|]; cbn.
  - rewrite of_wire_of by auto. cbn. eauto.
  - pose proof (mw_fields _ Hwf) as Hfw. rewrite Forall_forall in Hfw. pose proof (proj2 (fw_label _ (Hfw f Hf))) as Hl.
    destruct (fd_label f), (fd_quantifier_offset f); eauto; [by destruct (Hreq eq_refl)..|by specialize (Hl eq_refl)].
Qed.

Lemma length_pack m :
  (length (pack m) <= list_sum ((fun f => 11 + match field_value f m with Some v => payload v | None => 0 end)
    <$> md_fields (base_descriptor m)))%nat.
Proof.
  unfold pack. induction (md_fields (base_descriptor m)) as [|f fs IH]; [done|].
  cbn [flat_map fmap list_fmap list_sum foldr]. rewrite put_fields_app, length_app. apply Nat.add_le_mono; [|exact IH].
  unfold wire_field. destruct (field_value f m) as [v|]; [|cbn; lia]. rewrite put_fields_cons, app_nil_r.
  destruct v as [| | |[]|]; cbn [wire_of payload default];
    first [apply length_put_int | etrans; [apply length_put_bytes|cbn; lia]].
Qed.

#[export] Instance driven_ok : ProtobufCOk driven.
Proof.
  split; cbn [protobuf_c_message_get_packed_size protobuf_c_message_pack protobuf_c_message_pack_to_buffer
    protobuf_c_message_unpack driven]; [done|done|..].
  - intros m _ _. apply length_pack.
  - intros m Hwf Hp. unfold pack, unpack.
    rewrite get_put_fields by (by apply wire_fields_ok || apply length_put_fields). cbn.
    destruct (mapM_is_Some_2 (read_field (flat_map (wire_field m) (md_fields (base_descriptor m))))
      (md_fields (base_descriptor m))) as [ms Hms].
    { apply Forall_forall. intros f Hf. apply read_encoded; [done|apply Hp|done]. }
    rewrite Hms. cbn. eexists; split; [done|]. intros f Hf. rewrite (proj1 (unpacked_value _ _ _ f Hwf Hms Hf)).
    rewrite find_encoded by (done || apply ordered_NoDup, mw_sorted; done).
    destruct (field_value f m) as [v|] eqn:Hv; cbn; [|done]. by apply of_wire_of, (proj1 Hp f Hf).
  - intros d bs m Hwf. unfold unpack. destruct (get_fields _ bs) as [fs|]; cbn; [|done].
    destruct (mapM (read_field fs) (md_fields d)) as [ms|] eqn:Hms; cbn; [|done]. intros [= <-]. split; [done|].
    intros f Hf. destruct (unpacked_value _ _ _ f Hwf Hms Hf) as [-> Hreq]. split; [done|].
    intros v. destruct (find_field _ fs); cbn; [|done]. apply of_wire_typed.
  - intros d f Hwf Hf Hl. unfold unpack. cbn. destruct (mapM (read_field []) (md_fields d)) as [ms|] eqn:Hms; [|done].
    destruct (unpacked_value _ _ _ f Hwf Hms Hf) as [_ Hreq]. by destruct (Hreq Hl).
Qed.
End Driven.

(** The library's number for an enum value's name. *)
Definition enum_number (e : ProtobufCEnumDescriptor) (name : string) : option Z :=
  i ← index_of (fun x => String.eqb (evi_name x) name) (ed_values_by_name e);
  x ← ed_values_by_name e !! i;
  ev_value <$> ed_values e !! evi_index x.

(** C12: the generated tables are what protobuf-c requires: fields and enum
    values counted and in order, found through the ranges for every number and
    through the sorted names, no two fields sharing a member of the struct; and
    the names of the .proto files have the numbers the handlers compare with. *)
Theorem generated_tables :
  message_wf ipc_message__descriptor /\ message_wf p2p__ipc_message__descriptor /\
  enum_number ipc_message__status__descriptor <$>
    ["TEST"; "OK"; "ERROR"; "FINISH"; "WAIT"; "ASK_NEED_MSG"; "NEED_MORE"; "ACKN_OK"; "MESSAGE_SENDED"; "ENOUGH";
     "ALL_BLOCK_MSG_SENDED"; "ALL_BLOCK_RECEIVED"] =
  Some <$> [IPC_TEST; IPC_OK; IPC_ERROR; IPC_FINISH; IPC_WAIT; IPC_ASK_NEED_MSG; IPC_NEED_MORE; IPC_ACKN_OK;
     IPC_MESSAGE_SENDED; IPC_ENOUGH; IPC_ALL_BLOCK_MSG_SENDED; IPC_ALL_BLOCK_RECEIVED] /\
  enum_number p2p__ipc_message__status__descriptor <$>
    ["TEST"; "OK"; "ERROR"; "FINISH"; "WAIT"; "BLOCK"; "PING"; "PONG"; "ASK_IF_BLOCK_READY"; "BLOCK_READY";
     "BLOCK_NOT_READY"; "ACKN"] =
  Some <$> [P2P_TEST; P2P_OK; P2P_ERROR; P2P_FINISH; P2P_WAIT; P2P_BLOCK; P2P_PING; P2P_PONG; P2P_ASK_IF_BLOCK_READY;
     P2P_BLOCK_READY; P2P_BLOCK_NOT_READY; P2P_ACKN].
Proof. split_and!; [apply ipc_descriptor_wf|apply p2p_descriptor_wf|reflexivity..]. Qed.

Lemma generated_codec_witness : ProtobufOk (@generated Driven.driven).
Proof. exact (proj1 (@generated_codec Driven.driven Driven.driven_ok)). Defined.
