(* ===== verification/CircBuf.v ===== *)
(** * The server's message buffer

    sources/networking/data_handlers.c: 512 slots of signed messages, filled on
    demand.  The struct [circ_buf_t] is passed by pointer and changed in place;
    here every operation returns its new value. *)

From S2P Require Import Prelude.
From S2P Require Import CTypes.
From S2P Require Import Memory.
From S2P Require Import Platform.
From S2P Require Import Accounts.

Record circ_buf_t := CircBuf { cb_buffer : ptr; fill_size : Z; maxlen : Z }.

Definition CIRC_BUF_SIZE : nat := 512.

Definition set_fill_size (n : Z) (c : circ_buf_t) : circ_buf_t := CircBuf (cb_buffer c) n (maxlen c).

Section code.
Context {sod : Sodium} {clk : Clock}.

Definition create_circ_buf (ring_data_buf : ptr) : circ_buf_t :=
  CircBuf ring_data_buf 0 (Z.of_nat CIRC_BUF_SIZE).

(** Every non-null entry is destroyed; the entries themselves stay. *)
Definition clean_circ_buf (cbf : circ_buf_t) : M unit :=
  for_ CIRC_BUF_SIZE (fun i =>
    p ← load_ix (A:=ptr) (cb_buffer cbf) (Z.of_nat i);
    if decide (p = NULL) then mret () else destroy_signed_message p).

(** A new key pair and message for each push, also when the buffer is full. *)
Definition PUSH_msg_circ_buf (cbuf : circ_buf_t) : M (Z * circ_buf_t) :=
  uk ← create_key_pair;
  a_msg_p ← ls_get_a_signed_msg uk;
  let cur := fill_size cbuf in
  if cur =? maxlen cbuf then
    clean_circ_buf cbuf ;;
    mret (1, set_fill_size 0 cbuf)
  else
    store_ix (cb_buffer cbuf) cur a_msg_p ;;
    mret (0, set_fill_size (u64 (cur + 1)) cbuf).

(** [do PUSH while ((N + 1) != fill_size)] *)
Fixpoint push_until (fuel : nat) (cbuf : circ_buf_t) (N : Z) : M circ_buf_t :=
  match fuel with
  | O => no_fuel
  | S fuel =>
      r ← PUSH_msg_circ_buf cbuf;
      if u64 (N + 1) =? fill_size r.2 then mret r.2 else push_until fuel r.2 N
  end.

(** [fill_size - 1] is computed in [size_t]: with an empty buffer it is the
    largest value, and no [N] exceeds it. *)
Definition GET_nth_circ_buf (fuel : nat) (cbuf : circ_buf_t) (N : Z) : M (ptr * circ_buf_t) :=
  let cur_last_msg_serial := u64 (fill_size cbuf - 1) in
  if N >? cur_last_msg_serial then
    cbuf ← push_until fuel cbuf N;
    p ← load_ix (A:=ptr) (cb_buffer cbuf) (u64 (fill_size cbuf - 1));
    mret (p, cbuf)
  else
    p ← load_ix (A:=ptr) (cb_buffer cbuf) N;
    mret (p, cbuf).

Definition get_cbuf_head (cbuf : circ_buf_t) : M ptr :=
  load_ix (A:=ptr) (cb_buffer cbuf) (u64 (fill_size cbuf - 1)).

Definition release_circ_nth_msg (cbuf : circ_buf_t) (N : Z) : M unit :=
  p ← load_ix (A:=ptr) (cb_buffer cbuf) N;
  destroy_signed_message p.
End code.

(** ** What the buffer holds *)
Section facts.
Context {sod : Sodium} {clk : Clock} {ok : SodiumOk sod}.

(** A message of the server: its two blocks, 164 bytes that open under its
    public key to a text of 100 bytes. *)
Definition ring_msg (h : gmap positive block) (id : positive * positive) : Prop :=
  exists pk bs text, h !! id.1 = Some (BMsgs [SignedMessage (Ptr id.2 0) 164 pk]) /\
    h !! id.2 = Some (BBytes bs) /\ length bs = 164%nat /\ length pk = crypto_sign_PUBLICKEYBYTES /\
    crypto_sign_open bs pk = Some text /\ length text = 100%nat.

Definition id_blocks (ids : list (positive * positive)) : list positive :=
  flat_map (fun id => [id.1; id.2]) ids.

(** The buffer [b] holds the messages [ids] in its first slots. *)
Record ring_rep (m : mem) (b : positive) (ids : list (positive * positive)) (ps : list ptr) : Prop := RingRep {
  rr_buf : heap m !! b = Some (BPtrs ps);
  rr_len : length ps = CIRC_BUF_SIZE;
  rr_ptr i id : ids !! i = Some id -> ps !! i = Some (Ptr id.1 0);
  rr_msg i id : ids !! i = Some id -> ring_msg (heap m) id;
  rr_null i : (length ids <= i < CIRC_BUF_SIZE)%nat -> ps !! i = Some NULL;
  rr_NoDup : NoDup (id_blocks ids) }.

(** Nothing older than [m] changed, but the slots. *)
Record extends (b : positive) (m m' : mem) : Prop := Extends {
  ex_wf : wf m';
  ex_next : (next m <= next m')%positive;
  ex_old c : (c < next m)%positive -> c <> b -> heap m' !! c = heap m !! c }.

Lemma extends_refl b m : wf m -> extends b m m.
Proof. by split. Qed.

Lemma extends_trans b m1 m2 m3 : extends b m1 m2 -> extends b m2 m3 -> extends b m1 m3.
Proof.
  intros [W1 N1 O1] [W2 N2 O2]. split; [done|lia|]. intros c Hc Hb. rewrite O2, O1 by (done || lia). done.
Qed.

Lemma ring_msg_old m m' b ps id :
  wf m -> heap m !! b = Some (BPtrs ps) -> ring_msg (heap m) id ->
  (forall c, (c < next m)%positive -> c <> b -> heap m' !! c = heap m !! c) -> ring_msg (heap m') id.
Proof.
  intros Hwf Hb (pk & bs & text & H1 & H2 & Hrest) Heq. exists pk, bs, text.
  rewrite !Heq; [done|by eapply wf_lt|congruence|by eapply wf_lt|congruence].
Qed.

Lemma ring_msg_lt m id : wf m -> ring_msg (heap m) id -> (id.1 < next m /\ id.2 < next m)%positive.
Proof. intros Hwf (pk & bs & text & H1 & H2 & _). split; by eapply wf_lt. Qed.

Lemma elem_of_id_blocks c ids : c ∈ id_blocks ids <-> exists i id, ids !! i = Some id /\ (c = id.1 \/ c = id.2).
Proof.
  unfold id_blocks. rewrite list_elem_of_In, List.in_flat_map. split.
  - intros (id & Hid & Hc). apply list_elem_of_In, list_elem_of_lookup in Hid as [i Hi].
    exists i, id. split; [done|]. cbn in Hc. naive_solver.
  - intros (i & id & Hi & Hc). exists id. split; [apply list_elem_of_In; by eapply list_elem_of_lookup_2|].
    cbn. naive_solver.
Qed.

Lemma ring_blocks_lt m b ids ps c :
  wf m -> ring_rep m b ids ps -> c ∈ id_blocks ids -> (c < next m)%positive /\ c <> b.
Proof.
  intros Hwf Hr (i & id & Hi & Hc)%elem_of_id_blocks.
  pose proof (rr_msg _ _ _ _ Hr _ _ Hi) as (pk & bs & text & H1 & H2 & _).
  pose proof (rr_buf _ _ _ _ Hr). split; [|intros ->]; destruct Hc as [-> | ->]; (by eapply wf_lt) || congruence.
Qed.

(** The bytes and key of a buffered message. *)
Definition ring_data (h : gmap positive block) (id : positive * positive) : list byte * list byte :=
  match h !! id.1, h !! id.2 with
  | Some (BMsgs [sm]), Some (BBytes bs) => (bs, sm_public_key sm)
  | _, _ => ([], [])
  end.

Lemma ring_data_length h id : ring_msg h id -> length (ring_data h id).1 = 164%nat /\ length (ring_data h id).2 = 32%nat.
Proof. intros (pk & bs & text & H1 & H2 & Hl & Hk & _). unfold ring_data. by rewrite H1, H2. Qed.

(** The message made from draws [r] and [r + 1] of the random source: text with
    signature, public key. *)
Definition mint (r : nat) : list byte * list byte :=
  (crypto_sign (randombytes_buf (S r) 100) (crypto_sign_keypair r).2, (crypto_sign_keypair r).1).

(** Every message the buffer holds in addition was made once, from the next two
    draws. *)
Record mints (m : mem) (ids : list (positive * positive)) (m' : mem) (ids' : list (positive * positive)) : Prop := Mints {
  mi_rng : rng m' = (rng m + 2 * (length ids' - length ids))%nat;
  mi_new i id : (length ids <= i)%nat -> ids' !! i = Some id -> ring_data (heap m') id = mint (rng m + 2 * (i - length ids)) }.

(** The messages of a buffer whose first was made from draw [r]. *)
Record minted (r : nat) (m : mem) (ids : list (positive * positive)) : Prop := Minted {
  md_rng : (length ids < CIRC_BUF_SIZE)%nat -> rng m = (r + 2 * length ids)%nat;
  md_data i id : ids !! i = Some id -> ring_data (heap m) id = mint (r + 2 * i) }.

Lemma mints_refl m m' ids : rng m' = rng m -> mints m ids m' ids.
Proof. intros Hr. split; [lia|]. intros i id Hi Hid%lookup_lt_Some. lia. Qed.

Lemma ring_data_old m m' b ids ps id :
  wf m -> ring_rep m b ids ps -> extends b m m' -> id ∈ ids -> ring_data (heap m') id = ring_data (heap m) id.
Proof.
  intros Hwf Hr Hex [i Hi]%list_elem_of_lookup.
  pose proof (rr_msg _ _ _ _ Hr _ _ Hi) as (pk & bs & text & H1 & H2 & _). pose proof (rr_buf _ _ _ _ Hr).
  unfold ring_data. rewrite !(ex_old _ _ _ Hex); [done|by eapply wf_lt|congruence|by eapply wf_lt|congruence].
Qed.

Lemma mints_trans m1 ids1 m2 ids2 m3 ids3 b ps :
  mints m1 ids1 m2 ids2 -> mints m2 ids2 m3 ids3 -> wf m2 -> ring_rep m2 b ids2 ps -> extends b m2 m3 ->
  ids1 `prefix_of` ids2 -> ids2 `prefix_of` ids3 -> mints m1 ids1 m3 ids3.
Proof.
  intros [R1 D1] [R2 D2] Hwf Hr Hex Hp1%prefix_length Hp2. pose proof (prefix_length _ _ Hp2) as Hl. split; [lia|].
  intros i id Hi Hid. destruct (decide (i < length ids2)%nat) as [Hlt|Hge].
  - assert (ids2 !! i = Some id) as Hid2.
    { destruct Hp2 as [l ->]. by rewrite lookup_app_l in Hid. }
    rewrite (ring_data_old m2 m3 b ids2 ps); [by apply D1|done|done|done|by eapply list_elem_of_lookup_2].
  - rewrite (D2 i id) by (done || lia). f_equal. lia.
Qed.

Lemma minted_mints r m ids m' ids' b ps :
  minted r m ids -> mints m ids m' ids' -> wf m -> ring_rep m b ids ps -> extends b m m' -> ids `prefix_of` ids' ->
  (length ids' <= CIRC_BUF_SIZE)%nat -> minted r m' ids'.
Proof.
  intros [R D] [R' D'] Hwf Hr Hex Hp Hle. pose proof (prefix_length _ _ Hp) as Hl. split; [intros Hlt; rewrite R', R by lia; lia|].
  intros i id Hid. destruct (decide (i < length ids)%nat) as [Hlt|Hge].
  - assert (ids !! i = Some id) as Hid0.
    { destruct Hp as [l ->]. by rewrite lookup_app_l in Hid. }
    rewrite (ring_data_old m m' b ids ps); [by apply D|done|done|done|by eapply list_elem_of_lookup_2].
  - rewrite (D' i id) by (done || lia). rewrite R by (apply lookup_lt_Some in Hid; lia). f_equal. lia.
Qed.

Lemma minted_same r m m' ids : minted r m ids -> heap m' = heap m -> rng m' = rng m -> minted r m' ids.
Proof. intros [R D] Hh Hr. split; [by rewrite Hr|by rewrite Hh]. Qed.

(** A push into a buffer that is not full. *)
Lemma PUSH_spec b ids ps cb m :
  wf m -> ring_rep m b ids ps -> (length ids < CIRC_BUF_SIZE)%nat ->
  cb = CircBuf (Ptr b 0) (Z.of_nat (length ids)) (Z.of_nat CIRC_BUF_SIZE) ->
  wp (PUSH_msg_circ_buf cb)
    (fun r m' => exists id, r = (0, set_fill_size (Z.of_nat (S (length ids))) cb) /\
       ring_rep m' b (ids ++ [id]) (<[length ids := Ptr id.1 0]> ps) /\ extends b m m' /\ mints m ids m' (ids ++ [id])) m.
Proof.
  intros Hwf Hr Hlt ->. unfold PUSH_msg_circ_buf, create_key_pair. wps. apply wp_draw. wps.
  eapply wp_run.
  { apply ls_get_a_signed_msg_spec; cbn [uk_pk uk_sk];
      [by apply wf_env|apply keypair_pk_length|apply keypair_sk_length]. }
  cbn [fill_size maxlen cb_buffer uk_pk uk_sk]. mem_cbn.
  rewrite (proj2 (Z.eqb_neq _ _)) by (unfold CIRC_BUF_SIZE in *; lia).
  pose proof (wf_lt _ _ _ Hwf (rr_buf _ _ _ _ Hr)) as Hb. pose proof (rr_len _ _ _ _ Hr) as Hlen.
  destruct (lookup_lt_is_Some_2 ps (length ids)) as [old Hold]; [lia|].
  wps. rewrite Z.add_0_l. eapply (wp_store (H:=storable_ptr)).
  { heap_simpl. exact (rr_buf _ _ _ _ Hr). }
  { by rewrite zlookup_of_nat. }
  mem_cbn. rewrite Nat2Z.id. wps. unfold CIRC_BUF_SIZE in *.
  exists (Pos.succ (next m), Pos.succ (Pos.succ (next m))). split_and!.
  - rewrite u64_small by lia. do 2 f_equal. lia.
  - set (m' := Mem _ _ _ _).
    assert (forall c, (c < next m)%positive -> c <> b -> heap m' !! c = heap m !! c) as Heq.
    { intros c Hc Hcb. unfold m'. cbn [heap]. by rewrite !lookup_insert_ne by (done || lia). }
    split.
    + unfold m'. cbn [heap]. apply lookup_insert_eq.
    + by rewrite length_insert.
    + intros i id [Hi|[Hi Hid]]%lookup_app_Some.
      * rewrite list_lookup_insert_ne by (apply lookup_lt_Some in Hi; lia). by apply (rr_ptr _ _ _ _ Hr).
      * apply list_lookup_singleton_Some in Hid as [Hz <-]. replace i with (length ids) by lia.
        by rewrite list_lookup_insert_eq by lia.
    + intros i id [Hi|[Hi Hid]]%lookup_app_Some.
      * eapply ring_msg_old; [exact Hwf|exact (rr_buf _ _ _ _ Hr)|by eapply rr_msg|exact Heq].
      * apply list_lookup_singleton_Some in Hid as [Hz <-].
        exists (crypto_sign_keypair (rng m)).1, (crypto_sign (randombytes_buf (S (rng m)) 100) (crypto_sign_keypair (rng m)).2),
          (randombytes_buf (S (rng m)) 100). cbn [fst snd]. unfold m'. heap_simpl.
        split_and!; [done|done|by autorewrite with chain_rw|apply keypair_pk_length|apply sign_open|apply randombytes_length].
    + intros i Hi. rewrite length_app in Hi. unfold CIRC_BUF_SIZE in Hi. cbn in Hi. rewrite list_lookup_insert_ne by lia.
      apply (rr_null _ _ _ _ Hr). unfold CIRC_BUF_SIZE. lia.
    + unfold id_blocks. rewrite List.flat_map_app. apply NoDup_app. split_and!.
      * exact (rr_NoDup _ _ _ _ Hr).
      * intros c Hc%(ring_blocks_lt _ _ _ _ _ Hwf Hr). cbn. rewrite !elem_of_cons.
        intros [->|[->|[]%not_elem_of_nil]]; lia.
      * cbn. rewrite !NoDup_cons, !not_elem_of_cons. split_and!; [lia|apply not_elem_of_nil|apply not_elem_of_nil|apply NoDup_nil_2].
  - split; [solve_wf|cbn; lia|]. intros c Hc Hcb. cbn [heap]. by rewrite !lookup_insert_ne by (done || lia).
  - split; [cbn [rng]; rewrite length_app; cbn; lia|]. intros i id Hi [Hid|[_ Hid]]%lookup_app_Some; [apply lookup_lt_Some in Hid; lia|].
    apply list_lookup_singleton_Some in Hid as [Hz <-]. replace (rng m + 2 * (i - length ids))%nat with (rng m) by lia.
    unfold ring_data. cbn [fst snd heap]. heap_simpl. done.
Qed.

(** The struct that goes with [n] filled slots of buffer [b]. *)
Definition ring (b : positive) (n : nat) : circ_buf_t := CircBuf (Ptr b 0) (Z.of_nat n) (Z.of_nat CIRC_BUF_SIZE).

Lemma push_until_spec fuel N b ids ps m :
  wf m -> ring_rep m b ids ps -> (length ids <= N < CIRC_BUF_SIZE)%nat -> (N < length ids + fuel)%nat ->
  wp (push_until fuel (ring b (length ids)) (Z.of_nat N))
    (fun cb m' => cb = ring b (S N) /\ exists ids' ps', length ids' = S N /\ ids `prefix_of` ids' /\
       ring_rep m' b ids' ps' /\ extends b m m' /\ mints m ids m' ids') m.
Proof.
  revert ids ps m; induction fuel as [|fuel IH]; intros ids ps m Hwf Hr HN Hf; [lia|].
  cbn [push_until]. apply wp_bind. eapply wp_mono; [eapply PUSH_spec; [done|exact Hr|lia|done]|].
  intros r m1 (id & -> & Hr1 & Hex & Hmi). cbn [snd set_fill_size fill_size ring cb_buffer maxlen].
  unfold CIRC_BUF_SIZE in *. rewrite u64_small by lia.
  assert (length (ids ++ [id]) = S (length ids)) as Hl by (rewrite length_app; cbn; lia).
  destruct (Z.eqb_spec (Z.of_nat N + 1) (Z.of_nat (S (length ids)))) as [Heq|Hne].
  - apply wp_ret. assert (N = length ids) as -> by lia. split; [done|].
    exists (ids ++ [id]), (<[length ids := Ptr id.1 0]> ps).
    split_and!; [done|by apply prefix_app_r|done|done|done].
  - eapply wp_mono; [fold (ring b (S (length ids))); rewrite <-Hl; eapply IH; [exact (ex_wf _ _ _ Hex)|exact Hr1|lia|lia]|].
    intros cb m2 (-> & ids' & ps' & Hl' & Hpre & Hr2 & Hex2 & Hmi2). split; [done|]. exists ids', ps'.
    assert (ids `prefix_of` ids ++ [id]) as Hpre1 by by apply prefix_app_r.
    split_and!; [done|by etrans|done|by eapply extends_trans|]. eapply mints_trans; [exact Hmi|exact Hmi2|exact (ex_wf _ _ _ Hex)|exact Hr1|done..].
Qed.

(** Message [N] of a buffer that holds at least one: messages up to it are
    made when missing, and its pointer is returned. *)
Lemma GET_nth_spec fuel N b ids ps m :
  wf m -> ring_rep m b ids ps -> (0 < length ids <= CIRC_BUF_SIZE)%nat -> (N < CIRC_BUF_SIZE)%nat ->
  (CIRC_BUF_SIZE <= fuel)%nat ->
  wp (GET_nth_circ_buf fuel (ring b (length ids)) (Z.of_nat N))
    (fun r m' => exists ids' ps' id, r = (Ptr id.1 0, ring b (length ids')) /\
       length ids' = Nat.max (length ids) (S N) /\ ids' !! N = Some id /\ ids `prefix_of` ids' /\
       ring_rep m' b ids' ps' /\ extends b m m' /\ mints m ids m' ids') m.
Proof.
  intros Hwf Hr Hids HN Hfuel. unfold GET_nth_circ_buf. cbv zeta. cbn [fill_size ring cb_buffer].
  unfold CIRC_BUF_SIZE in *. rewrite u64_small by lia.
  destruct (Z.gtb_spec (Z.of_nat N) (Z.of_nat (length ids) - 1)) as [Hgt|Hle].
  - apply wp_bind. eapply wp_mono; [eapply push_until_spec; [done|exact Hr|unfold CIRC_BUF_SIZE; lia|lia]|].
    intros cb m' (-> & ids' & ps' & Hl & Hpre & Hr' & Hex & Hmi). cbn [cb_buffer fill_size ring].
    destruct (lookup_lt_is_Some_2 ids' N) as [id Hid]; [lia|].
    rewrite u64_small by lia. replace (Z.of_nat (S N) - 1) with (Z.of_nat N) by lia.
    apply wp_bind. eapply wp_run; [eapply load_ix_ptr; [exact (rr_buf _ _ _ _ Hr')|lia|]|].
    { rewrite Nat2Z.id. by apply (rr_ptr _ _ _ _ Hr'). }
    apply wp_ret. exists ids', ps', id. split_and!; [by rewrite Hl|lia|done|done|done|done|done].
  - destruct (lookup_lt_is_Some_2 ids N) as [id Hid]; [lia|].
    apply wp_bind. eapply wp_run; [eapply load_ix_ptr; [exact (rr_buf _ _ _ _ Hr)|lia|]|].
    { rewrite Nat2Z.id. by apply (rr_ptr _ _ _ _ Hr). }
    apply wp_ret. exists ids, ps, id. split_and!; [done|lia|done|done|done|by apply extends_refl|by apply mints_refl].
Qed.

(** With [fill_size] reset to zero nothing is made: slot [N] is returned as it
    is. *)
Lemma GET_nth_reset fuel N b ps p m :
  heap m !! b = Some (BPtrs ps) -> ps !! N = Some p -> Z.of_nat N < 2 ^ 64 ->
  GET_nth_circ_buf fuel (ring b 0) (Z.of_nat N) m = Ok ((p, ring b 0), m).
Proof.
  intros Hb Hp HN. unfold GET_nth_circ_buf. cbv zeta. cbn [fill_size ring cb_buffer].
  change (u64 (Z.of_nat 0 - 1)) with (2 ^ 64 - 1).
  destruct (Z.gtb_spec (Z.of_nat N) (2 ^ 64 - 1)); [lia|].
  erewrite bind_ok; [reflexivity|]. eapply load_ix_ptr; [exact Hb|lia|by rewrite Nat2Z.id].
Qed.

(** What the fill count is: zero once it was reset. *)
Definition fill_of (reset : bool) (ids : list (positive * positive)) : nat := if reset then 0%nat else length ids.

(** Either way message [N] is handed out; a reset buffer is full and gets no
    new message. *)
Lemma GET_nth_any fuel N b rs ids ps m :
  wf m -> ring_rep m b ids ps -> (0 < length ids <= CIRC_BUF_SIZE)%nat -> (rs = true -> length ids = CIRC_BUF_SIZE) ->
  (N < CIRC_BUF_SIZE)%nat -> (CIRC_BUF_SIZE <= fuel)%nat ->
  wp (GET_nth_circ_buf fuel (ring b (fill_of rs ids)) (Z.of_nat N))
    (fun r m' => exists ids' ps' id, r = (Ptr id.1 0, ring b (fill_of rs ids')) /\
       length ids' = Nat.max (length ids) (S N) /\ ids' !! N = Some id /\ ids `prefix_of` ids' /\
       ring_rep m' b ids' ps' /\ extends b m m' /\ mints m ids m' ids') m.
Proof.
  intros Hwf Hr Hl Hrs HN Hf. destruct rs; [|by apply (GET_nth_spec fuel N b ids ps)]. specialize (Hrs eq_refl).
  destruct (lookup_lt_is_Some_2 ids N) as [id Hid]; [lia|]. eapply wp_run.
  { apply (GET_nth_reset fuel N b ps (Ptr id.1 0)); [exact (rr_buf _ _ _ _ Hr)|exact (rr_ptr _ _ _ _ Hr _ _ Hid)|unfold CIRC_BUF_SIZE in *; lia]. }
  exists ids, ps, id. split_and!; [done|lia|done|done|done|by apply extends_refl|by apply mints_refl].
Qed.

(** A push never makes [fill_size] exceed 512, so from 512 on the loop has no
    way out. *)
Lemma PUSH_fill cb r m m' :
  0 <= fill_size cb <= 512 -> maxlen cb = 512 -> PUSH_msg_circ_buf cb m = Ok (r, m') ->
  0 <= fill_size r.2 <= 512 /\ maxlen r.2 = 512.
Proof.
  intros Hf Hm Hrun. apply (wp_run _ (fun x _ => x = r)) in Hrun; [|done].
  unfold PUSH_msg_circ_buf in Hrun.
  apply wp_unbind in Hrun as (uk & m1 & _ & Hrun). apply wp_unbind in Hrun as (p & m2 & _ & Hrun).
  cbv zeta in Hrun. rewrite Hm in Hrun. destruct (Z.eqb_spec (fill_size cb) 512).
  - apply wp_unbind in Hrun as (u & m3 & _ & (? & ? & [= <- <-] & <-)). cbn. lia.
  - apply wp_unbind in Hrun as (u & m3 & _ & (? & ? & [= <- <-] & <-)). cbn. rewrite u64_small by lia. lia.
Qed.

Lemma push_until_stuck fuel cb N r m m' :
  0 <= fill_size cb <= 512 -> maxlen cb = 512 -> 512 <= N < 2 ^ 64 - 1 ->
  push_until fuel cb N m <> Ok (r, m').
Proof.
  revert cb m; induction fuel as [|fuel IH]; intros cb m Hf Hm HN; [done|]. cbn [push_until].
  unfold mbind, M_bind. destruct (PUSH_msg_circ_buf cb m) as [[r1 m1]| | |] eqn:Hp; try done.
  apply PUSH_fill in Hp as [Hf1 Hm1]; [|done|done]. rewrite u64_small by lia.
  rewrite (proj2 (Z.eqb_neq _ _)) by lia. by apply IH.
Qed.

Lemma id_blocks_S ids i id : ids !! i = Some id -> id_blocks (take (S i) ids) = id_blocks (take i ids) ++ [id.1; id.2].
Proof.
  intros Hi. erewrite take_S_r by exact Hi. unfold id_blocks. rewrite List.flat_map_app. done.
Qed.

Lemma id_blocks_fresh ids i id :
  NoDup (id_blocks ids) -> ids !! i = Some id ->
  id.1 ∉ id_blocks (take i ids) /\ id.2 ∉ id_blocks (take i ids) /\ id.1 <> id.2.
Proof.
  intros Hnd Hi. assert (NoDup (id_blocks (take (S i) ids))) as Hs.
  { rewrite <-(take_drop (S i) ids) in Hnd. unfold id_blocks in Hnd. rewrite List.flat_map_app in Hnd.
    by apply NoDup_app in Hnd as [? _]. }
  rewrite (id_blocks_S _ _ _ Hi) in Hs. apply NoDup_app in Hs as (_ & Hd & H2).
  rewrite !NoDup_cons, !not_elem_of_cons in H2. destruct H2 as ((Hne & _) & _).
  split_and!; [intros H%Hd|intros H%Hd|done]; apply H; set_solver.
Qed.

(** Different messages have different structs. *)
Lemma id_blocks_first ids i j id id' :
  NoDup (id_blocks ids) -> ids !! i = Some id -> ids !! j = Some id' -> id.1 = id'.1 -> i = j.
Proof.
  intros Hnd Hi Hj Heq. destruct (Nat.lt_trichotomy i j) as [Hlt|[->|Hlt]]; [|done|]; exfalso.
  - destruct (id_blocks_fresh _ _ _ Hnd Hj) as [Hf _]. apply Hf, elem_of_id_blocks. exists i, id. rewrite lookup_take_lt by done. auto.
  - destruct (id_blocks_fresh _ _ _ Hnd Hi) as [Hf _]. apply Hf, elem_of_id_blocks. exists j, id'. rewrite lookup_take_lt by done. auto.
Qed.

(** Cleaning a full buffer frees every message once. *)
Lemma clean_spec b ids ps cb m :
  ring_rep m b ids ps -> length ids = CIRC_BUF_SIZE -> cb_buffer cb = Ptr b 0 ->
  wp (clean_circ_buf cb) (fun _ m' => released m m' (id_blocks ids)) m.
Proof.
  intros Hr Hl Hcb. unfold clean_circ_buf. rewrite Hcb. eapply wp_mono.
  - apply (wp_for (fun j m' => released m m' (id_blocks (take j ids)))); [apply released_nil|].
    intros j m' Hj Hrel. destruct (lookup_lt_is_Some_2 ids j) as [id Hid]; [lia|].
    destruct (id_blocks_fresh _ _ _ (rr_NoDup _ _ _ _ Hr) Hid) as (F1 & F2 & Hne).
    pose proof (rr_msg _ _ _ _ Hr _ _ Hid) as (pk & bs & text & H1 & H2 & _).
    apply wp_bind. eapply wp_run.
    { eapply load_ix_ptr; [rewrite (r_heap _ _ _ Hrel), decide_False; [exact (rr_buf _ _ _ _ Hr)|]|lia|rewrite Nat2Z.id; by apply (rr_ptr _ _ _ _ Hr)].
      intros (i & id' & Hi & Hc)%elem_of_id_blocks. apply lookup_take_Some in Hi as [Hi _].
      pose proof (rr_msg _ _ _ _ Hr _ _ Hi) as (pk' & bs' & text' & G1 & G2 & _). pose proof (rr_buf _ _ _ _ Hr).
      destruct Hc; congruence. }
    rewrite decide_False by done. eapply wp_run.
    { eapply destroy_signed_message_run; [rewrite (r_heap _ _ _ Hrel), decide_False by done; exact H1|done|
        rewrite (r_heap _ _ _ Hrel), decide_False by done; exact H2|done]. }
    rewrite (id_blocks_S _ _ _ Hid). eapply released_trans; [exact Hrel|]. split; try done. cbn [heap].
    intros c. rewrite !lookup_delete. repeat case_decide; subst; set_solver.
  - intros [] m' Hrel. by rewrite take_ge in Hrel by lia.
Qed.

(** The requests [Ns], one after another: the pointers handed out. *)
Fixpoint GET_each (fuel : nat) (cbuf : circ_buf_t) (Ns : list nat) : M (list ptr * circ_buf_t) :=
  match Ns with
  | [] => mret ([], cbuf)
  | N :: Ns =>
      r ← GET_nth_circ_buf fuel cbuf (Z.of_nat N);
      rs ← GET_each fuel r.2 Ns;
      mret (r.1 :: rs.1, rs.2)
  end.

(** [p] is message [N] of the buffer and opens under its key. *)
Definition hands_out (h : gmap positive block) (ids : list (positive * positive)) (N : nat) (p : ptr) : Prop :=
  exists id sm bs, ids !! N = Some id /\ p = Ptr id.1 0 /\ msg_at h p sm bs /\
    ring_data h id = (bs, sm_public_key sm) /\ is_Some (crypto_sign_open bs (sm_public_key sm)).

Lemma ring_hands_out m b ids ps N id : ring_rep m b ids ps -> ids !! N = Some id -> hands_out (heap m) ids N (Ptr id.1 0).
Proof.
  intros Hr Hid. destruct (rr_msg _ _ _ _ Hr _ _ Hid) as (pk & bs & text & H1 & H2 & Hlb & _ & Ho & _).
  exists id, (SignedMessage (Ptr id.2 0) 164 pk), bs. split_and!; [done|done| |unfold ring_data; by rewrite H1, H2|by eexists].
  split; [by exists id.1, 0, [SignedMessage (Ptr id.2 0) 164 pk]|by apply bytes_at_all].
Qed.

Lemma GET_each_spec fuel Ns b rs ids ps m :
  wf m -> ring_rep m b ids ps -> (0 < length ids <= CIRC_BUF_SIZE)%nat -> (rs = true -> length ids = CIRC_BUF_SIZE) ->
  Forall (fun N => (N < CIRC_BUF_SIZE)%nat) Ns -> (CIRC_BUF_SIZE <= fuel)%nat ->
  wp (GET_each fuel (ring b (fill_of rs ids)) Ns)
    (fun r m' => exists ids' ps', r.2 = ring b (fill_of rs ids') /\
       length ids' = foldr (fun N n => Nat.max (S N) n) (length ids) Ns /\ ids `prefix_of` ids' /\
       ring_rep m' b ids' ps' /\ extends b m m' /\ mints m ids m' ids' /\
       Forall2 (fun N p => exists id, ids' !! N = Some id /\ p = Ptr id.1 0) Ns r.1) m.
Proof.
  intros Hwf Hr Hl Hrs HNs Hf. revert ids ps m Hwf Hr Hl Hrs. induction HNs as [|N Ns HN HNs IH]; intros ids ps m Hwf Hr Hl Hrs; cbn [GET_each].
  - apply wp_ret. exists ids, ps. split_and!; [done|done|done|done|by apply extends_refl|by apply mints_refl|constructor].
  - apply wp_bind. eapply wp_mono; [by apply (GET_nth_any fuel N b rs ids ps)|].
    intros r1 m1 (ids1 & ps1 & id & -> & Hl1 & Hid & Hpre1 & Hr1 & Hex1 & Hmi1). cbn [fst snd].
    apply wp_bind. eapply wp_mono; [apply (IH ids1 ps1 m1 (ex_wf _ _ _ Hex1) Hr1); [lia|]|].
    { intros Hreset. specialize (Hrs Hreset). lia. }
    intros r2 m2 (ids2 & ps2 & Hcb & Hl2 & Hpre2 & Hr2 & Hex2 & Hmi2 & Hall). apply wp_ret. cbn [fst snd foldr]. exists ids2, ps2.
    split_and!; [done| |by etrans|done|by eapply extends_trans| |].
    + rewrite Hl2, Hl1. clear. induction Ns as [|K Ns IHn]; cbn [foldr]; lia.
    + eapply mints_trans; [exact Hmi1|exact Hmi2|exact (ex_wf _ _ _ Hex1)|exact Hr1|done..].
    + constructor; [|exact Hall]. exists id. split; [|done]. by eapply prefix_lookup_Some.
Qed.

(** C21: a message number denotes one message.  In a buffer that holds at least
    one message, reset or not, any sequence of requests for numbers below 512 is
    answered: equal numbers get the same pointer and different numbers
    different ones, each to a message that opens under its key; the buffer
    has then as many messages as the largest number needs and is as sound as
    before; what it held is still there unchanged, and each further message was
    generated once, message by message from the next two draws of the random
    source. *)
Theorem GET_nth_stable fuel Ns b rs ids ps m :
  wf m -> ring_rep m b ids ps -> (0 < length ids <= CIRC_BUF_SIZE)%nat -> (rs = true -> length ids = CIRC_BUF_SIZE) ->
  Forall (fun N => (N < CIRC_BUF_SIZE)%nat) Ns -> (CIRC_BUF_SIZE <= fuel)%nat ->
  wp (GET_each fuel (ring b (fill_of rs ids)) Ns)
    (fun r m' => exists ids' ps', r.2 = ring b (fill_of rs ids') /\
       length ids' = foldr (fun N n => Nat.max (S N) n) (length ids) Ns /\ ids `prefix_of` ids' /\
       ring_rep m' b ids' ps' /\ extends b m m' /\ mints m ids m' ids' /\
       Forall2 (hands_out (heap m') ids') Ns r.1 /\
       forall i j N K p q, Ns !! i = Some N -> Ns !! j = Some K -> r.1 !! i = Some p -> r.1 !! j = Some q -> (p = q <-> N = K)) m.
Proof.
  intros Hwf Hr Hl Hrs HNs Hf. eapply wp_mono; [by apply (GET_each_spec fuel Ns b rs ids ps)|].
  intros r m' (ids' & ps' & Hcb & Hl' & Hpre & Hr' & Hex & Hmi & Hall). exists ids', ps'. split_and!; try done.
  - eapply Forall2_impl; [exact Hall|]. intros N p (id & Hid & ->). by eapply ring_hands_out.
  - intros i j N K p q Hi Hj Hp Hq. destruct (Forall2_lookup_lr _ _ _ _ _ _ Hall Hi Hp) as (id & HN & ->).
    destruct (Forall2_lookup_lr _ _ _ _ _ _ Hall Hj Hq) as (id2 & HK & ->). split; [|intros ->; congruence].
    intros [= Heq]. exact (id_blocks_first _ _ _ _ _ (rr_NoDup _ _ _ _ Hr') HN HK Heq).
Qed.

(** A number from 512 on is never delivered.  For such an [N] the loop
    of [GET_nth_circ_buf] has no exit: whatever the fuel, it does not return. *)
Theorem GET_nth_beyond_diverges fuel b n N m :
  (0 < n <= CIRC_BUF_SIZE)%nat -> 512 <= N < 2 ^ 64 - 1 ->
  forall r m', GET_nth_circ_buf fuel (ring b n) N m <> Ok (r, m').
Proof.
  intros Hn HN r m'. unfold GET_nth_circ_buf. cbv zeta. cbn [fill_size ring]. unfold CIRC_BUF_SIZE in *.
  rewrite u64_small by lia. destruct (Z.gtb_spec N (Z.of_nat n - 1)); [|lia].
  unfold mbind, M_bind. destruct (push_until _ _ _ _) as [[cb m1]| | |] eqn:Hp; try done.
  exfalso. revert Hp. apply push_until_stuck; cbn [fill_size maxlen ring]; unfold CIRC_BUF_SIZE; lia.
Qed.

(** A push into a full buffer destroys it.  The 512 messages are freed
    while their slots keep the old pointers, so that every slot dangles; the
    new message is not stored anywhere; the call returns 1. *)
Theorem PUSH_full_dangles b ids ps m :
  wf m -> ring_rep m b ids ps -> length ids = CIRC_BUF_SIZE ->
  wp (PUSH_msg_circ_buf (ring b CIRC_BUF_SIZE))
    (fun r m' => r = (1, ring b 0) /\ heap m' !! b = Some (BPtrs ps) /\
       forall i, (i < CIRC_BUF_SIZE)%nat -> exists q, ps !! i = Some (Ptr q 0) /\ heap m' !! q = None) m.
Proof.
  intros Hwf Hr Hl. unfold PUSH_msg_circ_buf, create_key_pair. wps. apply wp_draw. wps.
  eapply wp_run.
  { apply ls_get_a_signed_msg_spec; cbn [uk_pk uk_sk];
      [by apply wf_env|apply keypair_pk_length|apply keypair_sk_length]. }
  cbn [fill_size maxlen cb_buffer uk_pk uk_sk ring]. rewrite Z.eqb_refl. mem_cbn. set (m1 := Mem _ _ _ _).
  assert (forall c, (c < next m)%positive -> heap m1 !! c = heap m !! c) as Heq.
  { intros c Hc. unfold m1. cbn [heap]. by rewrite !lookup_insert_ne by lia. }
  pose proof (wf_lt _ _ _ Hwf (rr_buf _ _ _ _ Hr)) as Hb.
  assert (ring_rep m1 b ids ps) as Hr1.
  { split; [rewrite Heq by done; exact (rr_buf _ _ _ _ Hr)|exact (rr_len _ _ _ _ Hr)|exact (rr_ptr _ _ _ _ Hr)| |exact (rr_null _ _ _ _ Hr)|exact (rr_NoDup _ _ _ _ Hr)].
    intros i id Hi. eapply ring_msg_old; [exact Hwf|exact (rr_buf _ _ _ _ Hr)|exact (rr_msg _ _ _ _ Hr _ _ Hi)|].
    intros c Hc _. by apply Heq. }
  apply wp_bind. eapply wp_mono; [eapply (clean_spec b ids ps); [exact Hr1|done|done]|].
  intros [] m2 Hrel. apply wp_ret. split; [done|]. split.
  - rewrite (r_heap _ _ _ Hrel), decide_False; [exact (rr_buf _ _ _ _ Hr1)|].
    intros Hc%(ring_blocks_lt _ _ _ _ _ Hwf Hr). by destruct Hc.
  - intros i Hi. destruct (lookup_lt_is_Some_2 ids i) as [id Hid]; [lia|]. exists id.1.
    split; [by apply (rr_ptr _ _ _ _ Hr)|]. rewrite (r_heap _ _ _ Hrel), decide_True; [done|].
    apply elem_of_id_blocks. exists i, id. auto.
Qed.
End facts.

(** The buffer as [setup_buffers] leaves it: 512 null slots. *)
Definition empty_ring_mem : mem := Mem (<[1%positive := BPtrs (replicate CIRC_BUF_SIZE NULL)]> ∅) 2 0 0.

Lemma empty_ring_wf : wf empty_ring_mem.
Proof. intros b Hb. cbn in *. rewrite lookup_insert_ne by lia. apply lookup_empty. Qed.

Lemma empty_ring_rep (sod : Sodium) : ring_rep empty_ring_mem 1 [] (replicate CIRC_BUF_SIZE NULL).
Proof.
  split; [reflexivity|by rewrite length_replicate|done|done| |apply NoDup_nil_2].
  intros i [_ Hi]. by apply lookup_replicate_2.
Qed.

Lemma GET_nth_stable_witness :
  wp (r0 ← PUSH_msg_circ_buf (sod:=Toy.mixing) (clk:=Toy.toy_clock) (ring 1 0);
      GET_each (sod:=Toy.mixing) (clk:=Toy.toy_clock) 512 r0.2 [5; 9; 5; 0]%nat)
    (fun r m' => r.2 = ring 1 10 /\ r.1 !! 0%nat = r.1 !! 2%nat /\ rng m' = 20%nat) empty_ring_mem.
Proof.
  apply wp_bind. eapply wp_mono; [apply (PUSH_spec (sod:=Toy.mixing) (clk:=Toy.toy_clock) (ok:=Toy.mixing_ok) 1 [] _ _ _
    empty_ring_wf (empty_ring_rep _) ltac:(unfold CIRC_BUF_SIZE; cbn; lia) eq_refl)|].
  intros r m1 (id & -> & Hr & Hex & Hmi).
  eapply wp_mono; [apply (GET_nth_stable (sod:=Toy.mixing) (clk:=Toy.toy_clock) (ok:=Toy.mixing_ok) 512 [5; 9; 5; 0]%nat 1 false [id] _ m1
    (ex_wf _ _ _ Hex) Hr); [unfold CIRC_BUF_SIZE; cbn; lia|discriminate|repeat constructor; unfold CIRC_BUF_SIZE; lia|exact (le_n _)]|].
  intros r1 m2 (ids & ps & Hcb & Hl & _ & _ & _ & Hmi2 & Hall & Hiff). cbn in Hl. split; [rewrite Hcb; cbn [fill_of]; by rewrite Hl|]. split.
  - destruct (r1.1 !! 0%nat) as [p|] eqn:Hp, (r1.1 !! 2%nat) as [q|] eqn:Hq;
      try (apply lookup_ge_None in Hp || apply lookup_ge_None in Hq; apply Forall2_length in Hall; cbn in Hall; lia).
    f_equal. by apply (Hiff 0%nat 2%nat 5%nat 5%nat p q).
  - rewrite (mi_rng _ _ _ _ Hmi2), (mi_rng _ _ _ _ Hmi), Hl. reflexivity.
Defined.

Lemma GET_nth_beyond_diverges_witness :
  ~ exists r, GET_nth_circ_buf (sod:=Toy.mixing) (clk:=Toy.toy_clock) 5000 (ring 1 1) 512 empty_ring_mem = Ok r.
Proof.
  intros [[r m'] H]. exact (GET_nth_beyond_diverges (sod:=Toy.mixing) (clk:=Toy.toy_clock) 5000 1 1 512 empty_ring_mem
    ltac:(unfold CIRC_BUF_SIZE; lia) ltac:(lia) r m' H).
Defined.

Lemma PUSH_full_dangles_witness :
  wp (cb ← push_until (sod:=Toy.mixing) (clk:=Toy.toy_clock) 512 (ring 1 0) 511;
      PUSH_msg_circ_buf (sod:=Toy.mixing) (clk:=Toy.toy_clock) cb)
    (fun r m' => r = (1, ring 1 0) /\ exists q, heap m' !! 1%positive = Some (BPtrs q)) empty_ring_mem.
Proof.
  apply wp_bind. eapply wp_mono; [apply (push_until_spec (sod:=Toy.mixing) (clk:=Toy.toy_clock) (ok:=Toy.mixing_ok) 512 511 1 [] _ _
    empty_ring_wf (empty_ring_rep _)); unfold CIRC_BUF_SIZE; cbn; lia|].
  intros cb m1 (-> & ids & ps & Hl & _ & Hr & Hex & _).
  eapply wp_mono; [apply (PUSH_full_dangles (sod:=Toy.mixing) (clk:=Toy.toy_clock) (ok:=Toy.mixing_ok) 1 ids ps m1 (ex_wf _ _ _ Hex) Hr Hl)|].
  intros r m' (-> & Hb & _). split; [reflexivity|]. exists ps. exact Hb.
Defined.
