(* ===== verification/Server.v ===== *)
(** * The message server

    sources/networking: the status and message encoders (ipcmessages.c,
    ../serdes/serdes.c), the request handlers (connection_handlers.c) and one
    turn of the event loop (event_loop.c).  The server's globals are the record
    [server]; io_uring is seen from the program's side: a handler appends the
    operations it submits, with their tags, and a turn of the loop consumes one
    completion. *)

From S2P Require Import Prelude.
From S2P Require Import CTypes.
From S2P Require Import Memory.
From S2P Require Import Platform.
From S2P Require Import Accounts.
From S2P Require Import Hashing.
From S2P Require Import Layering.
From S2P Require Import MerkleTree.
From S2P Require Import Misc.
From S2P Require Import RequestData.
From S2P Require Import Codec.
From S2P Require Import CircBuf.

(** settings.h *)
Definition MAX_CONNECTIONS : Z := 1000.
Definition BUFFER_SIZE : nat := 4096.
Definition N_MESSAGES : Z := 512.

(** [sizeof(IpcMessage)] and [sizeof(signed_message_t)] on a 64-bit platform. *)
Definition sizeof_IpcMessage : Z := 96.
Definition sizeof_signed_message_t : Z := 48.

(** A submitted operation.  [OpStale] is a queue entry that was taken and
    submitted without an operation having been prepared in it. *)
Inductive op :=
| OpAccept (serverfd : Z)
| OpSend (fd : Z) (bytes : list byte)
| OpRecv (fd : Z)
| OpStale.

Record sqe := Sqe { sqe_op : op; sqe_data : Z }.

(** A completion: the operation's tag, its result and, for a receive, the
    bytes the kernel stored in the client's buffer. *)
Record cqe := Cqe { cqe_user_data : Z; cqe_res : Z; cqe_bytes : list byte }.

(** The globals.  [buffers], [buffer_lengths] and [beffer_sended_N] have one
    entry per descriptor below [MAX_CONNECTIONS]; [closed] are the descriptors
    closed so far, [printed] the Merkle roots printed. *)
Record server := Server {
  CBUF : circ_buf_t;
  buffers : gmap Z (list byte);
  buffer_lengths : gmap Z Z;
  beffer_sended_N : gmap Z Z;
  current_client_fd : Z;
  sq : list sqe;
  closed : list Z;
  printed : list (list byte) }.

Definition set_CBUF (c : circ_buf_t) (s : server) : server :=
  Server c (buffers s) (buffer_lengths s) (beffer_sended_N s) (current_client_fd s) (sq s) (closed s) (printed s).
Definition set_buffer (fd : Z) (l : list byte) (s : server) : server :=
  Server (CBUF s) (<[fd := l]> (buffers s)) (buffer_lengths s) (beffer_sended_N s) (current_client_fd s) (sq s) (closed s) (printed s).
Definition set_length (fd n : Z) (s : server) : server :=
  Server (CBUF s) (buffers s) (<[fd := n]> (buffer_lengths s)) (beffer_sended_N s) (current_client_fd s) (sq s) (closed s) (printed s).
Definition set_sended (fd n : Z) (s : server) : server :=
  Server (CBUF s) (buffers s) (buffer_lengths s) (<[fd := n]> (beffer_sended_N s)) (current_client_fd s) (sq s) (closed s) (printed s).
Definition set_current (fd : Z) (s : server) : server :=
  Server (CBUF s) (buffers s) (buffer_lengths s) (beffer_sended_N s) fd (sq s) (closed s) (printed s).
Definition submit (o : op) (data : Z) (s : server) : server :=
  Server (CBUF s) (buffers s) (buffer_lengths s) (beffer_sended_N s) (current_client_fd s) (sq s ++ [Sqe o data]) (closed s) (printed s).
Definition close_fd (fd : Z) (s : server) : server :=
  Server (CBUF s) (buffers s) (buffer_lengths s) (beffer_sended_N s) (current_client_fd s) (sq s) (closed s ++ [fd]) (printed s).
Definition print_root (root : list byte) (s : server) : server :=
  Server (CBUF s) (buffers s) (buffer_lengths s) (beffer_sended_N s) (current_client_fd s) (sq s) (closed s) (printed s ++ [root]).

(** Messages sent to the client so far. *)
Definition sended (s : server) (fd : Z) : Z := default 0 (beffer_sended_N s !! fd).

(** The client's buffer.  It comes from [malloc]; every read is of bytes just
    written or received, so the zeros that stand for its first content are
    never looked at. *)
Definition buffer_of (s : server) (fd : Z) : list byte := default (zeros BUFFER_SIZE) (buffers s !! fd).

(** The C string an uninitialised [char date[32]] happens to hold, by the
    number of clock readings made before. *)
Class Uninit := uninit_string : nat -> list byte.

(** [&buffers[client_fd * BUFFER_SIZE]] and the other per-client entries. *)
Definition check_slot (client_fd : Z) : M unit :=
  if (0 <=? client_fd) && (client_fd <? MAX_CONNECTIONS) then mret () else fail OutOfBounds.

(** [&buffer_transactions[client_fd * sizeof(IpcMessage)]]: the pointer is
    typed, so the index is in elements, of which there are [MAX_CONNECTIONS]. *)
Definition get_ipc_msg_buffer (client_fd : Z) : M unit :=
  let i := client_fd * sizeof_IpcMessage in
  if (0 <=? i) && (i <? MAX_CONNECTIONS) then mret () else fail OutOfBounds.

Definition get_signed_message_buffer (client_fd : Z) : M unit :=
  let i := client_fd * sizeof_signed_message_t in
  if (0 <=? i) && (i <? MAX_CONNECTIONS) then mret () else fail OutOfBounds.

(** Writing [bytes] at the start of the client's buffer.  More bytes than it
    has would run into the next client's. *)
Definition write_buffer (s : server) (client_fd : Z) (bytes : list byte) : M server :=
  check_slot client_fd ;;
  if (length bytes <=? BUFFER_SIZE)%nat
  then mret (set_buffer client_fd (overwrite (buffer_of s client_fd) bytes 0) s)
  else fail OutOfBounds.

Section server.
Context {sod : Sodium} {clk : Clock} {pb : Protobuf} {un : Uninit}.

(** [send_ONLY_status_code] of ipcmessages.c: the packed bytes.  [date] is not
    written before it becomes the timestamp. *)
Definition send_ONLY_status_code (STATUS : Z) : M (list byte) := fun m =>
  let date := uninit_string (ticks m) in
  (ns ← get_epoch_ns;
   mret (ipc_message__pack (MkIpcMessage None None date ns STATUS))) m.

(** [read_ONLY_STATUS_response]: a message that does not unpack is a null
    pointer, and it is dereferenced. *)
Definition read_ONLY_STATUS_response (buf : list byte) : M Z :=
  match ipc_message__unpack buf with
  | Some message => mret (status_code message)
  | None => fail NullDeref
  end.

(** [serialize_data_v2] of serdes.c: the message's buffer, its public key and
    the time. *)
Definition serialize_data_v2 (a_message : ptr) : M (list byte) :=
  sm ← load (A:=signed_message_t) a_message;
  ns ← get_epoch_ns;
  t ← tick time_now;
  data ← load_bytes (sm_message sm) (Z.to_nat (sm_length sm));
  mret (ipc_message__pack (MkIpcMessage (Some data) (Some (sm_public_key sm))
    (strftime_stamp (gmtime t)) ns IPC_MESSAGE_SENDED)).

Definition request_SEND_STATUS (s : server) (client_fd status : Z) : M server :=
  get_ipc_msg_buffer client_fd ;;
  bytes ← send_ONLY_status_code status;
  s ← write_buffer s client_fd bytes;
  let s := set_length client_fd (Z.of_nat (length bytes)) s in
  mret (submit (OpSend client_fd (take (length bytes) (buffer_of s client_fd)))
          (make_request_data client_fd (flag_num READ_RESPONSE)) s).

(** send with flag ask for transactions *)
Definition request_ASK_NEED_MSG (s : server) (client_fd : Z) : M server :=
  get_ipc_msg_buffer client_fd ;;
  bytes ← send_ONLY_status_code IPC_ASK_NEED_MSG;
  s ← write_buffer s client_fd bytes;
  let s := set_length client_fd (Z.of_nat (length bytes)) s in
  mret (submit (OpSend client_fd (take (length bytes) (buffer_of s client_fd)))
          (make_request_data client_fd (flag_num READ_RESPONSE)) s).

(** [FINISH_SENDING]: the buffer is declared empty, the tree over its 512
    slots is computed and printed, the unprepared entry is submitted. *)
Definition FINISH_SENDING (s : server) (client_fd : Z) : M server :=
  let s := set_CBUF (set_fill_size 0 (CBUF s)) s in
  check_slot client_fd ;;
  let s := set_sended client_fd 0 s in
  root ← server_calc_merkle_tree (cb_buffer (CBUF s));
  mret (submit OpStale (make_request_data client_fd (flag_num FLAG_CLOSE_CONNECTION)) (print_root root s)).

Definition handle_response_NEED_MORE_MSG (fuel : nat) (s : server) (client_fd : Z) : M server :=
  check_slot client_fd ;;
  if sended s client_fd >=? N_MESSAGES then
    request_SEND_STATUS s client_fd IPC_ALL_BLOCK_MSG_SENDED
  else
    let s := set_buffer client_fd (zeros BUFFER_SIZE) s in
    let s := set_length client_fd 0 s in
    r ← GET_nth_circ_buf fuel (CBUF s) (sended s client_fd);
    let s := set_CBUF r.2 s in
    get_ipc_msg_buffer client_fd ;;
    bytes ← serialize_data_v2 r.1;
    s ← write_buffer s client_fd bytes;
    let s := set_length client_fd (Z.of_nat (length bytes)) s in
    let s := submit (OpSend client_fd (take (length bytes) (buffer_of s client_fd)))
               (make_request_data client_fd (flag_num READ_RESPONSE)) s in
    mret (set_sended client_fd (u64 (sended s client_fd + 1)) s).

Definition READ_STATUS_RESPONSE (s : server) (client_fd : Z) : M server :=
  check_slot client_fd ;;
  let s := set_length client_fd 0 s in
  mret (submit (OpRecv client_fd) (make_request_data client_fd (flag_num TEST_RESPONSE)) s).

Definition add_accept_request (s : server) (serverfd : Z) : server :=
  submit (OpAccept serverfd) (make_request_data 0 (flag_num FLAG_ACCEPT)) s.

(** [add_close_request] and [add_write_request] are defined and not called. *)
Definition add_close_request (s : server) (client_fd : Z) : server :=
  submit OpStale (make_request_data client_fd (flag_num FLAG_READ)) s.

Definition add_write_request (s : server) (client_fd : Z) (nbytes : nat) : server :=
  submit (OpSend client_fd (take nbytes (buffer_of s client_fd))) (make_request_data client_fd (flag_num FLAG_WRITE)) s.

(** The bytes a receive completion left in the client's buffer. *)
Definition receive (s : server) (c : cqe) : server :=
  let fd := request_data_client_fd (cqe_user_data c) in
  set_buffer fd (overwrite (buffer_of s fd) (cqe_bytes c) 0) s.

(** One turn of [event_loop]. *)
Definition server_turn (fuel : nat) (sockfd : Z) (s : server) (c : cqe) : M server :=
  let fd := request_data_client_fd (cqe_user_data c) in
  match flag_of (request_data_event_type (cqe_user_data c)) with
  | Some FLAG_ACCEPT =>
      let s := add_accept_request s sockfd in
      let s := set_current (request_data_client_fd (u64 (cqe_res c))) s in
      request_ASK_NEED_MSG s (cqe_res c)
  | Some READ_RESPONSE =>
      if cqe_res c =? 0 then mret s else READ_STATUS_RESPONSE s fd
  | Some FLAG_CLOSE_CONNECTION =>
      let s := close_fd (current_client_fd s) s in
      check_slot fd ;;
      mret (set_sended fd 0 s)
  | Some TEST_RESPONSE =>
      if cqe_res c >? 0 then
        let s := receive s c in
        check_slot (i32 (cqe_user_data c)) ;;
        STATUS ← read_ONLY_STATUS_response (take (Z.to_nat (cqe_res c)) (buffer_of s (i32 (cqe_user_data c))));
        if STATUS =? IPC_NEED_MORE then handle_response_NEED_MORE_MSG fuel s (i32 (cqe_user_data c)) else
        if STATUS =? IPC_ACKN_OK then request_ASK_NEED_MSG s fd else
        if STATUS =? IPC_ENOUGH then FINISH_SENDING s fd else
        mret s
      else mret s
  | _ => mret s
  end.

(** [event_loop]: one push and one accept, then a turn per completion. *)
Definition event_loop_start (sockfd : Z) (s : server) : M server :=
  r ← PUSH_msg_circ_buf (CBUF s);
  mret (add_accept_request (set_CBUF r.2 s) sockfd).

Fixpoint server_run (fuel : nat) (sockfd : Z) (s : server) (cs : list cqe) : M server :=
  match cs with
  | [] => mret s
  | c :: cs => s ← server_turn fuel sockfd s c; server_run fuel sockfd s cs
  end.
End server.

(** [setup_buffers] and [create_circ_buf]: the state before the loop.  [ring]
    is the block of [ring_data_buf], 512 null pointers. *)
Definition initial_server (ring_data_buf : ptr) : server :=
  Server (create_circ_buf ring_data_buf) ∅ ∅ ∅ (-1) [] [] [].

(** Whatever the uninitialised array holds, it ends before 4000 bytes. *)
Definition uninit_short {un : Uninit} : Prop := forall n, (length (uninit_string n) <= 4000)%nat.

(** ** The handlers, one by one *)
Section facts.
Context {sod : Sodium} {clk : Clock} {pb : Protobuf} {un : Uninit} {ok : SodiumOk sod} {pbok : ProtobufOk pb}.

Context (Hun : uninit_short).

(** The descriptors whose [IpcMessage] slot exists. *)
Definition good_fd (fd : Z) : Prop := 0 <= fd <= 10.

Lemma check_slot_ok fd m : good_fd fd -> check_slot fd m = Ok ((), m).
Proof.
  intros Hfd. unfold good_fd in Hfd. unfold check_slot, MAX_CONNECTIONS.
  rewrite (proj2 (Z.leb_le _ _)), (proj2 (Z.ltb_lt _ _)) by lia. done.
Qed.

Lemma get_ipc_msg_buffer_ok fd m : good_fd fd -> get_ipc_msg_buffer fd m = Ok ((), m).
Proof.
  intros Hfd. unfold good_fd in Hfd. unfold get_ipc_msg_buffer, MAX_CONNECTIONS, sizeof_IpcMessage.
  rewrite (proj2 (Z.leb_le _ _)), (proj2 (Z.ltb_lt _ _)) by lia. done.
Qed.

Lemma buffer_of_set fd l n s : buffer_of (set_length fd n (set_buffer fd l s)) fd = l.
Proof. unfold buffer_of. cbn. by rewrite lookup_insert_eq. Qed.

Lemma write_buffer_run s fd bytes m :
  good_fd fd -> (length bytes <= BUFFER_SIZE)%nat ->
  write_buffer s fd bytes m = Ok (set_buffer fd (overwrite (buffer_of s fd) bytes 0) s, m).
Proof.
  intros Hfd Hl. unfold write_buffer. erewrite bind_ok by by apply check_slot_ok.
  by rewrite (proj2 (Nat.leb_le _ _) Hl).
Qed.

(** The state after [bytes] were put in the client's buffer and submitted. *)
Definition sent (fd : Z) (bytes : list byte) (s : server) : server :=
  submit (OpSend fd bytes) (make_request_data fd (flag_num READ_RESPONSE))
    (set_length fd (Z.of_nat (length bytes)) (set_buffer fd (overwrite (buffer_of s fd) bytes 0) s)).

(** The status message of the clock reading [t]. *)
Definition status_msg (t : nat) (status : Z) : IpcMessage :=
  MkIpcMessage None None (uninit_string t) (epoch_ns t) status.

Lemma status_msg_wf t status : 0 <= status < 12 -> ipc_wf (status_msg t status).
Proof. intros Hs. pose proof (epoch_ns_range t). pose proof (Hun t). split_and!; cbn; lia. Qed.

Lemma request_SEND_STATUS_run s fd status m :
  good_fd fd -> 0 <= status < 12 ->
  request_SEND_STATUS s fd status m =
    Ok (sent fd (ipc_message__pack (status_msg (ticks m) status)) s, Mem (heap m) (next m) (rng m) (S (ticks m))).
Proof.
  intros Hfd Hst. unfold request_SEND_STATUS. erewrite bind_ok by by apply get_ipc_msg_buffer_ok.
  erewrite bind_ok.
  2:{ unfold send_ONLY_status_code. erewrite bind_ok by apply get_epoch_ns_run. reflexivity. }
  pose proof (ipc_pack_size _ (status_msg_wf (ticks m) status Hst)) as Hl. pose proof (Hun (ticks m)). cbn in Hl.
  erewrite bind_ok by (apply write_buffer_run; [done|unfold BUFFER_SIZE, status_msg in *; lia]).
  cbv zeta. by rewrite buffer_of_set, take_overwrite0.
Qed.

Lemma request_ASK_NEED_MSG_run s fd m :
  good_fd fd ->
  request_ASK_NEED_MSG s fd m =
    Ok (sent fd (ipc_message__pack (status_msg (ticks m) IPC_ASK_NEED_MSG)) s, Mem (heap m) (next m) (rng m) (S (ticks m))).
Proof. intros Hfd. apply (request_SEND_STATUS_run s fd IPC_ASK_NEED_MSG m Hfd). lia. Qed.

(** The packet that carries message [id] at clock reading [t]. *)
Definition data_msg (h : gmap positive block) (id : positive * positive) (t : nat) : IpcMessage :=
  MkIpcMessage (Some (ring_data h id).1) (Some (ring_data h id).2)
    (strftime_stamp (gmtime (time_now (S t)))) (epoch_ns t) IPC_MESSAGE_SENDED.

Lemma data_msg_wf h id t : ring_msg h id -> ipc_wf (data_msg h id t).
Proof.
  intros Hm. destruct (ring_data_length h id Hm) as [Hd Hk]. pose proof (epoch_ns_range t).
  split_and!; cbn [data_msg time_num status_code transaction_msg pubkey timestamp olen];
    rewrite ?strftime_stamp_length, ?Hd, ?Hk; lia.
Qed.

Lemma data_packet_size h id t : ring_msg h id -> (length (ipc_message__pack (data_msg h id t)) <= BUFFER_SIZE)%nat.
Proof.
  intros Hm. pose proof (ipc_pack_size _ (data_msg_wf _ _ t Hm)) as Hsize. destruct (ring_data_length _ _ Hm) as [Hd Hk].
  cbn [data_msg transaction_msg pubkey timestamp olen] in Hsize. rewrite Hd, Hk, strftime_stamp_length in Hsize.
  unfold BUFFER_SIZE. fold (data_msg h id t) in Hsize. lia.
Qed.

Lemma serialize_data_v2_run id m :
  ring_msg (heap m) id ->
  serialize_data_v2 (Ptr id.1 0) m =
    Ok (ipc_message__pack (data_msg (heap m) id (ticks m)), Mem (heap m) (next m) (rng m) (S (S (ticks m)))).
Proof.
  intros (pk & bs & text & H1 & H2 & Hl & Hk & _). apply wp_eq. unfold serialize_data_v2.
  apply wp_bind. eapply wp_load; [exact H1|done|]. apply wp_bind. eapply wp_run; [apply get_epoch_ns_run|].
  apply wp_bind, wp_tick. mem_cbn. apply wp_bind. cbn [sm_message sm_length].
  eapply wp_load_bytes; [by apply bytes_at_all|]. apply wp_ret. split; [|done].
  unfold data_msg, ring_data. by rewrite H1, H2.
Qed.

Lemma handle_more_spec fuel s fd N b rs ids ps m :
  wf m -> good_fd fd -> CBUF s = ring b (fill_of rs ids) -> ring_rep m b ids ps ->
  (0 < length ids <= CIRC_BUF_SIZE)%nat -> (rs = true -> length ids = CIRC_BUF_SIZE) -> sended s fd = Z.of_nat N -> (N < CIRC_BUF_SIZE)%nat ->
  (CIRC_BUF_SIZE <= fuel)%nat ->
  wp (handle_response_NEED_MORE_MSG fuel s fd)
    (fun s' m' => exists ids' ps' id t,
       length ids' = Nat.max (length ids) (S N) /\ ids' !! N = Some id /\ ids `prefix_of` ids' /\
       ring_rep m' b ids' ps' /\ extends b m m' /\ mints m ids m' ids' /\
       s' = set_sended fd (Z.of_nat (S N)) (sent fd (ipc_message__pack (data_msg (heap m') id t))
              (set_CBUF (ring b (fill_of rs ids')) (set_length fd 0 (set_buffer fd (zeros BUFFER_SIZE) s))))) m.
Proof.
  intros Hwf Hfd Hcb Hr Hids Hrs Hs HN Hf. unfold handle_response_NEED_MORE_MSG.
  apply wp_bind. eapply wp_run; [by apply check_slot_ok|].
  unfold N_MESSAGES, CIRC_BUF_SIZE in *. rewrite Hs.
  destruct (Z.geb_spec (Z.of_nat N) 512) as [|_]; [lia|].
  cbv zeta. change (CBUF (set_length _ _ _)) with (CBUF s).
  change (sended (set_length _ _ _) fd) with (sended s fd). rewrite Hcb, Hs.
  apply wp_bind. eapply wp_mono; [apply (GET_nth_any fuel N b rs ids ps); unfold CIRC_BUF_SIZE; done || lia|].
  intros r m1 (ids' & ps' & id & -> & Hl & Hid & Hpre & Hr1 & Hex & Hmi). cbn [fst snd].
  apply wp_bind. eapply wp_run; [by apply get_ipc_msg_buffer_ok|].
  pose proof (rr_msg _ _ _ _ Hr1 _ _ Hid) as Hm.
  apply wp_bind. eapply wp_run; [by apply serialize_data_v2_run|].
  apply wp_bind. eapply wp_run; [apply write_buffer_run; [done|by apply data_packet_size]|].
  apply wp_ret. rewrite buffer_of_set, take_overwrite0.
  exists ids', ps', id, (ticks m1). split_and!; [done|done|done|by destruct Hr1|by destruct Hex|by destruct Hmi|].
  change (sended (submit _ _ _) fd) with (sended s fd). rewrite Hs, u64_small by lia.
  unfold sent. do 2 f_equal. lia.
Qed.
End facts.
