(* ===== verification/Ledger.v ===== *)
(** * The server's contract

    What the message server (Server.v) owes its clients, without buffers,
    memory or packets: a ledger with, for every client, the number of the next
    message and the numbers sent so far.  A completion is a [request]; a request the
    ledger refuses is one the server does not survive.  Serving.v shows that the
    event loop implements this machine. *)

From S2P Require Import Prelude.
From S2P Require Import CTypes.
From S2P Require Import Memory.
From S2P Require Import Platform.
From S2P Require Import RequestData.
From S2P Require Import Codec.
From S2P Require Import CircBuf.
From S2P Require Import Server.

(** What a completion asks of the server. *)
Inductive request :=
| Join (fd : Z)
| More (fd : Z)
| Enough (fd : Z)
| Shut (fd : Z)
| Garbled
| Quiet.

#[global] Instance request_eq_decision : EqDecision request.
Proof. solve_decision. Defined.

(** [counts]: the next message of each client; [logs]: the messages sent to
    it; [made]: how many messages exist; [blocks]: how often a block was
    closed; [latest]: the client accepted last; [shut]: the descriptors closed. *)
Record ledger := Ledger {
  counts : gmap Z nat;
  logs : gmap Z (list nat);
  made : nat;
  blocks : nat;
  latest : Z;
  shut : list Z }.

Definition count (L : ledger) (fd : Z) : nat := default 0%nat (counts L !! fd).
Definition log (L : ledger) (fd : Z) : list nat := default [] (logs L !! fd).
Definition set_count (fd : Z) (n : nat) (L : ledger) : ledger :=
  Ledger (<[fd := n]> (counts L)) (logs L) (made L) (blocks L) (latest L) (shut L).

(** A block was closed before: the buffer counts as empty. *)
Definition reset (L : ledger) : bool := match blocks L with O => false | S _ => true end.

(** The ledger when the loop is entered: one message made, nobody served. *)
Definition opening : ledger := Ledger ∅ ∅ 1 0 (-1) [].

Definition ledger_step (r : request) (L : ledger) : option ledger :=
  match r with
  | Join fd => Some (Ledger (counts L) (logs L) (made L) (blocks L) fd (shut L))
  | More fd =>
      if (count L fd <? CIRC_BUF_SIZE)%nat then
        Some (Ledger (<[fd := S (count L fd)]> (counts L)) (<[fd := log L fd ++ [count L fd]]> (logs L))
                (Nat.max (made L) (S (count L fd))) (blocks L) (latest L) (shut L))
      else Some L
  | Enough fd =>
      if (made L <? CIRC_BUF_SIZE)%nat then None else
      Some (Ledger (<[fd := 0%nat]> (counts L)) (logs L) (made L) (S (blocks L)) (latest L) (shut L))
  | Shut fd => Some (Ledger (<[fd := 0%nat]> (counts L)) (logs L) (made L) (blocks L) (latest L) (shut L ++ [latest L]))
  | Garbled => None
  | Quiet => Some L
  end.

Fixpoint ledger_run (rs : list request) (L : ledger) : option ledger :=
  match rs with
  | [] => Some L
  | r :: rs => L ← ledger_step r L; ledger_run rs L
  end.

(** ** What the ledger guarantees by itself *)

Lemma count_insert fd n L fd' :
  default 0%nat (<[fd := n]> (counts L) !! fd') = if decide (fd' = fd) then n else count L fd'.
Proof. case_decide as Hd; [by subst; rewrite lookup_insert_eq|by rewrite lookup_insert_ne]. Qed.

Lemma log_insert fd l L fd' :
  default [] (<[fd := l]> (logs L) !! fd') = if decide (fd' = fd) then l else log L fd'.
Proof. case_decide as Hd; [by subst; rewrite lookup_insert_eq|by rewrite lookup_insert_ne]. Qed.

(** At most 512 messages are ever made, clients are within them, a block is
    only closed when they all exist. *)
Record sound (L : ledger) : Prop := Sound {
  so_made : (0 < made L <= CIRC_BUF_SIZE)%nat;
  so_count fd : (count L fd <= made L)%nat;
  so_log fd : Forall (fun i => (i < made L)%nat) (log L fd);
  so_reset : blocks L <> 0%nat -> made L = CIRC_BUF_SIZE }.

Lemma sound_opening : sound opening.
Proof. split; [unfold CIRC_BUF_SIZE; cbn; lia|intros fd; change (0 <= 1)%nat; lia|intros fd; constructor|done]. Qed.

Lemma sound_step r L L' : sound L -> ledger_step r L = Some L' -> sound L'.
Proof.
  intros [Hm Hc Hl Hr] Hs. destruct r as [fd|fd|fd|fd| |]; cbn [ledger_step] in Hs; try discriminate Hs.
  - injection Hs as <-. by split.
  - destruct (Nat.ltb_spec (count L fd) CIRC_BUF_SIZE) as [Hlt|]; simplify_eq; [|by split]. split; cbn [made blocks].
    + lia.
    + intros fd'. unfold count at 1. cbn [counts]. rewrite count_insert. specialize (Hc fd'). case_decide; lia.
    + intros fd'. unfold log at 1. cbn [logs]. rewrite log_insert.
      assert (forall x, Forall (fun i => (i < made L)%nat) x -> Forall (fun i => (i < Nat.max (made L) (S (count L fd)))%nat) x) as Hw
        by (intros x Hx; eapply Forall_impl; [exact Hx|]; cbn; intros; lia).
      case_decide; [|by apply Hw]. apply Forall_app. split; [by apply Hw|]. apply Forall_singleton. lia.
    + intros Hb. specialize (Hr Hb). lia.
  - destruct (Nat.ltb_spec (made L) CIRC_BUF_SIZE) as [|Hge]; simplify_eq. split; cbn [made blocks]; [done| |done|intros; lia].
    intros fd'. unfold count at 1. cbn [counts]. rewrite count_insert. specialize (Hc fd'). case_decide; lia.
  - injection Hs as <-. split; cbn [made blocks]; [done| |done|done].
    intros fd'. unfold count at 1. cbn [counts]. rewrite count_insert. specialize (Hc fd'). case_decide; lia.
  - by injection Hs as <-.
Qed.

Lemma ledger_run_sound rs L L' : sound L -> ledger_run rs L = Some L' -> sound L'.
Proof.
  revert L. induction rs as [|r rs IH]; intros L HL Hr; cbn [ledger_run] in Hr; [by simplify_eq|].
  destruct (ledger_step r L) as [L1|] eqn:H1; [|done]. cbn in Hr. eapply IH; [by eapply sound_step|done].
Qed.

(** Requests that end nobody's session are never refused, and each client is
    sent the messages it asks for, at most 512, from the first on. *)
Definition plain (r : request) : Prop := match r with Enough _ | Shut _ | Garbled => False | _ => True end.

Definition wants (fd : Z) (r : request) : nat := if decide (r = More fd) then 1 else 0.

Lemma ledger_plain rs L fd :
  Forall plain rs -> log L fd = List.seq 0 (count L fd) -> (count L fd <= CIRC_BUF_SIZE)%nat ->
  exists L', ledger_run rs L = Some L' /\ blocks L' = blocks L /\
    count L' fd = Nat.min CIRC_BUF_SIZE (count L fd + list_sum (wants fd <$> rs)) /\ log L' fd = List.seq 0 (count L' fd).
Proof.
  intros Hrs. revert L. induction Hrs as [|r rs Hr Hrs IH]; intros L Hl Hc.
  - exists L. split_and!; [done|done|change (list_sum _) with 0%nat; lia|done].
  - cbn [ledger_run]. change (list_sum (wants fd <$> r :: rs)) with (wants fd r + list_sum (wants fd <$> rs))%nat. destruct r as [fd'|fd'|fd'|fd'| |]; try done; cbn [ledger_step mbind option_bind].
    1: unfold wants at 1; rewrite decide_False by done; exact (IH (Ledger _ _ _ _ _ _) Hl Hc).
    2: unfold wants at 1; rewrite decide_False by done; exact (IH L Hl Hc).
    destruct (Nat.ltb_spec (count L fd') CIRC_BUF_SIZE) as [Hlt|Hge]; cbn [mbind option_bind].
    + set (L1 := Ledger _ _ _ _ _ _).
      assert (count L1 fd = if decide (fd = fd') then S (count L fd') else count L fd) as Hc1 by apply count_insert.
      assert (log L1 fd = if decide (fd = fd') then log L fd' ++ [count L fd'] else log L fd) as Hl1 by apply log_insert.
      destruct (IH L1) as (L2 & HL2 & Hb & Hc2 & Hl2).
      * rewrite Hc1, Hl1. case_decide as Hd; [|done]. subst. by rewrite Hl, seq_S.
      * rewrite Hc1. case_decide; lia.
      * exists L2. split_and!; [done|done| |done]. rewrite Hc2, Hc1. unfold wants at 2.
        destruct (decide (fd = fd')) as [->|Hd]; [rewrite decide_True by done; lia|rewrite decide_False by congruence; lia].
    + destruct (IH L Hl Hc) as (L2 & HL2 & Hb & Hc2 & Hl2). exists L2. split_and!; [done|done| |done].
      rewrite Hc2. unfold wants at 2. case_decide as Hd; [|done]. simplify_eq. lia.
Qed.

(** ** Completions as requests *)
Section requests.
Context {pb : Protobuf}.

Definition request_of (c : cqe) : request :=
  let fd := request_data_client_fd (cqe_user_data c) in
  match flag_of (request_data_event_type (cqe_user_data c)) with
  | Some FLAG_ACCEPT => Join (cqe_res c)
  | Some FLAG_CLOSE_CONNECTION => Shut fd
  | Some TEST_RESPONSE =>
      if cqe_res c >? 0 then
        match ipc_message__unpack (take (Z.to_nat (cqe_res c)) (cqe_bytes c)) with
        | None => Garbled
        | Some msg =>
            if status_code msg =? IPC_NEED_MORE then More fd else
            if status_code msg =? IPC_ENOUGH then Enough fd else Quiet
        end
      else Quiet
  | _ => Quiet
  end.
End requests.
