(* ===== verification/Serving.v ===== *)
(** * The server at work

    The event loop of Server.v implements the ledger of Ledger.v: over whole
    sequences of completions, the messages each client is sent, in which order,
    the roots printed, what finishing a block leaves behind, and exactly when
    the loop does not survive. *)

From S2P Require Import Prelude.
From S2P Require Import CTypes.
From S2P Require Import Memory.
From S2P Require Import Platform.
From S2P Require Import Accounts.
From S2P Require Import Hashing.
From S2P Require Import Layering.
From S2P Require Import MerkleTree.
From S2P Require Import Misc.
From S2P Require Import RequestData.
From S2P Require Import Codec.
From S2P Require Import CircBuf.
From S2P Require Import Server.
From S2P Require Import Ledger.

Section loop.
Context {sod : Sodium} {clk : Clock} {pb : Protobuf} {un : Uninit} {ok : SodiumOk sod} {pbok : ProtobufOk pb}.
Context (Hun : uninit_short).

(** ** Serving *)

(** The message a submitted operation carries to client [fd]. *)
Definition payload_to (fd : Z) (e : sqe) : option (list byte * list byte) :=
  match sqe_op e with
  | OpSend fd' bytes =>
      if decide (fd' = fd) then
        match ipc_message__unpack bytes with
        | Some (MkIpcMessage (Some d) (Some k) _ _ st) => if st =? IPC_MESSAGE_SENDED then Some (d, k) else None
        | _ => None
        end
      else None
  | _ => None
  end.

Definition msgs_to (fd : Z) (l : list sqe) : list (list byte * list byte) := omap (payload_to fd) l.

(** The root over the buffered messages. *)
Definition ring_root (h : gmap positive block) (ids : list (positive * positive)) : list byte :=
  merkle_root 9 ((fun id => crypto_generichash (ring_data h id).1) <$> ids).

(** The messages of a log. *)
Definition logged (h : gmap positive block) (ids : list (positive * positive)) (l : list nat) : list (list byte * list byte) :=
  (fun i => ring_data h (ids !!! i)) <$> l.

(** The server serves according to the ledger [L]: the buffer holds the
    messages made, valid ones; every counter is the ledger's; what was sent to
    a client is its log; a root over all messages was printed for every block
    closed. *)
Record serving (m : mem) (s : server) (b : positive) (ids : list (positive * positive)) (ps : list ptr) (L : ledger) : Prop := Serving {
  sv_wf : wf m;
  sv_sound : sound L;
  sv_made : length ids = made L;
  sv_cbuf : CBUF s = ring b (fill_of (reset L) ids);
  sv_ring : ring_rep m b ids ps;
  sv_count fd : sended s fd = Z.of_nat (count L fd);
  sv_sent fd : msgs_to fd (sq s) = logged (heap m) ids (log L fd);
  sv_printed : printed s = replicate (blocks L) (ring_root (heap m) ids);
  sv_latest : current_client_fd s = latest L;
  sv_shut : closed s = shut L }.

Lemma sv_len m s b ids ps L : serving m s b ids ps L -> (0 < length ids <= CIRC_BUF_SIZE)%nat.
Proof. intros Hsv. rewrite (sv_made _ _ _ _ _ _ Hsv). exact (so_made _ (sv_sound _ _ _ _ _ _ Hsv)). Qed.

Lemma sv_full m s b ids ps L : serving m s b ids ps L -> reset L = true -> length ids = CIRC_BUF_SIZE.
Proof.
  intros Hsv Hr. rewrite (sv_made _ _ _ _ _ _ Hsv). apply (so_reset _ (sv_sound _ _ _ _ _ _ Hsv)).
  unfold reset in Hr. by destruct (blocks L).
Qed.

(** The ledgers of two clients' views that differ in connections only. *)
Definition same_books (L L' : ledger) : Prop :=
  counts L' = counts L /\ logs L' = logs L /\ made L' = made L /\ blocks L' = blocks L.

Lemma same_books_refl L : same_books L L.
Proof. done. Qed.

(** Turns that send no message keep it. *)
Lemma serving_frame m m' s s' b ids ps L L' l :
  serving m s b ids ps L -> heap m' = heap m -> (next m <= next m')%positive ->
  CBUF s' = CBUF s -> beffer_sended_N s' = beffer_sended_N s -> printed s' = printed s -> sq s' = sq s ++ l ->
  (forall fd, omap (payload_to fd) l = []) ->
  same_books L L' -> current_client_fd s' = latest L' -> closed s' = shut L' -> serving m' s' b ids ps L'.
Proof.
  intros [Hwf Hso Hm Hcb Hr Hc Hs Hp _ _] Hh Hn Hcb' Hsn Hpr Hsq Hpay (B1 & B2 & B3 & B4) Hla Hcl.
  assert (forall fd, sended s' fd = sended s fd) as Hsd by (intros fd; unfold sended; by rewrite Hsn).
  assert (forall fd, count L' fd = count L fd) as Hco by (intros fd; unfold count; by rewrite B1).
  assert (forall fd, log L' fd = log L fd) as Hlo by (intros fd; unfold log; by rewrite B2).
  split; try done.
  - intros c Hc'. rewrite Hh. apply Hwf. lia.
  - destruct Hso as [S1 S2 S3 S4]. split; rewrite ?B3, ?B4; [done| | |done]; intros fd; rewrite ?Hco, ?Hlo; done.
  - congruence.
  - unfold reset in *. rewrite B4. congruence.
  - destruct Hr. split; try done; rewrite Hh; done.
  - intros fd. by rewrite Hsd, Hco.
  - intros fd. rewrite Hsq, Hh, Hlo. unfold msgs_to. rewrite omap_app, Hpay, app_nil_r. apply Hs.
  - rewrite Hpr, B4, Hh. done.
Qed.

(** The same, when connections stay as they were too. *)
Lemma serving_keep m m' s s' b ids ps L l :
  serving m s b ids ps L -> heap m' = heap m -> next m' = next m ->
  CBUF s' = CBUF s -> beffer_sended_N s' = beffer_sended_N s -> printed s' = printed s ->
  current_client_fd s' = current_client_fd s -> closed s' = closed s -> sq s' = sq s ++ l ->
  (forall fd, omap (payload_to fd) l = []) -> serving m' s' b ids ps L.
Proof.
  intros Hsv Hh Hn H1 H2 H3 H4 H5 H6 H7. eapply (serving_frame m m' s s' b ids ps L L l); try done; [lia|..].
  - rewrite H4. exact (sv_latest _ _ _ _ _ _ Hsv).
  - rewrite H5. exact (sv_shut _ _ _ _ _ _ Hsv).
Qed.

Lemma payload_status fd fd' t status data :
  0 <= status < 12 -> payload_to fd (Sqe (OpSend fd' (ipc_message__pack (status_msg t status))) data) = None.
Proof.
  intros Hst. unfold payload_to. cbn. destruct (decide (fd' = fd)); [|done].
  by rewrite ipc_unpack_pack by by apply status_msg_wf.
Qed.

Lemma payload_data fd fd' h id t data :
  ring_msg h id ->
  payload_to fd (Sqe (OpSend fd' (ipc_message__pack (data_msg h id t))) data) =
    if decide (fd' = fd) then Some (ring_data h id) else None.
Proof.
  intros Hm. unfold payload_to. cbn. destruct (decide (fd' = fd)); [|done].
  rewrite ipc_unpack_pack by by apply data_msg_wf. cbn. by destruct (ring_data h id).
Qed.

(** Only the clock moved. *)
Definition ticked (m m' : mem) : Prop := heap m' = heap m /\ next m' = next m.

Lemma heap_extends b m m' : wf m -> heap m' = heap m -> (next m <= next m')%positive -> extends b m m'.
Proof. intros Hwf Hh Hn. split; [|done|by intros; rewrite Hh]. intros c Hc. rewrite Hh. apply Hwf. lia. Qed.

Lemma ticked_extends b m m' : wf m -> ticked m m' -> extends b m m'.
Proof. intros Hwf [Hh Hn]. apply heap_extends; [done|done|by rewrite Hn]. Qed.

Lemma sended_set s fd n fd' : sended (set_sended fd n s) fd' = if decide (fd' = fd) then n else sended s fd'.
Proof.
  unfold sended. cbn [beffer_sended_N set_sended]. case_decide as Hd; [by subst; rewrite lookup_insert_eq|by rewrite lookup_insert_ne].
Qed.

(** The messages already sent stay what they were. *)
Lemma ring_data_take m m' b ids ids' ps n :
  wf m -> ring_rep m b ids ps -> extends b m m' -> ids `prefix_of` ids' -> (n <= length ids)%nat ->
  ring_data (heap m') <$> take n ids' = ring_data (heap m) <$> take n ids.
Proof.
  intros Hwf Hr Hex [l ->] Hn. rewrite take_app_le by done. apply list_fmap_ext.
  intros i x [Hx _]%lookup_take_Some. eapply ring_data_old; [done|exact Hr|done|]. by eapply list_elem_of_lookup_2.
Qed.

Lemma logged_old m m' b ids ids' ps l :
  wf m -> ring_rep m b ids ps -> extends b m m' -> ids `prefix_of` ids' -> Forall (fun i => (i < length ids)%nat) l ->
  logged (heap m') ids' l = logged (heap m) ids l.
Proof.
  intros Hwf Hr Hex [k ->] Hl. unfold logged. apply list_fmap_ext. intros j i Hi.
  pose proof (Forall_lookup_1 _ _ _ _ Hl Hi) as Hlt. destruct (lookup_lt_is_Some_2 ids i Hlt) as [id Hid].
  rewrite (list_lookup_total_correct _ _ _ Hid), (list_lookup_total_correct _ i id) by by apply lookup_app_l_Some.
  eapply ring_data_old; [done|exact Hr|done|]. by eapply list_elem_of_lookup_2.
Qed.

Lemma logged_seq h ids n : (n <= length ids)%nat -> logged h ids (List.seq 0 n) = ring_data h <$> take n ids.
Proof.
  intros Hn. apply list_eq. intros i. unfold logged. rewrite !list_lookup_fmap. destruct (decide (i < n)%nat) as [Hi|Hi].
  - destruct (lookup_lt_is_Some_2 ids i) as [id Hid]; [lia|]. rewrite lookup_seq_lt, lookup_take_lt, Hid by done. cbn.
    by rewrite (list_lookup_total_correct _ _ _ Hid).
  - rewrite lookup_seq_ge, lookup_take_ge by lia. done.
Qed.

Lemma ring_root_old m m' b ids ps :
  wf m -> ring_rep m b ids ps -> extends b m m' -> ring_root (heap m') ids = ring_root (heap m) ids.
Proof.
  intros Hwf Hr Hex. unfold ring_root. f_equal. apply list_fmap_ext. intros i id Hid. f_equal. f_equal.
  eapply ring_data_old; [done|exact Hr|done|]. by eapply list_elem_of_lookup_2.
Qed.

(** The root over the 512 messages of a server whose first is made from draw [r]. *)
Definition minted_root (r : nat) : list byte :=
  merkle_root 9 ((fun i => crypto_generichash (mint (r + 2 * i)).1) <$> List.seq 0 CIRC_BUF_SIZE).

Lemma minted_ring_root r m ids : minted r m ids -> length ids = CIRC_BUF_SIZE -> ring_root (heap m) ids = minted_root r.
Proof.
  intros [_ Hd] Hl. unfold ring_root, minted_root. f_equal. apply list_eq. intros i. rewrite !list_lookup_fmap.
  destruct (ids !! i) as [id|] eqn:Hi.
  - rewrite lookup_seq_lt by (rewrite <-Hl; by eapply lookup_lt_Some). cbn. by rewrite (Hd i id).
  - rewrite lookup_seq_ge by (rewrite <-Hl; by apply lookup_ge_None). done.
Qed.

(** Sending a client its next message keeps the server serving. *)
Lemma serving_sent m m' s s0 b ids ids' ps ps' fd id t N L L' :
  serving m s b ids ps L -> extends b m m' -> ids `prefix_of` ids' -> ring_rep m' b ids' ps' ->
  length ids' = Nat.max (length ids) (S N) -> ids' !! N = Some id -> count L fd = N -> (N < CIRC_BUF_SIZE)%nat ->
  ledger_step (More fd) L = Some L' ->
  CBUF s0 = ring b (fill_of (reset L) ids') -> sq s0 = sq s -> beffer_sended_N s0 = beffer_sended_N s ->
  printed s0 = printed s -> current_client_fd s0 = current_client_fd s -> closed s0 = closed s ->
  serving m' (set_sended fd (Z.of_nat (S N)) (sent fd (ipc_message__pack (data_msg (heap m') id t)) s0)) b ids' ps' L'.
Proof.
  intros Hsv Hex Hpre Hr' Hl' Hid HN HNl Hst Hcb' Hsq Hsn Hpr Hla Hcl. pose proof Hsv as [Hwf Hso Hm Hcb Hr Hc Hs Hp Hlat Hshut].
  pose proof (sound_step _ _ _ Hso Hst) as Hso'. cbn [ledger_step] in Hst. rewrite HN in Hst.
  rewrite (proj2 (Nat.ltb_lt _ _) HNl) in Hst. injection Hst as <-.
  pose proof (rr_msg _ _ _ _ Hr' _ _ Hid) as Hmsg.
  split; cbn [made blocks latest shut]; try done.
  - exact (ex_wf _ _ _ Hex).
  - lia.
  - intros fd'. rewrite sended_set. change (sended (sent _ _ _) fd') with (sended s0 fd'). unfold count, sended. cbn [counts].
    rewrite count_insert, Hsn. fold (sended s fd'). rewrite Hc. by case_decide.
  - intros fd'. cbn [sq set_sended sent submit set_length set_buffer]. unfold msgs_to, log. cbn [logs].
    rewrite Hsq, omap_app, omap_one, payload_data, log_insert by done. fold (msgs_to fd' (sq s)). rewrite Hs.
    rewrite <-(logged_old m m' b ids ids' ps (log L fd')) by (done || (rewrite Hm; exact (so_log _ Hso fd'))).
    destruct (decide (fd = fd')) as [<-|Hne].
    + rewrite decide_True by done. unfold logged. rewrite fmap_app. cbn. by rewrite (list_lookup_total_correct _ _ _ Hid).
    + by rewrite decide_False, app_nil_r by done.
  - cbn [printed set_sended sent submit set_length set_buffer]. rewrite Hpr, Hp. destruct (blocks L) as [|k] eqn:Hb; [done|].
    rewrite <-(ring_root_old m m' b ids ps) by done. do 2 f_equal.
    assert (length ids = CIRC_BUF_SIZE) as Hfull by (rewrite Hm; apply (so_reset _ Hso); by rewrite Hb).
    apply prefix_length_eq; [done|lia].
  - cbn [current_client_fd set_sended sent submit set_length set_buffer]. congruence.
  - cbn [closed set_sended sent submit set_length set_buffer]. congruence.
Qed.

(** What a turn leaves: the older messages are still there, the ledger is [L']. *)
Definition turn_post (m : mem) (b : positive) (ids : list (positive * positive)) (L' : ledger) (s' : server) (m' : mem) : Prop :=
  exists ids' ps', ids `prefix_of` ids' /\ extends b m m' /\ serving m' s' b ids' ps' L'.

Lemma turn_post_keep m m' s' b ids ps L' :
  wf m -> heap m' = heap m -> (next m <= next m')%positive -> serving m' s' b ids ps L' -> turn_post m b ids L' s' m'.
Proof. intros Hwf Hh Hn Hs. exists ids, ps. split_and!; [done|by apply heap_extends|done]. Qed.

(** Queueing operations that carry no message, and a status reply after it. *)
Lemma turn_quiet m s s' b ids ps L L' l :
  serving m s b ids ps L ->
  CBUF s' = CBUF s -> beffer_sended_N s' = beffer_sended_N s -> printed s' = printed s -> sq s' = sq s ++ l ->
  (forall fd, omap (payload_to fd) l = []) ->
  same_books L L' -> current_client_fd s' = latest L' -> closed s' = shut L' -> wp (mret s') (turn_post m b ids L') m.
Proof.
  intros Hsv H1 H2 H3 H4 H5 H6 H7 H8. apply wp_ret.
  eapply turn_post_keep; [exact (sv_wf _ _ _ _ _ _ Hsv)|done|done|]. by eapply (serving_frame m m s s').
Qed.

Lemma turn_status m s s' b ids ps L L' l fd st :
  serving m s b ids ps L ->
  CBUF s' = CBUF s -> beffer_sended_N s' = beffer_sended_N s -> printed s' = printed s -> sq s' = sq s ++ l ->
  (forall fd, omap (payload_to fd) l = []) ->
  same_books L L' -> current_client_fd s' = latest L' -> closed s' = shut L' -> good_fd fd -> 0 <= st < 12 ->
  wp (request_SEND_STATUS s' fd st) (turn_post m b ids L') m.
Proof.
  intros Hsv H1 H2 H3 H4 H5 H6 H7 H8 Hfd Hst. eapply wp_run; [by apply request_SEND_STATUS_run|].
  eapply turn_post_keep; [exact (sv_wf _ _ _ _ _ _ Hsv)|done|done|].
  eapply (serving_frame m _ s); [exact Hsv|done|done|done|done|done| | |done|done|done].
  - cbn [sq sent submit set_length set_buffer]. rewrite H4, <-app_assoc. done.
  - intros fd'. rewrite omap_app, H5, omap_one. by rewrite payload_status.
Qed.

(** Answering NEED_MORE sends the next message, or says that all are sent. *)
Lemma serving_more fuel m s b ids ps L fd :
  serving m s b ids ps L -> good_fd fd -> (CIRC_BUF_SIZE <= fuel)%nat ->
  exists L', ledger_step (More fd) L = Some L' /\ wp (handle_response_NEED_MORE_MSG fuel s fd) (turn_post m b ids L') m.
Proof.
  intros Hsv Hfd Hf. pose proof (sv_len _ _ _ _ _ _ Hsv) as Hl. pose proof (sv_count _ _ _ _ _ _ Hsv fd) as Hc.
  destruct (Nat.ltb_spec (count L fd) CIRC_BUF_SIZE) as [Hlt|Hge].
  - eexists. split; [cbn [ledger_step]; by rewrite (proj2 (Nat.ltb_lt _ _) Hlt)|].
    eapply wp_mono.
    { eapply (handle_more_spec fuel s fd (count L fd) b (reset L) ids ps);
        [exact (sv_wf _ _ _ _ _ _ Hsv)|done|exact (sv_cbuf _ _ _ _ _ _ Hsv)|exact (sv_ring _ _ _ _ _ _ Hsv)|done| |done|done|done].
      exact (sv_full _ _ _ _ _ _ Hsv). }
    intros s' m' (ids' & ps' & id & t & Hl' & Hid & Hpre & Hr' & Hex & _ & ->).
    exists ids', ps'. split_and!; [done|done|]. eapply (serving_sent m); try done. cbn [ledger_step].
    by rewrite (proj2 (Nat.ltb_lt _ _) Hlt).
  - exists L. split; [cbn [ledger_step]; by rewrite (proj2 (Nat.ltb_ge _ _) Hge)|].
    unfold handle_response_NEED_MORE_MSG. apply wp_bind. eapply wp_run; [by apply check_slot_ok|].
    unfold N_MESSAGES. unfold CIRC_BUF_SIZE in Hge. destruct (Z.geb_spec (sended s fd) 512) as [_|]; [|lia].
    eapply (turn_status m s s _ _ _ L L []); try done;
      [symmetry; apply app_nil_r|exact (sv_latest _ _ _ _ _ _ Hsv)|exact (sv_shut _ _ _ _ _ _ Hsv)].
Qed.

(** ** Finishing a block *)

(** The messages of the buffer as the tree reads them. *)
Definition ring_ptr (ids : list (positive * positive)) (i : nat) : ptr :=
  match ids !! i with Some id => Ptr id.1 0 | None => NULL end.
Definition ring_bytes (h : gmap positive block) (ids : list (positive * positive)) (i : nat) : list byte :=
  match ids !! i with Some id => (ring_data h id).1 | None => [] end.

Lemma ring_slot m b ids ps i :
  ring_rep m b ids ps -> (i < length ids)%nat ->
  ps !! i = Some (ring_ptr ids i) /\ exists sm, msg_at (heap m) (ring_ptr ids i) sm (ring_bytes (heap m) ids i).
Proof.
  intros Hr [id Hi]%lookup_lt_is_Some_2. unfold ring_ptr, ring_bytes. rewrite Hi.
  split; [exact (rr_ptr _ _ _ _ Hr _ _ Hi)|].
  destruct (rr_msg _ _ _ _ Hr _ _ Hi) as (pk & bs & text & H1 & H2 & Hl & _). unfold ring_data. rewrite H1, H2.
  exists (SignedMessage (Ptr id.2 0) 164 pk). split; [by exists id.1, 0, [SignedMessage (Ptr id.2 0) 164 pk]|].
  by apply bytes_at_all.
Qed.

Lemma ring_bytes_seq {A} (f : list byte -> A) h ids :
  (fun i => f (ring_bytes h ids i)) <$> List.seq 0 (length ids) = (fun id => f (ring_data h id).1) <$> ids.
Proof.
  apply list_eq. intros i. rewrite !list_lookup_fmap. destruct (ids !! i) as [id|] eqn:Hi.
  - rewrite lookup_seq_lt by by eapply lookup_lt_Some. cbn. unfold ring_bytes. by rewrite Hi.
  - rewrite lookup_seq_ge by by apply lookup_ge_None. done.
Qed.

(** The state after the block was closed for [fd]. *)
Definition finished (fd : Z) (root : list byte) (s : server) : server :=
  submit OpStale (make_request_data fd (flag_num FLAG_CLOSE_CONNECTION))
    (print_root root (set_sended fd 0 (set_CBUF (set_fill_size 0 (CBUF s)) s))).

(** The tree over the 512 slots. *)
Lemma server_root_spec b mp mb m :
  wf m -> msgs_at (heap m) b CIRC_BUF_SIZE mp mb ->
  wp (server_calc_merkle_tree (Ptr b 0))
    (fun root m' => heap m' = heap m /\ (next m <= next m')%positive /\
       root = merkle_root 9 ((fun i => crypto_generichash (mb i)) <$> List.seq 0 CIRC_BUF_SIZE)) m.
Proof. intros Hwf Hm. exact (server_calc_merkle_tree_exp_spec 9 b mp mb m Hwf ltac:(lia) Hm). Qed.

Lemma server_root_null b ps j mp mb m :
  wf m -> heap m !! b = Some (BPtrs ps) -> length ps = CIRC_BUF_SIZE ->
  (forall i, (i < j)%nat -> ps !! i = Some (mp i) /\ exists sm, msg_at (heap m) (mp i) sm (mb i)) ->
  (j < CIRC_BUF_SIZE)%nat -> ps !! j = Some NULL ->
  server_calc_merkle_tree (Ptr b 0) m = Fault NullDeref.
Proof.
  intros Hwf Hb Hl Hm Hj Hn.
  exact (server_calc_merkle_tree_null 9 b ps j mp mb m Hwf ltac:(lia) Hb (Nat.eq_le_incl _ _ (eq_sym Hl)) Hm Hj Hn).
Qed.

Lemma FINISH_SENDING_spec m s b ids ps L fd :
  serving m s b ids ps L -> good_fd fd -> length ids = CIRC_BUF_SIZE ->
  wp (FINISH_SENDING s fd)
    (fun s' m' => heap m' = heap m /\ (next m <= next m')%positive /\ s' = finished fd (ring_root (heap m) ids) s) m.
Proof.
  intros Hsv Hfd Hl. unfold FINISH_SENDING. cbv zeta. apply wp_bind. eapply wp_run; [by apply check_slot_ok|].
  cbn [CBUF set_sended set_CBUF]. rewrite (sv_cbuf _ _ _ _ _ _ Hsv). cbn [cb_buffer set_fill_size ring].
  apply wp_bind. eapply wp_mono.
  { apply (server_root_spec b (ring_ptr ids) (ring_bytes (heap m) ids)); [exact (sv_wf _ _ _ _ _ _ Hsv)|].
    exists ps. split; [exact (rr_buf _ _ _ _ (sv_ring _ _ _ _ _ _ Hsv))|]. intros i Hi.
    apply (ring_slot m b); [exact (sv_ring _ _ _ _ _ _ Hsv)|]. rewrite Hl. exact Hi. }
  intros root m' (Hh & Hn & ->). apply wp_ret. split_and!; [done|done|]. unfold finished, ring_root. rewrite (sv_cbuf _ _ _ _ _ _ Hsv).
  rewrite <-Hl, (ring_bytes_seq crypto_generichash). done.
Qed.

Lemma FINISH_SENDING_null m s b ids ps L fd :
  serving m s b ids ps L -> good_fd fd -> (length ids < CIRC_BUF_SIZE)%nat -> FINISH_SENDING s fd m = Fault NullDeref.
Proof.
  intros Hsv Hfd Hl. pose proof (sv_ring _ _ _ _ _ _ Hsv) as Hr. unfold FINISH_SENDING. cbv zeta.
  erewrite bind_ok by by apply check_slot_ok. apply bind_fault. cbn [CBUF set_sended set_CBUF].
  rewrite (sv_cbuf _ _ _ _ _ _ Hsv). cbn [cb_buffer set_fill_size ring].
  apply (server_root_null b ps (length ids) (ring_ptr ids) (ring_bytes (heap m) ids));
    [exact (sv_wf _ _ _ _ _ _ Hsv)|exact (rr_buf _ _ _ _ Hr)|exact (rr_len _ _ _ _ Hr)| |done|].
  - intros i Hi. by apply (ring_slot m b).
  - apply (rr_null _ _ _ _ Hr). lia.
Qed.

(** Once the block is closed the server serves on, by the ledger with one more block. *)
Lemma serving_finished m m' s b ids ps L L' fd :
  serving m s b ids ps L -> heap m' = heap m -> (next m <= next m')%positive -> ledger_step (Enough fd) L = Some L' ->
  serving m' (finished fd (ring_root (heap m) ids) s) b ids ps L'.
Proof.
  intros Hsv Hh Hn Hst. pose proof Hsv as [Hwf Hso Hm Hcb Hr Hc Hs Hp Hlat Hshut].
  pose proof (sound_step _ _ _ Hso Hst) as Hso'. cbn [ledger_step] in Hst.
  destruct (Nat.ltb_spec (made L) CIRC_BUF_SIZE) as [|Hge]; [done|]. injection Hst as <-.
  split; cbn [made blocks latest shut]; try done.
  - intros c Hc'. rewrite Hh. apply Hwf. lia.
  - cbn [CBUF finished submit print_root set_sended set_CBUF]. rewrite Hcb. done.
  - destruct Hr. split; try done; rewrite Hh; done.
  - intros fd'. change (sended (finished _ _ _) fd') with (sended (set_sended fd 0 s) fd'). rewrite sended_set.
    unfold count at 1. cbn [counts]. rewrite count_insert. case_decide; [done|apply Hc].
  - intros fd'. unfold msgs_to. cbn [sq finished submit print_root set_sended set_CBUF]. rewrite omap_app. cbn.
    rewrite app_nil_r. fold (msgs_to fd' (sq s)). rewrite Hs, Hh. done.
  - cbn [printed finished submit print_root set_sended set_CBUF]. rewrite Hp, Hh, replicate_S_end. done.
Qed.

(** The completion of the close resets the client's counter and closes the
    descriptor accepted last. *)
Lemma serving_shut m s b ids ps L L' fd :
  serving m s b ids ps L -> ledger_step (Shut fd) L = Some L' ->
  serving m (set_sended fd 0 (close_fd (current_client_fd s) s)) b ids ps L'.
Proof.
  intros [Hwf Hso Hm Hcb Hr Hc Hs Hp Hlat Hshut] Hst. pose proof (sound_step _ _ _ Hso Hst) as Hso'. injection Hst as <-.
  split; cbn [made blocks latest shut]; try done.
  - intros fd'. rewrite sended_set. unfold count at 1. cbn [counts]. rewrite count_insert. case_decide; [done|apply Hc].
  - cbn [closed set_sended close_fd]. congruence.
Qed.

(** ** Completions *)

(** An accepted connection, a finished operation, received bytes (at most a
    buffer's length), an error or an end of stream; descriptors whose slots exist. *)
Inductive event : cqe -> Prop :=
| Ev_accept fd bytes : good_fd fd -> event (Cqe (make_request_data 0 (flag_num FLAG_ACCEPT)) fd bytes)
| Ev_done fd flag res bytes : good_fd fd -> flag <> FLAG_ACCEPT -> flag <> TEST_RESPONSE ->
    event (Cqe (make_request_data fd (flag_num flag)) res bytes)
| Ev_error fd res bytes : good_fd fd -> res <= 0 ->
    event (Cqe (make_request_data fd (flag_num TEST_RESPONSE)) res bytes)
| Ev_reply fd bytes : good_fd fd -> (0 < length bytes <= BUFFER_SIZE)%nat ->
    event (Cqe (make_request_data fd (flag_num TEST_RESPONSE)) (Z.of_nat (length bytes)) bytes).

Lemma tag_fd fd f : good_fd fd -> request_data_client_fd (make_request_data fd (flag_num f)) = fd.
Proof. intros Hfd. unfold good_fd in Hfd. apply request_data_fd; [lia|apply flag_num_range]. Qed.

Lemma tag_i32 fd f : good_fd fd -> i32 (make_request_data fd (flag_num f)) = fd.
Proof. intros Hfd. unfold good_fd in Hfd. apply request_data_i32; [lia|apply flag_num_range]. Qed.

Lemma tag_flag fd f : good_fd fd -> flag_of (request_data_event_type (make_request_data fd (flag_num f))) = Some f.
Proof.
  intros Hfd. unfold good_fd in Hfd. rewrite request_data_type, flag_of_num; [done|lia|apply flag_num_range].
Qed.

(** The buffer holds what a receive stored. *)
Lemma received_bytes s fd f res bytes :
  good_fd fd ->
  take (Z.to_nat (Z.of_nat (length bytes))) (buffer_of (receive s (Cqe (make_request_data fd (flag_num f)) res bytes)) fd) = bytes.
Proof.
  intros Hfd. unfold receive. cbn [cqe_user_data cqe_bytes]. rewrite tag_fd, Nat2Z.id by done.
  unfold buffer_of. cbn. rewrite lookup_insert_eq. cbn. apply take_overwrite0.
Qed.

Lemma good_0 : good_fd 0.
Proof. unfold good_fd. lia. Qed.

(** The request a reply is. *)
Definition reply_request (fd : Z) (o : option IpcMessage) : request :=
  match o with
  | None => Garbled
  | Some msg => if status_code msg =? IPC_NEED_MORE then More fd else if status_code msg =? IPC_ENOUGH then Enough fd else Quiet
  end.

Lemma request_reply fd bytes :
  good_fd fd -> (0 < length bytes)%nat ->
  request_of (Cqe (make_request_data fd (flag_num TEST_RESPONSE)) (Z.of_nat (length bytes)) bytes) =
    reply_request fd (ipc_message__unpack bytes).
Proof.
  intros Hfd Hl. unfold request_of. cbn [cqe_user_data cqe_res cqe_bytes]. rewrite tag_flag, tag_fd by done.
  destruct (Z.gtb_spec (Z.of_nat (length bytes)) 0); [|lia]. by rewrite Nat2Z.id, firstn_all.
Qed.

(** A turn does what the ledger says, or faults where it refuses. *)
Definition implements (r : request) (c : M server) (m : mem) (b : positive) (ids : list (positive * positive)) (L : ledger) : Prop :=
  match ledger_step r L with
  | Some L' => wp c (turn_post m b ids L') m
  | None => c m = Fault NullDeref
  end.

(** The turn that reads a client's reply. *)
Lemma serving_reply fuel sockfd m s b ids ps L fd bytes :
  serving m s b ids ps L -> good_fd fd -> (0 < length bytes)%nat -> (CIRC_BUF_SIZE <= fuel)%nat ->
  let c := Cqe (make_request_data fd (flag_num TEST_RESPONSE)) (Z.of_nat (length bytes)) bytes in
  implements (request_of c) (server_turn fuel sockfd s c) m b ids L.
Proof.
  intros Hsv Hfd Hlen Hf c. unfold c at 1. rewrite request_reply by done. unfold server_turn. cbn [cqe_user_data cqe_res c].
  rewrite tag_flag, tag_i32, tag_fd by done. destruct (Z.gtb_spec (Z.of_nat (length bytes)) 0); [|lia].
  replace (take _ _) with bytes by (symmetry; by apply received_bytes). fold c. set (s1 := receive s c).
  assert (serving m s1 b ids ps L) as Hs1 by (eapply (serving_keep m m s s1 b ids ps L []); try done; symmetry; apply app_nil_r).
  unfold read_ONLY_STATUS_response, implements. destruct (ipc_message__unpack bytes) as [msg|]; cbn [reply_request].
  2:{ cbn [ledger_step]. erewrite bind_ok by by apply check_slot_ok. by apply bind_fault. }
  destruct (Z.eqb_spec (status_code msg) IPC_NEED_MORE) as [Hn|Hn].
  { destruct (serving_more fuel m s1 b ids ps L fd Hs1 Hfd Hf) as (L' & -> & Hw). apply wp_bind. eapply wp_run; [by apply check_slot_ok|].
    apply wp_bind, wp_ret. rewrite Hn. exact Hw. }
  destruct (Z.eqb_spec (status_code msg) IPC_ENOUGH) as [He|He].
  - destruct (ledger_step (Enough fd) L) as [L'|] eqn:Hst.
    + apply wp_bind. eapply wp_run; [by apply check_slot_ok|]. apply wp_bind, wp_ret. rewrite He. cbn [Z.eqb Pos.eqb].
      assert (length ids = CIRC_BUF_SIZE) as Hl.
      { cbn [ledger_step] in Hst. destruct (Nat.ltb_spec (made L) CIRC_BUF_SIZE); [done|].
        pose proof (sv_len _ _ _ _ _ _ Hs1). rewrite (sv_made _ _ _ _ _ _ Hs1) in *. lia. }
      eapply wp_mono; [by eapply FINISH_SENDING_spec|]. intros s' m' (Hh & Hnx & ->).
      eapply turn_post_keep; [exact (sv_wf _ _ _ _ _ _ Hsv)|done|done|]. by eapply serving_finished.
    + erewrite bind_ok by by apply check_slot_ok. erewrite bind_ok by reflexivity. rewrite He. cbn [Z.eqb Pos.eqb].
      eapply FINISH_SENDING_null; [exact Hs1|done|]. cbn [ledger_step] in Hst.
      destruct (Nat.ltb_spec (made L) CIRC_BUF_SIZE); [|done]. by rewrite (sv_made _ _ _ _ _ _ Hs1).
  - cbn [ledger_step]. apply wp_bind. eapply wp_run; [by apply check_slot_ok|]. apply wp_bind, wp_ret.
    destruct (Z.eqb_spec (status_code msg) IPC_NEED_MORE); [done|].
    destruct (Z.eqb_spec (status_code msg) IPC_ACKN_OK).
    + eapply (turn_status m s1 s1 _ _ _ L L []); try done;
        [symmetry; apply app_nil_r|exact (sv_latest _ _ _ _ _ _ Hs1)|exact (sv_shut _ _ _ _ _ _ Hs1)].
    + destruct (Z.eqb_spec (status_code msg) IPC_ENOUGH); [done|].
      eapply (turn_quiet m s1 s1 _ _ _ L L []); try done;
        [symmetry; apply app_nil_r|exact (sv_latest _ _ _ _ _ _ Hs1)|exact (sv_shut _ _ _ _ _ _ Hs1)].
Qed.

Lemma serving_turn fuel sockfd m s b ids ps L c :
  serving m s b ids ps L -> event c -> (CIRC_BUF_SIZE <= fuel)%nat ->
  implements (request_of c) (server_turn fuel sockfd s c) m b ids L.
Proof.
  intros Hsv Hev Hf. pose proof (sv_latest _ _ _ _ _ _ Hsv) as Hla. pose proof (sv_shut _ _ _ _ _ _ Hsv) as Hcl.
  destruct Hev as [fd bytes Hfd|fd flag res bytes Hfd H1 H2|fd res bytes Hfd Hres|fd bytes Hfd Hlen];
    [| | |by eapply serving_reply; try done; lia];
    unfold implements, request_of, server_turn; cbn [cqe_user_data cqe_res cqe_bytes]; rewrite ?tag_flag, ?tag_i32, ?tag_fd by (done || apply good_0).
  - cbn [ledger_step]. eapply (turn_status m s _ _ _ _ L _ [_] fd IPC_ASK_NEED_MSG); try done.
    cbn [current_client_fd set_current latest]. unfold good_fd in Hfd. rewrite u64_small by lia. apply request_data_fd_small. lia.
  - assert (wp (mret s) (turn_post m b ids L) m) as Hq
      by (eapply (turn_quiet m s s _ _ _ L L []); try done; symmetry; apply app_nil_r).
    destruct flag; try done; cbn [ledger_step]; try exact Hq.
    + destruct (res =? 0); [exact Hq|]. unfold READ_STATUS_RESPONSE. apply wp_bind.
      eapply wp_run; [by apply check_slot_ok|]. by eapply (turn_quiet m s _ _ _ _ L L).
    + apply wp_bind. eapply wp_run; [by apply check_slot_ok|]. apply wp_ret.
      eapply turn_post_keep; [exact (sv_wf _ _ _ _ _ _ Hsv)|done|done|]. by eapply serving_shut.
  - destruct (Z.gtb_spec res 0); [lia|]. cbn [ledger_step]. eapply (turn_quiet m s s _ _ _ L L []); try done. symmetry; apply app_nil_r.
Qed.

Lemma serving_run fuel sockfd cs m s b ids ps L :
  serving m s b ids ps L -> Forall event cs -> (CIRC_BUF_SIZE <= fuel)%nat ->
  match ledger_run (request_of <$> cs) L with
  | Some L' => wp (server_run fuel sockfd s cs) (turn_post m b ids L') m
  | None => server_run fuel sockfd s cs m = Fault NullDeref
  end.
Proof.
  intros Hsv Hev Hf. revert m s ids ps L Hsv. induction Hev as [|c cs Hc Hcs IH]; intros m s ids ps L Hsv; cbn [server_run].
  - apply wp_ret. eapply turn_post_keep; [exact (sv_wf _ _ _ _ _ _ Hsv)|done|done|done].
  - cbn [fmap list_fmap ledger_run]. pose proof (serving_turn fuel sockfd m s b ids ps L c Hsv Hc Hf) as Ht. unfold implements in Ht.
    destruct (ledger_step (request_of c) L) as [L1|]; cbn [mbind option_bind]; [|by apply bind_fault].
    destruct Ht as (s1 & m1 & Hrun & ids1 & ps1 & Hpre & Hex & Hs1). specialize (IH m1 s1 ids1 ps1 L1 Hs1).
    destruct (ledger_run (request_of <$> cs) L1) as [L2|]; [|by erewrite bind_ok by exact Hrun].
    apply wp_bind. eapply wp_run; [exact Hrun|]. eapply wp_mono; [exact IH|].
    intros s2 m2 (ids2 & ps2 & Hpre2 & Hex2 & Hs2). exists ids2, ps2. split_and!; [by etrans|by eapply extends_trans|done].
Qed.

(** The server as it enters its loop. *)
Lemma serving_start sockfd b m :
  wf m -> heap m !! b = Some (BPtrs (replicate CIRC_BUF_SIZE NULL)) ->
  wp (event_loop_start sockfd (initial_server (Ptr b 0)))
    (fun s m' => exists id ps, serving m' s b [id] ps opening /\ extends b m m' /\ minted (rng m) m' [id]) m.
Proof.
  intros Hwf Hb. unfold event_loop_start. apply wp_bind.
  eapply wp_mono; [eapply (PUSH_spec b [] (replicate CIRC_BUF_SIZE NULL)); [done| |unfold CIRC_BUF_SIZE; cbn; lia|done]|].
  { split; [done|by rewrite length_replicate|done|done| |apply NoDup_nil_2]. intros i [_ Hi]. by apply lookup_replicate_2. }
  intros r m1 (id & -> & Hr & Hex & [Hrg Hnew]). apply wp_ret. exists id, (<[0%nat := Ptr id.1 0]> (replicate CIRC_BUF_SIZE NULL)).
  split_and!; [|done|].
  - split; try done; [exact (ex_wf _ _ _ Hex)|exact sound_opening].
  - split; [intros _; exact Hrg|]. intros i id' Hi. rewrite (Hnew i id') by (done || (cbn; lia)). f_equal. cbn. lia.
Qed.
End loop.

(** ** Claims *)
Section claims.
Context {sod : Sodium} {clk : Clock} {pb : Protobuf} {un : Uninit} {ok : SodiumOk sod} {pbok : ProtobufOk pb}.

(** C5: the event loop implements the ledger, exactly.  From the start of the
    loop, over any sequence of completions of any number of clients (on
    descriptors up to 10): if the ledger accepts the requests they carry, the
    loop does not fault, every client was sent the messages of its log, in that
    order, each a buffered message that opens under its key, the root over
    all messages was printed once for every block closed, and the descriptors
    closed are the ledger's; if the ledger refuses one, which it does for an
    ENOUGH before 512 messages exist and for an undecodable reply, the loop
    dereferences a null pointer. *)
Theorem server_refines_ledger fuel sockfd b cs m :
  uninit_short -> wf m -> heap m !! b = Some (BPtrs (replicate CIRC_BUF_SIZE NULL)) ->
  Forall event cs -> (CIRC_BUF_SIZE <= fuel)%nat ->
  let loop := s ← event_loop_start sockfd (initial_server (Ptr b 0)); server_run fuel sockfd s cs in
  match ledger_run (request_of <$> cs) opening with
  | Some L =>
      wp loop (fun s' m' => exists ids, length ids = made L /\ (forall id, id ∈ ids -> ring_msg (heap m') id) /\
        (forall fd, sended s' fd = Z.of_nat (count L fd) /\ msgs_to fd (sq s') = logged (heap m') ids (log L fd) /\
           Forall (fun i => (i < length ids)%nat) (log L fd)) /\
        printed s' = replicate (blocks L) (ring_root (heap m') ids) /\ closed s' = shut L) m
  | None => loop m = Fault NullDeref
  end.
Proof.
  intros Hun Hwf Hb Hev Hf loop. destruct (serving_start sockfd b m Hwf Hb) as (s & m1 & Hrun & id & ps & Hsv & _).
  pose proof (serving_run Hun fuel sockfd cs m1 s b [id] ps opening Hsv Hev Hf) as H. unfold loop.
  destruct (ledger_run (request_of <$> cs) opening) as [L|]; [|by erewrite bind_ok by exact Hrun].
  apply wp_bind. eapply wp_run; [exact Hrun|]. eapply wp_mono; [exact H|].
  intros s' m' (ids & ps' & _ & _ & [_ Hso Hm _ Hr Hc Hs Hp _ Hsh]). exists ids. split_and!; [done| | |done|done].
  - intros x [i Hi]%list_elem_of_lookup. exact (rr_msg _ _ _ _ Hr _ _ Hi).
  - intros fd. rewrite Hm. split_and!; [done|done|exact (so_log _ Hso fd)].
Qed.

(** While no client ends its session the server serves every client the same
    block, in order: whatever arrives in whatever interleaving, every client
    has been sent exactly as many messages as it asked for, at most 512,
    starting from the first, in buffer order. *)
Theorem server_serves_in_order fuel sockfd b cs m :
  uninit_short -> wf m -> heap m !! b = Some (BPtrs (replicate CIRC_BUF_SIZE NULL)) ->
  Forall event cs -> Forall plain (request_of <$> cs) -> (CIRC_BUF_SIZE <= fuel)%nat ->
  wp (s ← event_loop_start sockfd (initial_server (Ptr b 0)); server_run fuel sockfd s cs)
    (fun s' m' => exists ids, (length ids <= CIRC_BUF_SIZE)%nat /\ (forall id, id ∈ ids -> ring_msg (heap m') id) /\
       forall fd, let n := Nat.min CIRC_BUF_SIZE (list_sum (wants fd <$> (request_of <$> cs))) in
         sended s' fd = Z.of_nat n /\ (n <= length ids)%nat /\
         msgs_to fd (sq s') = ring_data (heap m') <$> take n ids) m.
Proof.
  intros Hun Hwf Hb Hev Hpl Hf. destruct (serving_start sockfd b m Hwf Hb) as (s & m1 & Hrun & id & ps & Hsv & _).
  pose proof (serving_run Hun fuel sockfd cs m1 s b [id] ps opening Hsv Hev Hf) as H.
  assert (forall fd, exists L', ledger_run (request_of <$> cs) opening = Some L' /\ blocks L' = 0%nat /\
    count L' fd = Nat.min CIRC_BUF_SIZE (list_sum (wants fd <$> (request_of <$> cs))) /\ log L' fd = List.seq 0 (count L' fd)) as HL
    by (intros fd; apply (ledger_plain _ opening fd Hpl); [done|apply Nat.le_0_l]).
  destruct (HL 0) as (L & HrL & _). rewrite HrL in H. apply wp_bind. eapply wp_run; [exact Hrun|]. eapply wp_mono; [exact H|].
  intros s' m' (ids & ps' & _ & _ & Hs'). exists ids. pose proof (sv_len _ _ _ _ _ _ Hs') as Hl. split_and!; [lia| |].
  - intros x [i Hi]%list_elem_of_lookup. exact (rr_msg _ _ _ _ (sv_ring _ _ _ _ _ _ Hs') _ _ Hi).
  - intros fd n. destruct (HL fd) as (L' & HrL' & _ & Hc & Hlog). rewrite HrL in HrL'. injection HrL' as <-. fold n in Hc.
    pose proof (so_count _ (sv_sound _ _ _ _ _ _ Hs') fd) as Hle. rewrite <-(sv_made _ _ _ _ _ _ Hs'), Hc in Hle.
    split_and!; [|done|].
    + by rewrite (sv_count _ _ _ _ _ _ Hs'), Hc.
    + by rewrite (sv_sent _ _ _ _ _ _ Hs'), Hlog, Hc, logged_seq.
Qed.

(** C17: closing a full block.  When a client says ENOUGH and the buffer holds
    512 messages, the server computes the Merkle root over the bytes of those
    messages in buffer order, releases everything the tree took, and leaves
    the buffer's fill count and the client's counter at zero. *)
Theorem FINISH_SENDING_root m s b ids ps L fd :
  serving m s b ids ps L -> good_fd fd -> length ids = CIRC_BUF_SIZE ->
  wp (FINISH_SENDING s fd)
    (fun s' m' => heap m' = heap m /\ fill_size (CBUF s') = 0 /\ sended s' fd = 0 /\
       (forall fd', msgs_to fd' (sq s') = msgs_to fd' (sq s)) /\
       printed s' = printed s ++ [merkle_root 9 ((fun id => crypto_generichash (ring_data (heap m) id).1) <$> ids)]) m.
Proof.
  intros Hsv Hfd Hl. eapply wp_mono; [by eapply FINISH_SENDING_spec|].
  intros s' m' (Hh & _ & ->). split_and!; [done|done| | |done].
  - unfold sended. cbn. by rewrite lookup_insert_eq.
  - intros fd'. unfold msgs_to, finished. cbn [sq submit]. rewrite omap_app. cbn. by rewrite app_nil_r.
Qed.

(** C31: a client that says ENOUGH before 512 messages were generated takes the
    server down: the tree is built over all 512 slots, and the first empty one
    is a null pointer that is dereferenced. *)
Theorem FINISH_SENDING_early m s b ids ps L fd :
  serving m s b ids ps L -> good_fd fd -> (length ids < CIRC_BUF_SIZE)%nat ->
  FINISH_SENDING s fd m = Fault NullDeref.
Proof. apply FINISH_SENDING_null. Qed.

(** After a block was closed the next one repeats it.  With the fill count
    at zero every index counts as filled, so a later request for message [N]
    is answered with message [N] of the closed block, and no key is drawn. *)
Theorem closed_block_served_again fuel m s b ids ps L fd fd' N id :
  serving m s b ids ps L -> good_fd fd -> good_fd fd' -> length ids = CIRC_BUF_SIZE ->
  (if decide (fd' = fd) then 0 else sended s fd') = Z.of_nat N -> ids !! N = Some id ->
  wp (s ← FINISH_SENDING s fd; handle_response_NEED_MORE_MSG fuel s fd')
    (fun s' m' => heap m' = heap m /\ fill_size (CBUF s') = 0 /\
       msgs_to fd' (sq s') = msgs_to fd' (sq s) ++ [ring_data (heap m) id]) m.
Proof.
  intros Hsv Hfd Hfd' Hl HN Hid. apply wp_bind. eapply wp_mono; [by eapply FINISH_SENDING_spec|].
  intros s1 m1 (Hh & _ & ->). set (s1 := finished _ _ _).
  assert (sended s1 fd' = Z.of_nat N) as HN1.
  { rewrite <-HN. unfold s1, finished. change (sended (submit _ _ _) fd') with (sended (set_sended fd 0 s) fd'). apply sended_set. }
  pose proof (sv_ring _ _ _ _ _ _ Hsv) as Hr.
  pose proof (lookup_lt_Some _ _ _ Hid) as HNl. rewrite Hl in HNl. unfold CIRC_BUF_SIZE in HNl.
  unfold handle_response_NEED_MORE_MSG. apply wp_bind. eapply wp_run; [by apply check_slot_ok|].
  unfold N_MESSAGES. rewrite HN1. destruct (Z.geb_spec (Z.of_nat N) 512) as [|_]; [lia|]. cbv zeta.
  change (sended (set_length _ _ _) fd') with (sended s1 fd'). rewrite HN1.
  change (CBUF (set_length _ _ _)) with (set_fill_size 0 (CBUF s)). rewrite (sv_cbuf _ _ _ _ _ _ Hsv).
  apply wp_bind. eapply wp_run.
  { apply (GET_nth_reset fuel N b ps (Ptr id.1 0)); [rewrite Hh; exact (rr_buf _ _ _ _ Hr)|exact (rr_ptr _ _ _ _ Hr _ _ Hid)|lia]. }
  cbn [fst snd]. apply wp_bind. eapply wp_run; [by apply get_ipc_msg_buffer_ok|].
  assert (ring_msg (heap m1) id) as Hm by (rewrite Hh; exact (rr_msg _ _ _ _ Hr _ _ Hid)).
  apply wp_bind. eapply wp_run; [by apply serialize_data_v2_run|].
  apply wp_bind. eapply wp_run; [apply write_buffer_run; [done|by apply data_packet_size]|].
  apply wp_ret. rewrite buffer_of_set, take_overwrite0. split_and!; [done|done|].
  unfold s1. cbn [sq set_sended sent submit set_length set_buffer set_CBUF finished print_root]. unfold msgs_to. rewrite !omap_app, !omap_one, payload_data, decide_True, Hh by done.
  cbn. by rewrite app_nil_r.
Qed.

(** C32: the eleventh client is one too many.  Accepting a connection whose
    descriptor is above 10 computes the address of a message slot outside the
    1000 the server allocated: the index is scaled by the slot's size twice. *)
Theorem accept_out_of_bounds fuel sockfd s fd bytes m :
  10 < fd ->
  server_turn fuel sockfd s (Cqe (make_request_data 0 (flag_num FLAG_ACCEPT)) fd bytes) m = Fault OutOfBounds.
Proof.
  intros Hfd. unfold server_turn. cbn [cqe_user_data cqe_res]. rewrite tag_flag by apply good_0.
  unfold request_ASK_NEED_MSG. apply bind_fault. unfold get_ipc_msg_buffer, sizeof_IpcMessage, MAX_CONNECTIONS.
  by rewrite (proj2 (Z.ltb_ge (fd * 96) 1000)), andb_false_r by lia.
Qed.

(** A reply that does not decode takes the server down: the null result of
    the decoder is dereferenced. *)
Lemma malformed_reply_faults fuel sockfd s fd bytes m :
  good_fd fd -> (0 < length bytes)%nat -> ipc_message__unpack bytes = None ->
  server_turn fuel sockfd s (Cqe (make_request_data fd (flag_num TEST_RESPONSE)) (Z.of_nat (length bytes)) bytes) m =
    Fault NullDeref.
Proof.
  intros Hfd Hl Hn. unfold server_turn. cbn [cqe_user_data cqe_res]. rewrite tag_flag, tag_i32 by done.
  destruct (Z.gtb_spec (Z.of_nat (length bytes)) 0); [|lia]. erewrite bind_ok by by apply check_slot_ok.
  apply bind_fault. unfold read_ONLY_STATUS_response. by rewrite received_bytes, Hn.
Qed.

(** Closing acts on the latest connection.  When the completion that closes
    client [A] arrives after client [B] was accepted, [B]'s descriptor is
    closed and [A]'s stays open; the counter that is reset is [A]'s. *)
Theorem close_hits_latest_client fuel sockfd s A B bytes res bytes' m :
  uninit_short -> good_fd A -> good_fd B -> 
  wp (server_run fuel sockfd s
        [Cqe (make_request_data 0 (flag_num FLAG_ACCEPT)) B bytes;
         Cqe (make_request_data A (flag_num FLAG_CLOSE_CONNECTION)) res bytes'])
    (fun s' _ => closed s' = closed s ++ [B] /\ sended s' A = 0 /\
       forall fd, fd <> A -> sended s' fd = sended s fd) m.
Proof.
  intros Hun HA HB. cbn [server_run]. apply wp_bind. unfold server_turn at 1. cbn [cqe_user_data cqe_res].
  rewrite tag_flag by apply good_0. eapply wp_run; [by apply request_ASK_NEED_MSG_run|].
  apply wp_bind. unfold server_turn. cbn [cqe_user_data]. rewrite tag_flag, tag_fd by done.
  apply wp_bind. eapply wp_run; [by apply check_slot_ok|]. apply wp_ret. apply wp_ret.
  split_and!.
  - cbn [closed set_sended close_fd current_client_fd sent submit set_length set_buffer set_current add_accept_request].
    do 2 f_equal. unfold good_fd in HB. rewrite u64_small by lia. apply request_data_fd_small. lia.
  - unfold sended. cbn. by rewrite lookup_insert_eq.
  - intros fd Hfd. unfold sended. cbn. by rewrite lookup_insert_ne.
Qed.
End claims.

(** ** The claims at work *)

(** A server whose buffer holds the messages [ids] and that has sent nothing. *)
Definition idle (n : nat) : ledger := Ledger ∅ ∅ n 0 (-1) [].

Lemma serving_idle {sod : Sodium} {pb : Protobuf} m b ids ps :
  wf m -> ring_rep m b ids ps -> (0 < length ids <= CIRC_BUF_SIZE)%nat ->
  serving m (set_CBUF (ring b (length ids)) (initial_server (Ptr b 0))) b ids ps (idle (length ids)).
Proof.
  intros Hwf Hr Hl. split; try done. split; [done|intros fd; apply Nat.le_0_l|intros fd; constructor|done].
Qed.

(** An array that happens to start with a zero byte. *)
Definition quiet : Uninit := fun _ => [].

Lemma quiet_short : uninit_short (un:=quiet).
Proof. intros n. cbn. lia. Qed.

(** The bytes of a client's NEED_MORE. *)
Definition need_more : list byte := Wire.ipc_pack (MkIpcMessage None None [x30] 7 IPC_NEED_MORE).

(** Client 5 connects, the question is sent, it asks twice. *)
Definition session : list cqe :=
  [Cqe (make_request_data 0 (flag_num FLAG_ACCEPT)) 5 [];
   Cqe (make_request_data 5 (flag_num READ_RESPONSE)) 10 [];
   Cqe (make_request_data 5 (flag_num TEST_RESPONSE)) 7 need_more;
   Cqe (make_request_data 5 (flag_num TEST_RESPONSE)) 7 need_more].

Lemma session_events : Forall event session.
Proof.
  assert (good_fd 5) as H5 by (unfold good_fd; lia).
  assert (event (Cqe (make_request_data 5 (flag_num TEST_RESPONSE)) 7 need_more)) as Hr
    by (apply (Ev_reply 5 need_more); [done|]; unfold BUFFER_SIZE; vm_compute length; lia).
  unfold session. repeat (apply Forall_cons; split); [by apply Ev_accept|by apply Ev_done|exact Hr|exact Hr|]. by apply Forall_nil.
Qed.

Lemma session_plain : Forall plain (request_of (pb:=Wire.proto2) <$> session).
Proof. vm_compute. repeat constructor. Qed.

Lemma server_refines_ledger_witness :
  wp (s ← event_loop_start (sod:=Toy.mixing) (clk:=Toy.toy_clock) 3 (initial_server (Ptr 1 0));
      server_run (sod:=Toy.mixing) (clk:=Toy.toy_clock) (pb:=Wire.proto2) (un:=quiet) 512 3 s session)
    (fun s' m' => exists i j, sended s' 5 = 2 /\ msgs_to (pb:=Wire.proto2) 5 (sq s') = ring_data (heap m') <$> [i; j]) empty_ring_mem.
Proof.
  pose proof (server_refines_ledger (sod:=Toy.mixing) (clk:=Toy.toy_clock) (pb:=Wire.proto2) (un:=quiet)
    (ok:=Toy.mixing_ok) (pbok:=Wire.proto2_ok) 512 3 1 session empty_ring_mem quiet_short empty_ring_wf eq_refl
    session_events (le_n _)) as H. cbv zeta in H.
  destruct (ledger_run (request_of (pb:=Wire.proto2) <$> session) opening) as [L|] eqn:HL; [|vm_compute in HL; discriminate HL].
  assert (count L 5 = 2%nat /\ log L 5 = [0; 1]%nat) as [Hc Hl] by (vm_compute in HL; injection HL as <-; split; reflexivity).
  eapply wp_mono; [exact H|]. intros s' m' (ids & _ & _ & Hfd & _). destruct (Hfd 5) as (Hs & Hm & _). rewrite Hc in Hs. rewrite Hl in Hm.
  exists (ids !!! 0%nat), (ids !!! 1%nat). split; [exact Hs|exact Hm].
Defined.

(** An ENOUGH right after the connection is refused, and takes the server down. *)
Definition enough : list byte := Wire.ipc_pack (MkIpcMessage None None [x30] 7 IPC_ENOUGH).

Example early_enough_refused :
  ledger_run (request_of (pb:=Wire.proto2) <$> [Cqe (make_request_data 0 (flag_num FLAG_ACCEPT)) 5 [];
    Cqe (make_request_data 5 (flag_num TEST_RESPONSE)) (Z.of_nat (length enough)) enough]) opening = None.
Proof. vm_compute. reflexivity. Qed.

(** 512 pushes on an empty buffer, then what follows them. *)
Definition full_then {A} (k : server -> M A) : M A :=
  cb ← push_until (sod:=Toy.mixing) (clk:=Toy.toy_clock) 512 (ring 1 0) 511;
  k (set_CBUF cb (initial_server (Ptr 1 0))).

Lemma full_then_spec {A} (k : server -> M A) (Q : A -> mem -> Prop) :
  (forall m ids ps, serving (sod:=Toy.mixing) (pb:=Wire.proto2) m (set_CBUF (ring 1 512) (initial_server (Ptr 1 0))) 1 ids ps (idle 512) ->
     length ids = CIRC_BUF_SIZE -> wp (k (set_CBUF (ring 1 512) (initial_server (Ptr 1 0)))) Q m) ->
  wp (full_then k) Q empty_ring_mem.
Proof.
  intros Hk. apply wp_bind.
  eapply wp_mono; [apply (push_until_spec (sod:=Toy.mixing) (clk:=Toy.toy_clock) (ok:=Toy.mixing_ok) 512 511 1 [] _ _
    empty_ring_wf (empty_ring_rep _)); unfold CIRC_BUF_SIZE; cbn; lia|].
  intros cb m1 (-> & ids & ps & Hl & _ & Hr & Hex & _). eapply Hk; [|exact Hl].
  change 512%nat with (S 511). rewrite <-Hl.
  apply (serving_idle (sod:=Toy.mixing) (pb:=Wire.proto2) m1 1 ids ps (ex_wf _ _ _ Hex) Hr). unfold CIRC_BUF_SIZE. lia.
Qed.

Lemma good_5 : good_fd 5.
Proof. unfold good_fd. lia. Qed.

Lemma FINISH_SENDING_root_witness :
  wp (full_then (fun s => FINISH_SENDING (sod:=Toy.mixing) s 5))
    (fun s' m' => fill_size (CBUF s') = 0 /\ exists ids, length ids = CIRC_BUF_SIZE /\
       printed s' = [merkle_root (sod:=Toy.mixing) 9 ((fun id => Toy.toy_hash (ring_data (heap m') id).1) <$> ids)]) empty_ring_mem.
Proof.
  apply full_then_spec. intros m ids ps Hsv Hl.
  eapply wp_mono; [exact (FINISH_SENDING_root (sod:=Toy.mixing) (pb:=Wire.proto2) (ok:=Toy.mixing_ok) m _ 1 ids ps _ 5 Hsv good_5 Hl)|].
  intros r m' (Hh & Hf & _ & _ & Hr). split; [exact Hf|]. exists ids. split; [exact Hl|]. rewrite Hh. exact Hr.
Defined.

Lemma closed_block_served_again_witness :
  wp (full_then (fun s => s ← FINISH_SENDING (sod:=Toy.mixing) s 5;
        handle_response_NEED_MORE_MSG (sod:=Toy.mixing) (clk:=Toy.toy_clock) (pb:=Wire.proto2) (un:=quiet) 512 s 6))
    (fun s' m' => fill_size (CBUF s') = 0 /\ exists id, msgs_to (pb:=Wire.proto2) 6 (sq s') = [ring_data (heap m') id]) empty_ring_mem.
Proof.
  apply full_then_spec. intros m ids ps Hsv Hl. destruct ids as [|id ids]; [discriminate Hl|].
  eapply wp_mono; [exact (closed_block_served_again (sod:=Toy.mixing) (clk:=Toy.toy_clock) (pb:=Wire.proto2) (un:=quiet)
    (ok:=Toy.mixing_ok) (pbok:=Wire.proto2_ok) 512 m _ 1 (id :: ids) ps _ 5 6 0 id Hsv good_5
    ltac:(unfold good_fd; lia) Hl eq_refl eq_refl)|].
  intros s' m' (Hh & Hf & Hs). split; [exact Hf|]. exists id. rewrite Hh. exact Hs.
Defined.

Lemma FINISH_SENDING_early_witness :
  exists s m, event_loop_start (sod:=Toy.mixing) (clk:=Toy.toy_clock) 3 (initial_server (Ptr 1 0)) empty_ring_mem = Ok (s, m) /\
    FINISH_SENDING (sod:=Toy.mixing) s 5 m = Fault NullDeref.
Proof.
  destruct (serving_start (sod:=Toy.mixing) (clk:=Toy.toy_clock) (pb:=Wire.proto2) (ok:=Toy.mixing_ok) 3 1 empty_ring_mem
    empty_ring_wf eq_refl) as (s & m & Hs & id & ps & Hsv & _).
  exists s, m. split; [exact Hs|].
  exact (FINISH_SENDING_early (sod:=Toy.mixing) (pb:=Wire.proto2) (ok:=Toy.mixing_ok) m s 1 [id] ps _ 5 Hsv good_5
    ltac:(unfold CIRC_BUF_SIZE; cbn; lia)).
Defined.

Lemma accept_out_of_bounds_witness :
  server_turn (sod:=Toy.mixing) (clk:=Toy.toy_clock) (pb:=Wire.proto2) (un:=quiet) 512 3 (initial_server (Ptr 1 0))
    (Cqe (make_request_data 0 (flag_num FLAG_ACCEPT)) 11 []) empty_ring_mem = Fault OutOfBounds.
Proof. apply accept_out_of_bounds. lia. Defined.

Lemma close_hits_latest_client_witness :
  wp (server_run (sod:=Toy.mixing) (clk:=Toy.toy_clock) (pb:=Wire.proto2) (un:=quiet) 512 3 (initial_server (Ptr 1 0))
        [Cqe (make_request_data 0 (flag_num FLAG_ACCEPT)) 6 [];
         Cqe (make_request_data 5 (flag_num FLAG_CLOSE_CONNECTION)) 0 []])
    (fun s' _ => closed s' = [6]) empty_ring_mem.
Proof.
  eapply wp_mono; [exact (close_hits_latest_client (sod:=Toy.mixing) (clk:=Toy.toy_clock) (pb:=Wire.proto2) (un:=quiet)
    (pbok:=Wire.proto2_ok) 512 3 (initial_server (Ptr 1 0)) 5 6 [] 0 [] empty_ring_mem quiet_short good_5
    ltac:(unfold good_fd; lia))|].
  intros s' m' (Hc & _). exact Hc.
Defined.
