(* ===== verification/ClientIpc.v ===== *)
(** * The client's encoders and decoders

    sources/client/ipc_messages_client.c: the messages the client exchanges
    with the message server ([IpcMessage]) and with its peer ([P2pIpcMessage]),
    the block included.  [P2P_deserialize_STATUS] reads a message it has just
    released, which is a fault; the class [Reading] tells the code as it is from
    the code with the two statements exchanged.  [deserialize_block] reads past
    the end of a decoded string; what it finds there is a parameter (class
    [Stray]). *)

From S2P Require Import Prelude.
From S2P Require Import CTypes.
From S2P Require Import Memory.
From S2P Require Import Platform.
From S2P Require Import Accounts.
From S2P Require Import Hashing.
From S2P Require Import Misc.
From S2P Require Import BlockData.
From S2P Require Import Codec.

(** The C string at the start of some bytes, if it ends within them. *)
Fixpoint c_string (bs : list byte) : option (list byte) :=
  match bs with
  | [] => None
  | b :: bs => if decide (b = x00) then Some [] else cons b <$> c_string bs
  end.

(** Reads past the end of a block: [past_end s n] are the [n] bytes that follow
    the block of the decoded string [s]. *)
Class Stray := {
  past_end : list byte -> nat -> list byte;
  past_end_length s n : length (past_end s n) = n }.

(** The statements of lines 61 and 62: [as_written] the message is released and
    then read; [exchanged] it is read and then released. *)
Inductive status_read := as_written | exchanged.
#[global] Instance status_read_eq_decision : EqDecision status_read.
Proof. solve_decision. Defined.

(** Which of the two the code is taken with. *)
Class Reading := reading : status_read.

(** As written, a run of events is cut short by the first that makes a peer read
    a status. *)
Definition dangles {rd : Reading} {A} (reads : A -> bool) (es : list A) : bool :=
  match reading with as_written => existsb reads es | exchanged => false end.

(** [char date[35]] of a packed block: the string may run on into the fields
    that follow. *)
Definition date_string (b : block_t) : option (list byte) := c_string (drop NONCE_LEN (bytes_of_block b)).

Section code.
Context {sod : Sodium} {clk : Clock} {pb : Protobuf} {st : Stray} {rd : Reading}.

(** [P2P_serialize_block_to_sock]: the packed bytes; [P2P_send_status] below. *)
Definition P2P_serialize_block_to_sock (a_block : ptr) : M (list byte) :=
  b ← load (A:=block_t) a_block;
  match date_string b with
  | None => fail OutOfBounds
  | Some date =>
      mret (p2p__ipc_message__pack (MkP2pIpcMessage date
        (Some (bl_timestamp_begin b)) (Some (bl_timestamp_end b)) (Some (bl_difficulty b))
        (Some (bl_merkle_root b)) (Some (bl_nonce b)) (Some (bl_previous_block b)) P2P_BLOCK))
  end.

Definition P2P_send_status (STATUS : Z) : M (list byte) :=
  t ← tick time_now;
  mret (p2p__ipc_message__pack
    (MkP2pIpcMessage (strftime_stamp (gmtime t)) None None None None None None STATUS)).

(** [P2P_deserialize_STATUS]: the message is released, then its status read
    through the dangling pointer. *)
Definition P2P_deserialize_STATUS (buff : list byte) : M Z :=
  match p2p__ipc_message__unpack buff with
  | None => fail NullDeref
  | Some message =>
      match reading with
      | as_written => fail BadPointer
      | exchanged => mret (p_status_code message)
      end
  end.

(** [memcpy(field, data, len)] into an array of [n] bytes of the block; an
    absent field has length 0. *)
Definition copy_field (block : ptr) (n : nat) (data : option (list byte)) (get : block_t -> list byte)
    (set : list byte -> block_t -> block_t) : M unit :=
  let bs := default [] data in
  if (length bs <=? n)%nat then update block (fun b => set (overwrite (get b) bs 0) b) else fail OutOfBounds.

(** [deserialize_block]: 35 bytes are copied from the decoded date, whose
    block has its length and a zero. *)
Definition deserialize_block (buf_in : list byte) : M ptr :=
  block ← calloc 1 zero_block_t;
  match p2p__ipc_message__unpack buf_in with
  | None => fail NullDeref
  | Some message =>
      if negb (p_status_code message =? P2P_BLOCK) then mret NULL else
      update block (set_date (fun _ => take DATE_LEN (p_date message ++ [x00] ++ past_end (p_date message) DATE_LEN))) ;;
      copy_field block crypto_generichash_BYTES (p_merkle_root message) bl_merkle_root set_merkle_root ;;
      copy_field block NONCE_LEN (p_nonce message) bl_nonce set_nonce ;;
      update block (set_timestamp_begin (default 0 (p_timestamp_begin message))) ;;
      update block (set_timestamp_end (default 0 (p_timestamp_end message))) ;;
      copy_field block crypto_generichash_BYTES (p_prev_block message) bl_previous_block set_previous_block ;;
      update block (set_difficulty (default 0 (p_difficulty message))) ;;
      mret block
  end.

(** [memcpy(msg->public_key, message->pubkey.data, 32)] and the copy of the
    transaction to the message's buffer, shared by [deserialize_data_from_server]
    and [get_a_message], whose bodies are the same. *)
Definition deserialize_data_from_server (buff : list byte) (msg : ptr) : M unit :=
  match ipc_message__unpack buff with
  | None => fail NullDeref
  | Some message =>
      (match pubkey message with
       | Some k => put_a_PK msg k
       | None => mret ()
       end) ;;
      match transaction_msg message with
      | Some data =>
          update msg (fun sm => SignedMessage (sm_message sm) (Z.of_nat (length data)) (sm_public_key sm)) ;;
          sm ← load (A:=signed_message_t) msg;
          store_bytes (sm_message sm) data
      | None => mret ()
      end
  end.

Definition get_a_message (buf : list byte) (a_msg : ptr) : M Z :=
  deserialize_data_from_server buf a_msg ;;
  mret (Z.of_nat (length buf)).

Definition read_response_ONLY_STATUS (buf : list byte) : M Z :=
  match ipc_message__unpack buf with
  | Some message => mret (status_code message)
  | None => fail NullDeref
  end.

(** The client's [send_ONLY_status_code]: here the date is written. *)
Definition client_send_ONLY_status_code (STATUS : Z) : M (list byte) :=
  t ← tick time_now;
  ns ← get_epoch_ns;
  mret (ipc_message__pack (MkIpcMessage None None (strftime_stamp (gmtime t)) ns STATUS)).
End code.

(** ** Facts *)
Section facts.
Context {sod : Sodium} {clk : Clock} {pb : Protobuf} {st : Stray} {ok : SodiumOk sod} {pbok : ProtobufOk pb}.

Lemma c_string_app s bs : x00 ∉ s -> c_string (s ++ x00 :: bs) = Some s.
Proof.
  induction s as [|b s IH]; intros Hs; cbn [app c_string]; [done|].
  apply not_elem_of_cons in Hs as [Hb Hs]. rewrite decide_False, IH by done. done.
Qed.

(** The message that carries a block. *)
Definition block_msg (b : block_t) (date : list byte) : P2pIpcMessage :=
  MkP2pIpcMessage date (Some (bl_timestamp_begin b)) (Some (bl_timestamp_end b)) (Some (bl_difficulty b))
    (Some (bl_merkle_root b)) (Some (bl_nonce b)) (Some (bl_previous_block b)) P2P_BLOCK.

(** A block as the program makes it: arrays of their sizes, integers of their
    width, a date that ends within its array. *)
Record block_ok (b : block_t) (date : list byte) : Prop := BlockOk {
  bo_nonce : length (bl_nonce b) = NONCE_LEN;
  bo_date : exists rest, bl_date b = date ++ x00 :: rest;
  bo_date_text : x00 ∉ date;
  bo_date_len : length (bl_date b) = DATE_LEN;
  bo_begin : 0 <= bl_timestamp_begin b < 2 ^ 64;
  bo_end : 0 <= bl_timestamp_end b < 2 ^ 64;
  bo_difficulty : 0 <= bl_difficulty b < 2 ^ 64;
  bo_prev : length (bl_previous_block b) = crypto_generichash_BYTES;
  bo_root : length (bl_merkle_root b) = crypto_generichash_BYTES }.

Lemma block_ok_date b date : block_ok b date -> date_string b = Some date /\ (length date < DATE_LEN)%nat.
Proof.
  intros [Hn [rest Hd] Ht Hl _ _ _ _ _]. split.
  - unfold date_string, bytes_of_block. rewrite <-Hn, drop_app_length, Hd, <-app_assoc. by apply c_string_app.
  - rewrite Hd, length_app in Hl. cbn in Hl. lia.
Qed.

Lemma block_msg_wf b date : block_ok b date -> p2p_wf (block_msg b date).
Proof.
  intros Hb. destruct (block_ok_date _ _ Hb) as [_ Hd]. destruct Hb as [Hn _ _ _ H1 H2 H3 Hp Hr].
  unfold p2p_wf, block_msg. cbn [p_timestamp_begin p_timestamp_end p_difficulty p_status_code p_merkle_root p_nonce p_prev_block p_date u64_opt olen].
  rewrite Hn, Hp, Hr. split_and!; lia.
Qed.

Lemma serialize_block_run p b date m :
  load p m = Ok (b, m) -> block_ok b date ->
  P2P_serialize_block_to_sock p m = Ok (p2p__ipc_message__pack (block_msg b date), m).
Proof.
  intros Hp Hb. unfold P2P_serialize_block_to_sock. erewrite bind_ok by exact Hp.
  by rewrite (proj1 (block_ok_date _ _ Hb)).
Qed.

Lemma serialize_block_size b date :
  block_ok b date -> (length (p2p__ipc_message__pack (block_msg b date)) <= 4096)%nat.
Proof.
  intros Hb. pose proof (p2p_pack_size _ (block_msg_wf _ _ Hb)) as Hs. destruct (block_ok_date _ _ Hb) as [_ Hd].
  destruct Hb as [Hn _ _ _ _ _ _ Hp Hr]. cbn [block_msg p_merkle_root p_nonce p_prev_block p_date olen] in Hs.
  rewrite Hn, Hp, Hr in Hs. fold (block_msg b date) in Hs. lia.
Qed.

(** What [deserialize_block] leaves of a serialized block. *)
Definition received_block (b : block_t) (date : list byte) : block_t :=
  set_date (fun _ => take DATE_LEN (date ++ [x00] ++ past_end date DATE_LEN)) b.

Lemma received_date_length b date : length (bl_date (received_block b date)) = DATE_LEN.
Proof.
  unfold received_block. cbn [bl_date set_date]. rewrite length_take, !length_app.
  rewrite past_end_length. lia.
Qed.

Lemma deserialize_block_run b date m :
  block_ok b date ->
  deserialize_block (p2p__ipc_message__pack (block_msg b date)) m =
    Ok (Ptr (next m) 0,
        Mem (<[next m := BBlks [received_block b date]]> (heap m)) (Pos.succ (next m)) (rng m) (ticks m)).
Proof.
  intros Hb. pose proof Hb as [Hn _ _ _ _ _ _ Hp Hr]. apply wp_eq. unfold deserialize_block. wps.
  rewrite p2p_unpack_pack by by apply block_msg_wf.
  cbn [block_msg p_status_code p_date p_merkle_root p_nonce p_timestamp_begin p_timestamp_end p_prev_block p_difficulty].
  rewrite Z.eqb_refl. cbn [negb]. unfold copy_field. cbn [default]. unfold Datatypes.id. rewrite Hn, Hp, Hr. cbn [Nat.leb]. wps.
  unfold received_block, set_date, set_merkle_root, set_nonce, set_previous_block, set_difficulty, set_timestamp_begin, set_timestamp_end.
  cbn [bl_nonce bl_date bl_timestamp_begin bl_timestamp_end bl_difficulty bl_previous_block bl_merkle_root zero_block_t].
  rewrite !overwrite_all by (rewrite ?Hn, ?Hp, ?Hr; done). split; [done|]. f_equal. heap_ext.
Qed.

Lemma digit_not_zero z : digit z <> x00.
Proof. intros H. pose proof (Z_of_digit z) as Hz. rewrite H in Hz. change (Z_of_byte x00) with 0 in Hz. pose proof (Z.mod_pos_bound z 10). lia. Qed.

Lemma strftime_stamp_text t : x00 ∉ strftime_stamp t.
Proof.
  unfold strftime_stamp, dec2, dec4. cbn [app]. rewrite !not_elem_of_cons.
  split_and!; first [apply not_eq_sym, digit_not_zero | done | apply not_elem_of_nil].
Qed.

(** C10: a block survives the wire.  Serializing a live block and deserializing
    the bytes ends and leaves one new block with the same nonce, time stamps,
    difficulty, predecessor and Merkle root and the same date text; the bytes of
    its date array after the text are not the sender's but whatever followed
    the decoded string in memory: the copy reads 35 bytes from a string of
    fewer. *)
Theorem block_wire_roundtrip p b date m :
  load p m = Ok (b, m) -> block_ok b date ->
  wp (bytes ← P2P_serialize_block_to_sock p; deserialize_block bytes)
    (fun q m' => exists b', q = Ptr (next m) 0 /\ heap m' = <[next m := BBlks [b']]> (heap m) /\
       bl_nonce b' = bl_nonce b /\ bl_timestamp_begin b' = bl_timestamp_begin b /\
       bl_timestamp_end b' = bl_timestamp_end b /\ bl_difficulty b' = bl_difficulty b /\
       bl_previous_block b' = bl_previous_block b /\ bl_merkle_root b' = bl_merkle_root b /\
       c_string (bl_date b') = Some date /\
       drop (S (length date)) (bl_date b') = take (DATE_LEN - S (length date)) (past_end date DATE_LEN)) m.
Proof.
  intros Hp Hb. pose proof (block_ok_date _ _ Hb) as [_ Hd]. apply wp_bind. eapply wp_run; [by apply serialize_block_run|].
  eapply wp_run; [by apply deserialize_block_run|]. exists (received_block b date).
  split_and!; try done; unfold received_block, set_date; cbn [bl_date app].
  - rewrite take_app_ge by lia. destruct (DATE_LEN - length date)%nat eqn:Hn; [lia|]. cbn [take].
    apply c_string_app, (bo_date_text _ _ Hb).
  - rewrite take_app_ge by lia. destruct (DATE_LEN - length date)%nat eqn:Hn; [lia|]. cbn [take].
    rewrite (cons_middle x00), app_assoc, drop_app_length' by (rewrite length_app; cbn; lia). f_equal. lia.
Qed.

(** C35: what else a peer can send where a block is expected.  A message of
    another status makes [deserialize_block] return a null pointer and leave
    the block it had allocated behind; a Merkle root or predecessor of more
    than 32 bytes or a nonce of more than 15, which the wire format allows, is
    written past the end of its array. *)
Theorem deserialize_block_hostile msg bytes m :
  p2p__ipc_message__unpack bytes = Some msg ->
  (p_status_code msg <> P2P_BLOCK ->
    deserialize_block bytes m = Ok (NULL, Mem (<[next m := BBlks [zero_block_t]]> (heap m)) (Pos.succ (next m)) (rng m) (ticks m))) /\
  (p_status_code msg = P2P_BLOCK ->
    (olen (p_merkle_root msg) > 32)%nat \/ (olen (p_nonce msg) > 15)%nat \/ (olen (p_prev_block msg) > 32)%nat ->
    deserialize_block bytes m = Fault OutOfBounds).
Proof.
  intros Hm. assert (forall o : option (list byte), length (default [] o) = olen o) as Ho by by intros [].
  split; intros Hst; unfold deserialize_block; unfold calloc, alloc; (erewrite bind_ok by reflexivity); cbv beta; rewrite Hm.
  - by destruct (Z.eqb_spec (p_status_code msg) P2P_BLOCK).
  - rewrite Hst. cbn [negb Z.eqb Pos.eqb]. intros Hov. unfold copy_field. rewrite !Ho.
    repeat (match goal with |- context [Nat.leb ?a ?b] => destruct (Nat.leb_spec a b) end);
      try (exfalso; lia);
      repeat first [apply bind_fault; reflexivity
                   | erewrite bind_ok by (eapply (update_run (H:=storable_blk)); [mem_cbn; apply lookup_insert_eq|reflexivity])].
Qed.
End facts.

(** ** The claims at work *)

(** Bytes of value 170 follow every string. *)
Definition calm : Stray := {| past_end := fun _ n => replicate n xaa;
  past_end_length := fun _ n => length_replicate n xaa |}.

Definition sample_block : block_t :=
  Block (replicate 15 x01) ([x33; x31] ++ zeros 33) 5 7 0 (zeros 32) (replicate 32 x09).

Definition block_mem : mem := Mem (<[1%positive := BBlks [sample_block]]> ∅) 2 0 0.

Lemma sample_block_ok : block_ok sample_block [x33; x31].
Proof.
  split; try done; cbn; try lia.
  - by exists (zeros 32).
  - rewrite !not_elem_of_cons. split_and!; [done|done|apply not_elem_of_nil].
Qed.

Lemma block_wire_roundtrip_witness :
  wp (bytes ← P2P_serialize_block_to_sock (pb:=Wire.proto2) (Ptr 1 0);
      deserialize_block (pb:=Wire.proto2) (st:=calm) bytes)
    (fun q m' => exists b', q = Ptr 2 0 /\ heap m' !! 2%positive = Some (BBlks [b']) /\
       bl_merkle_root b' = replicate 32 x09 /\ drop 3 (bl_date b') = replicate 32 xaa) block_mem.
Proof.
  eapply wp_mono; [exact (block_wire_roundtrip (pb:=Wire.proto2) (st:=calm) (pbok:=Wire.proto2_ok) (Ptr 1 0) sample_block
    [x33; x31] block_mem eq_refl sample_block_ok)|].
  intros q m' (b' & -> & Hh & _ & _ & _ & _ & _ & Hr & _ & Hd). exists b'.
  split; [reflexivity|]. split; [rewrite Hh; apply lookup_insert_eq|]. split; [exact Hr|exact Hd].
Defined.

(** A message that carries a nonce of 20 bytes. *)
Definition long_nonce : P2pIpcMessage :=
  MkP2pIpcMessage [x31] None None None None (Some (replicate 20 x01)) None P2P_BLOCK.

Lemma deserialize_block_hostile_witness :
  deserialize_block (pb:=Wire.proto2) (st:=calm) (Wire.p2p_pack long_nonce) block_mem = Fault OutOfBounds.
Proof.
  apply (deserialize_block_hostile (pb:=Wire.proto2) (st:=calm) long_nonce); [by vm_compute|done|].
  right. left. apply Nat.ltb_lt. reflexivity.
Defined.
