(* ===== verification/Client.v ===== *)
(** * The message client

    sources/client/setup_client.c: the thread that collects 512 messages from
    the server, builds and checks the tree, makes the block and publishes it to
    the peer thread.  [client_turn] is one turn of its loop.

    The ring is seen from the program's side.  Its completion queue is a head,
    moved by [io_uring_cqe_seen], and a tail, moved by the kernel; a send with
    [MSG_DONTWAIT] completes when it is submitted, the receive when it is
    waited for.  When head and tail differ at that wait, the entry returned is
    not the receive's and the model does not say what it holds. *)

From S2P Require Import Prelude.
From S2P Require Import CTypes.
From S2P Require Import Memory.
From S2P Require Import Platform.
From S2P Require Import Accounts.
From S2P Require Import Hashing.
From S2P Require Import Layering.
From S2P Require Import MerkleTree.
From S2P Require Import MerkleVerify.
From S2P Require Import Misc.
From S2P Require Import BlockData.
From S2P Require Import BlockProcess.
From S2P Require Import Codec.
From S2P Require Import ClientIpc.

Abbreviation BUFSIZE := 4096%nat.
Abbreviation BLOCKSIZE := 512%nat.
Abbreviation BUFSIZEFORMESSAGE := 512%nat.
Abbreviation EXPONENT := 9.

(** The globals of common.c that the client's threads share.  The mutex is
    held or free. *)
Record shared := Shared {
  flag_block_created : Z;
  buffer_BLOCK_DATA : list byte;
  block_written_size : Z;
  block_created_mtx : bool }.

(** The locals of [setup_client_iouring]; [out] are the sends submitted
    (socket, bytes), [ver_printed] the verification result it printed. *)
Record client := Client {
  c_s : Z;
  c_count : Z;
  flag_block_filled : Z;
  c_buffer : list byte;
  c_buffer2 : list byte;
  c_msg_arr : ptr;
  L_arrays_p_cont : ptr;
  block_dummy : ptr;
  cq_head : nat;
  cq_tail : nat;
  out : list (Z * list byte);
  ver_printed : option Z;
  sh : shared }.

Definition set_count (n : Z) (c : client) : client :=
  Client (c_s c) n (flag_block_filled c) (c_buffer c) (c_buffer2 c) (c_msg_arr c) (L_arrays_p_cont c) (block_dummy c)
    (cq_head c) (cq_tail c) (out c) (ver_printed c) (sh c).
Definition set_filled (c : client) : client :=
  Client (c_s c) (c_count c) 1 (c_buffer c) (c_buffer2 c) (c_msg_arr c) (L_arrays_p_cont c) (block_dummy c)
    (cq_head c) (cq_tail c) (out c) (ver_printed c) (sh c).
Definition set_c_buffer (l : list byte) (c : client) : client :=
  Client (c_s c) (c_count c) (flag_block_filled c) l (c_buffer2 c) (c_msg_arr c) (L_arrays_p_cont c) (block_dummy c)
    (cq_head c) (cq_tail c) (out c) (ver_printed c) (sh c).
Definition set_c_buffer2 (l : list byte) (c : client) : client :=
  Client (c_s c) (c_count c) (flag_block_filled c) (c_buffer c) l (c_msg_arr c) (L_arrays_p_cont c) (block_dummy c)
    (cq_head c) (cq_tail c) (out c) (ver_printed c) (sh c).
Definition set_block (cont blk : ptr) (ver : Z) (s : shared) (c : client) : client :=
  Client (c_s c) (c_count c) (flag_block_filled c) (c_buffer c) (c_buffer2 c) (c_msg_arr c) cont blk
    (cq_head c) (cq_tail c) (out c) (Some ver) s.
(** The kernel posts a completion; the program consumes one. *)
Definition post (c : client) : client :=
  Client (c_s c) (c_count c) (flag_block_filled c) (c_buffer c) (c_buffer2 c) (c_msg_arr c) (L_arrays_p_cont c) (block_dummy c)
    (cq_head c) (S (cq_tail c)) (out c) (ver_printed c) (sh c).
Definition cqe_seen (c : client) : client :=
  Client (c_s c) (c_count c) (flag_block_filled c) (c_buffer c) (c_buffer2 c) (c_msg_arr c) (L_arrays_p_cont c) (block_dummy c)
    (S (cq_head c)) (cq_tail c) (out c) (ver_printed c) (sh c).
Definition send (sock : Z) (bytes : list byte) (c : client) : client :=
  post (Client (c_s c) (c_count c) (flag_block_filled c) (c_buffer c) (c_buffer2 c) (c_msg_arr c) (L_arrays_p_cont c) (block_dummy c)
    (cq_head c) (cq_tail c) (out c ++ [(sock, bytes)]) (ver_printed c) (sh c)).

Section code.
Context {sod : Sodium} {clk : Clock} {pb : Protobuf} {st : Stray}.

(** Which of the two buffers a call is given. *)
Inductive which := Buffer | Buffer2.

Definition buffer_get (w : which) (c : client) : list byte :=
  match w with Buffer => c_buffer c | Buffer2 => c_buffer2 c end.
Definition buffer_set (w : which) (l : list byte) (c : client) : client :=
  match w with Buffer => set_c_buffer l c | Buffer2 => set_c_buffer2 l c end.

(** [send_STATUS], and [send_need_more_msg] and [send_ACKN_OK], which have its
    body with a fixed status. *)
Definition send_STATUS (c : client) (sock : Z) (w : which) (status : Z) : M client :=
  bytes ← client_send_ONLY_status_code status;
  if (length bytes <=? BUFSIZE)%nat then
    let c := buffer_set w (overwrite (buffer_get w c) bytes 0) c in
    mret (send sock (take (length bytes) (buffer_get w c)) c)
  else fail OutOfBounds.

Definition send_need_more_msg (c : client) (sock : Z) (w : which) : M client := send_STATUS c sock w IPC_NEED_MORE.
Definition send_ACKN_OK (c : client) (sock : Z) (w : which) : M client := send_STATUS c sock w IPC_ACKN_OK.

(** The loop that checks all messages: stops at the first that fails. *)
Fixpoint verify_all (n : nat) (i : Z) (cont : ptr) (ver_result : Z) : M Z :=
  match n with
  | O => mret ver_result
  | S n =>
      c ← load (A:=l_msg_container) cont;
      rez ← merkle_verify_message EXPONENT i (main_layer_pointer c);
      if rez =? 0 then mret ver_result else verify_all n (i + 1) cont (ver_result + rez)
  end.

(** The last message: tree, block, verification, publication. *)
Definition make_block (fuel : nat) (c : client) : M client :=
  cont ← client_calc_merkle_tree EXPONENT (c_msg_arr c);
  blk ← processing_block fuel cont;
  ver_result ← verify_all BUFSIZEFORMESSAGE 0 cont 0;
  bytes ← P2P_serialize_block_to_sock blk;
  if (length bytes <=? 4096)%nat then
    let s := Shared 1 (overwrite (buffer_BLOCK_DATA (sh c)) bytes 0) (Z.of_nat (length bytes)) false in
    mret (set_filled (set_block cont blk ver_result s c))
  else fail OutOfBounds.

(** The switch over the server's status. *)
Definition client_switch (fuel : nat) (FLAG_FROM_SERVER res : Z) (c : client) : M client :=
  if FLAG_FROM_SERVER =? IPC_ASK_NEED_MSG then send_STATUS c (c_s c) Buffer2 IPC_NEED_MORE else
  if FLAG_FROM_SERVER =? IPC_OK then send_need_more_msg c res Buffer else
  if FLAG_FROM_SERVER =? IPC_MESSAGE_SENDED then
    if c_count c <? Z.of_nat BLOCKSIZE - 1 then
      deserialize_data_from_server (take (Z.to_nat res) (c_buffer c)) (padd (c_msg_arr c) (c_count c)) ;;
      send_STATUS (set_count (u64 (c_count c + 1)) c) (c_s c) Buffer IPC_ACKN_OK
    else if c_count c =? Z.of_nat BLOCKSIZE - 1 then
      deserialize_data_from_server (take (Z.to_nat res) (c_buffer c)) (padd (c_msg_arr c) (c_count c)) ;;
      c ← send_STATUS c (c_s c) Buffer2 IPC_ENOUGH;
      make_block fuel c
    else send_STATUS c (c_s c) Buffer2 IPC_ERROR
  else if FLAG_FROM_SERVER =? IPC_ALL_BLOCK_MSG_SENDED then
    c ← send_STATUS c (c_s c) Buffer2 IPC_ALL_BLOCK_RECEIVED;
    mret (set_filled c)
  else mret c.

(** One turn of the loop, given the bytes the receive stores.  Once the block
    is filled the thread waits for a completion and leaves it in the queue. *)
Definition client_turn (fuel : nat) (c : client) (bytes : list byte) : M client :=
  if negb (flag_block_filled c =? 0) then mret c else
  if negb (cq_head c =? cq_tail c)%nat then fail Indeterminate else
  let c := post (set_c_buffer (overwrite (c_buffer c) bytes 0) c) in
  let c := cqe_seen c in
  let res := Z.of_nat (length bytes) in
  FLAG_FROM_SERVER ← read_response_ONLY_STATUS (take (Z.to_nat res) (c_buffer c));
  c ← client_switch fuel FLAG_FROM_SERVER res c;
  mret (cqe_seen c).

Fixpoint client_run (fuel : nat) (c : client) (ins : list (list byte)) : M client :=
  match ins with
  | [] => mret c
  | bytes :: ins => c ← client_turn fuel c bytes; client_run fuel c ins
  end.

(** After the connection was made: the mutex is taken, the buffers and the
    512 message slots are allocated. *)
Definition client_start (s : Z) (sh0 : shared) : M client :=
  let sh0 := Shared (flag_block_created sh0) (buffer_BLOCK_DATA sh0) (block_written_size sh0) true in
  msg_arr ← calloc (Z.of_nat BLOCKSIZE) (SignedMessage NULL 0 (zeros crypto_sign_PUBLICKEYBYTES));
  for_ BLOCKSIZE (fun i =>
    p ← calloc (Z.of_nat BUFSIZEFORMESSAGE) x00;
    update (padd msg_arr (Z.of_nat i)) (fun sm => SignedMessage p (sm_length sm) (sm_public_key sm))) ;;
  mret (Client s 0 0 (zeros BUFSIZE) (zeros BUFSIZE) msg_arr NULL NULL 1 1 [] None sh0).

(** After the loop: what was allocated is released. *)
Definition client_teardown (c : client) : M unit :=
  for_ BLOCKSIZE (fun i => sm ← load_ix (A:=signed_message_t) (c_msg_arr c) (Z.of_nat i); free (sm_message sm)) ;;
  for_ (Z.to_nat EXPONENT) (fun i =>
    cont ← load (A:=l_msg_container) (L_arrays_p_cont c);
    l ← load_ix (A:=ptr) (layers_for_destr cont) (Z.of_nat i);
    destoroy_a_layer l) ;;
  cont ← load (A:=l_msg_container) (L_arrays_p_cont c);
  free (layers_for_destr cont) ;;
  cont ← load (A:=l_msg_container) (L_arrays_p_cont c);
  free (main_layer_pointer cont) ;;
  cont ← load (A:=l_msg_container) (L_arrays_p_cont c);
  free (messages_arr cont) ;;
  free (c_msg_arr c) ;;
  free (L_arrays_p_cont c) ;;
  free (block_dummy c).
End code.

(** ** The message slots *)

(** The client's array [a] has 512 slots, each with a buffer of 512 bytes; the
    first ones hold the messages and keys [got]. *)
Record slots (m : mem) (a : positive) (bufs : list positive) (got : list (list byte * list byte)) : Prop := Slots {
  sl_arr : exists sms, heap m !! a = Some (BMsgs sms) /\ length sms = BLOCKSIZE /\
    forall i b, bufs !! i = Some b -> exists sm, sms !! i = Some sm /\ sm_message sm = Ptr b 0 /\
      length (sm_public_key sm) = crypto_sign_PUBLICKEYBYTES /\
      forall d k, got !! i = Some (d, k) -> sm_length sm = Z.of_nat (length d) /\ sm_public_key sm = k;
  sl_len : length bufs = BLOCKSIZE;
  sl_buf i b : bufs !! i = Some b -> exists l, heap m !! b = Some (BBytes l) /\ length l = BUFSIZEFORMESSAGE /\
    forall d k, got !! i = Some (d, k) -> (length d <= BUFSIZEFORMESSAGE)%nat /\ take (length d) l = d;
  sl_NoDup : NoDup (a :: bufs) }.

(** The slots do not notice what happens elsewhere. *)
Lemma slots_frame m m' a bufs got :
  slots m a bufs got -> (forall b, b ∈ a :: bufs -> heap m' !! b = heap m !! b) -> slots m' a bufs got.
Proof.
  intros [(sms & Ha & Hl & Hs) Hlen Hb Hnd] Heq. split; [|done| |done].
  - exists sms. rewrite Heq by set_solver. done.
  - intros i b Hi. destruct (Hb i b Hi) as (l & Hl' & H). exists l.
    rewrite Heq; [done|]. apply list_elem_of_lookup_2 in Hi. set_solver.
Qed.

Lemma slots_live m a bufs got b : slots m a bufs got -> b ∈ a :: bufs -> is_Some (heap m !! b).
Proof.
  intros Hs [->|[i Hi]%list_elem_of_lookup]%elem_of_cons.
  - destruct (sl_arr _ _ _ _ Hs) as (sms & Ha & _). by eexists.
  - destruct (sl_buf _ _ _ _ Hs i b Hi) as (l & Hl & _). by eexists.
Qed.

(** Writing the slots keeps the heap well formed. *)
Lemma slots_wf m m' a bufs got r t :
  wf m -> slots m a bufs got -> next m' = next m -> (forall b, b ∉ a :: bufs -> heap m' !! b = heap m !! b) ->
  wf (Mem (heap m') (next m') r t).
Proof.
  intros Hwf Hsl Hn Hold b Hb. cbn in Hb |- *. rewrite Hold; [apply Hwf; lia|]. intros Hin.
  destruct (slots_live _ _ _ _ _ Hsl Hin) as [blk Hblk]. rewrite Hwf in Hblk by lia. done.
Qed.

(** A slot that was filled is a live message. *)
Lemma slots_msg m a bufs got i d k :
  slots m a bufs got -> got !! i = Some (d, k) -> (length got <= BLOCKSIZE)%nat ->
  exists sm, msg_at (heap m) (Ptr a (Z.of_nat i)) sm d /\ sm_public_key sm = k.
Proof.
  intros [(sms & Ha & Hl & Hs) Hlen Hb Hnd] Hg Hgl. pose proof (lookup_lt_Some _ _ _ Hg) as Hi.
  destruct (lookup_lt_is_Some_2 bufs i) as [b Hbi]; [lia|].
  destruct (Hs i b Hbi) as (sm & Hsm & Hp & _ & Hgi). destruct (Hgi d k Hg) as [Hlm Hk].
  destruct (Hb i b Hbi) as (l & Hlb & Hll & Hd). destruct (Hd d k Hg) as [Hdl Ht].
  exists sm. split; [|done]. split.
  - exists a, (Z.of_nat i), sms. by rewrite zlookup_of_nat.
  - rewrite Hp, Hlm, Nat2Z.id. rewrite <-Ht at 2. apply bytes_at_prefix; [done|lia].
Qed.

Section facts.
Context {sod : Sodium} {clk : Clock} {pb : Protobuf} {st : Stray} {ok : SodiumOk sod} {pbok : ProtobufOk pb}.

(** Filling the next slot. *)
Lemma deserialize_data_spec m a bufs got buff d k ts tn sc :
  slots m a bufs got -> (length got < BLOCKSIZE)%nat ->
  ipc_message__unpack buff = Some (MkIpcMessage (Some d) (Some k) ts tn sc) ->
  (length d <= BUFSIZEFORMESSAGE)%nat -> length k = crypto_sign_PUBLICKEYBYTES ->
  wp (deserialize_data_from_server buff (Ptr a (Z.of_nat (length got))))
    (fun _ m' => slots m' a bufs (got ++ [(d, k)]) /\ next m' = next m /\ rng m' = rng m /\ ticks m' = ticks m /\
       forall b, b ∉ a :: bufs -> heap m' !! b = heap m !! b) m.
Proof.
  intros Hsl Hlt Hu Hd Hk. pose proof Hsl as [(sms & Ha & Hl & Hs) Hlen Hb Hnd]. set (n := length got) in *.
  destruct (lookup_lt_is_Some_2 bufs n) as [b Hbn]; [lia|].
  destruct (Hs n b Hbn) as (sm & Hsm & Hp & Hpk & _). destruct (Hb n b Hbn) as (l & Hlb & Hll & _).
  pose proof (list_elem_of_lookup_2 _ _ _ Hbn) as Hbin. apply NoDup_cons in Hnd as [Han Hnd].
  assert (b <> a) as Hba by (intros ->; done).
  unfold deserialize_data_from_server. rewrite Hu. cbn [pubkey transaction_msg].
  unfold put_a_PK. rewrite Hk. cbn [Nat.leb]. rewrite take_ge by lia.
  apply wp_bind. eapply (wp_update (H:=storable_msg)); [exact Ha|by rewrite zlookup_of_nat|]. rewrite Nat2Z.id.
  apply wp_bind. eapply (wp_update (H:=storable_msg));
    [apply lookup_insert_eq|rewrite zlookup_of_nat; apply list_lookup_insert_eq; lia|].
  mem_cbn. rewrite Nat2Z.id, insert_insert_eq, list_insert_insert_eq. cbn [sm_message sm_length sm_public_key].
  apply wp_bind. eapply (wp_load (H:=storable_msg)); [apply lookup_insert_eq|rewrite zlookup_of_nat; apply list_lookup_insert_eq; lia|].
  cbn [sm_message]. rewrite Hp. eapply wp_store_bytes; [mem_cbn; rewrite lookup_insert_ne by done; exact Hlb|lia|cbn; lia|].
  mem_cbn. change (Z.to_nat 0) with 0%nat.
  split_and!; [|done..|intros c Hc; apply not_elem_of_cons in Hc as [Hca Hcb]; rewrite !lookup_insert_ne; [done|done|by intros <-]].
  assert (forall i x, (got ++ [(d, k)]) !! i = Some x -> i <> n -> got !! i = Some x) as Hold.
  { intros i x Hi Hne. apply lookup_app_Some in Hi as [Hi|[Hge Hi]]; [done|].
    apply list_lookup_singleton_Some in Hi as [Hi _]. fold n in Hge, Hi. lia. }
  assert ((got ++ [(d, k)]) !! n = Some (d, k)) as Hnew by by apply list_lookup_middle.
  split; [|done| |by apply NoDup_cons].
  - eexists. split; [mem_cbn; rewrite lookup_insert_ne by done; apply lookup_insert_eq|]. split; [by rewrite length_insert|].
    intros i b' Hb'. destruct (decide (i = n)) as [->|Hne].
    + rewrite Hbn in Hb'. injection Hb' as <-. eexists. split; [apply list_lookup_insert_eq; lia|]. cbn.
      split_and!; [done|done|]. intros d' k'. rewrite Hnew. by intros [= <- <-].
    + rewrite list_lookup_insert_ne by done. destruct (Hs i b' Hb') as (sm' & H1 & H2 & H3 & H4). exists sm'.
      split_and!; [done..|]. intros d' k' Hg. apply H4. by apply Hold.
  - intros i b' Hb'. mem_cbn. destruct (decide (i = n)) as [->|Hne].
    + rewrite Hbn in Hb'. injection Hb' as <-. rewrite lookup_insert_eq. eexists. split; [done|].
      unfold overwrite. rewrite take_0. cbn [app]. split; [rewrite length_app, length_drop; lia|].
      intros d' k'. rewrite Hnew. intros [= <- <-]. split; [done|]. apply take_app_length.
    + pose proof (list_elem_of_lookup_2 _ _ _ Hb') as Hb'in.
      rewrite !lookup_insert_ne; [| by intros -> | intros ->; by eapply Hne, NoDup_lookup].
      destruct (Hb i b' Hb') as (l' & H1 & H2 & H3). exists l'. split_and!; [done..|]. intros d' k' Hg. apply (H3 d' k'). by apply Hold.
Qed.

(** The first [j] slots have got their buffers. *)
Record allotted (m0 m : mem) (a : positive) (bufs : list positive) (j : nat) : Prop := Allotted {
  al_arr : exists sms, heap m !! a = Some (BMsgs sms) /\ length sms = BLOCKSIZE /\
    (forall i sm, sms !! i = Some sm -> length (sm_public_key sm) = crypto_sign_PUBLICKEYBYTES) /\
    forall i b, bufs !! i = Some b -> exists sm, sms !! i = Some sm /\ sm_message sm = Ptr b 0;
  al_len : length bufs = j;
  al_buf b : b ∈ bufs -> heap m !! b = Some (BBytes (zeros BUFSIZEFORMESSAGE)) /\ (a < b < next m)%positive;
  al_NoDup : NoDup bufs;
  al_next : a = next m0 /\ (a < next m)%positive;
  al_old b : b <> a -> b ∉ bufs -> heap m !! b = heap m0 !! b;
  al_wf : wf m;
  al_env : rng m = rng m0 /\ ticks m = ticks m0 }.

Lemma allot_step m0 m a bufs j :
  allotted m0 m a bufs j -> (j < BLOCKSIZE)%nat ->
  wp (p ← calloc (Z.of_nat BUFSIZEFORMESSAGE) x00;
      update (padd (Ptr a 0) (Z.of_nat j)) (fun sm => SignedMessage p (sm_length sm) (sm_public_key sm)))
    (fun _ m' => allotted m0 m' a (bufs ++ [next m]) (S j)) m.
Proof.
  intros [(sms & Ha & Hl & Hpk & Hs) Hlen Hb Hnd [Hn0 Hn] Hold Hwf [Hr Ht]] Hj.
  destruct (lookup_lt_is_Some_2 sms j) as [sm Hsm]; [lia|].
  apply wp_bind. eapply wp_alloc. mem_cbn. rewrite Z.add_0_l.
  eapply (wp_update (H:=storable_msg)); [mem_cbn; rewrite lookup_insert_ne by lia; exact Ha|by rewrite zlookup_of_nat|].
  mem_cbn. rewrite !Nat2Z.id. fold (zeros BUFSIZEFORMESSAGE).
  assert (forall b, b ∈ bufs ++ [next m] <-> b ∈ bufs \/ b = next m) as Hin by (intros b; rewrite elem_of_app, list_elem_of_singleton; done).
  split; mem_cbn.
  - eexists. split; [apply lookup_insert_eq|]. split; [by rewrite length_insert|]. split.
    + intros i sm' [(-> & <- & _)|(_ & Hi)]%list_lookup_insert_Some; [exact (Hpk _ _ Hsm)|by eapply Hpk].
    + intros i b Hi. destruct (decide (i = j)) as [->|Hne].
      * rewrite <-Hlen, list_lookup_middle in Hi by done. injection Hi as <-. eexists. split; [apply list_lookup_insert_eq; lia|done].
      * rewrite list_lookup_insert_ne by done. apply Hs. apply lookup_app_Some in Hi as [Hi|[Hge Hi]]; [done|].
        apply list_lookup_singleton_Some in Hi as [Hi _]. lia.
  - rewrite length_app. cbn. lia.
  - intros b [Hin'| ->]%Hin.
    + destruct (Hb b Hin') as [H1 H2]. rewrite !lookup_insert_ne by lia. split; [done|lia].
    + rewrite lookup_insert_ne, lookup_insert_eq by lia. split; [done|lia].
  - apply NoDup_app. split_and!; [done| |apply NoDup_singleton].
    intros b Hb' ->%list_elem_of_singleton. destruct (Hb _ Hb') as [_ ?]. lia.
  - split; [done|lia].
  - intros b Hba Hbn. rewrite Hin in Hbn. rewrite !lookup_insert_ne by naive_solver. apply Hold; naive_solver.
  - solve_wf.
  - done.
Qed.

Lemma client_start_spec s sh0 m :
  wf m ->
  wp (client_start s sh0)
    (fun c m' => exists a bufs, slots m' a bufs [] /\ wf m' /\ rng m' = rng m /\ ticks m' = ticks m /\
       (forall b, b ∉ a :: bufs -> heap m' !! b = heap m !! b) /\ (forall b, b ∈ a :: bufs -> (next m <= b)%positive) /\
       c = Client s 0 0 (zeros BUFSIZE) (zeros BUFSIZE) (Ptr a 0) NULL NULL 1 1 [] None
             (Shared (flag_block_created sh0) (buffer_BLOCK_DATA sh0) (block_written_size sh0) true)) m.
Proof.
  intros Hwf. unfold client_start. cbv zeta. apply wp_bind. eapply wp_alloc. set (sms0 := replicate _ _). mem_cbn.
  set (m1 := Mem _ _ _ _). apply wp_bind. eapply wp_mono.
  { apply (wp_for (fun j m' => exists bufs, allotted m m' (next m) bufs j)).
    - exists []. split; unfold m1; mem_cbn.
      + exists sms0. split; [apply lookup_insert_eq|]. split; [apply length_replicate|]. split; [|done].
        intros i sm Hi. by apply lookup_replicate_1 in Hi as [-> _].
      + done.
      + intros b []%not_elem_of_nil.
      + apply NoDup_nil_2.
      + split; [done|lia].
      + intros b Hb _. by rewrite lookup_insert_ne by done.
      + solve_wf.
      + done.
    - intros j m2 Hj [bufs Hal]. eapply wp_mono; [by apply (allot_step m m2)|]. intros [] m3 H3. by eexists. }
  intros [] m2 [bufs [(sms & Ha & Hl & Hpk & Hs) Hlen Hb Hnd [_ Hn] Hold Hwf2 [Hr Ht]]].
  apply wp_ret. exists (next m), bufs. split_and!; [|done|done|done|intros b [? ?]%not_elem_of_cons; by apply Hold| |done].
  - split; [|done| |].
    + exists sms. split_and!; [done..|]. intros i b Hi. destruct (Hs i b Hi) as (sm & Hsm & Hp).
      exists sm. split_and!; [done|done|by eapply Hpk|done].
    + intros i b Hi. apply list_elem_of_lookup_2 in Hi. destruct (Hb b Hi) as [H1 _]. eexists. split; [exact H1|]. split; [by rewrite length_zeros|done].
    + apply NoDup_cons. split; [|done]. intros Hin. destruct (Hb _ Hin). lia.
  - intros b [->|Hin]%elem_of_cons; [lia|]. destruct (Hb b Hin). lia.
Qed.

(** ** Turns of the loop *)

(** The status message of clock readings [t] and [S t]. *)
Definition client_status (t : nat) (status : Z) : IpcMessage :=
  MkIpcMessage None None (strftime_stamp (gmtime (time_now t))) (epoch_ns (S t)) status.

Lemma client_status_wf t status : 0 <= status < 12 -> ipc_wf (client_status t status).
Proof. intros Hs. pose proof (epoch_ns_range (S t)). split_and!; cbn; lia. Qed.

Lemma wp_send_STATUS c sock w status (Q : client -> mem -> Prop) m :
  0 <= status < 12 ->
  (forall l, Q (send sock (ipc_message__pack (client_status (ticks m) status)) (buffer_set w l c))
               (Mem (heap m) (next m) (rng m) (S (S (ticks m))))) ->
  wp (send_STATUS c sock w status) Q m.
Proof.
  intros Hst HQ. unfold send_STATUS, client_send_ONLY_status_code.
  apply wp_bind, wp_bind, wp_tick, wp_bind. mem_cbn. eapply wp_run; [apply get_epoch_ns_run|]. mem_cbn. apply wp_ret.
  fold (client_status (ticks m) status).
  pose proof (ipc_pack_size _ (client_status_wf (ticks m) status Hst)) as Hl.
  cbn [client_status transaction_msg pubkey timestamp olen] in Hl. rewrite strftime_stamp_length in Hl.
  fold (client_status (ticks m) status) in Hl.
  destruct (Nat.leb_spec (length (ipc_message__pack (client_status (ticks m) status))) BUFSIZE); [|lia].
  apply wp_ret.
  destruct w; cbn [buffer_get buffer_set c_buffer c_buffer2 set_c_buffer set_c_buffer2]; rewrite take_overwrite0; [apply (HQ (overwrite (c_buffer c) _ 0))|apply (HQ (overwrite (c_buffer2 c) _ 0))].
Qed.

(** While messages are collected. *)
Record collecting (m : mem) (c : client) (a : positive) (bufs : list positive) (got : list (list byte * list byte)) : Prop := Collecting {
  co_wf : wf m;
  co_slots : slots m a bufs got;
  co_count : c_count c = Z.of_nat (length got);
  co_lt : (length got < BLOCKSIZE)%nat;
  co_arr : c_msg_arr c = Ptr a 0;
  co_cq : cq_head c = cq_tail c;
  co_filled : flag_block_filled c = 0 }.

(** The message a packet carries. *)
Definition data_of (bytes : list byte) : list (list byte * list byte) :=
  match ipc_message__unpack bytes with
  | Some (MkIpcMessage (Some d) (Some k) _ _ sc) => if sc =? IPC_MESSAGE_SENDED then [(d, k)] else []
  | _ => []
  end.

(** Packets of the server: its question, or a message that fits a slot. *)
Inductive packet (bytes : list byte) : Prop :=
| Pk_ask msg : ipc_message__unpack bytes = Some msg -> status_code msg = IPC_ASK_NEED_MSG -> packet bytes
| Pk_data d k ts tn : ipc_message__unpack bytes = Some (MkIpcMessage (Some d) (Some k) ts tn IPC_MESSAGE_SENDED) ->
    (length d <= BUFSIZEFORMESSAGE)%nat -> length k = crypto_sign_PUBLICKEYBYTES -> packet bytes.

(** The replies: socket and status of every send. *)
Definition replies (l : list (Z * list byte)) : list (Z * option Z) :=
  (fun x => (x.1, status_code <$> ipc_message__unpack x.2)) <$> l.

(** What a turn on a packet adds to them. *)
Definition reply_to (bytes : list byte) : Z := if decide (data_of bytes = []) then IPC_NEED_MORE else IPC_ACKN_OK.

Lemma replies_send sock t status c :
  0 <= status < 12 ->
  replies (out (send sock (ipc_message__pack (client_status t status)) c)) = replies (out c) ++ [(sock, Some status)].
Proof.
  intros Hst. cbn [out send post]. unfold replies. rewrite fmap_app. cbn.
  by rewrite ipc_unpack_pack by by apply client_status_wf.
Qed.

(** The status a turn dispatches on, and the state it starts the switch in. *)
Lemma client_turn_switch fuel c bytes msg Q m :
  cq_head c = cq_tail c -> flag_block_filled c = 0 -> ipc_message__unpack bytes = Some msg ->
  let c1 := cqe_seen (post (set_c_buffer (overwrite (c_buffer c) bytes 0) c)) in
  wp (client_switch fuel (status_code msg) (Z.of_nat (length bytes)) c1) (fun c' m' => Q (cqe_seen c') m') m ->
  wp (client_turn fuel c bytes) Q m.
Proof.
  intros Hcq Hfl Hu c1 Hw. unfold client_turn. rewrite Hfl, Hcq, Nat.eqb_refl. cbn [negb Z.eqb]. cbv zeta. fold c1.
  apply wp_bind. unfold read_response_ONLY_STATUS. rewrite Nat2Z.id.
  change (c_buffer c1) with (overwrite (c_buffer c) bytes 0). rewrite take_overwrite0, Hu. apply wp_ret.
  apply wp_bind. eapply wp_mono; [exact Hw|]. intros c' m' HQ. by apply wp_ret.
Qed.

(** A turn on a packet other than the last message. *)
Lemma client_turn_packet fuel c bytes m a bufs got :
  collecting m c a bufs got -> packet bytes -> (length (got ++ data_of bytes) < BLOCKSIZE)%nat ->
  wp (client_turn fuel c bytes)
    (fun c' m' => collecting m' c' a bufs (got ++ data_of bytes) /\ rng m' = rng m /\ next m' = next m /\
       (forall b, b ∉ a :: bufs -> heap m' !! b = heap m !! b) /\
       replies (out c') = replies (out c) ++ [(c_s c, Some (reply_to bytes))] /\ sh c' = sh c /\ c_s c' = c_s c) m.
Proof.
  intros [Hwf Hsl Hc Hlt Ha Hcq Hfl] Hp Hl. unfold reply_to, data_of in *. destruct Hp as [msg Hu Hst|d k ts tn Hu Hd Hk].
  - rewrite Hu. assert (match msg with MkIpcMessage (Some d) (Some k) _ _ sc => if sc =? IPC_MESSAGE_SENDED then [(d, k)] else [] | _ => [] end = []) as ->.
    { destruct msg as [[d|] [k|] ts tn sc]; try done. cbn in Hst. by rewrite Hst. }
    eapply client_turn_switch; [done|done|exact Hu|]. rewrite Hst. unfold client_switch. cbn [Z.eqb Pos.eqb].
    apply wp_send_STATUS; [lia|]. intros l. rewrite app_nil_r. split_and!; [|done|done|done| |done|done].
    + split; try done; [by eapply slots_frame|cbn; lia].
    + cbn [out cqe_seen]. by rewrite replies_send by lia.
  - rewrite Hu in Hl |- *. cbn [Z.eqb Pos.eqb] in Hl |- *. rewrite length_app in Hl. cbn [length] in Hl.
    eapply client_turn_switch; [done|done|exact Hu|]. unfold client_switch. cbn [status_code Z.eqb Pos.eqb].
    set (c1 := cqe_seen _). change (c_count c1) with (c_count c). rewrite Hc.
    destruct (Z.ltb_spec (Z.of_nat (length got)) (Z.of_nat BLOCKSIZE - 1)); [|lia].
    change (c_msg_arr c1) with (c_msg_arr c). rewrite Ha, Nat2Z.id. cbn [padd]. rewrite Z.add_0_l.
    change (c_buffer c1) with (overwrite (c_buffer c) bytes 0). rewrite take_overwrite0.
    apply wp_bind. eapply wp_mono; [by eapply deserialize_data_spec|].
    intros [] m1 (Hsl1 & Hn & Hr & Ht & Hold).
    apply wp_send_STATUS; [lia|]. intros l. split_and!; [|done|done|done| |done|done].
    + split; try done.
      * by eapply (slots_wf m m1).
      * by eapply slots_frame.
      * cbn. rewrite u64_small, length_app; cbn; lia.
      * rewrite length_app. cbn. lia.
      * cbn. lia.
    + cbn [out cqe_seen]. by rewrite replies_send by lia.
Qed.

(** ** The block *)

Lemma verify_all_spec n i acc gc lp la arr T mp mb m :
  wf m -> heap m !! gc = Some (BConts [LMsgContainer (Ptr lp 0) la arr]) ->
  vtree (heap m) lp 9 T mp mb (level_hps T mp mb) -> (i + n <= BUFSIZEFORMESSAGE)%nat ->
  wp (verify_all n (Z.of_nat i) (Ptr gc 0) acc)
    (fun r m' => r = acc + Z.of_nat n /\ heap m' = heap m /\ wf m') m.
Proof.
  intros Hwf Hgc Hv. revert i acc m Hwf Hgc Hv. induction n as [|n IH]; intros i acc m Hwf Hgc Hv Hn; cbn [verify_all].
  - apply wp_ret. split_and!; [lia|done|done].
  - apply wp_bind. eapply (wp_load (H:=storable_cont)); [exact Hgc|done|]. cbn [main_layer_pointer].
    assert (i < 2 ^ 9)%nat as Hi by (apply (Nat.lt_le_trans _ BUFSIZEFORMESSAGE); [lia|apply Nat.eq_le_incl; reflexivity]).
    apply wp_bind. eapply wp_mono; [exact (verify_genuine lp 9 T mp mb i m Hwf Hv ltac:(lia) Hi)|].
    intros r m1 (-> & Hh & Hwf1 & _). cbn [Z.eqb]. replace (Z.of_nat i + 1) with (Z.of_nat (S i)) by lia.
    eapply wp_mono; [apply IH; [done|by rewrite Hh|by rewrite Hh|lia]|].
    intros r m2 (-> & Hh2 & Hwf2). split_and!; [lia|congruence|done].
Qed.

(** The bytes of the received messages, and the root over them. *)
Definition got_bytes (got : list (list byte * list byte)) (i : nat) : list byte := (default ([], []) (got !! i)).1.

Definition got_root (got : list (list byte * list byte)) : list byte :=
  merkle_root 9 ((fun x => crypto_generichash x.1) <$> got).

Lemma got_root_seq got :
  length got = BLOCKSIZE ->
  merkle_root 9 ((fun i => crypto_generichash (got_bytes got i)) <$> List.seq 0 (2 ^ 9)) = got_root got.
Proof.
  intros Hl. unfold got_root. f_equal. replace (2 ^ 9)%nat with (length got) by (rewrite Hl; reflexivity).
  apply list_eq. intros i. rewrite !list_lookup_fmap. unfold got_bytes. destruct (got !! i) as [x|] eqn:Hi.
  - rewrite lookup_seq_lt by by eapply lookup_lt_Some. cbn. by rewrite Hi.
  - rewrite lookup_seq_ge by by apply lookup_ge_None. done.
Qed.

(** The date in the block made at clock reading [t]. *)
Definition made_date (t : nat) : list byte := strftime_stamp (gmtime (time_now t)).

Lemma made_block_ok root i t : block_ok (made_block root i t) (made_date t).
Proof.
  pose proof (epoch_ns_range (S t)). pose proof (epoch_ns_range (S (S t))).
  split; cbn [made_block bl_nonce bl_date bl_timestamp_begin bl_timestamp_end bl_difficulty bl_previous_block bl_merkle_root];
    [apply randombytes_length| |apply strftime_stamp_text|done|lia|lia|lia|done|apply generichash_length].
  exists (zeros 11). unfold stamp. by rewrite <-app_assoc.
Qed.

(** The client after it made the block. *)
Definition with_block (cont blk : ptr) (bytes : list byte) (c : client) : client :=
  set_filled (set_block cont blk (Z.of_nat BUFSIZEFORMESSAGE)
    (Shared 1 (overwrite (buffer_BLOCK_DATA (sh c)) bytes 0) (Z.of_nat (length bytes)) false) c).

(** The heap once the block was made from the slots in [m]: the tree over the
    received messages and the block, nothing else new. *)
Definition built (m m' : mem) (a : positive) (got : list (list byte * list byte)) (gc b : positive) (blk : block_t) : Prop :=
  exists m1 la lp arr T, client_tree m m1 9 (fun i => padd (Ptr a 0) (Z.of_nat i)) (got_bytes got) gc la lp arr T /\
    (next m1 <= b)%positive /\ heap m' = <[b := BBlks [blk]]> (heap m1).

Lemma built_old m m' a got gc b blk c :
  built m m' a got gc b blk -> (c < next m)%positive -> heap m' !! c = heap m !! c.
Proof.
  intros (m1 & la & lp & arr & T & Hct & Hb & Hh) Hc. pose proof (ct_grows _ _ _ _ _ _ _ _ _ _ Hct) as Hg.
  pose proof (g_next _ _ _ _ Hg). rewrite Hh, lookup_insert_ne by lia.
  apply (g_frame _ _ _ _ Hg); [|apply not_elem_of_nil]. intros Hin%(g_range _ _ _ _ Hg). lia.
Qed.

(** The last message filled, the block built: nothing else was touched. *)
Lemma keeps_built m m1 m' a bufs got gc b blk :
  next m1 = next m -> (forall c, c ∉ a :: bufs -> heap m1 !! c = heap m !! c) -> built m1 m' a got gc b blk -> wf m' ->
  keeps (a :: bufs) m m'.
Proof.
  intros Hn Hold Hb Hwf. split; [done| |].
  - destruct Hb as (m2 & la & lp & arr & T & Hct & Hlt & Hh). pose proof (g_next _ _ _ _ (ct_grows _ _ _ _ _ _ _ _ _ _ Hct)) as H1.
    assert (b < next m')%positive by (eapply wf_lt; [exact Hwf|rewrite Hh; apply lookup_insert_eq]). lia.
  - intros c Hc Hnc. rewrite (built_old _ _ _ _ _ _ _ _ Hb) by lia. by apply Hold.
Qed.

Lemma built_slots m m' a bufs got gc b blk :
  wf m -> slots m a bufs got -> built m m' a got gc b blk -> slots m' a bufs got.
Proof.
  intros Hwf Hsl Hb. eapply slots_frame; [exact Hsl|]. intros c [v Hv]%(slots_live _ _ _ _ _ Hsl).
  eapply built_old; [exact Hb|by eapply wf_lt].
Qed.

Lemma make_block_spec fuel k c m a bufs got :
  wf m -> slots m a bufs got -> length got = BLOCKSIZE -> c_msg_arr c = Ptr a 0 ->
  (forall j, (j < k)%nat -> ~ solves (got_root got) 3 (rng m + j)) -> solves (got_root got) 3 (rng m + k) -> (k < fuel)%nat ->
  wp (make_block fuel c)
    (fun c' m' => exists gc b, let blk := made_block (got_root got) (rng m + k) (ticks m) in
       c' = with_block (Ptr gc 0) (Ptr b 0) (p2p__ipc_message__pack (block_msg blk (made_date (ticks m)))) c /\
       built m m' a got gc b blk /\ wf m') m.
Proof.
  intros Hwf Hsl Hl Ha Hno Hyes Hf. unfold make_block. rewrite Ha.
  assert (forall i, (i < 2 ^ 9)%nat -> exists sm, msg_at (heap m) (padd (Ptr a 0) (Z.of_nat i)) sm (got_bytes got i)) as Hmsg.
  { intros i Hi. destruct (lookup_lt_is_Some_2 got i) as [[d kk] Hgi]; [rewrite Hl; exact Hi|].
    destruct (slots_msg _ _ _ _ _ _ _ Hsl Hgi) as (sm & Hsm & _); [lia|]. exists sm. unfold got_bytes. rewrite Hgi. exact Hsm. }
  apply wp_bind. eapply wp_mono; [exact (client_calc_merkle_tree_spec 9 (Ptr a 0) (got_bytes got) m Hwf ltac:(lia) Hmsg)|].
  intros cont m1 (gc & la & lp & arr & T & -> & Hct).
  pose proof (client_tree_vtree _ _ _ _ _ _ _ _ _ _ Hwf Hct Hmsg) as Hv. pose proof (ct_grows _ _ _ _ _ _ _ _ _ _ Hct) as Hg.
  destruct (client_root_run _ _ 9 _ _ _ _ _ _ _ ltac:(lia) Hct) as (q & Hr & _ & Hb). rewrite got_root_seq in Hb by done.
  pose proof (g_rng _ _ _ _ Hg) as Hrng. pose proof (g_ticks _ _ _ _ Hg) as Htk. pose proof (g_wf _ _ _ _ Hg) as Hwf1.
  apply wp_bind. eapply wp_mono.
  { apply (processing_block_run fuel k (Ptr gc 0) q (got_root got) m1); [done|done|done|by rewrite Hrng|by rewrite Hrng|done]. }
  intros blk m2 (b & -> & Hlt & Hh & Hwf2). rewrite Hrng, Htk in Hh. set (bk := made_block _ _ _) in *.
  assert (forall b', (b' < next m1)%positive -> heap m2 !! b' = heap m1 !! b') as Hold
    by (intros b' Hb'; rewrite Hh; rewrite lookup_insert_ne by lia; done).
  apply wp_bind. eapply wp_mono.
  { apply (verify_all_spec BUFSIZEFORMESSAGE 0 0 gc lp (Ptr la 0) (Ptr arr 0) T (fun i => padd (Ptr a 0) (Z.of_nat i)) (got_bytes got) m2);
      [done| |by eapply (vtree_old m1)|done].
    rewrite Hold; [exact (ct_cont _ _ _ _ _ _ _ _ _ _ Hct)|]. eapply wf_lt; [done|exact (ct_cont _ _ _ _ _ _ _ _ _ _ Hct)]. }
  intros r m3 (-> & Hh3 & Hwf3). rewrite Z.add_0_l.
  assert (heap m3 !! b = Some (BBlks [bk])) as Hbk by (rewrite Hh3, Hh; apply lookup_insert_eq).
  apply wp_bind. eapply wp_run.
  { apply (serialize_block_run _ bk (made_date (ticks m))); [|apply made_block_ok].
    unfold load. by erewrite (block_at_ok (H:=storable_blk)) by exact Hbk. }
  pose proof (serialize_block_size bk (made_date (ticks m)) (made_block_ok _ _ _)) as Hsz.
  rewrite (proj2 (Nat.leb_le _ _) Hsz). apply wp_ret. exists gc, b. split_and!; [done| |done].
  exists m1, la, lp, arr, T. split_and!; [done|done|]. by rewrite Hh3.
Qed.

(** The turn on the last message. *)
Lemma client_turn_last fuel k0 c bytes d k m a bufs got :
  collecting m c a bufs got -> packet bytes -> data_of bytes = [(d, k)] -> length (got ++ [(d, k)]) = BLOCKSIZE ->
  let root := got_root (got ++ [(d, k)]) in
  (forall j, (j < k0)%nat -> ~ solves root 3 (rng m + j)) -> solves root 3 (rng m + k0) -> (k0 < fuel)%nat ->
  wp (client_turn fuel c bytes)
    (fun c' m' => exists m1 gc b c0 t, let blk := made_block root (rng m + k0) t in
       c' = cqe_seen (with_block (Ptr gc 0) (Ptr b 0) (p2p__ipc_message__pack (block_msg blk (made_date t))) c0) /\
       slots m1 a bufs (got ++ [(d, k)]) /\ wf m1 /\ next m1 = next m /\ (forall c, c ∉ a :: bufs -> heap m1 !! c = heap m !! c) /\
       built m1 m' a (got ++ [(d, k)]) gc b blk /\ wf m' /\
       replies (out c') = replies (out c) ++ [(c_s c, Some IPC_ENOUGH)] /\ sh c0 = sh c /\ c_msg_arr c0 = Ptr a 0 /\
       cq_head c' = cq_tail c') m.
Proof.
  intros [Hwf Hsl Hc Hlt Ha Hcq Hfl] Hp Hdat Hl root Hno Hyes Hf. rewrite length_app in Hl. cbn [length] in Hl.
  unfold data_of in Hdat. destruct Hp as [msg Hu Hst|d' k' ts tn Hu Hd Hk].
  { rewrite Hu in Hdat. destruct msg as [[?|] [?|] ? ? ?]; try done. cbn in Hst. by rewrite Hst in Hdat. }
  rewrite Hu in Hdat. injection Hdat as -> ->. eapply client_turn_switch; [done|done|exact Hu|].
  unfold client_switch. cbn [status_code Z.eqb Pos.eqb]. set (c1 := cqe_seen _).
  change (c_count c1) with (c_count c). rewrite Hc.
  destruct (Z.ltb_spec (Z.of_nat (length got)) (Z.of_nat BLOCKSIZE - 1)); [lia|].
  destruct (Z.eqb_spec (Z.of_nat (length got)) (Z.of_nat BLOCKSIZE - 1)) as [_|]; [|lia].
  change (c_msg_arr c1) with (c_msg_arr c). rewrite Ha, Nat2Z.id. cbn [padd]. rewrite Z.add_0_l.
  change (c_buffer c1) with (overwrite (c_buffer c) bytes 0). rewrite take_overwrite0.
  apply wp_bind. eapply wp_mono; [by eapply deserialize_data_spec|]. intros [] m1 (Hsl1 & Hn & Hr & Ht & Hold).
  apply wp_bind. apply wp_send_STATUS; [lia|]. intros l. eapply wp_mono.
  { apply (make_block_spec fuel k0 _ _ a bufs (got ++ [(d, k)])); [by eapply slots_wf|by eapply slots_frame| |done| | |done].
    - rewrite length_app. cbn. lia.
    - cbn [rng]. by rewrite Hr.
    - cbn [rng]. by rewrite Hr. }
  intros c2 m2 (gc & b & -> & Hb & Hwf2). cbn [rng] in *. rewrite Hr in *. match type of Hb with built ?x _ _ _ _ _ _ => exists x end. do 4 eexists.
  split_and!; [done|by eapply slots_frame|eapply (slots_wf m m1); done|done|done|exact Hb|done| |done|done|cbn; lia]. cbn [out cqe_seen with_block set_filled set_block]. by rewrite replies_send by lia.
Qed.

Lemma client_run_packets fuel ins c m a bufs got :
  collecting m c a bufs got -> Forall packet ins -> (length (got ++ flat_map data_of ins) < BLOCKSIZE)%nat ->
  wp (client_run fuel c ins)
    (fun c' m' => collecting m' c' a bufs (got ++ flat_map data_of ins) /\ rng m' = rng m /\ next m' = next m /\
       (forall b, b ∉ a :: bufs -> heap m' !! b = heap m !! b) /\
       replies (out c') = replies (out c) ++ ((fun x => (c_s c, Some (reply_to x))) <$> ins) /\ sh c' = sh c /\ c_s c' = c_s c) m.
Proof.
  intros Hco Hp. revert c m got Hco. induction Hp as [|bytes ins Hb Hp IH]; intros c m got Hco Hl; cbn [client_run flat_map] in *.
  - apply wp_ret. rewrite !app_nil_r. done.
  - rewrite (app_assoc got (data_of bytes)) in *.
    apply wp_bind. eapply wp_mono; [eapply client_turn_packet; [done|done|rewrite length_app in Hl; lia]|].
    intros c1 m1 (Hco1 & Hr & Hn & Hold & Hrep & Hsh & Hs). eapply wp_mono; [by eapply IH|].
    intros c2 m2 (Hco2 & Hr2 & Hn2 & Hold2 & Hrep2 & Hsh2 & Hs2).
    split_and!; [done|congruence|congruence|intros b Hb'; rewrite Hold2 by done; by apply Hold| |congruence|congruence].
    rewrite Hrep2, Hrep, Hs, <-app_assoc. done.
Qed.

Lemma client_run_app fuel c ins ins' m :
  client_run fuel c (ins ++ ins') m = (c' ← client_run fuel c ins; client_run fuel c' ins') m.
Proof.
  revert c m. induction ins as [|b ins IH]; intros c m; [done|]. cbn [app client_run]. rewrite bind_assoc.
  apply bind_ext. intros c1 m1. apply IH.
Qed.

(** ** Teardown *)

Lemma free_slots_spec m a bufs got :
  slots m a bufs got ->
  wp (for_ BLOCKSIZE (fun i => sm ← load_ix (A:=signed_message_t) (Ptr a 0) (Z.of_nat i); free (sm_message sm)))
    (fun _ m' => released m m' bufs) m.
Proof.
  intros [(sms & Ha & Hl & Hs) Hlen Hb Hnd]. apply NoDup_cons in Hnd as [Han Hnd]. eapply wp_mono.
  - apply (wp_for (fun j m' => released m m' (take j bufs))); [apply released_nil|].
    intros j m' Hj Hr. destruct (lookup_lt_is_Some_2 bufs j) as [b Hbj]; [lia|].
    destruct (Hs j b Hbj) as (sm & Hsm & Hp & _). destruct (Hb j b Hbj) as (l & Hlb & _).
    apply wp_bind. eapply (wp_load (H:=storable_msg)).
    { rewrite (r_heap _ _ _ Hr), decide_False; [exact Ha|]. intros Hin. apply Han. by eapply subseteq_take. }
    { exact (eq_trans (zlookup_of_nat _ _) Hsm). }
    rewrite Hp. eapply wp_mono; [eapply wp_free_released; rewrite (r_heap _ _ _ Hr), decide_False; [exact Hlb|]|].
    + intros [i [Hi Hij]%lookup_take_Some]%list_elem_of_lookup. pose proof (NoDup_lookup _ _ _ _ Hnd Hi Hbj). lia.
    + intros [] m2 Hr2. erewrite take_S_r by done. by eapply released_trans.
  - intros [] m' Hr. by rewrite take_ge in Hr by lia.
Qed.

(** One more block released. *)
Lemma wp_release_more m m1 B b blk {A} (k : M A) Q :
  released m m1 B -> heap m !! b = Some blk -> b ∉ B ->
  (forall m2, released m m2 (B ++ [b]) -> wp k Q m2) -> wp (free (Ptr b 0) ;; k) Q m1.
Proof.
  intros Hr Hb Hn Hk. apply wp_bind.
  eapply wp_mono; [eapply wp_free_released; by rewrite (r_heap _ _ _ Hr), decide_False|].
  intros [] m2 Hr2. apply Hk. by eapply released_trans.
Qed.

Lemma load_live {A} `{Storable A} m b (x : A) : heap m !! b = Some (to_block [x]) -> load (Ptr b 0) m = Ok (x, m).
Proof. intros Hb. unfold load. by rewrite (block_at_ok (heap m) b 0 [x]). Qed.

(** The layers, reached through the container. *)
Lemma destroy_client_layers m0 m1 m p mb gc la lp arr T :
  client_tree m0 m1 9 p mb gc la lp arr T ->
  (forall x, x ∈ [gc; la; lp; arr] ++ tree_blocks T 0 9 -> heap m !! x = heap m1 !! x) ->
  wp (for_ (Z.to_nat EXPONENT) (fun i =>
        cont ← load (A:=l_msg_container) (Ptr gc 0); l ← load_ix (A:=ptr) (layers_for_destr cont) (Z.of_nat i);
        destoroy_a_layer l)) (fun _ m' => released m m' (tree_blocks T 0 9)) m.
Proof.
  intros [Hgc _ [Hlay Harr] Hnd _] Heq. cbn [app] in Hnd. rewrite !NoDup_cons, !not_elem_of_cons in Hnd.
  destruct Hnd as ((_ & _ & _ & Ngc) & (_ & _ & Nla) & _ & _ & Hnd).
  eapply wp_ext; [intros m3; apply for_ext; intros i m4; symmetry; apply bind_assoc|].
  apply (destroy_layers_from _ 9 T p mb m); [|done|].
  - intros d Hd. eapply layer_rep_old; [exact (Hlay d Hd)|]. intros x Hx. apply Heq, elem_of_app. right.
    apply elem_of_tree_blocks. exists d. split; [lia|done].
  - intros j m3 Hj Heq3.
    erewrite bind_ok by (apply (load_live (H:=storable_cont)); rewrite Heq3, Heq; [exact Hgc|set_solver|done]).
    cbn [layers_for_destr]. eapply (layer_index 9 T la lp j m); [|exact Nla|done|done].
    destruct Harr as (ps & ls & H1 & H2 & H3). exists ps, ls. rewrite !Heq by set_solver. done.
Qed.

(** The released blocks are exactly those the block's making added, and the slots. *)
Lemma teardown_heap m m1 m' m'' a bufs F b blk R :
  wf m -> grows m m1 F [] -> (next m1 <= b)%positive -> heap m' = <[b := blk]> (heap m1) ->
  (forall x, x ∈ a :: bufs -> (x < next m)%positive) ->
  released m' m'' R -> (forall x, x ∈ R <-> x ∈ a :: bufs \/ x ∈ F \/ x = b) ->
  forall x, heap m'' !! x = if decide (x ∈ a :: bufs) then None else heap m !! x.
Proof.
  intros Hwf Hg Hb Hh Hs Hr HR x. rewrite (r_heap _ _ _ Hr). pose proof (g_next _ _ _ _ Hg).
  destruct (decide (x ∈ a :: bufs)) as [Hin|Hin]; [by rewrite decide_True by (apply HR; auto)|].
  destruct (decide (x ∈ R)) as [[Hx|[Hx| ->]]%HR|Hx].
  - done.
  - symmetry. apply Hwf. by apply (g_range _ _ _ _ Hg).
  - symmetry. apply Hwf. lia.
  - rewrite HR in Hx. rewrite Hh, lookup_insert_ne by naive_solver.
    apply (g_frame _ _ _ _ Hg); [naive_solver|apply not_elem_of_nil].
Qed.

(** The addresses involved lie in three ranges. *)
Lemma teardown_apart m m1 a bufs gc la lp arr T b :
  (forall x, x ∈ a :: bufs -> (x < next m)%positive) -> NoDup (a :: bufs) -> (next m1 <= b)%positive ->
  NoDup ([gc; la; lp; arr] ++ tree_blocks T 0 9) -> grows m m1 ([gc; la; lp; arr] ++ tree_blocks T 0 9) [] ->
  Forall (fun x => x ∉ bufs) [gc; la; lp; arr; b] /\ Forall (fun x => x ∉ tree_blocks T 0 9) [gc; la; lp; arr; a; b] /\
  a ∉ bufs /\ (a < next m)%positive /\ NoDup [gc; la; lp; arr] /\
  Forall (fun x => next m <= x < next m1)%positive [gc; la; lp; arr].
Proof.
  intros Hs [Ha _]%NoDup_cons Hb [Hnd [Hdis _]]%NoDup_app Hg. pose proof (g_range _ _ _ _ Hg) as HB. pose proof (g_next _ _ _ _ Hg).
  assert (forall x, x ∈ bufs -> (x < next m)%positive) as Hs' by (intros x Hx; apply Hs, elem_of_cons; auto).
  assert (forall x, x ∈ [gc; la; lp; arr] -> (next m <= x < next m1)%positive) as Hr by (intros x Hx; apply HB, elem_of_app; auto).
  assert (forall x, x ∈ tree_blocks T 0 9 -> (next m <= x < next m1)%positive) as Ht by (intros x Hx; apply HB, elem_of_app; auto).
  assert (a < next m)%positive as Haa by (apply Hs, elem_of_cons; auto).
  split_and!; [| |done|done|done|by apply Forall_forall].
  - apply Forall_forall. intros x Hx Hx'%Hs'. change [gc; la; lp; arr; b] with ([gc; la; lp; arr] ++ [b]) in Hx.
    apply elem_of_app in Hx as [Hx%Hr| ->%list_elem_of_singleton]; lia.
  - apply Forall_forall. intros x Hx Hx'. change [gc; la; lp; arr; a; b] with ([gc; la; lp; arr] ++ [a] ++ [b]) in Hx.
    rewrite !elem_of_app, !list_elem_of_singleton in Hx. pose proof (Ht _ Hx'). destruct Hx as [Hx|[->| ->]]; [by eapply Hdis|lia|lia].
Qed.

(** [apart]: a block is none of those released; [reload]: the container is
    still readable. *)
Ltac apart := rewrite ?not_elem_of_app, ?list_elem_of_singleton; repeat split; first [assumption | lia | done].
Ltac reload Q := apply wp_bind; eapply wp_run; [apply (load_live (H:=storable_cont)); rewrite (r_heap _ _ _ Q), decide_False; [eassumption|apart]|];
  cbn [layers_for_destr main_layer_pointer messages_arr].

(** Everything the thread allocated for the block is released again. *)
Lemma client_teardown_spec m m' c a bufs got gc b blk :
  wf m -> slots m a bufs got -> built m m' a got gc b blk ->
  c_msg_arr c = Ptr a 0 -> L_arrays_p_cont c = Ptr gc 0 -> block_dummy c = Ptr b 0 ->
  wp (client_teardown c)
    (fun _ m'' => forall x, heap m'' !! x = if decide (x ∈ a :: bufs) then None else heap m !! x) m'.
Proof.
  intros Hwf Hsl Hb Ha Hg Hbd. unfold client_teardown. rewrite Ha, Hg, Hbd.
  pose proof (built_slots _ _ _ _ _ _ _ _ Hwf Hsl Hb) as Hsl'. destruct Hb as (m1 & la & lp & arr & T & Hct & Hlt & Hh).
  pose proof Hct as [Hgc Harr [_ (ps & ls & Hla & Hlp & _)] Hnd Hgr]. destruct (sl_arr _ _ _ _ Hsl') as (sms & Hsa & _).
  assert (forall x, x ∈ a :: bufs -> (x < next m)%positive) as Hsm.
  { intros x [v Hv]%(slots_live _ _ _ _ _ Hsl). by eapply wf_lt. }
  destruct (teardown_apart _ _ _ _ _ _ _ _ _ _ Hsm (sl_NoDup _ _ _ _ Hsl) Hlt Hnd Hgr) as (Ab & At & Aa & Ham & And & Ar).
  pose proof (proj1 (Forall_forall _ _) Ar) as Har.
  assert (forall x, (x < next m1)%positive -> heap m' !! x = heap m1 !! x) as Hold
    by (intros x Hx; rewrite Hh; by rewrite lookup_insert_ne by lia).
  repeat match goal with H : Forall _ (_ :: _) |- _ => apply Forall_cons in H as [? H] end. set (tr := tree_blocks T 0 9) in *.
  rewrite !NoDup_cons, !not_elem_of_cons in And. destruct And as ((N1 & N2 & N3 & _) & (N4 & N5 & _) & (N6 & _) & _).
  assert (heap m' !! b = Some (BBlks [blk])) as Hbb by (rewrite Hh; apply lookup_insert_eq).
  rewrite <-(Hold gc) in Hgc by lia. rewrite <-(Hold arr) in Harr by lia. rewrite <-(Hold la) in Hla by lia. rewrite <-(Hold lp) in Hlp by lia.
  apply wp_bind. eapply wp_mono; [by eapply free_slots_spec|]. intros [] m2 Q0.
  apply wp_bind. eapply wp_mono.
  { eapply destroy_client_layers; [exact Hct|]. intros x Hx. pose proof (g_range _ _ _ _ Hgr x Hx).
    rewrite (r_heap _ _ _ Q0), decide_False; [apply Hold; lia|]. intros Hx'. assert (x < next m)%positive by (apply Hsm, elem_of_cons; auto). lia. }
  intros [] m3 Q1'. pose proof (released_trans _ _ _ _ _ Q0 Q1') as Q1. fold tr in Q1. clear Q1' Q0.
  reload Q1. eapply wp_release_more; [exact Q1|exact Hla|apart|]. intros m4 Q2.
  reload Q2. eapply wp_release_more; [exact Q2|exact Hlp|apart|]. intros m5 Q3.
  reload Q3. eapply wp_release_more; [exact Q3|exact Harr|apart|]. intros m6 Q4.
  eapply wp_release_more; [exact Q4|exact Hsa|apart|]. intros m7 Q5.
  eapply wp_release_more; [exact Q5|exact Hgc|apart|]. intros m8 Q6.
  eapply wp_mono; [eapply wp_free_released; rewrite (r_heap _ _ _ Q6), decide_False; [exact Hbb|apart]|].
  intros [] m9 Q7. eapply teardown_heap; [exact Hwf|exact Hgr|exact Hlt|exact Hh|exact Hsm|exact (released_trans _ _ _ _ _ Q6 Q7)|].
  intros x. fold tr. cbn [app]. rewrite !elem_of_app, !list_elem_of_singleton, !elem_of_cons. tauto.
Qed.
End facts.

(** ** Claims *)
Section claims.
Context {sod : Sodium} {clk : Clock} {pb : Protobuf} {st : Stray} {ok : SodiumOk sod} {pbok : ProtobufOk pb}.

(** The packets of a whole session: the last one carries message 512. *)
Definition full_session (ins : list (list byte)) (lst : list byte) (d k : list byte) : Prop :=
  Forall packet ins /\ packet lst /\ data_of lst = [(d, k)] /\ length (flat_map data_of ins) = 511%nat.

(** The messages of the session. *)
Definition session_data (ins : list (list byte)) (d k : list byte) : list (list byte * list byte) :=
  flat_map data_of ins ++ [(d, k)].

(** From the start of the thread to the block, all that is known of the end state. *)
Lemma client_session fuel k0 s sh0 ins lst d k m :
  wf m -> full_session ins lst d k ->
  let root := got_root (session_data ins d k) in
  (forall j, (j < k0)%nat -> ~ solves root 3 (rng m + j)) -> solves root 3 (rng m + k0) -> (k0 < fuel)%nat ->
  wp (c ← client_start s sh0; client_run fuel c (ins ++ [lst]))
    (fun c' m' => exists a bufs m1 gc b c0 t, let blk := made_block root (rng m + k0) t in
       c' = cqe_seen (with_block (Ptr gc 0) (Ptr b 0) (p2p__ipc_message__pack (block_msg blk (made_date t))) c0) /\
       slots m1 a bufs (session_data ins d k) /\ wf m1 /\ (forall c, c ∉ a :: bufs -> heap m1 !! c = heap m !! c) /\
       (forall c, c ∈ a :: bufs -> heap m !! c = None) /\ built m1 m' a (session_data ins d k) gc b blk /\
       replies (out c') = ((fun x => (s, Some (reply_to x))) <$> ins) ++ [(s, Some IPC_ENOUGH)] /\
       buffer_BLOCK_DATA (sh c0) = buffer_BLOCK_DATA sh0 /\ c_msg_arr c0 = Ptr a 0 /\ cq_head c' = cq_tail c') m.
Proof.
  intros Hwf (Hins & Hlst & Hd & Hlen) root Hno Hyes Hf. apply wp_bind. eapply wp_mono; [by apply client_start_spec|].
  intros c m1 (a & bufs & Hsl & Hwf1 & Hr1 & Ht1 & Hold1 & Hfr & ->). set (c0 := Client _ _ _ _ _ _ _ _ _ _ _ _ _).
  assert (collecting m1 c0 a bufs []) as Hco by (split; try done; cbn; lia).
  eapply wp_ext; [intros m'; apply client_run_app|]. apply wp_bind.
  eapply wp_mono; [eapply client_run_packets; [exact Hco|done|cbn [app]; lia]|]. cbn [app].
  intros c1 m2 (Hco1 & Hr2 & Hn2 & Hold2 & Hrep & Hsh & Hs1). cbn [client_run]. apply wp_bind. eapply wp_mono.
  { eapply (client_turn_last fuel k0 c1 lst d k); [exact Hco1|done|done|rewrite length_app, Hlen; reflexivity| | |done].
    - by rewrite Hr2, Hr1.
    - by rewrite Hr2, Hr1. }
  intros c2 m3 (m4 & gc & b & c3 & t & Hc2 & Hsl4 & Hwf4 & Hn4 & Hold4 & Hb & _ & Hrep2 & Hsh2 & Harr & Hcq).
  apply wp_ret. rewrite Hr2, Hr1 in *. exists a, bufs, m4, gc, b, c3, t. split_and!; [done|done|done| | |done| | |done|done].
  - intros x Hx. rewrite Hold4, Hold2 by done. by apply Hold1.
  - intros x Hx. apply Hwf. by apply Hfr.
  - by rewrite Hrep2, Hrep, Hs1.
  - by rewrite Hsh2, Hsh.
Qed.

(** C7: a client that receives 512 messages makes and publishes the block.
    Fed by the server's questions and 512 messages in any arrangement that ends
    with the last message, the thread ends its collection without a fault:
    every question was answered NEED_MORE, every message but the last ACKN_OK,
    the last ENOUGH, all on its own socket; all 512 messages verify against
    the tree; the block in its memory has the hash of the Merkle root over
    the received messages in order, and the shared buffer holds exactly that
    block's encoding, the flag is set and the mutex released. *)
Theorem client_makes_block fuel k0 s sh0 ins lst d k m :
  wf m -> full_session ins lst d k ->
  let root := got_root (session_data ins d k) in
  (forall j, (j < k0)%nat -> ~ solves root 3 (rng m + j)) -> solves root 3 (rng m + k0) -> (k0 < fuel)%nat ->
  wp (c ← client_start s sh0; client_run fuel c (ins ++ [lst]))
    (fun c' m' => exists t, let blk := made_block root (rng m + k0) t in
       replies (out c') = ((fun x => (s, Some (reply_to x))) <$> ins) ++ [(s, Some IPC_ENOUGH)] /\
       ver_printed c' = Some 512 /\ flag_block_filled c' = 1 /\ cq_head c' = cq_tail c' /\
       load (block_dummy c') m' = Ok (blk, m') /\
       take (Z.to_nat (block_written_size (sh c'))) (buffer_BLOCK_DATA (sh c')) =
         p2p__ipc_message__pack (block_msg blk (made_date t)) /\
       flag_block_created (sh c') = 1 /\ block_created_mtx (sh c') = false) m.
Proof.
  intros Hwf Hs root Hno Hyes Hf. eapply wp_mono; [by apply client_session|].
  intros c' m' (a & bufs & m1 & gc & b & c0 & t & -> & _ & _ & _ & _ & Hb & Hrep & _ & _ & Hcq).
  exists t. split_and!; try done.
  - apply (load_live (H:=storable_blk)). destruct Hb as (m2 & la & lp & arr & T & _ & _ & Hh). rewrite Hh. apply lookup_insert_eq.
  - cbn [sh cqe_seen with_block set_filled set_block buffer_BLOCK_DATA block_written_size]. rewrite Nat2Z.id. apply take_overwrite0.
Qed.

(** C9: the thread gives back what it took.  Teardown after a finished session
    runs without a fault and restores the heap to what it was before the
    thread allocated its first buffer: message slots, tree, container and block. *)
Theorem client_releases_everything fuel k0 s sh0 ins lst d k m :
  wf m -> full_session ins lst d k ->
  let root := got_root (session_data ins d k) in
  (forall j, (j < k0)%nat -> ~ solves root 3 (rng m + j)) -> solves root 3 (rng m + k0) -> (k0 < fuel)%nat ->
  wp (c ← client_start s sh0; c ← client_run fuel c (ins ++ [lst]); client_teardown c) (fun _ m' => heap m' = heap m) m.
Proof.
  intros Hwf Hs root Hno Hyes Hf. eapply wp_ext; [intros m'; symmetry; apply bind_assoc|].
  apply wp_bind. eapply wp_mono; [by apply client_session|].
  intros c' m' (a & bufs & m1 & gc & b & c0 & t & -> & Hsl & Hwf1 & Hold & Hnew & Hb & _ & _ & Ha & _).
  eapply wp_mono; [by eapply client_teardown_spec|]. intros [] m2 Hh. apply map_eq. intros x. rewrite Hh.
  case_decide as Hx; [by rewrite Hnew|by apply Hold].
Qed.

(** C37: the loop loses step with its queue.  Each turn consumes two
    completions; a status that the switch does not answer (FINISH, for one)
    has produced only one, so the next turn no longer waits for its receive. *)
Theorem client_loses_step fuel c bytes bytes' msg m :
  cq_head c = cq_tail c -> flag_block_filled c = 0 -> ipc_message__unpack bytes = Some msg ->
  status_code msg ∉ [IPC_ASK_NEED_MSG; IPC_OK; IPC_MESSAGE_SENDED; IPC_ALL_BLOCK_MSG_SENDED] ->
  client_run fuel c [bytes; bytes'] m = Fault Indeterminate.
Proof.
  intros Hcq Hfl Hu Hst. rewrite !not_elem_of_cons in Hst. destruct Hst as (H1 & H2 & H3 & H4 & _).
  assert (wp (client_turn fuel c bytes) (fun c' m' => m' = m /\ c' = cqe_seen (cqe_seen (post (set_c_buffer (overwrite (c_buffer c) bytes 0) c)))) m)
    as (c' & m' & Hrun & -> & ->).
  { eapply client_turn_switch; [done|done|exact Hu|]. unfold client_switch. rewrite !(proj2 (Z.eqb_neq _ _)) by done. by apply wp_ret. }
  cbn [client_run]. erewrite bind_ok by exact Hrun. apply bind_fault. unfold client_turn.
  cbn [flag_block_filled cqe_seen post set_c_buffer cq_head cq_tail]. rewrite Hfl, Hcq. cbn [negb Z.eqb].
  by rewrite (proj2 (Nat.eqb_neq (S (S (cq_tail c))) (S (cq_tail c)))) by lia.
Qed.

(** An OK from the server is answered on the wrong descriptor: the number
    of bytes received is used as the socket. *)
Theorem client_answers_OK_elsewhere fuel c bytes msg m :
  cq_head c = cq_tail c -> flag_block_filled c = 0 -> ipc_message__unpack bytes = Some msg -> status_code msg = IPC_OK ->
  wp (client_turn fuel c bytes)
    (fun c' _ => replies (out c') = replies (out c) ++ [(Z.of_nat (length bytes), Some IPC_NEED_MORE)]) m.
Proof.
  intros Hcq Hfl Hu Hst. eapply client_turn_switch; [done|done|exact Hu|]. rewrite Hst. unfold client_switch. cbn [Z.eqb Pos.eqb].
  apply wp_send_STATUS; [lia|]. intros l. cbn [out cqe_seen]. by rewrite replies_send by lia.
Qed.

(** A thread that is ended before its block is made faults: teardown
    follows the null container pointer. *)
Theorem client_teardown_early m c a bufs got :
  collecting m c a bufs got -> L_arrays_p_cont c = NULL -> client_teardown c m = Fault NullDeref.
Proof.
  intros [_ Hsl _ _ Ha _ _] Hc. unfold client_teardown. rewrite Ha, Hc.
  destruct (free_slots_spec _ _ _ _ Hsl) as ([] & m1 & Hrun & _). erewrite bind_ok by exact Hrun. by apply bind_fault.
Qed.
End claims.

(** ** The claims at work *)

(** The server's question and a message of one byte; a session of one question
    and 512 messages. *)
Definition ask_bytes : list byte := Wire.ipc_pack (MkIpcMessage None None [x30] 7 IPC_ASK_NEED_MSG).
Definition data_bytes : list byte :=
  Wire.ipc_pack (MkIpcMessage (Some [x41]) (Some (replicate 32 x07)) [x30] 7 IPC_MESSAGE_SENDED).
Definition finish_bytes : list byte := Wire.ipc_pack (MkIpcMessage None None [x30] 7 IPC_FINISH).
Definition ok_bytes : list byte := Wire.ipc_pack (MkIpcMessage None None [x30] 7 IPC_OK).

Definition sample_ins : list (list byte) := ask_bytes :: replicate 511 data_bytes.

Definition no_block : shared := Shared 0 (zeros 4096) 0 false.

Lemma data_bytes_unpack :
  Wire.ipc_unpack data_bytes = Some (MkIpcMessage (Some [x41]) (Some (replicate 32 x07)) [x30] 7 IPC_MESSAGE_SENDED).
Proof. by vm_compute. Qed.

Lemma sample_session : full_session (pb:=Wire.proto2) sample_ins data_bytes [x41] (replicate 32 x07).
Proof.
  assert (packet (pb:=Wire.proto2) data_bytes) as Hd.
  { eapply (Pk_data (pb:=Wire.proto2)); [exact data_bytes_unpack|cbn; lia|done]. }
  split_and!; [|exact Hd|by vm_compute|by vm_compute].
  apply Forall_cons. split; [|by apply Forall_replicate].
  apply (Pk_ask (pb:=Wire.proto2) ask_bytes (MkIpcMessage None None [x30] 7 IPC_ASK_NEED_MSG)); [by vm_compute|done].
Qed.

(** With the hash that keeps the first bytes, the third nonce solves the puzzle
    of any root. *)
Lemma prefix_unsolved root j : (j < 2)%nat -> ~ solves (sod:=Toy.prefixing) root 3 (0 + j).
Proof. intros Hj. assert (j = 0 \/ j = 1)%nat as [-> | ->] by lia; cbn; discriminate. Qed.

Lemma prefix_solved root : solves (sod:=Toy.prefixing) root 3 (0 + 2).
Proof. reflexivity. Qed.

Definition empty_mem : mem := Mem ∅ 1 0 0.

Lemma empty_mem_wf : wf empty_mem.
Proof. intros b _. apply lookup_empty. Qed.

Lemma client_makes_block_witness :
  wp (c ← client_start 4 no_block;
      client_run (sod:=Toy.prefixing) (clk:=Toy.toy_clock) (pb:=Wire.proto2) 3 c (sample_ins ++ [data_bytes]))
    (fun c' m' => ver_printed c' = Some 512 /\ flag_block_created (sh c') = 1 /\ block_created_mtx (sh c') = false) empty_mem.
Proof.
  eapply wp_mono; [exact (client_makes_block (sod:=Toy.prefixing) (clk:=Toy.toy_clock) (pb:=Wire.proto2) (ok:=Toy.prefixing_ok)
    (pbok:=Wire.proto2_ok) 3 2 4 no_block sample_ins data_bytes [x41] (replicate 32 x07) empty_mem empty_mem_wf sample_session
    (prefix_unsolved _) (prefix_solved _) ltac:(lia))|].
  intros c' m' (t & _ & Hv & _ & _ & _ & _ & Hf & Hm). split; [exact Hv|]. split; [exact Hf|exact Hm].
Defined.

Lemma client_releases_everything_witness :
  wp (c ← client_start 4 no_block;
      c ← client_run (sod:=Toy.prefixing) (clk:=Toy.toy_clock) (pb:=Wire.proto2) 3 c (sample_ins ++ [data_bytes]);
      client_teardown c) (fun _ m' => heap m' = ∅) empty_mem.
Proof.
  exact (client_releases_everything (sod:=Toy.prefixing) (clk:=Toy.toy_clock) (pb:=Wire.proto2) (ok:=Toy.prefixing_ok)
    (pbok:=Wire.proto2_ok) 3 2 4 no_block sample_ins data_bytes [x41] (replicate 32 x07) empty_mem empty_mem_wf sample_session
    (prefix_unsolved _) (prefix_solved _) ltac:(lia)).
Defined.

(** A client that has just connected. *)
Definition fresh_client : client :=
  Client 4 0 0 (zeros BUFSIZE) (zeros BUFSIZE) (Ptr 1 0) NULL NULL 1 1 [] None no_block.

Lemma client_loses_step_witness :
  client_run (sod:=Toy.prefixing) (clk:=Toy.toy_clock) (pb:=Wire.proto2) 3 fresh_client [finish_bytes; ask_bytes] empty_mem =
    Fault Indeterminate.
Proof.
  apply (client_loses_step (sod:=Toy.prefixing) (clk:=Toy.toy_clock) (pb:=Wire.proto2) 3 fresh_client finish_bytes ask_bytes
    (MkIpcMessage None None [x30] 7 IPC_FINISH)); [reflexivity|reflexivity|by vm_compute|].
  cbn. rewrite !not_elem_of_cons. repeat split; try discriminate. apply not_elem_of_nil.
Defined.

Lemma client_answers_OK_elsewhere_witness :
  wp (client_turn (sod:=Toy.prefixing) (clk:=Toy.toy_clock) (pb:=Wire.proto2) 3 fresh_client ok_bytes)
    (fun c' _ => replies (pb:=Wire.proto2) (out c') = [(7, Some IPC_NEED_MORE)]) empty_mem.
Proof.
  exact (client_answers_OK_elsewhere (sod:=Toy.prefixing) (clk:=Toy.toy_clock) (pb:=Wire.proto2) (pbok:=Wire.proto2_ok)
    3 fresh_client ok_bytes (MkIpcMessage None None [x30] 7 IPC_OK) empty_mem eq_refl eq_refl eq_refl eq_refl).
Defined.

Lemma client_teardown_early_witness :
  exists c m, client_start 4 no_block empty_mem = Ok (c, m) /\ client_teardown c m = Fault NullDeref.
Proof.
  destruct (client_start_spec 4 no_block empty_mem empty_mem_wf) as (c & m & Hrun & a & bufs & Hsl & Hwf & _ & _ & _ & _ & Hc).
  exists c, m. split; [exact Hrun|]. rewrite Hc.
  apply (client_teardown_early m _ a bufs []); [|reflexivity]. split; try exact Hwf; try exact Hsl; try reflexivity. cbn. lia.
Defined.
