(* ===== verification/P2P.v ===== *)
(** * The peer-to-peer threads

    sources/client/p2p_event_loop.c and dhandlers_p2p.c: the thread that offers
    this node's block to its neighbour; sources/client/p2p_listen.c: the thread
    that asks the neighbour for its block.  As for the message server, a
    handler appends the operations it submits and a turn of a loop consumes
    one completion. *)

From S2P Require Import Prelude.
From S2P Require Import CTypes.
From S2P Require Import Memory.
From S2P Require Import Platform.
From S2P Require Import Misc.
From S2P Require Import BlockData.
From S2P Require Import RequestData.
From S2P Require Import Codec.
From S2P Require Import Dump.
From S2P Require Import ClientIpc.
From S2P Require Import Server.
From S2P Require Import Client.

(** p2p_settings.h *)
Abbreviation P2P_MAX_CONNECTIONS := 100.
Abbreviation P2P_BUFFER_SIZE := 4096%nat.

(** The globals of p2p_setup.c and the locals of [event_loop_p2p]. *)
Record peer := Peer {
  pr_buffers : gmap Z (list byte);
  pr_lengths : gmap Z Z;
  pr_current_client_fd : Z;
  pr_flag_block_ready : Z;
  pr_exited : bool;
  pr_sq : list sqe }.

Definition pr_set_buffer (fd : Z) (l : list byte) (s : peer) : peer :=
  Peer (<[fd := l]> (pr_buffers s)) (pr_lengths s) (pr_current_client_fd s) (pr_flag_block_ready s) (pr_exited s) (pr_sq s).
Definition pr_set_length (fd n : Z) (s : peer) : peer :=
  Peer (pr_buffers s) (<[fd := n]> (pr_lengths s)) (pr_current_client_fd s) (pr_flag_block_ready s) (pr_exited s) (pr_sq s).
Definition pr_set_current (fd : Z) (s : peer) : peer :=
  Peer (pr_buffers s) (pr_lengths s) fd (pr_flag_block_ready s) (pr_exited s) (pr_sq s).
Definition pr_set_ready (z : Z) (s : peer) : peer :=
  Peer (pr_buffers s) (pr_lengths s) (pr_current_client_fd s) z (pr_exited s) (pr_sq s).
Definition pr_exit (s : peer) : peer :=
  Peer (pr_buffers s) (pr_lengths s) (pr_current_client_fd s) (pr_flag_block_ready s) true (pr_sq s).
Definition pr_submit (o : op) (data : Z) (s : peer) : peer :=
  Peer (pr_buffers s) (pr_lengths s) (pr_current_client_fd s) (pr_flag_block_ready s) (pr_exited s) (pr_sq s ++ [Sqe o data]).

Definition pr_buffer (s : peer) (fd : Z) : list byte := default (zeros P2P_BUFFER_SIZE) (pr_buffers s !! fd).

(** The locals of [setup_p2p_listening]; [ls_blocks] are the blocks it
    decoded and printed. *)
Record listener := Listener {
  ls_s : Z;
  ls_buffer : list byte;
  ls_buffer_send : list byte;
  ls_flag_ready_count : Z;
  ls_exited : bool;
  ls_blocks : list ptr;
  ls_sq : list sqe }.

Definition ls_set_buffer (b : list byte) (l : listener) : listener :=
  Listener (ls_s l) b (ls_buffer_send l) (ls_flag_ready_count l) (ls_exited l) (ls_blocks l) (ls_sq l).
Definition ls_set_send (b : list byte) (l : listener) : listener :=
  Listener (ls_s l) (ls_buffer l) b (ls_flag_ready_count l) (ls_exited l) (ls_blocks l) (ls_sq l).
Definition ls_set_count (z : Z) (l : listener) : listener :=
  Listener (ls_s l) (ls_buffer l) (ls_buffer_send l) z (ls_exited l) (ls_blocks l) (ls_sq l).
Definition ls_exit (l : listener) : listener :=
  Listener (ls_s l) (ls_buffer l) (ls_buffer_send l) (ls_flag_ready_count l) true (ls_blocks l) (ls_sq l).
Definition ls_add_block (p : ptr) (l : listener) : listener :=
  Listener (ls_s l) (ls_buffer l) (ls_buffer_send l) (ls_flag_ready_count l) (ls_exited l) (ls_blocks l ++ [p]) (ls_sq l).
Definition ls_submit (o : op) (data : Z) (l : listener) : listener :=
  Listener (ls_s l) (ls_buffer l) (ls_buffer_send l) (ls_flag_ready_count l) (ls_exited l) (ls_blocks l) (ls_sq l ++ [Sqe o data]).

Section code.
Context {sod : Sodium} {clk : Clock} {pb : Protobuf} {st : Stray} {rd : Reading}.

(** ** dhandlers_p2p.c *)

(** [&buffers[client_fd * BUFFER_SIZE]] and the other per-client entries. *)
Definition p2p_slot (client_fd : Z) : M unit :=
  if (0 <=? client_fd) && (client_fd <? P2P_MAX_CONNECTIONS) then mret () else fail OutOfBounds.

Definition p2p_add_accept_request (s : peer) (serverfd : Z) : peer :=
  pr_submit (OpAccept serverfd) (make_request_data 0 (state_p2p_num P_ACCEPT)) s.

Definition P2Pser_send_STATUS (s : peer) (client_fd STATUS : Z) (STATE : state_p2p) : M peer :=
  p2p_slot client_fd ;;
  bytes ← P2P_send_status STATUS;
  if (length bytes <=? P2P_BUFFER_SIZE)%nat then
    let s := pr_set_buffer client_fd (overwrite (pr_buffer s client_fd) bytes 0) s in
    let s := pr_set_length client_fd (Z.of_nat (length bytes)) s in
    mret (pr_submit (OpSend client_fd (take (length bytes) (pr_buffer s client_fd)))
            (make_request_data client_fd (state_p2p_num STATE)) s)
  else fail OutOfBounds.

Definition P2P_send_PING (s : peer) (client_fd : Z) : M peer :=
  P2Pser_send_STATUS s client_fd P2P_PING P_WAIT_PONG.

(** The whole shared buffer is copied, the published size of it sent. *)
Definition P2Pser_send_block (shr : shared) (s : peer) (client_fd : Z) : M peer :=
  p2p_slot client_fd ;;
  let s := pr_set_length client_fd (block_written_size shr) s in
  let s := pr_set_buffer client_fd (overwrite (pr_buffer s client_fd) (take P2P_BUFFER_SIZE (buffer_BLOCK_DATA shr)) 0) s in
  mret (pr_submit (OpSend client_fd (take (Z.to_nat (block_written_size shr)) (pr_buffer s client_fd)))
          (make_request_data client_fd (state_p2p_num P_BLOCK_SENDED)) s).

Definition P2P_read_status_response (s : peer) (client_fd : Z) : M peer :=
  p2p_slot client_fd ;;
  let s := pr_set_length client_fd 0 s in
  mret (pr_submit (OpRecv client_fd) (make_request_data client_fd (state_p2p_num P_TEST_RESPONSE)) s).

(** ** p2p_event_loop.c *)

(** The bytes a receive completion left in the client's buffer. *)
Definition pr_receive (s : peer) (c : cqe) : peer :=
  let fd := request_data_client_fd (cqe_user_data c) in
  pr_set_buffer fd (overwrite (pr_buffer s fd) (cqe_bytes c) 0) s.

(** One turn of [event_loop_p2p].  Trying the mutex succeeds when it is free. *)
Definition peer_turn (kill_thread_p2p : bool) (sockfd : Z) (shr : shared) (s : peer) (c : cqe) : M peer :=
  let s := pr_set_ready (if block_created_mtx shr then 0 else 1) s in
  if kill_thread_p2p then mret (pr_exit s) else
  let fd := request_data_client_fd (cqe_user_data c) in
  match state_p2p_of (request_data_event_type (cqe_user_data c)) with
  | Some P_ACCEPT =>
      let s := p2p_add_accept_request s sockfd in
      let s := pr_set_current (request_data_client_fd (u64 (cqe_res c))) s in
      P2P_send_PING s (pr_current_client_fd s)
  | Some P_WAIT_PONG => P2P_read_status_response s fd
  | Some P_TEST_RESPONSE =>
      if cqe_res c >? 0 then
        let s := pr_receive s c in
        p2p_slot (i32 (cqe_user_data c)) ;;
        msg_status ← P2P_deserialize_STATUS (take (Z.to_nat (cqe_res c)) (pr_buffer s (i32 (cqe_user_data c))));
        if msg_status =? P2P_PONG then P2Pser_send_STATUS s fd P2P_OK P_READ_RESPONSE else
        if msg_status =? P2P_ASK_IF_BLOCK_READY then
          if negb (pr_flag_block_ready s =? 0) then P2Pser_send_block shr s fd
          else P2Pser_send_STATUS s fd P2P_BLOCK_NOT_READY P_READ_RESPONSE
        else mret s
      else mret s
  | Some P_READ_RESPONSE => P2P_read_status_response s fd
  | Some P_BLOCK_SENDED => P2Pser_send_STATUS s fd P2P_FINISH P_WAIT_PONG
  | _ => mret s
  end.

(** Two accepts are queued before the loop. *)
Definition peer_start (sockfd : Z) : peer :=
  p2p_add_accept_request (p2p_add_accept_request (Peer ∅ ∅ (-1) 0 false []) sockfd) sockfd.

(** ** p2p_listen.c *)

Definition cl_P2P_read_status_response (l : listener) (client_fd : Z) (STATE_MACHINE : cl_p2p_state) : listener :=
  ls_submit (OpRecv client_fd) (make_request_data client_fd (cl_p2p_num STATE_MACHINE)) l.

Definition cl_p2p_send_STATUS (l : listener) (client_fd STATUS : Z) (STATE_MACHINE : cl_p2p_state) : M listener :=
  bytes ← P2P_send_status STATUS;
  if (length bytes <=? P2P_BUFFER_SIZE)%nat then
    let l := ls_set_send (overwrite (ls_buffer_send l) bytes 0) l in
    mret (ls_submit (OpSend client_fd (take (length bytes) (ls_buffer_send l)))
            (make_request_data client_fd (cl_p2p_num STATE_MACHINE)) l)
  else fail OutOfBounds.

(** The kernel stores the received bytes in [buffer]. *)
Definition ls_receive (l : listener) (c : cqe) : listener := ls_set_buffer (overwrite (ls_buffer l) (cqe_bytes c) 0) l.

(** One turn of the loop.  A negative result becomes a huge length. *)
Definition listener_turn (kill_thread_p2p : bool) (l : listener) (c : cqe) : M listener :=
  if kill_thread_p2p then mret (ls_exit l) else
  match cl_p2p_of (request_data_event_type (cqe_user_data c)) with
  | Some PROCESS_RESPONSE =>
      let l := ls_receive l c in
      if cqe_res c <? 0 then fail OutOfBounds else
      msg_status ← P2P_deserialize_STATUS (take (Z.to_nat (cqe_res c)) (ls_buffer l));
      if msg_status =? P2P_PING then cl_p2p_send_STATUS l (ls_s l) P2P_PONG CL_READ_RESPONSE else
      if msg_status =? P2P_OK then cl_p2p_send_STATUS l (ls_s l) P2P_ASK_IF_BLOCK_READY CL_READ_RESPONSE else
      if msg_status =? P2P_BLOCK then
        recv_block ← deserialize_block (take (Z.to_nat (cqe_res c)) (ls_buffer l));
        print_block_data recv_block ;;
        mret (ls_add_block recv_block l)
      else if msg_status =? P2P_BLOCK_NOT_READY then
        if negb (ls_flag_ready_count l =? 0) then cl_p2p_send_STATUS l (ls_s l) P2P_ASK_IF_BLOCK_READY CL_READ_RESPONSE
        else
          l ← cl_p2p_send_STATUS l (ls_s l) P2P_ASK_IF_BLOCK_READY CL_READ_RESPONSE;
          mret (ls_set_count 1 l)
      else mret l
  | Some CL_READ_RESPONSE => mret (cl_P2P_read_status_response l (ls_s l) PROCESS_RESPONSE)
  | _ => mret l
  end.

(** Once connected: an entry taken and never prepared, and the first receive. *)
Definition listener_start (s : Z) : listener :=
  let l := Listener s (zeros 4096) (zeros 4096) 0 false [] [] in
  let l := ls_submit OpStale 0 l in
  ls_submit (OpRecv s) (make_request_data s (cl_p2p_num PROCESS_RESPONSE)) l.
End code.

(** ** The handlers *)
Section facts.
Context {sod : Sodium} {clk : Clock} {pb : Protobuf} {st : Stray} {rd : Reading} {pbok : ProtobufOk pb}.

(** Descriptors within the peer's arrays. *)
Definition peer_fd (fd : Z) : Prop := 0 <= fd < P2P_MAX_CONNECTIONS.

Lemma p2p_slot_ok fd m : peer_fd fd -> p2p_slot fd m = Ok ((), m).
Proof.
  intros Hfd. unfold peer_fd in Hfd. unfold p2p_slot. by rewrite (proj2 (Z.leb_le _ _)), (proj2 (Z.ltb_lt _ _)) by lia.
Qed.

(** The status message of clock reading [t]. *)
Definition p2p_status (t : nat) (status : Z) : P2pIpcMessage :=
  MkP2pIpcMessage (made_date t) None None None None None None status.

Lemma p2p_status_wf t status : 0 <= status < 12 -> p2p_wf (p2p_status t status).
Proof.
  intros Hs. unfold p2p_wf, p2p_status, made_date.
  cbn [p_timestamp_begin p_timestamp_end p_difficulty p_status_code p_merkle_root p_nonce p_prev_block p_date u64_opt olen].
  rewrite strftime_stamp_length. split_and!; done || lia.
Qed.

Lemma p2p_status_size t status :
  0 <= status < 12 -> (0 < length (p2p__ipc_message__pack (p2p_status t status)) <= P2P_BUFFER_SIZE)%nat.
Proof.
  intros Hs. pose proof (p2p_status_wf t status Hs) as Hw. pose proof (p2p_pack_nonempty _ Hw). pose proof (p2p_pack_size _ Hw) as Hl.
  cbn [p2p_status p_merkle_root p_nonce p_prev_block p_date olen] in Hl. unfold made_date in Hl. rewrite strftime_stamp_length in Hl.
  fold (made_date t) in Hl. fold (p2p_status t status) in Hl. lia.
Qed.

Lemma pr_buffer_set fd l n s : pr_buffer (pr_set_length fd n (pr_set_buffer fd l s)) fd = l.
Proof. unfold pr_buffer. cbn. by rewrite lookup_insert_eq. Qed.

(** What a handler leaves in the peer's state, whatever it does to buffers. *)
Record queued (s s' : peer) (e : sqe) : Prop := Queued {
  qu_sq : pr_sq s' = pr_sq s ++ [e];
  qu_exited : pr_exited s' = pr_exited s }.

Lemma wp_P2Pser_send_STATUS s fd status STATE (Q : peer -> mem -> Prop) m :
  peer_fd fd -> 0 <= status < 12 ->
  (forall s', queued s s' (Sqe (OpSend fd (p2p__ipc_message__pack (p2p_status (ticks m) status))) (make_request_data fd (state_p2p_num STATE))) ->
     Q s' (Mem (heap m) (next m) (rng m) (S (ticks m)))) ->
  wp (P2Pser_send_STATUS s fd status STATE) Q m.
Proof.
  intros Hfd Hst HQ. unfold P2Pser_send_STATUS, P2P_send_status. apply wp_bind. eapply wp_run; [by apply p2p_slot_ok|].
  apply wp_bind, wp_bind, wp_tick. apply wp_ret. fold (made_date (ticks m)). fold (p2p_status (ticks m) status).
  pose proof (p2p_status_size (ticks m) status Hst) as [_ Hl]. rewrite (proj2 (Nat.leb_le _ _) Hl). cbv zeta.
  rewrite pr_buffer_set, take_overwrite0. apply wp_ret. apply HQ. done.
Qed.

Lemma wp_P2P_read_status_response s fd (Q : peer -> mem -> Prop) m :
  peer_fd fd ->
  (forall s', queued s s' (Sqe (OpRecv fd) (make_request_data fd (state_p2p_num P_TEST_RESPONSE))) -> Q s' m) ->
  wp (P2P_read_status_response s fd) Q m.
Proof.
  intros Hfd HQ. unfold P2P_read_status_response. apply wp_bind. eapply wp_run; [by apply p2p_slot_ok|].
  apply wp_ret. by apply HQ.
Qed.

(** The shared buffer has 4096 bytes and the published size is within it. *)
Definition shared_ok (shr : shared) : Prop :=
  length (buffer_BLOCK_DATA shr) = P2P_BUFFER_SIZE /\ 0 <= block_written_size shr <= 4096.

Lemma wp_P2Pser_send_block shr s fd (Q : peer -> mem -> Prop) m :
  peer_fd fd -> shared_ok shr ->
  (forall s', queued s s' (Sqe (OpSend fd (take (Z.to_nat (block_written_size shr)) (buffer_BLOCK_DATA shr)))
                             (make_request_data fd (state_p2p_num P_BLOCK_SENDED))) -> Q s' m) ->
  wp (P2Pser_send_block shr s fd) Q m.
Proof.
  intros Hfd [Hl Hw] HQ. unfold P2Pser_send_block. apply wp_bind. eapply wp_run; [by apply p2p_slot_ok|]. cbv zeta.
  apply wp_ret. apply HQ. rewrite (take_ge (buffer_BLOCK_DATA shr) P2P_BUFFER_SIZE) by lia. split; [|done].
  set (s1 := pr_set_buffer _ _ _).
  assert (take (Z.to_nat (block_written_size shr)) (pr_buffer s1 fd) = take (Z.to_nat (block_written_size shr)) (buffer_BLOCK_DATA shr)) as ->.
  { unfold pr_buffer, s1. cbn [pr_buffers pr_set_buffer]. rewrite lookup_insert_eq. cbn [default]. unfold overwrite. rewrite take_0. cbn [app].
    unfold Datatypes.id. by rewrite take_app_le by lia. }
  done.
Qed.

Lemma wp_cl_p2p_send_STATUS l fd status STATE (Q : listener -> mem -> Prop) m :
  0 <= status < 12 ->
  (forall b, Q (ls_submit (OpSend fd (p2p__ipc_message__pack (p2p_status (ticks m) status))) (make_request_data fd (cl_p2p_num STATE))
                 (ls_set_send b l)) (Mem (heap m) (next m) (rng m) (S (ticks m)))) ->
  wp (cl_p2p_send_STATUS l fd status STATE) Q m.
Proof.
  intros Hst HQ. unfold cl_p2p_send_STATUS, P2P_send_status. apply wp_bind, wp_bind, wp_tick. apply wp_ret.
  fold (made_date (ticks m)). fold (p2p_status (ticks m) status).
  pose proof (p2p_status_size (ticks m) status Hst) as [_ Hl]. rewrite (proj2 (Nat.leb_le _ _) Hl). cbv zeta.
  cbn [ls_buffer_send ls_set_send]. rewrite take_overwrite0. apply wp_ret. apply HQ.
Qed.

(** ** Tags *)

Lemma p2p_tag_state fd f : peer_fd fd -> state_p2p_of (request_data_event_type (make_request_data fd (state_p2p_num f))) = Some f.
Proof. intros Hfd. unfold peer_fd in Hfd. rewrite request_data_type, state_p2p_of_num; [done|lia|apply state_p2p_num_range]. Qed.

Lemma p2p_tag_fd fd f : peer_fd fd -> request_data_client_fd (make_request_data fd (state_p2p_num f)) = fd.
Proof. intros Hfd. unfold peer_fd in Hfd. apply request_data_fd; [lia|apply state_p2p_num_range]. Qed.

Lemma p2p_tag_i32 fd f : peer_fd fd -> i32 (make_request_data fd (state_p2p_num f)) = fd.
Proof. intros Hfd. unfold peer_fd in Hfd. apply request_data_i32; [lia|apply state_p2p_num_range]. Qed.

Lemma cl_tag_state fd f : 0 <= fd < 2 ^ 31 -> cl_p2p_of (request_data_event_type (make_request_data fd (cl_p2p_num f))) = Some f.
Proof. intros Hfd. rewrite request_data_type, cl_p2p_of_num; [done|lia|apply cl_p2p_num_range]. Qed.

Lemma peer_fd_0 : peer_fd 0.
Proof. unfold peer_fd. lia. Qed.

(** What the received bytes decode to. *)
Lemma deserialize_status_run bytes msg m :
  reading = exchanged -> p2p__ipc_message__unpack bytes = Some msg -> P2P_deserialize_STATUS bytes m = Ok (p_status_code msg, m).
Proof. intros Hfi Hu. unfold P2P_deserialize_STATUS. rewrite Hu, Hfi. done. Qed.

(** As written the status that decodes is read after its message was released. *)
Lemma deserialize_status_dangles bytes msg m :
  reading = as_written -> p2p__ipc_message__unpack bytes = Some msg -> P2P_deserialize_STATUS bytes m = Fault BadPointer.
Proof. intros Hrd Hu. unfold P2P_deserialize_STATUS. rewrite Hu, Hrd. done. Qed.

Lemma received_by_peer s fd bytes :
  peer_fd fd ->
  take (Z.to_nat (Z.of_nat (length bytes)))
    (pr_buffer (pr_receive s (Cqe (make_request_data fd (state_p2p_num P_TEST_RESPONSE)) (Z.of_nat (length bytes)) bytes)) fd) = bytes.
Proof.
  intros Hfd. rewrite Nat2Z.id. unfold pr_receive. cbn [cqe_user_data cqe_bytes]. rewrite p2p_tag_fd by done.
  unfold pr_buffer at 1. cbn [pr_buffers pr_set_buffer]. rewrite lookup_insert_eq. apply take_overwrite0.
Qed.

(** A status received by either thread. *)
Lemma peer_reads sockfd shr s fd bytes m :
  peer_fd fd -> (0 < length bytes)%nat ->
  peer_turn false sockfd shr s (Cqe (make_request_data fd (state_p2p_num P_TEST_RESPONSE)) (Z.of_nat (length bytes)) bytes) m =
    (let s1 := pr_receive (pr_set_ready (if block_created_mtx shr then 0 else 1) s)
                 (Cqe (make_request_data fd (state_p2p_num P_TEST_RESPONSE)) (Z.of_nat (length bytes)) bytes) in
     msg_status ← P2P_deserialize_STATUS bytes;
     if msg_status =? P2P_PONG then P2Pser_send_STATUS s1 fd P2P_OK P_READ_RESPONSE else
     if msg_status =? P2P_ASK_IF_BLOCK_READY then
       if negb (pr_flag_block_ready s1 =? 0) then P2Pser_send_block shr s1 fd
       else P2Pser_send_STATUS s1 fd P2P_BLOCK_NOT_READY P_READ_RESPONSE
     else mret s1) m.
Proof.
  intros Hfd Hl. unfold peer_turn. cbn [cqe_user_data cqe_res]. rewrite p2p_tag_state, p2p_tag_i32, p2p_tag_fd by done.
  destruct (Z.gtb_spec (Z.of_nat (length bytes)) 0); [|lia]. erewrite bind_ok by by apply p2p_slot_ok.
  by rewrite received_by_peer.
Qed.

Lemma peer_read_dangles sockfd shr s fd bytes msg m :
  reading = as_written -> peer_fd fd -> p2p__ipc_message__unpack bytes = Some msg -> (0 < length bytes)%nat ->
  peer_turn false sockfd shr s (Cqe (make_request_data fd (state_p2p_num P_TEST_RESPONSE)) (Z.of_nat (length bytes)) bytes) m = Fault BadPointer.
Proof. intros Hrd Hfd Hu Hl. rewrite peer_reads by done. apply bind_fault. by eapply deserialize_status_dangles. Qed.

Lemma listener_read_dangles l q bytes msg m :
  reading = as_written -> 0 <= q < 2 ^ 31 -> p2p__ipc_message__unpack bytes = Some msg ->
  listener_turn false l (Cqe (make_request_data q (cl_p2p_num PROCESS_RESPONSE)) (Z.of_nat (length bytes)) bytes) m = Fault BadPointer.
Proof.
  intros Hrd Hq Hu. unfold listener_turn. cbn [cqe_user_data cqe_res]. rewrite cl_tag_state by done. rewrite (proj2 (Z.ltb_ge _ _)) by lia.
  apply bind_fault. unfold ls_receive. cbn [cqe_bytes ls_buffer ls_set_buffer]. rewrite Nat2Z.id, take_overwrite0. by eapply deserialize_status_dangles.
Qed.
End facts.

(** ** Claims *)
Section claims.
Context {sod : Sodium} {clk : Clock} {pb : Protobuf} {st : Stray} {pbok : ProtobufOk pb}.

(** C38: no peer survives a status.  Whatever packet that decodes reaches the
    offering or the asking thread, the turn that takes it reads the status of a
    message it has released, which is a fault.  And exchanging the two statements
    would not be enough: the readiness test tells nothing about readiness before
    the message thread has taken the mutex, so that a neighbour that asks then
    is answered with a "block" of no bytes. *)
Theorem peer_status_dangles {rd : Reading} bytes msg m :
  p2p__ipc_message__unpack bytes = Some msg -> (0 < length bytes)%nat ->
  (reading = as_written ->
   (forall sockfd shr s fd, peer_fd fd ->
      peer_turn false sockfd shr s (Cqe (make_request_data fd (state_p2p_num P_TEST_RESPONSE)) (Z.of_nat (length bytes)) bytes) m = Fault BadPointer) /\
   (forall l q, 0 <= q < 2 ^ 31 ->
      listener_turn false l (Cqe (make_request_data q (cl_p2p_num PROCESS_RESPONSE)) (Z.of_nat (length bytes)) bytes) m = Fault BadPointer)) /\
  (reading = exchanged -> p_status_code msg = P2P_ASK_IF_BLOCK_READY -> forall sockfd s fd data,
   peer_fd fd -> length data = P2P_BUFFER_SIZE ->
   wp (peer_turn false sockfd (Shared 0 data 0 false) s
         (Cqe (make_request_data fd (state_p2p_num P_TEST_RESPONSE)) (Z.of_nat (length bytes)) bytes))
     (fun s' m' => pr_sq s' = pr_sq s ++ [Sqe (OpSend fd []) (make_request_data fd (state_p2p_num P_BLOCK_SENDED))] /\ m' = m) m).
Proof.
  intros Hu Hl. split; [intros Hrd; split; intros; [by eapply peer_read_dangles|by eapply listener_read_dangles]|].
  intros Hrd Hst sockfd s fd data Hfd Hd. eapply wp_same; [by apply peer_reads|]. cbv zeta.
  apply wp_bind. eapply wp_run; [by apply deserialize_status_run|]. rewrite Hst. cbn [Z.eqb Pos.eqb].
  change (negb (pr_flag_block_ready _ =? 0)) with true. cbn iota.
  apply wp_P2Pser_send_block; [done|by split|]. intros s' [Hsq _]. done.
Qed.

(** A neighbour that closes the connection takes the asking thread down:
    the receive completes with 0 bytes, nothing decodes, and the null message is
    dereferenced. *)
Lemma listener_disconnect_faults {rd : Reading} l q bytes m :
  0 <= q < 2 ^ 31 ->
  listener_turn false l (Cqe (make_request_data q (cl_p2p_num PROCESS_RESPONSE)) 0 bytes) m = Fault NullDeref.
Proof.
  intros Hq. unfold listener_turn. cbn [cqe_user_data cqe_res]. rewrite cl_tag_state by done. cbn [Z.ltb Z.compare Z.to_nat].
  rewrite take_0. apply bind_fault. unfold P2P_deserialize_STATUS. by rewrite p2p_unpack_nil.
Qed.
End claims.

(** A neighbour's question. *)
Definition ready_question : list byte :=
  Wire.p2p_pack (MkP2pIpcMessage [x31] None None None None None None P2P_ASK_IF_BLOCK_READY).

Lemma peer_status_dangles_witness :
  listener_turn (clk:=Toy.toy_clock) (pb:=Wire.proto2) (st:=calm) (rd:=as_written) false (listener_start 6)
    (Cqe (make_request_data 6 (cl_p2p_num PROCESS_RESPONSE)) (Z.of_nat (length ready_question)) ready_question) empty_mem = Fault BadPointer /\
  wp (peer_turn (clk:=Toy.toy_clock) (pb:=Wire.proto2) (rd:=exchanged) false 3 (Shared 0 (zeros 4096) 0 false) (Peer ∅ ∅ 5 0 false [])
        (Cqe (make_request_data 5 (state_p2p_num P_TEST_RESPONSE)) (Z.of_nat (length ready_question)) ready_question))
    (fun s' m' => pr_sq s' = [Sqe (OpSend 5 []) (make_request_data 5 (state_p2p_num P_BLOCK_SENDED))]) empty_mem.
Proof.
  assert (forall rd, _) as Hall by (intros rd; apply (peer_status_dangles (clk:=Toy.toy_clock) (pb:=Wire.proto2) (st:=calm) (rd:=rd)
    ready_question (MkP2pIpcMessage [x31] None None None None None None P2P_ASK_IF_BLOCK_READY) empty_mem);
    [by vm_compute|apply Nat.ltb_lt; by vm_compute]).
  split.
  - apply (Hall as_written); [reflexivity|lia].
  - eapply wp_mono; [apply (Hall exchanged); [reflexivity|reflexivity|unfold peer_fd; lia|apply length_zeros]|].
    intros s' m' [Hs _]. exact Hs.
Defined.
