(* ===== verification/Peers.v ===== *)
(** * Two nodes exchanging a block

    The offering thread of one node (p2p_event_loop.c) and the asking thread of
    its neighbour (p2p_listen.c), each with its memory, joined by two channels;
    the offering node's message thread publishes its block at any moment.  The
    scheduler is free: an event completes one pending operation of either side
    or publishes the block.  Every send arrives as one receive.  The phases of
    the exchange and their invariant carry the theorems of Neighbours.v,
    Streams.v and Threads.v. *)

From S2P Require Import Prelude.
From S2P Require Import CTypes.
From S2P Require Import Memory.
From S2P Require Import Platform.
From S2P Require Import Misc.
From S2P Require Import BlockData.
From S2P Require Import RequestData.
From S2P Require Import Codec.
From S2P Require Import Dump.
From S2P Require Import ClientIpc.
From S2P Require Import Server.
From S2P Require Import Client.
From S2P Require Import P2P.

(** Both nodes, the bytes under way in each direction, the shared globals. *)
Record net := Net {
  n_peer : peer;
  n_list : listener;
  n_mp : mem;
  n_ml : mem;
  n_pl : list (list byte);
  n_lp : list (list byte);
  n_sh : shared }.

(** The first pending operation of a kind, and the others. *)
Fixpoint take_op (f : op -> bool) (l : list sqe) : option (sqe * list sqe) :=
  match l with
  | [] => None
  | e :: l => if f (sqe_op e) then Some (e, l) else '(x, r) ← take_op f l; Some (x, e :: r)
  end.

Definition is_send (o : op) : bool := match o with OpSend _ _ => true | _ => false end.
Definition is_recv (o : op) : bool := match o with OpRecv _ => true | _ => false end.
Definition sent_bytes (o : op) : list byte := match o with OpSend _ b => b | _ => [] end.

Definition pr_set_sq (l : list sqe) (s : peer) : peer :=
  Peer (pr_buffers s) (pr_lengths s) (pr_current_client_fd s) (pr_flag_block_ready s) (pr_exited s) l.
Definition ls_set_sq (q : list sqe) (l : listener) : listener :=
  Listener (ls_s l) (ls_buffer l) (ls_buffer_send l) (ls_flag_ready_count l) (ls_exited l) (ls_blocks l) q.

(** Sending nothing puts nothing on the wire. *)
Definition put (b : list byte) (w : list (list byte)) : list (list byte) := match b with [] => w | _ => w ++ [b] end.

Inductive nev := PeerSend | PeerRecv | ListSend | ListRecv | Publish.

(** The result of a turn as the next configuration. *)
Definition run_turn {A} (r : res (A * mem)) (k : A -> mem -> net) : res net :=
  match r with
  | Ok (a, m) => Ok (k a m)
  | Fault f => Fault f
  | Die => Die
  | NoFuel => NoFuel
  end.

Section net.
Context {sod : Sodium} {clk : Clock} {pb : Protobuf} {st : Stray} {rd : Reading}.
Context (sockfd : Z) (pub : shared).

Definition peer_done (n : net) (e : sqe) (rest : list sqe) (res : Z) (bytes : list byte) (pl lp : list (list byte)) : Memory.res net :=
  run_turn (peer_turn false sockfd (n_sh n) (pr_set_sq rest (n_peer n)) (Cqe (sqe_data e) res bytes) (n_mp n))
    (fun s m => Net s (n_list n) m (n_ml n) pl lp (n_sh n)).

Definition list_done (n : net) (e : sqe) (rest : list sqe) (res : Z) (bytes : list byte) (pl lp : list (list byte)) : Memory.res net :=
  run_turn (listener_turn false (ls_set_sq rest (n_list n)) (Cqe (sqe_data e) res bytes) (n_ml n))
    (fun l m => Net (n_peer n) l (n_mp n) m pl lp (n_sh n)).

(** An event, when it is possible. *)
Definition net_do (e : nev) (n : net) : option (Memory.res net) :=
  match e with
  | PeerSend =>
      '(x, rest) ← take_op is_send (pr_sq (n_peer n));
      Some (peer_done n x rest (Z.of_nat (length (sent_bytes (sqe_op x)))) [] (put (sent_bytes (sqe_op x)) (n_pl n)) (n_lp n))
  | PeerRecv =>
      '(x, rest) ← take_op is_recv (pr_sq (n_peer n));
      match n_lp n with
      | b :: w => Some (peer_done n x rest (Z.of_nat (length b)) b (n_pl n) w)
      | [] => None
      end
  | ListSend =>
      '(x, rest) ← take_op is_send (ls_sq (n_list n));
      Some (list_done n x rest (Z.of_nat (length (sent_bytes (sqe_op x)))) [] (n_pl n) (put (sent_bytes (sqe_op x)) (n_lp n)))
  | ListRecv =>
      '(x, rest) ← take_op is_recv (ls_sq (n_list n));
      match n_pl n with
      | b :: w => Some (list_done n x rest (Z.of_nat (length b)) b w (n_lp n))
      | [] => None
      end
  | Publish =>
      if block_created_mtx (n_sh n) then Some (Ok (Net (n_peer n) (n_list n) (n_mp n) (n_ml n) (n_pl n) (n_lp n) pub)) else None
  end.

Fixpoint net_run (es : list nev) (n : net) : option (Memory.res net) :=
  match es with
  | [] => Some (Ok n)
  | e :: es =>
      match net_do e n with
      | Some (Ok n) => net_run es n
      | o => o
      end
  end.

(** The connection was accepted with descriptor [fd]; the neighbour's socket is [q]. *)
Definition net_init (fd q : Z) (locked : shared) (mp ml : mem) : Memory.res net :=
  run_turn (peer_turn false sockfd locked (pr_set_sq (tail (pr_sq (peer_start sockfd))) (peer_start sockfd))
              (Cqe (make_request_data 0 (state_p2p_num P_ACCEPT)) fd []) mp)
    (fun s m => Net s (listener_start q) m ml [] [] locked).
End net.

(** ** The protocol *)

(** Where the exchange stands: a status in the offering side's hands, on its
    way, in the asking side's hands, on its way back; then the block. *)
Inductive phase :=
| PSend (status : Z) | PWire (status : Z) | LSend (status : Z) | LWire (status : Z)
| BSend | BWire (finish_sent : bool) | Received (finish_sent : bool).

#[global] Instance phase_eq_decision : EqDecision phase.
Proof. solve_decision. Defined.
#[global] Instance nev_eq_decision : EqDecision nev.
Proof. solve_decision. Defined.

(** The statuses each side sends before the block, and the state they are sent in. *)
Inductive peer_says : Z -> state_p2p -> Prop :=
| Says_ping : peer_says P2P_PING P_WAIT_PONG
| Says_ok : peer_says P2P_OK P_READ_RESPONSE
| Says_not_ready : peer_says P2P_BLOCK_NOT_READY P_READ_RESPONSE.

Definition listener_says (status : Z) : Prop := status = P2P_PONG \/ status = P2P_ASK_IF_BLOCK_READY.

(** The answer to a status of the offering side. *)
Definition answer (status : Z) : Z := if status =? P2P_PING then P2P_PONG else P2P_ASK_IF_BLOCK_READY.

(** The phase after an event. *)
Definition next_phase (ready : bool) (p : phase) (e : nev) : phase :=
  match e, p with
  | PeerSend, PSend s => PWire s
  | PeerSend, BSend => BWire false
  | PeerSend, BWire _ => BWire true
  | PeerSend, Received _ => Received true
  | ListRecv, PWire s => LSend (answer s)
  | ListRecv, BWire b => Received b
  | ListSend, LSend s => LWire s
  | PeerRecv, LWire s => if s =? P2P_PONG then PSend P2P_OK else if ready then BSend else PSend P2P_BLOCK_NOT_READY
  | _, _ => p
  end.

(** The events in which a peer takes up a packet and reads its status. *)
Definition receives (e : nev) : bool := match e with PeerRecv | ListRecv => true | _ => false end.

(** Turns left once the block is published. *)
Definition rank (p : phase) : nat :=
  match p with
  | PSend s => if s =? P2P_PING then 11 else 7
  | PWire s => if s =? P2P_PING then 10 else 6
  | LSend s => if s =? P2P_PONG then 9 else 5
  | LWire s => if s =? P2P_PONG then 8 else 4
  | BSend => 3
  | BWire false => 2
  | BWire true => 1
  | Received false => 1
  | Received true => 0
  end.

Lemma rank_bound p : (rank p <= 11)%nat.
Proof. destruct p as [s|s|s|s| |[]|[]]; cbn [rank]; try case_match; lia. Qed.

Section facts.
Context {sod : Sodium} {clk : Clock} {pb : Protobuf} {st : Stray} {rd : Reading} {ok : SodiumOk sod} {pbok : ProtobufOk pb}.
Context (sockfd : Z) (pub : shared) (fd q : Z) (blk : block_t) (date : list byte).

(** The block as it goes over the wire. *)
Abbreviation wire_block := (p2p__ipc_message__pack (block_msg blk date)).

(** What was published is that block. *)
Record published : Prop := Published {
  pb_ok : block_ok blk date;
  pb_shared : shared_ok pub;
  pb_free : block_created_mtx pub = false;
  pb_bytes : take (Z.to_nat (block_written_size pub)) (buffer_BLOCK_DATA pub) = wire_block }.

Definition decodes (b : list byte) (status : Z) : Prop :=
  (0 < length b)%nat /\ exists msg, p2p__ipc_message__unpack b = Some msg /\ p_status_code msg = status.

(** The packet that ends the exchange. *)
Definition finishes (b : list byte) : Prop := exists t, b = p2p__ipc_message__pack (p2p_status t P2P_FINISH).

Definition accept_sqe : sqe := Sqe (OpAccept sockfd) (make_request_data 0 (state_p2p_num P_ACCEPT)).
Definition P_at (n : net) (o : op) (s : state_p2p) : Prop :=
  pr_sq (n_peer n) = [accept_sqe; accept_sqe; Sqe o (make_request_data fd (state_p2p_num s))].
Definition L_at (n : net) (o : op) (s : cl_p2p_state) : Prop :=
  ls_s (n_list n) = q /\ ls_blocks (n_list n) = [] /\ ls_sq (n_list n) = [Sqe OpStale 0; Sqe o (make_request_data q (cl_p2p_num s))].

Definition P_recv (n : net) : Prop := P_at n (OpRecv fd) P_TEST_RESPONSE.
Definition L_recv (n : net) : Prop := L_at n (OpRecv q) PROCESS_RESPONSE.
Definition wires (n : net) (pl lp : list (list byte)) : Prop := n_pl n = pl /\ n_lp n = lp.

(** The asking side holds the block and waits for nothing. *)
Definition has_block (n : net) : Prop :=
  ls_sq (n_list n) = [Sqe OpStale 0] /\
  exists x, ls_blocks (n_list n) = [Ptr x 0] /\ heap (n_ml n) !! x = Some (BBlks [received_block blk date]).

Definition at_phase (p : phase) (n : net) : Prop :=
  match p with
  | PSend s => exists b STATE, decodes b s /\ peer_says s STATE /\ P_at n (OpSend fd b) STATE /\ L_recv n /\ wires n [] []
  | PWire s => exists b STATE, decodes b s /\ peer_says s STATE /\ P_recv n /\ L_recv n /\ wires n [b] []
  | LSend s => exists b, decodes b s /\ listener_says s /\ P_recv n /\ L_at n (OpSend q b) CL_READ_RESPONSE /\ wires n [] []
  | LWire s => exists b, decodes b s /\ listener_says s /\ P_recv n /\ L_recv n /\ wires n [] [b]
  | BSend => n_sh n = pub /\ P_at n (OpSend fd wire_block) P_BLOCK_SENDED /\ L_recv n /\ wires n [] []
  | BWire false => exists b, finishes b /\ n_sh n = pub /\ P_at n (OpSend fd b) P_WAIT_PONG /\ L_recv n /\ wires n [wire_block] []
  | BWire true => exists b, finishes b /\ n_sh n = pub /\ P_recv n /\ L_recv n /\ wires n [wire_block; b] []
  | Received false => exists b, finishes b /\ n_sh n = pub /\ P_at n (OpSend fd b) P_WAIT_PONG /\ has_block n /\ wires n [] []
  | Received true => exists b, n_sh n = pub /\ P_recv n /\ has_block n /\ wires n [b] []
  end.

(** The globals are locked until they are published. *)
Definition sh_inv (n : net) : Prop := n_sh n = pub \/ block_created_mtx (n_sh n) = true.

Context (Hpub : published) (Hfi : reading = exchanged) (Hfd : peer_fd fd) (Hq : 0 <= q < 2 ^ 31).

Lemma decodes_status t status : 0 <= status < 12 -> decodes (p2p__ipc_message__pack (p2p_status t status)) status.
Proof.
  intros Hs. split; [by apply p2p_status_size|]. exists (p2p_status t status). split; [|done]. by apply p2p_unpack_pack, p2p_status_wf.
Qed.

Lemma finishes_decodes b : finishes b -> decodes b P2P_FINISH.
Proof. intros [t ->]. apply decodes_status. lia. Qed.

Lemma decodes_block : decodes wire_block P2P_BLOCK.
Proof.
  pose proof (block_msg_wf _ _ (pb_ok Hpub)) as Hw. split; [by apply p2p_pack_nonempty|]. eexists. split; [by apply p2p_unpack_pack|done].
Qed.

Lemma put_decodes b s w : decodes b s -> put b w = w ++ [b].
Proof. intros [Hl _]. destruct b; [cbn in Hl; lia|done]. Qed.

(** ** One event *)

(** A step: the event's turn does not fault and leads to the next phase. *)
Definition steps_to (r : Memory.res net) (p : phase) (sh0 : shared) : Prop :=
  exists n', r = Ok n' /\ at_phase p n' /\ n_sh n' = sh0.

Lemma run_turn_wp {A} (c : M A) m k p sh0 :
  wp c (fun a m' => at_phase p (k a m') /\ n_sh (k a m') = sh0) m -> steps_to (run_turn (c m) k) p sh0.
Proof. intros (a & m' & Hc & H1 & H2). exists (k a m'). by rewrite Hc. Qed.

(** The reply a received status produces on the offering side. *)
Lemma peer_replies n rest b s p pl lp :
  decodes b s ->
  (let s1 := pr_receive (pr_set_ready (if block_created_mtx (n_sh n) then 0 else 1) (pr_set_sq rest (n_peer n)))
               (Cqe (make_request_data fd (state_p2p_num P_TEST_RESPONSE)) (Z.of_nat (length b)) b) in
   wp (if s =? P2P_PONG then P2Pser_send_STATUS s1 fd P2P_OK P_READ_RESPONSE else
       if s =? P2P_ASK_IF_BLOCK_READY then
         if negb (pr_flag_block_ready s1 =? 0) then P2Pser_send_block (n_sh n) s1 fd
         else P2Pser_send_STATUS s1 fd P2P_BLOCK_NOT_READY P_READ_RESPONSE
       else mret s1)
     (fun s' m' => at_phase p (Net s' (n_list n) m' (n_ml n) pl lp (n_sh n))) (n_mp n)) ->
  steps_to (peer_done sockfd n (Sqe (OpRecv fd) (make_request_data fd (state_p2p_num P_TEST_RESPONSE))) rest (Z.of_nat (length b)) b pl lp) p (n_sh n).
Proof.
  intros (Hl & msg & Hu & <-) Hw. unfold peer_done. apply run_turn_wp. eapply wp_same; [by apply peer_reads|].
  apply wp_bind. eapply wp_run; [by apply deserialize_status_run|]. eapply wp_mono; [exact Hw|]. intros s' m' H'. done.
Qed.

(** A finished send or receive request of either side. *)
Lemma peer_wait n rest o s STATE p pl lp res :
  STATE = P_WAIT_PONG \/ STATE = P_READ_RESPONSE ->
  (forall s', pr_sq s' = rest ++ [Sqe (OpRecv fd) (make_request_data fd (state_p2p_num P_TEST_RESPONSE))] ->
     at_phase p (Net s' (n_list n) (n_mp n) (n_ml n) pl lp (n_sh n))) ->
  s = Sqe o (make_request_data fd (state_p2p_num STATE)) ->
  steps_to (peer_done sockfd n s rest res [] pl lp) p (n_sh n).
Proof.
  intros HS Hp ->. unfold peer_done. apply run_turn_wp. unfold peer_turn. cbn [sqe_data cqe_user_data cqe_res cqe_bytes].
  rewrite p2p_tag_state, p2p_tag_fd by done. destruct HS as [-> | ->];
    (apply wp_P2P_read_status_response; [done|]; intros s' [Hsq _]; split; [|done]; apply Hp; exact Hsq).
Qed.

Lemma peer_finish n rest o p pl lp res :
  (forall b s' m', finishes b -> pr_sq s' = rest ++ [Sqe (OpSend fd b) (make_request_data fd (state_p2p_num P_WAIT_PONG))] ->
     at_phase p (Net s' (n_list n) m' (n_ml n) pl lp (n_sh n))) ->
  steps_to (peer_done sockfd n (Sqe o (make_request_data fd (state_p2p_num P_BLOCK_SENDED))) rest res [] pl lp) p (n_sh n).
Proof.
  intros Hp. unfold peer_done. apply run_turn_wp. unfold peer_turn. cbn [sqe_data cqe_user_data cqe_res cqe_bytes].
  rewrite p2p_tag_state, p2p_tag_fd by done.
  apply wp_P2Pser_send_STATUS; [done|lia|]. intros s' [Hsq _]. split; [|done]. eapply Hp; [|exact Hsq]. by eexists.
Qed.

Lemma list_wait n rest o p pl lp res :
  ls_s (n_list n) = q ->
  (forall l', ls_sq l' = rest ++ [Sqe (OpRecv q) (make_request_data q (cl_p2p_num PROCESS_RESPONSE))] ->
     ls_s l' = q -> ls_blocks l' = ls_blocks (n_list n) ->
     at_phase p (Net (n_peer n) l' (n_mp n) (n_ml n) pl lp (n_sh n))) ->
  steps_to (list_done n (Sqe o (make_request_data q (cl_p2p_num CL_READ_RESPONSE))) rest res [] pl lp) p (n_sh n).
Proof.
  intros Hs Hp. unfold list_done. apply run_turn_wp. unfold listener_turn. cbn [sqe_data cqe_user_data cqe_res cqe_bytes].
  rewrite cl_tag_state by done. apply wp_ret. split; [|done]. cbn [ls_s ls_set_sq]. rewrite Hs. by apply Hp.
Qed.

(** A status received by the asking side. *)
Lemma list_replies n rest o b s STATE p pl lp :
  decodes b s -> peer_says s STATE -> ls_s (n_list n) = q ->
  (forall b' l' m', decodes b' (answer s) -> ls_sq l' = rest ++ [Sqe (OpSend q b') (make_request_data q (cl_p2p_num CL_READ_RESPONSE))] ->
     ls_s l' = q -> ls_blocks l' = ls_blocks (n_list n) -> at_phase p (Net (n_peer n) l' (n_mp n) m' pl lp (n_sh n))) ->
  steps_to (list_done n (Sqe o (make_request_data q (cl_p2p_num PROCESS_RESPONSE))) rest (Z.of_nat (length b)) b pl lp) p (n_sh n).
Proof.
  intros (Hl & msg & Hu & Hst) Hs Hq' Hp. unfold list_done. apply run_turn_wp. unfold listener_turn. cbn [sqe_data cqe_user_data cqe_res cqe_bytes].
  rewrite cl_tag_state by done. rewrite (proj2 (Z.ltb_ge _ _)) by lia. unfold ls_receive. cbn [cqe_bytes ls_buffer ls_set_buffer].
  rewrite Nat2Z.id, take_overwrite0. apply wp_bind. eapply wp_run; [by apply deserialize_status_run|]. rewrite Hst. cbn [ls_s ls_set_sq ls_set_buffer]. rewrite Hq'.
  destruct Hs; cbn [Z.eqb Pos.eqb answer] in Hp |- *.
  - apply wp_cl_p2p_send_STATUS; [lia|]. intros bs. split; [|done]. by eapply Hp; [apply decodes_status; lia|..].
  - apply wp_cl_p2p_send_STATUS; [lia|]. intros bs. split; [|done]. by eapply Hp; [apply decodes_status; lia|..].
  - destruct (negb _).
    + apply wp_cl_p2p_send_STATUS; [lia|]. intros bs. split; [|done]. by eapply Hp; [apply decodes_status; lia|..].
    + apply wp_bind, wp_cl_p2p_send_STATUS; [lia|]. intros bs. apply wp_ret. split; [|done]. by eapply Hp; [apply decodes_status; lia|..].
Qed.

(** The block received by the asking side. *)
Lemma list_takes_block n rest o p pl lp :
  ls_s (n_list n) = q -> ls_blocks (n_list n) = [] ->
  (forall l' m' x, ls_sq l' = rest -> ls_blocks l' = [Ptr x 0] -> heap m' !! x = Some (BBlks [received_block blk date]) ->
     at_phase p (Net (n_peer n) l' (n_mp n) m' pl lp (n_sh n))) ->
  steps_to (list_done n (Sqe o (make_request_data q (cl_p2p_num PROCESS_RESPONSE))) rest (Z.of_nat (length wire_block)) wire_block pl lp) p (n_sh n).
Proof.
  intros Hs Hb Hp. destruct decodes_block as (Hl & msg & Hu & Hst). unfold list_done. apply run_turn_wp. unfold listener_turn.
  cbn [sqe_data cqe_user_data cqe_res cqe_bytes]. rewrite cl_tag_state by done. rewrite (proj2 (Z.ltb_ge _ _)) by lia.
  unfold ls_receive. cbn [cqe_bytes ls_buffer ls_set_buffer]. rewrite Nat2Z.id, take_overwrite0.
  apply wp_bind. eapply wp_run; [by apply deserialize_status_run|]. rewrite Hst. cbn [Z.eqb Pos.eqb].
  apply wp_bind. eapply wp_run; [apply deserialize_block_run, (pb_ok Hpub)|].
  pose proof (pb_ok Hpub) as Hok. apply wp_bind. eapply wp_run.
  { apply print_block_data_run; [apply (load_live (H:=storable_blk)); apply lookup_insert_eq|..].
    - rewrite received_date_length. lia.
    - by rewrite (bo_nonce _ _ Hok : length (bl_nonce (received_block blk date)) = NONCE_LEN).
    - by rewrite (bo_root _ _ Hok : length (bl_merkle_root (received_block blk date)) = _). }
  apply wp_ret. split; [|done]. eapply Hp; [done|cbn; by rewrite Hb|apply lookup_insert_eq].
Qed.

(** [P_at] and [L_at] say which operations are pending; an event whose
    operation is not pending, or whose channel is empty, is not possible. *)
Ltac open_phase :=
  repeat match goal with
  | H : exists _, _ |- _ => destruct H
  | H : ?A /\ _ |- _ => lazymatch A with 0 <= q => fail | _ => destruct H end
  | H : wires _ _ _ |- _ => destruct H
  | H : has_block _ |- _ => destruct H
  | H : P_recv _ |- _ => unfold P_recv in H
  | H : L_recv _ |- _ => unfold L_recv in H
  | H : P_at _ _ _ |- _ => unfold P_at in H
  | H : L_at _ _ _ |- _ => destruct H as (? & ? & ?)
  end.

Ltac enabled Hdo :=
  cbn [net_do] in Hdo;
  repeat match goal with
  | H : pr_sq (n_peer _) = _ |- _ => rewrite H in Hdo
  | H : ls_sq (n_list _) = _ |- _ => rewrite H in Hdo
  | H : n_pl _ = _ |- _ => rewrite H in Hdo
  | H : n_lp _ = _ |- _ => rewrite H in Hdo
  end;
  cbn [take_op is_send is_recv sqe_op accept_sqe mbind option_bind sent_bytes] in Hdo;
  first [discriminate Hdo | injection Hdo as <-].

Lemma step_psend n e r s :
  at_phase (PSend s) n -> e <> Publish -> net_do sockfd pub e n = Some r ->
  steps_to r (next_phase (negb (block_created_mtx (n_sh n))) (PSend s) e) (n_sh n).
Proof.
  cbn [at_phase]. intros H He Hdo. open_phase. destruct e; try done; enabled Hdo. cbn [next_phase].
  erewrite put_decodes by done. cbn [app]. eapply (peer_wait n _ _ _ x0); [|intros s' Hsq|done].
  - match goal with H : peer_says _ _ |- _ => destruct H; auto end.
  - exists x, x0. split_and!; [done|done|exact Hsq|by repeat split|by split].
Qed.

Lemma step_pwire n e r s :
  at_phase (PWire s) n -> e <> Publish -> net_do sockfd pub e n = Some r ->
  steps_to r (next_phase (negb (block_created_mtx (n_sh n))) (PWire s) e) (n_sh n).
Proof.
  cbn [at_phase]. intros H He Hdo. open_phase. destruct e; try done; enabled Hdo. cbn [next_phase].
  eapply list_replies; [done|done|done|]. intros b' l' m' Hb Hsq Hs Hbl. exists b'. split_and!; [done| |done| |done].
  - unfold answer, listener_says. destruct (s =? P2P_PING); auto.
  - split_and!; [done|cbn; congruence|done].
Qed.

Lemma step_lsend n e r s :
  at_phase (LSend s) n -> e <> Publish -> net_do sockfd pub e n = Some r ->
  steps_to r (next_phase (negb (block_created_mtx (n_sh n))) (LSend s) e) (n_sh n).
Proof.
  cbn [at_phase]. intros H He Hdo. open_phase. destruct e; try done; enabled Hdo. cbn [next_phase].
  erewrite put_decodes by done. eapply list_wait; [done|]. intros l' Hsq Hs Hbl. exists x.
  split_and!; [done|done|done| |done]. split_and!; [done|cbn; congruence|done].
Qed.

Lemma step_lwire n e r s :
  at_phase (LWire s) n -> sh_inv n -> e <> Publish -> net_do sockfd pub e n = Some r ->
  steps_to r (next_phase (negb (block_created_mtx (n_sh n))) (LWire s) e) (n_sh n).
Proof.
  cbn [at_phase]. intros H Hsh He Hdo. open_phase. destruct e; try done; enabled Hdo. cbn [next_phase].
  match goal with H : listener_says _ |- _ => destruct H as [-> | ->] end; cbn [Z.eqb Pos.eqb].
  - eapply peer_replies; [done|]. cbn zeta. cbn [Z.eqb Pos.eqb]. apply wp_P2Pser_send_STATUS; [done|lia|]. intros s' [Hsq _].
    do 2 eexists. split_and!; [apply decodes_status; lia|constructor|exact Hsq|done|done].
  - destruct (block_created_mtx (n_sh n)) eqn:Hm; cbn [negb]; (eapply peer_replies; [done|]); rewrite Hm; cbn zeta; cbn [Z.eqb Pos.eqb].
    + apply wp_P2Pser_send_STATUS; [done|lia|]. intros s' [Hsq _].
      do 2 eexists. split_and!; [apply decodes_status; lia|constructor|exact Hsq|done|done].
    + destruct Hsh as [Hsh|Hsh]; [|congruence]. change (negb (pr_flag_block_ready _ =? 0)) with true. cbn iota.
      apply wp_P2Pser_send_block; [done|rewrite Hsh; exact (pb_shared Hpub)|]. intros s' [Hsq _].
      rewrite Hsh, (pb_bytes Hpub) in Hsq. split_and!; [done|exact Hsq|done|done].
Qed.

Lemma step_block n e r p :
  p = BSend \/ (exists b, p = BWire b) \/ (exists b, p = Received b) ->
  at_phase p n -> e <> Publish -> net_do sockfd pub e n = Some r ->
  steps_to r (next_phase (negb (block_created_mtx (n_sh n))) p e) (n_sh n).
Proof.
  intros Hp H He Hdo. destruct Hp as [-> |[[[] ->]|[[] ->]]]; cbn [at_phase] in H; open_phase; (destruct e; try done; enabled Hdo); cbn [next_phase].
  - erewrite put_decodes by exact decodes_block. eapply peer_finish. intros b s' m' Hb Hsq. exists b. split_and!; [done|done|exact Hsq|by repeat split|by split].
  - eapply list_takes_block; [done|done|]. intros l' m' y Hsq Hbl Hy. eexists. split_and!; [done|done| |done]. split; [done|]. by exists y.
  - erewrite put_decodes by by apply finishes_decodes. eapply (peer_wait n _ _ _ P_WAIT_PONG); [by left| |done]. intros s' Hsq. eexists. split_and!; [done|done|exact Hsq|done|done].
  - eapply list_takes_block; [done|done|]. intros l' m' y Hsq Hbl Hy. eexists. split_and!; [done|done|done| |done]. split; [done|]. by exists y.
  - erewrite put_decodes by by apply finishes_decodes. eapply (peer_wait n _ _ _ P_WAIT_PONG); [by left| |done]. intros s' Hsq. eexists. split_and!; [done|exact Hsq| |done].
    split; [done|]. by eexists.
Qed.

Lemma net_step p n e r :
  at_phase p n -> sh_inv n -> e <> Publish -> net_do sockfd pub e n = Some r ->
  steps_to r (next_phase (negb (block_created_mtx (n_sh n))) p e) (n_sh n).
Proof.
  intros Hp Hsh He Hdo. destruct p; [by apply step_psend|by apply step_pwire|by apply step_lsend|by apply step_lwire|..];
    eapply step_block; try done; eauto.
Qed.

(** Once the block is published, every event brings the end nearer. *)
Lemma rank_decreases p n e r :
  at_phase p n -> e <> Publish -> net_do sockfd pub e n = Some r -> (rank (next_phase true p e) < rank p)%nat.
Proof.
  intros H He Hdo. destruct p as [s|s|s|s| |[]|[]]; cbn [at_phase] in H; open_phase; (destruct e; try done; enabled Hdo); cbn [next_phase rank];
    repeat match goal with
    | H : peer_says _ _ |- _ => destruct H
    | H : listener_says _ |- _ => destruct H as [-> | ->]
    end; cbn; lia.
Qed.

(** Before the block has arrived, some event is possible. *)
Lemma progress p n : at_phase p n -> p <> Received true -> exists e r, e <> Publish /\ net_do sockfd pub e n = Some r.
Proof.
  intros H Hne. destruct p as [s|s|s|s| |[]|[]]; try done; cbn [at_phase] in H; open_phase;
    [exists PeerSend|exists ListRecv|exists ListSend|exists PeerRecv|exists PeerSend|exists ListRecv|exists PeerSend|exists PeerSend];
    eexists; (split; [done|]); cbn [net_do];
    repeat match goal with
    | H : pr_sq (n_peer _) = _ |- _ => rewrite H
    | H : ls_sq (n_list _) = _ |- _ => rewrite H
    | H : n_pl _ = _ |- _ => rewrite H
    | H : n_lp _ = _ |- _ => rewrite H
    end; reflexivity.
Qed.

(** Publishing disturbs no phase. *)
Lemma at_phase_publish p n :
  at_phase p n -> at_phase p (Net (n_peer n) (n_list n) (n_mp n) (n_ml n) (n_pl n) (n_lp n) pub).
Proof.
  destruct n as [pr l mp ml pl lp shr]. destruct p as [s|s|s|s| |[]|[]]; try exact (fun H => H); intros H;
    (assert (shr = pub) as -> by (cbn in H; naive_solver)); exact H.
Qed.

Definition inv (n : net) : Prop := (exists p, at_phase p n) /\ sh_inv n.

Lemma inv_step n e r : inv n -> net_do sockfd pub e n = Some r -> exists n', r = Ok n' /\ inv n'.
Proof.
  intros [[p Hp] Hsh] Hdo. destruct (decide (e = Publish)) as [->|He].
  - cbn [net_do] in Hdo. destruct (block_created_mtx (n_sh n)); [|done]. injection Hdo as <-. eexists. split; [done|].
    split; [exists p; by apply at_phase_publish|by left].
  - destruct (net_step p n e r Hp Hsh He Hdo) as (n' & -> & Hp' & Hs). exists n'. split; [done|].
    split; [by eexists|]. unfold sh_inv. by rewrite Hs.
Qed.

Lemma inv_run es n r : inv n -> net_run sockfd pub es n = Some r -> exists n', r = Ok n' /\ inv n'.
Proof.
  revert n. induction es as [|e es IH]; intros n Hn Hr; cbn [net_run] in Hr; [injection Hr as <-; by eexists|].
  destruct (net_do sockfd pub e n) as [r1|] eqn:Hdo; [|done]. destruct (inv_step _ _ _ Hn Hdo) as (n1 & -> & Hn1). by apply (IH n1).
Qed.

(** At rest, the block is there. *)
Lemma at_rest_has_block n :
  inv n -> (forall e, net_do sockfd pub e n = None) -> has_block n.
Proof.
  intros [[p Hp] _] Hstuck. destruct (decide (p = Received true)) as [->|Hne]; [by destruct Hp as (b & _ & _ & Hb & _)|].
  destruct (progress p n Hp Hne) as (e & r & _ & He). by rewrite Hstuck in He.
Qed.

(** A decoded block is the published one. *)
Lemma phase_block p n :
  at_phase p n ->
  ls_blocks (n_list n) = [] \/
  n_sh n = pub /\ exists x, ls_blocks (n_list n) = [Ptr x 0] /\ heap (n_ml n) !! x = Some (BBlks [received_block blk date]).
Proof.
  intros Hp. destruct p as [s|s|s|s| |[]|[]]; cbn [at_phase] in Hp; [left; open_phase; done..|right|right].
  - by destruct Hp as (b & Hs & _ & [_ Hb] & _).
  - by destruct Hp as (b & _ & Hs & _ & [_ Hb] & _).
Qed.

(** What is pending on either side, and what is under way to a side that waits. *)
Record pending (n : net) : Prop := Pending {
  pe_peer : exists o s, P_at n o s /\ (if is_send o then s <> P_TEST_RESPONSE else s = P_TEST_RESPONSE /\ is_recv o = true);
  pe_list : ls_sq (n_list n) = [Sqe OpStale 0] \/
    exists o s, ls_sq (n_list n) = [Sqe OpStale 0; Sqe o (make_request_data q (cl_p2p_num s))] /\
      (if is_send o then s <> PROCESS_RESPONSE else s = PROCESS_RESPONSE /\ is_recv o = true);
  pe_to b w : n_pl n = b :: w -> ls_sq (n_list n) <> [Sqe OpStale 0] -> exists s, decodes b s;
  pe_from b w : n_lp n = b :: w -> exists s, decodes b s }.

Lemma phase_pends p n : at_phase p n -> pending n.
Proof.
  intros Hp. destruct p as [s|s|s|s| |[]|[]]; cbn [at_phase] in Hp; open_phase;
    (split;
      [do 2 eexists; split; [eassumption|cbn; by (match goal with H : peer_says _ _ |- _ => destruct H end) || done]
      |first [by left | right; do 2 eexists; split; [eassumption|done]]
      |intros b0 w0 Hw Hne; rewrite Hw in *; simplify_eq; try done; eauto using decodes_block
      |intros b0 w0 Hw; rewrite Hw in *; simplify_eq; eauto]).
Qed.

Lemma net_init_phase locked mp ml :
  exists n, net_init sockfd fd q locked mp ml = Ok n /\ at_phase (PSend P2P_PING) n /\ n_sh n = locked.
Proof.
  unfold net_init. apply (run_turn_wp (peer_turn false sockfd locked _ _) mp _ (PSend P2P_PING)). unfold peer_turn.
  cbn [cqe_user_data cqe_res]. rewrite p2p_tag_state by apply peer_fd_0. cbn [pr_current_client_fd pr_set_current].
  unfold peer_fd in Hfd. rewrite u64_small, request_data_fd_small by lia.
  apply wp_P2Pser_send_STATUS; [done|lia|]. intros s' [Hsq _]. split; [|done]. do 2 eexists.
  split_and!; [apply decodes_status; lia|constructor|exact Hsq|done|done].
Qed.
End facts.

(** ** The code as it is written

    Between the phases' events the two readings of [P2P_deserialize_STATUS] agree;
    an event that receives faults in the code as written. *)
Section written.
Context {sod : Sodium} {clk : Clock} {pb : Protobuf} {st : Stray} {pbok : ProtobufOk pb}.

(** What an event that may read a status comes to in the code as written. *)
Definition cut {A} (reads : bool) (o : option (res A)) : option (res A) :=
  if reads then (fun _ => Fault BadPointer) <$> o else o.

Lemma cut_none {A} reads (o : option (res A)) : cut reads o = None <-> o = None.
Proof. unfold cut. destruct reads; [|done]. by destruct o. Qed.

Lemma peer_turn_same rd rd' sockfd shr s c :
  state_p2p_of (request_data_event_type (cqe_user_data c)) <> Some P_TEST_RESPONSE ->
  peer_turn (rd:=rd) false sockfd shr s c = peer_turn (rd:=rd') false sockfd shr s c.
Proof. intros Ht. unfold peer_turn. by destruct (state_p2p_of _) as [[]|]. Qed.

Lemma listener_turn_same rd rd' l c :
  cl_p2p_of (request_data_event_type (cqe_user_data c)) <> Some PROCESS_RESPONSE ->
  listener_turn (rd:=rd) false l c = listener_turn (rd:=rd') false l c.
Proof. intros Ht. unfold listener_turn. by destruct (cl_p2p_of _) as [[]|]. Qed.

Context (sockfd : Z) (pub : shared) (fd q : Z) (blk : block_t) (date : list byte).
Context (Hpub : published pub blk date) (Hfd : peer_fd fd) (Hq : 0 <= q < 2 ^ 31).

(** A completed send reads no status. *)
Lemma peer_done_same rd rd' n o s rest res bytes pl lp :
  s <> P_TEST_RESPONSE ->
  peer_done (rd:=rd) sockfd n (Sqe o (make_request_data fd (state_p2p_num s))) rest res bytes pl lp =
  peer_done (rd:=rd') sockfd n (Sqe o (make_request_data fd (state_p2p_num s))) rest res bytes pl lp.
Proof. intros Hs. unfold peer_done. erewrite peer_turn_same; [done|]. cbn [cqe_user_data sqe_data]. rewrite p2p_tag_state by done. congruence. Qed.

Lemma list_done_same rd rd' n o s rest res bytes pl lp :
  s <> PROCESS_RESPONSE ->
  list_done (rd:=rd) n (Sqe o (make_request_data q (cl_p2p_num s))) rest res bytes pl lp =
  list_done (rd:=rd') n (Sqe o (make_request_data q (cl_p2p_num s))) rest res bytes pl lp.
Proof. intros Hs. unfold list_done. erewrite listener_turn_same; [done|]. cbn [cqe_user_data sqe_data]. rewrite cl_tag_state by done. congruence. Qed.

Lemma net_written p n e :
  at_phase sockfd pub fd q blk date p n ->
  net_do (rd:=as_written) sockfd pub e n = cut (receives e) (net_do (rd:=exchanged) sockfd pub e n).
Proof.
  intros Hp. destruct (phase_pends sockfd pub fd q blk date Hpub Hq p n Hp) as [(o & s & Hat & Hs) Hls Hto Hfrom]. unfold P_at in Hat.
  destruct e; cbn [net_do receives cut]; [..|done].
  - rewrite Hat. cbn [take_op is_send sqe_op accept_sqe mbind option_bind]. destruct (is_send o); [|done]. cbn [mbind option_bind]. f_equal. by apply peer_done_same.
  - rewrite Hat. cbn [take_op is_recv sqe_op accept_sqe mbind option_bind]. destruct (is_recv o) eqn:Ho; [|done]. cbn [mbind option_bind].
    destruct (n_lp n) as [|b w]; [done|]. cbn [fmap option_fmap option_map]. destruct (Hfrom b w eq_refl) as (z & Hl & msg & Hu & _).
    destruct (is_send o) eqn:Hso; [by destruct o|]. destruct Hs as [-> _]. f_equal. unfold peer_done.
    by rewrite (peer_read_dangles (rd:=as_written) sockfd _ _ fd b msg) by done.
  - destruct Hls as [Hls|(ol & sl & Hls & Hsl)]; rewrite Hls; [done|]. cbn [take_op is_send sqe_op mbind option_bind].
    destruct (is_send ol); [|done]. cbn [mbind option_bind]. f_equal. by apply list_done_same.
  - destruct Hls as [Hls|(ol & sl & Hls & Hsl)]; [by rewrite Hls|]. assert (ls_sq (n_list n) <> [Sqe OpStale 0]) as Hne by (by rewrite Hls).
    rewrite Hls. cbn [take_op is_recv sqe_op mbind option_bind]. destruct (is_recv ol) eqn:Ho; [|done]. cbn [mbind option_bind].
    destruct (n_pl n) as [|b w]; [done|]. cbn [fmap option_fmap option_map]. destruct (Hto b w eq_refl Hne) as (z & Hl & msg & Hu & _).
    destruct (is_send ol) eqn:Hso; [by destruct ol|]. destruct Hsl as [-> _]. f_equal. unfold list_done.
    by rewrite (listener_read_dangles (rd:=as_written) _ q b msg) by done.
Qed.
End written.

(** ** A sample *)

Definition sample_wire : list byte := Wire.p2p_pack (block_msg sample_block [x33; x31]).
Definition sample_locked : shared := Shared 0 (zeros 4096) 0 true.
Definition sample_pub : shared := Shared 1 (overwrite (zeros 4096) sample_wire 0) (Z.of_nat (length sample_wire)) false.

Lemma sample_published : published (pb:=Wire.proto2) sample_pub sample_block [x33; x31].
Proof.
  split; [exact sample_block_ok| |reflexivity|].
  - split; [by vm_compute|]. split; vm_compute; discriminate.
  - by vm_compute.
Qed.

Lemma peer_fd_5 : peer_fd 5.
Proof. unfold peer_fd. lia. Qed.

Definition sample_net : res net :=
  net_init (clk:=Toy.toy_clock) (pb:=Wire.proto2) (rd:=exchanged) 3 5 6 sample_locked empty_mem empty_mem.

Definition sample_run (es : list nev) (n : net) : option (res net) :=
  net_run (clk:=Toy.toy_clock) (pb:=Wire.proto2) (st:=calm) (rd:=exchanged) 3 sample_pub es n.
