(* ===== verification/Streams.v ===== *)
(** * Packets that arrive together or in pieces

    A stream socket keeps no packet boundaries: what the offering node sends
    as two packets, the block and then FINISH, its neighbour may receive as
    one.  [net_join] is that receive, in the network of Peers.v.  And what is
    sent as one packet may be received in pieces: every loop decodes each
    piece as if it were whole. *)

From S2P Require Import Prelude.
From S2P Require Import CTypes.
From S2P Require Import Memory.
From S2P Require Import Platform.
From S2P Require Import Misc.
From S2P Require Import BlockData.
From S2P Require Import RequestData.
From S2P Require Import Codec.
From S2P Require Import ClientIpc.
From S2P Require Import CircBuf.
From S2P Require Import Server.
From S2P Require Import Serving.
From S2P Require Import Client.
From S2P Require Import P2P.
From S2P Require Import Peers.

Section code.
Context {sod : Sodium} {clk : Clock} {pb : Protobuf} {st : Stray} {rd : Reading}.

(** The asking node's pending receive takes all bytes under way that fit its
    buffer. *)
Definition net_join (n : net) : option (res net) :=
  '(x, rest) ← take_op is_recv (ls_sq (n_list n));
  let bytes := concat (n_pl n) in
  let got := take P2P_BUFFER_SIZE bytes in
  Some (list_done n x rest (Z.of_nat (length got)) got (put (drop P2P_BUFFER_SIZE bytes) []) (n_lp n)).
End code.

Section facts.
Context {sod : Sodium} {clk : Clock} {pb : Protobuf} {st : Stray} {rd : Reading} {ok : SodiumOk sod} {pbok : ProtobufOk pb}.

(** Block and FINISH fit one receive buffer. *)
Lemma joined_size blk date b :
  block_ok blk date -> finishes b -> (length (p2p__ipc_message__pack (block_msg blk date) ++ b) <= P2P_BUFFER_SIZE)%nat.
Proof.
  intros Hb [t ->]. pose proof (p2p_pack_size _ (block_msg_wf _ _ Hb)) as H1. destruct (block_ok_date _ _ Hb) as [_ Hd].
  pose proof (p2p_pack_size (p2p_status t P2P_FINISH) (p2p_status_wf t P2P_FINISH ltac:(lia))) as H2.
  destruct Hb as [Hn _ _ _ _ _ _ Hp Hr]. cbn [block_msg p_merkle_root p_nonce p_prev_block p_date olen] in H1.
  rewrite Hn, Hp, Hr in H1. cbn [p2p_status p_merkle_root p_nonce p_prev_block p_date olen] in H2. unfold made_date in H2.
  rewrite strftime_stamp_length in H2. fold (made_date t) in H2. fold (p2p_status t P2P_FINISH) in H2.
  rewrite length_app. unfold block_msg in *. lia.
Qed.

(** ** Bytes that do not decode, in each loop that receives

    For the server's loop see [malformed_reply_faults]. *)

Lemma client_undecodable fuel c bytes m :
  flag_block_filled c = 0 -> cq_head c = cq_tail c -> ipc_message__unpack bytes = None ->
  client_turn fuel c bytes m = Fault NullDeref.
Proof.
  intros Hf Hq Hn. unfold client_turn. rewrite Hf, Hq, Nat.eqb_refl. cbn [Z.eqb negb c_buffer cqe_seen post set_c_buffer].
  apply bind_fault. unfold read_response_ONLY_STATUS. by rewrite Nat2Z.id, take_overwrite0, Hn.
Qed.

Lemma peer_undecodable sockfd sh s fd bytes m :
  peer_fd fd -> (0 < length bytes)%nat -> p2p__ipc_message__unpack bytes = None ->
  peer_turn false sockfd sh s (Cqe (make_request_data fd (state_p2p_num P_TEST_RESPONSE)) (Z.of_nat (length bytes)) bytes) m =
    Fault NullDeref.
Proof.
  intros Hfd Hl Hn. unfold peer_turn. cbn [cqe_user_data cqe_res cqe_bytes]. rewrite p2p_tag_state, p2p_tag_i32 by done.
  destruct (Z.gtb_spec (Z.of_nat (length bytes)) 0); [|lia]. erewrite bind_ok by by apply p2p_slot_ok.
  apply bind_fault. unfold P2P_deserialize_STATUS, pr_receive. cbn [cqe_user_data cqe_bytes]. rewrite p2p_tag_fd by done.
  unfold pr_buffer at 1. cbn [pr_buffers pr_set_buffer]. rewrite lookup_insert_eq. cbn [default]. unfold Datatypes.id.
  by rewrite Nat2Z.id, take_overwrite0, Hn.
Qed.

Lemma listener_undecodable l q bytes m :
  0 <= q < 2 ^ 31 -> p2p__ipc_message__unpack bytes = None ->
  listener_turn false l (Cqe (make_request_data q (cl_p2p_num PROCESS_RESPONSE)) (Z.of_nat (length bytes)) bytes) m =
    Fault NullDeref.
Proof.
  intros Hq Hn. unfold listener_turn. cbn [cqe_user_data cqe_res]. rewrite cl_tag_state, (proj2 (Z.ltb_ge _ _)) by lia.
  apply bind_fault. unfold P2P_deserialize_STATUS, ls_receive. cbn [cqe_bytes ls_buffer ls_set_buffer].
  by rewrite Nat2Z.id, take_overwrite0, Hn.
Qed.
End facts.

(** ** Claims *)
Section claims.
Context {sod : Sodium} {clk : Clock} {pb : Protobuf} {st : Stray} {rd : Reading} {ok : SodiumOk sod} {pbok : ProtobufOk pb} {pm : ProtobufMerges pb}.

(** A block and a FINISH in one receive. *)
Lemma joined_turn blk date b l q m :
  block_ok blk date -> finishes b -> 0 <= q < 2 ^ 31 ->
  let bytes := p2p__ipc_message__pack (block_msg blk date) ++ b in
  let turn := listener_turn false l (Cqe (make_request_data q (cl_p2p_num PROCESS_RESPONSE)) (Z.of_nat (length bytes)) bytes) m in
  (reading = as_written -> turn = Fault BadPointer) /\
  (reading = exchanged -> turn = Ok (ls_set_buffer (overwrite (ls_buffer l) bytes 0) l, m)).
Proof.
  intros Hb [t ->] Hq bytes turn.
  assert (p2p__ipc_message__unpack bytes = Some (p2p_merge (block_msg blk date) (p2p_status t P2P_FINISH))) as Hu
    by (apply p2p_unpack_joined; [by apply block_msg_wf|apply p2p_status_wf; lia]).
  split; intros Hrd; [by eapply listener_read_dangles|].
  unfold turn, listener_turn. cbn [cqe_user_data cqe_res cqe_bytes].
  rewrite cl_tag_state by done. rewrite (proj2 (Z.ltb_ge _ _)) by lia. unfold ls_receive. cbn [cqe_bytes ls_buffer ls_set_buffer].
  rewrite Nat2Z.id, take_overwrite0. erewrite bind_ok by by apply deserialize_status_run. done.
Qed.


(** C34: a packet that arrives in pieces takes its receiver down, in every loop
    of the program that receives: the first piece, however long it is short of
    the whole packet, does not decode, and the null result is dereferenced.
    This holds of the server's loop, of the message client that waits for a
    packet, and of both peer-to-peer threads. *)
Theorem cut_packet_faults {un : Uninit} {pc : ProtobufCuts pb} :
  (forall msg piece fuel sockfd s fd m,
     ipc_wf msg -> piece <> [] -> piece `prefix_of` ipc_message__pack msg -> piece <> ipc_message__pack msg -> good_fd fd ->
     server_turn fuel sockfd s (Cqe (make_request_data fd (flag_num TEST_RESPONSE)) (Z.of_nat (length piece)) piece) m = Fault NullDeref) /\
  (forall msg piece fuel c m,
     ipc_wf msg -> piece `prefix_of` ipc_message__pack msg -> piece <> ipc_message__pack msg ->
     flag_block_filled c = 0 -> cq_head c = cq_tail c ->
     client_turn fuel c piece m = Fault NullDeref) /\
  (forall msg piece sockfd sh s fd m,
     p2p_wf msg -> piece <> [] -> piece `prefix_of` p2p__ipc_message__pack msg -> piece <> p2p__ipc_message__pack msg -> peer_fd fd ->
     peer_turn false sockfd sh s (Cqe (make_request_data fd (state_p2p_num P_TEST_RESPONSE)) (Z.of_nat (length piece)) piece) m = Fault NullDeref) /\
  (forall msg piece l q m,
     p2p_wf msg -> piece `prefix_of` p2p__ipc_message__pack msg -> piece <> p2p__ipc_message__pack msg -> 0 <= q < 2 ^ 31 ->
     listener_turn false l (Cqe (make_request_data q (cl_p2p_num PROCESS_RESPONSE)) (Z.of_nat (length piece)) piece) m = Fault NullDeref).
Proof.
  split_and!; intros.
  - apply malformed_reply_faults; [done|by destruct piece; [|cbn; lia]|by eapply ipc_unpack_cut].
  - apply client_undecodable; [done..|by eapply ipc_unpack_cut].
  - apply peer_undecodable; [done|by destruct piece; [|cbn; lia]|by eapply p2p_unpack_cut].
  - apply listener_undecodable; [done|by eapply p2p_unpack_cut].
Qed.
End claims.

(** ** The claim at work *)

(** The nodes talk until block and FINISH are both under way. *)
Definition until_finish : list nev :=
  [Publish; PeerSend; ListRecv; ListSend; PeerRecv; PeerSend; ListRecv; ListSend; PeerRecv; PeerSend; PeerSend].


(** The packets that are cut: a client's answer and a neighbour's question. *)
Definition cut_ipc : IpcMessage := MkIpcMessage None None [x31] 5 IPC_NEED_MORE.
Definition cut_p2p : P2pIpcMessage := MkP2pIpcMessage [x31] None None None None None None P2P_PING.

Lemma cut_packet_faults_witness :
  server_turn (sod:=Toy.mixing) (clk:=Toy.toy_clock) (pb:=Wire.proto2) (un:=quiet) 512 3 (initial_server (Ptr 1 0))
    (Cqe (make_request_data 5 (flag_num TEST_RESPONSE)) 4 (take 4 (ipc_message__pack (Protobuf:=Wire.proto2) cut_ipc))) empty_ring_mem = Fault NullDeref /\
  listener_turn (clk:=Toy.toy_clock) (pb:=Wire.proto2) (st:=calm) (rd:=as_written) false (listener_start 6)
    (Cqe (make_request_data 6 (cl_p2p_num PROCESS_RESPONSE)) 3 (take 3 (p2p__ipc_message__pack (Protobuf:=Wire.proto2) cut_p2p))) empty_mem = Fault NullDeref.
Proof.
  destruct (cut_packet_faults (sod:=Toy.mixing) (clk:=Toy.toy_clock) (pb:=Wire.proto2) (st:=calm) (rd:=as_written) (un:=quiet) (pc:=Wire.proto2_cuts))
    as (Hserver & _ & _ & Hlistener).
  split.
  - apply (Hserver cut_ipc (take 4 (ipc_message__pack (Protobuf:=Wire.proto2) cut_ipc)) 512%nat 3 _ 5);
      [by vm_compute|by vm_compute|apply prefix_take|by vm_compute|exact good_5].
  - apply (Hlistener cut_p2p (take 3 (p2p__ipc_message__pack (Protobuf:=Wire.proto2) cut_p2p)) _ 6);
      [by vm_compute|apply prefix_take|by vm_compute|lia].
Defined.
