(* ===== verification/Neighbours.v ===== *)
(** * Any number of neighbours

    The offering thread (p2p_event_loop.c) with any number of neighbours, each
    with its own asking thread, memory and pair of channels.  Neighbours come
    while others are served; an event completes one pending operation of
    either side of one connection, accepts a neighbour, or publishes the
    block.  What one neighbour sees is the two-node network of Peers.v
    ([view]), whatever the others do. *)

From S2P Require Import Prelude.
From S2P Require Import CTypes.
From S2P Require Import Memory.
From S2P Require Import Platform.
From S2P Require Import Misc.
From S2P Require Import BlockData.
From S2P Require Import RequestData.
From S2P Require Import Codec.
From S2P Require Import ClientIpc.
From S2P Require Import Server.
From S2P Require Import Client.
From S2P Require Import P2P.
From S2P Require Import Peers.

(** A neighbour: its thread and memory, the bytes to it and from it. *)
Record neighbour := Nb { nb_list : listener; nb_mem : mem; nb_to : list (list byte); nb_from : list (list byte) }.

Record world := World { w_peer : peer; w_mem : mem; w_nbs : gmap Z neighbour; w_sh : shared }.

(** The operations of a connection. *)
Definition about (fd : Z) (o : op) : bool :=
  match o with OpSend f _ | OpRecv f => bool_decide (f = fd) | _ => false end.
Definition is_accept (o : op) : bool := match o with OpAccept _ => true | _ => false end.

Inductive wev := At (fd : Z) (e : nev) | Arrive (fd q : Z) (ml : mem) | Unlock.

Section code.
Context {sod : Sodium} {clk : Clock} {pb : Protobuf} {st : Stray} {rd : Reading}.
Context (sockfd : Z) (pub : shared).

(** The offering node's turn on a completion of connection [fd]. *)
Definition peer_side (w : world) (fd : Z) (x : sqe) (rest : list sqe) (res : Z) (bytes : list byte) (nb : neighbour) : Memory.res world :=
  match peer_turn false sockfd (w_sh w) (pr_set_sq rest (w_peer w)) (Cqe (sqe_data x) res bytes) (w_mem w) with
  | Ok (s, m) => Ok (World s m (<[fd := nb]> (w_nbs w)) (w_sh w))
  | Fault f => Fault f | Die => Die | NoFuel => NoFuel
  end.

(** A neighbour's turn. *)
Definition nb_side (w : world) (fd : Z) (nb : neighbour) (x : sqe) (rest : list sqe) (res : Z) (bytes : list byte) (to from : list (list byte)) : Memory.res world :=
  match listener_turn false (ls_set_sq rest (nb_list nb)) (Cqe (sqe_data x) res bytes) (nb_mem nb) with
  | Ok (l, m) => Ok (World (w_peer w) (w_mem w) (<[fd := Nb l m to from]> (w_nbs w)) (w_sh w))
  | Fault f => Fault f | Die => Die | NoFuel => NoFuel
  end.

Definition world_do (ev : wev) (w : world) : option (Memory.res world) :=
  match ev with
  | At fd e =>
      nb ← w_nbs w !! fd;
      match e with
      | PeerSend =>
          '(x, rest) ← take_op (fun o => is_send o && about fd o) (pr_sq (w_peer w));
          let b := sent_bytes (sqe_op x) in
          Some (peer_side w fd x rest (Z.of_nat (length b)) [] (Nb (nb_list nb) (nb_mem nb) (put b (nb_to nb)) (nb_from nb)))
      | PeerRecv =>
          '(x, rest) ← take_op (fun o => is_recv o && about fd o) (pr_sq (w_peer w));
          match nb_from nb with
          | b :: l => Some (peer_side w fd x rest (Z.of_nat (length b)) b (Nb (nb_list nb) (nb_mem nb) (nb_to nb) l))
          | [] => None
          end
      | ListSend =>
          '(x, rest) ← take_op is_send (ls_sq (nb_list nb));
          let b := sent_bytes (sqe_op x) in
          Some (nb_side w fd nb x rest (Z.of_nat (length b)) [] (nb_to nb) (put b (nb_from nb)))
      | ListRecv =>
          '(x, rest) ← take_op is_recv (ls_sq (nb_list nb));
          match nb_to nb with
          | b :: l => Some (nb_side w fd nb x rest (Z.of_nat (length b)) b l (nb_from nb))
          | [] => None
          end
      | Publish => None
      end
  | Arrive fd q ml =>
      match w_nbs w !! fd with
      | Some _ => None
      | None =>
          '(x, rest) ← take_op is_accept (pr_sq (w_peer w));
          Some (peer_side w fd x rest fd [] (Nb (listener_start q) ml [] []))
      end
  | Unlock => if block_created_mtx (w_sh w) then Some (Ok (World (w_peer w) (w_mem w) (w_nbs w) pub)) else None
  end.

Fixpoint world_run (es : list wev) (w : world) : option (Memory.res world) :=
  match es with
  | [] => Some (Ok w)
  | e :: es =>
      match world_do e w with
      | Some (Ok w) => world_run es w
      | o => o
      end
  end.

(** The loop as it starts: two accepts are pending. *)
Definition world_start (locked : shared) (mp : mem) : world := World (peer_start sockfd) mp ∅ locked.
End code.

(** ** Pending operations *)

Lemma take_op_split f l x rest :
  take_op f l = Some (x, rest) -> exists l1 l2, l = l1 ++ x :: l2 /\ rest = l1 ++ l2 /\ f (sqe_op x) = true.
Proof.
  revert x rest. induction l as [|e l IH]; intros x rest H; [done|]. cbn [take_op] in H.
  destruct (f (sqe_op e)) eqn:Hf; [simplify_eq; by exists [], rest|].
  destruct (take_op f l) as [[y r]|] eqn:Ht; [|done]. cbn in H. simplify_eq.
  destruct (IH _ _ eq_refl) as (l1 & l2 & -> & -> & Hx). by exists (e :: l1), l2.
Qed.

(** The pending operations of a connection. *)
Definition mine (fd : Z) (l : list sqe) : list sqe := base.filter (fun e => about fd (sqe_op e) = true) l.

Lemma mine_app fd l l' : mine fd (l ++ l') = mine fd l ++ mine fd l'.
Proof. apply filter_app. Qed.

Lemma mine_other fd fd' x : fd' <> fd -> about fd (sqe_op x) = true -> mine fd' [x] = [].
Proof.
  intros Hne Hx. unfold mine. rewrite filter_cons_False; [done|]. destruct x as [[] ?]; cbn in *; try done; 
    rewrite bool_decide_eq_true in *; congruence.
Qed.

Lemma mine_all fd l : Forall (fun e => about fd (sqe_op e) = true) l -> mine fd l = l.
Proof. induction 1 as [|x l Hx _ IH]; [done|]. unfold mine in *. by rewrite filter_cons_True, IH. Qed.

Lemma mine_none fd fd' l : fd' <> fd -> Forall (fun e => about fd (sqe_op e) = true) l -> mine fd' l = [].
Proof.
  intros Hne. induction 1 as [|x l Hx _ IH]; [done|]. change (x :: l) with ([x] ++ l). rewrite mine_app, (mine_other fd), IH by done. done.
Qed.

(** The operation taken is the connection's only one. *)
Lemma take_mine fd f l x rest e :
  (forall o, f o = true -> about fd o = true) -> mine fd l = [e] -> take_op f l = Some (x, rest) ->
  x = e /\ f (sqe_op e) = true /\ mine fd rest = [] /\ forall fd', fd' <> fd -> mine fd' rest = mine fd' l.
Proof.
  intros Hf Hm Ht. destruct (take_op_split _ _ _ _ Ht) as (l1 & l2 & -> & -> & Hx). pose proof (Hf _ Hx) as Ha.
  rewrite (cons_middle x), !mine_app, (mine_all fd [x]) in Hm by by apply Forall_singleton.
  destruct (mine fd l1) as [|y l3] eqn:H1; cbn in Hm; [|destruct l3; discriminate Hm]. injection Hm as -> H2.
  split_and!; [done|done|by rewrite mine_app, H1, H2|]. intros fd' Hne. change (e :: l2) with ([e] ++ l2).
  by rewrite !mine_app, (mine_other fd).
Qed.

(** ** The offering node's turns and the queue *)
Section frame.
Context {sod : Sodium} {clk : Clock} {pb : Protobuf} {st : Stray} {rd : Reading}.

(** A handler appends operations to the queue and does not look at it. *)
Definition adds (P : op -> bool) (f : peer -> M peer) : Prop :=
  forall s m s' m', f s m = Ok (s', m') ->
  exists ops, pr_sq s' = pr_sq s ++ ops /\ Forall (fun e => P (sqe_op e) = true) ops /\
    forall l, f (pr_set_sq l s) m = Ok (pr_set_sq (l ++ ops) s', m').

Lemma about_self (fd : Z) : bool_decide (fd = fd) = true.
Proof. by apply bool_decide_eq_true. Qed.

Lemma adds_status fd STATUS STATE : adds (about fd) (fun s => P2Pser_send_STATUS s fd STATUS STATE).
Proof.
  intros s m s' m' H. unfold P2Pser_send_STATUS, mbind, M_bind in *. destruct (p2p_slot fd m) as [[[] m1]| | |]; try done.
  destruct (P2P_send_status STATUS m1) as [[bytes m2]| | |]; try done. destruct (length bytes <=? P2P_BUFFER_SIZE)%nat; [|done].
  injection H as <- <-. eexists [_]. split; [reflexivity|]. split; [|done]. apply Forall_singleton, about_self.
Qed.

Lemma adds_block shr fd : adds (about fd) (fun s => P2Pser_send_block shr s fd).
Proof.
  intros s m s' m' H. unfold P2Pser_send_block, mbind, M_bind in *. destruct (p2p_slot fd m) as [[[] m1]| | |]; try done.
  injection H as <- <-. eexists [_]. split; [reflexivity|]. split; [|done]. apply Forall_singleton, about_self.
Qed.

Lemma adds_read fd : adds (about fd) (fun s => P2P_read_status_response s fd).
Proof.
  intros s m s' m' H. unfold P2P_read_status_response, mbind, M_bind in *. destruct (p2p_slot fd m) as [[[] m1]| | |]; try done.
  injection H as <- <-. eexists [_]. split; [reflexivity|]. split; [|done]. apply Forall_singleton, about_self.
Qed.

Lemma adds_ret P g : (forall s l, g (pr_set_sq l s) = pr_set_sq l (g s)) -> (forall s, pr_sq (g s) = pr_sq s) -> adds P (fun s => mret (g s)).
Proof.
  intros Hg Hs s m s' m' H. injection H as <- <-. exists []. split; [by rewrite app_nil_r|]. split; [constructor|].
  intros l. by rewrite Hg, app_nil_r.
Qed.

(** Changing other fields first. *)
Lemma adds_after P g f : (forall s l, g (pr_set_sq l s) = pr_set_sq l (g s)) -> (forall s, pr_sq (g s) = pr_sq s) -> adds P f -> adds P (fun s => f (g s)).
Proof.
  intros Hg Hs Hf s m s' m' H. destruct (Hf _ _ _ _ H) as (ops & H1 & H2 & H3). exists ops. split; [by rewrite H1, Hs|]. split; [done|].
  intros l. by rewrite Hg, H3.
Qed.

(** The answer to a received status. *)
Definition peer_replies_to (shr : shared) (fd msg_status : Z) (s : peer) : M peer :=
  if msg_status =? P2P_PONG then P2Pser_send_STATUS s fd P2P_OK P_READ_RESPONSE else
  if msg_status =? P2P_ASK_IF_BLOCK_READY then
    if negb (pr_flag_block_ready s =? 0) then P2Pser_send_block shr s fd
    else P2Pser_send_STATUS s fd P2P_BLOCK_NOT_READY P_READ_RESPONSE
  else mret s.

Lemma adds_reply shr fd msg_status : adds (about fd) (peer_replies_to shr fd msg_status).
Proof.
  unfold peer_replies_to. destruct (msg_status =? P2P_PONG); [apply adds_status|].
  destruct (msg_status =? P2P_ASK_IF_BLOCK_READY); [|by apply (adds_ret _ (fun s => s))].
  intros s m s' m' H. destruct (negb (pr_flag_block_ready s =? 0)) eqn:Hr.
  - destruct (adds_block shr fd s m s' m' H) as (ops & H1 & H2 & H3). exists ops. split_and!; [done|done|]. intros l.
    change (pr_flag_block_ready (pr_set_sq l s)) with (pr_flag_block_ready s). rewrite Hr. apply H3.
  - destruct (adds_status fd _ _ s m s' m' H) as (ops & H1 & H2 & H3). exists ops. split_and!; [done|done|]. intros l.
    change (pr_flag_block_ready (pr_set_sq l s)) with (pr_flag_block_ready s). rewrite Hr. apply H3.
Qed.

Lemma peer_turn_adds sockfd shr c fd :
  request_data_client_fd (cqe_user_data c) = fd -> state_p2p_of (request_data_event_type (cqe_user_data c)) <> Some P_ACCEPT ->
  adds (about fd) (fun s => peer_turn false sockfd shr s c).
Proof.
  intros Hfd Hna. unfold peer_turn. rewrite Hfd. set (g := pr_set_ready (if block_created_mtx shr then 0 else 1)).
  assert (adds (about fd) (fun s => mret (g s))) as Hret by by apply adds_ret.
  assert (forall f, adds (about fd) f -> adds (about fd) (fun s => f (g s))) as Hg by (intros f; by apply adds_after).
  destruct (state_p2p_of _) as [[]|]; try exact Hret; [done|exact (Hg _ (adds_read fd))| |exact (Hg _ (adds_status fd _ _))|exact (Hg _ (adds_read fd))].
  destruct (cqe_res c >? 0); [|exact Hret]. intros s m s' m' H. cbv zeta in *. set (s1 := pr_receive (g s) c) in *.
  unfold mbind, M_bind in *. destruct (p2p_slot (i32 (cqe_user_data c)) m) as [[[] m1]| | |] eqn:Hsl; try done.
  destruct (P2P_deserialize_STATUS (take (Z.to_nat (cqe_res c)) (pr_buffer s1 (i32 (cqe_user_data c)))) m1) as [[z m2]| | |] eqn:Hd; try done.
  destruct (adds_reply shr fd z s1 m2 s' m' H) as (ops & H1 & H2 & H3). exists ops. split; [exact H1|]. split; [done|]. intros l.
  change (pr_buffer (pr_receive (g (pr_set_sq l s)) c)) with (pr_buffer s1). rewrite Hd. exact (H3 l).
Qed.

(** Accepting queues another accept and greets the newcomer. *)
Lemma accept_greets {pbok : ProtobufOk pb} sockfd shr fd s m :
  peer_fd fd ->
  exists s' m' t, peer_turn false sockfd shr s (Cqe (make_request_data 0 (state_p2p_num P_ACCEPT)) fd []) m = Ok (s', m') /\
    pr_sq s' = pr_sq s ++ [accept_sqe sockfd] ++
      [Sqe (OpSend fd (p2p__ipc_message__pack (p2p_status t P2P_PING))) (make_request_data fd (state_p2p_num P_WAIT_PONG))].
Proof.
  intros Hfd. unfold peer_turn. cbn [cqe_user_data cqe_res]. rewrite p2p_tag_state by apply peer_fd_0.
  cbv zeta. cbn [pr_current_client_fd pr_set_current]. unfold peer_fd in Hfd. rewrite u64_small, request_data_fd_small by lia.
  match goal with |- context [P2P_send_PING ?s1 fd] => pose proof (wp_P2Pser_send_STATUS s1 fd P2P_PING P_WAIT_PONG
    (fun s' _ => pr_sq s' = pr_sq s ++ [accept_sqe sockfd] ++
      [Sqe (OpSend fd (p2p__ipc_message__pack (p2p_status (ticks m) P2P_PING))) (make_request_data fd (state_p2p_num P_WAIT_PONG))]) m) as Hw end.
  destruct Hw as (s' & m' & Hrun & Hsq); [done|lia| |by exists s', m', (ticks m)].
  intros s' [Hsq _]. rewrite Hsq. cbn. by rewrite <-app_assoc.
Qed.
End frame.

Section facts.
Context {sod : Sodium} {clk : Clock} {pb : Protobuf} {st : Stray} {rd : Reading} {ok : SodiumOk sod} {pbok : ProtobufOk pb}.
Context (sockfd : Z) (pub : shared) (blk : block_t) (date : list byte).
Context (Hpub : published pub blk date) (Hfi : reading = exchanged).

Abbreviation acc := (accept_sqe sockfd).

(** What the world looks like from connection [fd]. *)
Definition view (fd : Z) (w : world) (nb : neighbour) : net :=
  Net (pr_set_sq ([acc; acc] ++ mine fd (pr_sq (w_peer w))) (w_peer w)) (nb_list nb) (w_mem w) (nb_mem nb) (nb_to nb) (nb_from nb) (w_sh w).

(** Where the exchange with a neighbour stands. *)
Definition stands (w : world) (fd : Z) (nb : neighbour) (p : phase) : Prop :=
  peer_fd fd /\ exists q, 0 <= q < 2 ^ 31 /\ at_phase sockfd pub fd q blk date p (view fd w nb).

Record winv (w : world) : Prop := Winv {
  wi_nb fd nb : w_nbs w !! fd = Some nb -> exists p, stands w fd nb p;
  wi_none fd : w_nbs w !! fd = None -> mine fd (pr_sq (w_peer w)) = [];
  wi_accept e : e ∈ pr_sq (w_peer w) -> is_accept (sqe_op e) = true -> e = acc;
  wi_sh : w_sh w = pub \/ block_created_mtx (w_sh w) = true }.

(** A phase depends on the connection's operations only. *)
Lemma at_phase_cong fd q p n n' :
  at_phase sockfd pub fd q blk date p n -> pr_sq (n_peer n') = pr_sq (n_peer n) -> n_list n' = n_list n -> n_ml n' = n_ml n ->
  n_pl n' = n_pl n -> n_lp n' = n_lp n -> n_sh n' = n_sh n -> at_phase sockfd pub fd q blk date p n'.
Proof.
  destruct n as [s l mp ml pl lp sh], n' as [s' l' mp' ml' pl' lp' sh']. cbn [n_peer n_list n_ml n_pl n_lp n_sh].
  intros H Hsq -> -> -> -> ->.
  destruct p as [z|z|z|z| |[]|[]]; cbn [at_phase] in *; unfold P_recv, P_at, L_recv, L_at, wires, has_block in *;
    cbn [n_peer n_list n_ml n_pl n_lp n_sh] in *; rewrite Hsq; exact H.
Qed.

(** In every phase the offering side waits for one operation. *)
Lemma phase_pending fd q p n :
  at_phase sockfd pub fd q blk date p n -> exists o s, P_at sockfd fd n o s /\ s <> P_ACCEPT.
Proof.
  destruct p as [z|z|z|z| |[]|[]]; cbn [at_phase]; unfold P_recv; intros H;
    repeat match goal with H : exists _, _ |- _ => destruct H | H : _ /\ _ |- _ => destruct H end;
    (do 2 eexists; split; [eassumption|]); try done.
  match goal with H : peer_says _ _ |- _ => destruct H end; done.
Qed.

Lemma stands_cong w w' fd nb p :
  stands w fd nb p -> mine fd (pr_sq (w_peer w')) = mine fd (pr_sq (w_peer w)) -> w_sh w' = w_sh w -> stands w' fd nb p.
Proof.
  intros (Hfd & q & Hq & Hp) Hm Hs. split; [done|]. exists q. split; [done|].
  eapply at_phase_cong; [exact Hp|cbn; by rewrite Hm|done|done|done|done|exact Hs].
Qed.

(** What an event leaves of a neighbour: once the block is published, an event
    of its connection brings it nearer its end. *)
Definition weight (fd : Z) (ev : wev) : nat := match ev with At fd' _ => if decide (fd' = fd) then 1 else 0 | _ => 0 end.

Definition moves (ev : wev) (w w' : world) : Prop :=
  winv w' /\ (w_sh w = pub -> w_sh w' = pub) /\
  forall fd nb p, w_nbs w !! fd = Some nb -> stands w fd nb p ->
    exists nb' p', w_nbs w' !! fd = Some nb' /\ stands w' fd nb' p' /\ (w_sh w = pub -> (rank p' + weight fd ev <= rank p)%nat).

(** A turn of the offering side on connection [fd], seen from there, is the
    two-node turn; the other connections do not notice it. *)
Lemma peer_step f fd w nb p x rest res bytes nb' p' :
  winv w -> w_nbs w !! fd = Some nb -> stands w fd nb p -> (forall o, f o = true -> about fd o = true) ->
  take_op f (pr_sq (w_peer w)) = Some (x, rest) -> nb_list nb' = nb_list nb -> nb_mem nb' = nb_mem nb ->
  (forall q, 0 <= q < 2 ^ 31 -> at_phase sockfd pub fd q blk date p (view fd w nb) ->
     steps_to sockfd pub fd q blk date (peer_done sockfd (view fd w nb) x [acc; acc] res bytes (nb_to nb') (nb_from nb')) p' (w_sh w)) ->
  exists w', peer_side sockfd w fd x rest res bytes nb' = Ok w' /\ winv w' /\ w_sh w' = w_sh w /\ w_nbs w' = <[fd := nb']> (w_nbs w) /\
    stands w' fd nb' p' /\ forall fd', fd' <> fd -> mine fd' (pr_sq (w_peer w')) = mine fd' (pr_sq (w_peer w)).
Proof.
  intros Hw Hnb (Hfd & q & Hq & Hp) Hf Ht Hl Hm Hstep. destruct (phase_pending fd q p _ Hp) as (o & STATE & Hat & Hna).
  assert (mine fd (pr_sq (w_peer w)) = [Sqe o (make_request_data fd (state_p2p_num STATE))]) as Hmine
    by (unfold P_at in Hat; cbn in Hat; by injection Hat as Hat).
  destruct (take_mine fd f _ x rest _ Hf Hmine Ht) as (-> & Ho & Hrest & Hothers).
  destruct (Hstep q Hq Hp) as (n' & Hdone & Hp' & Hsh). unfold peer_done in Hdone. cbn [view n_sh n_peer n_mp n_list n_ml sqe_data] in Hdone.
  unfold run_turn in Hdone. change (pr_set_sq [acc; acc] (pr_set_sq _ (w_peer w))) with (pr_set_sq [acc; acc] (w_peer w)) in Hdone.
  destruct (peer_turn false sockfd (w_sh w) (pr_set_sq [acc; acc] (w_peer w)) _ (w_mem w)) as [[s1 m1]| | |] eqn:Hturn; try done.
  injection Hdone as <-. destruct (peer_turn_adds sockfd (w_sh w) (Cqe (make_request_data fd (state_p2p_num STATE)) res bytes) fd (p2p_tag_fd fd STATE Hfd)) with (s := pr_set_sq [acc; acc] (w_peer w))
    (m := w_mem w) (s' := s1) (m' := m1) as (ops & Hops & Hab & Hall); [cbn [cqe_user_data]; rewrite p2p_tag_state by done; congruence|exact Hturn|].
  set (w' := World (pr_set_sq (rest ++ ops) s1) m1 (<[fd := nb']> (w_nbs w)) (w_sh w)).
  assert (forall fd', fd' <> fd -> mine fd' (pr_sq (w_peer w')) = mine fd' (pr_sq (w_peer w))) as Hrem
    by (intros fd' Hne; cbn [w_peer w' pr_sq pr_set_sq]; by rewrite mine_app, (mine_none fd fd' ops), app_nil_r, Hothers).
  assert (stands w' fd nb' p') as Hst.
  { split; [done|]. exists q. split; [done|]. eapply at_phase_cong; [exact Hp'|..]; try done. cbn [view n_peer pr_sq pr_set_sq w_peer w'].
    rewrite mine_app, Hrest, (mine_all fd ops), Hops by done. done. }
  exists w'. split_and!; [|split|done|done|done|done].
  - unfold peer_side. cbn [sqe_data]. change (pr_set_sq rest (w_peer w)) with (pr_set_sq rest (pr_set_sq [acc; acc] (w_peer w))).
    by rewrite Hall.
  - intros fd' nb0 H0. destruct (decide (fd' = fd)) as [->|Hne].
    + cbn [w_nbs w'] in H0. rewrite lookup_insert_eq in H0. injection H0 as <-. by exists p'.
    + cbn [w_nbs w'] in H0. rewrite lookup_insert_ne in H0 by done. destruct (wi_nb _ Hw _ _ H0) as [p0 Hp0]. exists p0.
      eapply stands_cong; [exact Hp0|by apply Hrem|done].
  - intros fd' H0. destruct (decide (fd' = fd)) as [->|Hne].
    + cbn [w_nbs w'] in H0. by rewrite lookup_insert_eq in H0.
    + cbn [w_nbs w'] in H0. rewrite lookup_insert_ne in H0 by done. rewrite Hrem by done. by apply (wi_none _ Hw).
  - intros e He Hacc. cbn [w_peer w' pr_sq pr_set_sq] in He. apply elem_of_app in He as [He|He].
    + destruct (take_op_split _ _ _ _ Ht) as (l1 & l2 & Heq & -> & _). apply (wi_accept _ Hw); [|done]. rewrite Heq.
      apply elem_of_app in He as [He|He]; apply elem_of_app; [by left|right; by apply list_elem_of_further].
    + rewrite Forall_forall in Hab. specialize (Hab _ He). by destruct e as [[] ?].
  - exact (wi_sh _ Hw).
Qed.

(** A neighbour's turn. *)
Lemma nb_step fd w nb p x rest res bytes to from p' :
  winv w -> w_nbs w !! fd = Some nb -> stands w fd nb p ->
  (forall q, 0 <= q < 2 ^ 31 -> at_phase sockfd pub fd q blk date p (view fd w nb) ->
     steps_to sockfd pub fd q blk date (list_done (view fd w nb) x rest res bytes to from) p' (w_sh w)) ->
  exists w' nb', nb_side w fd nb x rest res bytes to from = Ok w' /\ winv w' /\ w_sh w' = w_sh w /\ w_nbs w' = <[fd := nb']> (w_nbs w) /\
    stands w' fd nb' p' /\ w_peer w' = w_peer w.
Proof.
  intros Hw Hnb (Hfd & q & Hq & Hp) Hstep. destruct (Hstep q Hq Hp) as (n' & Hdone & Hp' & Hsh).
  unfold list_done, run_turn in Hdone. cbn [view n_sh n_peer n_mp n_list n_ml] in Hdone. unfold nb_side.
  destruct (listener_turn false (ls_set_sq rest (nb_list nb)) _ (nb_mem nb)) as [[l m1]| | |]; try done. injection Hdone as <-.
  set (nb' := Nb l m1 to from). set (w' := World (w_peer w) (w_mem w) (<[fd := nb']> (w_nbs w)) (w_sh w)).
  assert (stands w' fd nb' p') as Hst.
  { split; [done|]. exists q. split; [done|]. by eapply at_phase_cong; [exact Hp'|..]. }
  exists w', nb'. split_and!; [done|split|done|done|done|done].
  - intros fd' nb0 H0. cbn [w_nbs w'] in H0. destruct (decide (fd' = fd)) as [->|Hne].
    + rewrite lookup_insert_eq in H0. injection H0 as <-. by exists p'.
    + rewrite lookup_insert_ne in H0 by done. destruct (wi_nb _ Hw _ _ H0) as [p0 Hp0]. exists p0. by eapply stands_cong.
  - intros fd' H0. cbn [w_nbs w'] in H0. destruct (decide (fd' = fd)) as [->|Hne]; [by rewrite lookup_insert_eq in H0|].
    rewrite lookup_insert_ne in H0 by done. by apply (wi_none _ Hw).
  - exact (wi_accept _ Hw).
  - exact (wi_sh _ Hw).
Qed.

(** An event that touches connection [fd] only moves the world. *)
Lemma moves_at fd e w w' nb nb' p p' :
  winv w' -> w_sh w' = w_sh w -> w_nbs w !! fd = Some nb -> w_nbs w' = <[fd := nb']> (w_nbs w) ->
  (forall fd', fd' <> fd -> mine fd' (pr_sq (w_peer w')) = mine fd' (pr_sq (w_peer w))) ->
  stands w' fd nb' p' -> (w_sh w = pub -> (rank p' < rank p)%nat) ->
  forall fd0 nb0 p0, w_nbs w !! fd0 = Some nb0 -> stands w fd0 nb0 p0 -> (fd0 = fd -> p0 = p) ->
    exists nb1 p1, w_nbs w' !! fd0 = Some nb1 /\ stands w' fd0 nb1 p1 /\ (w_sh w = pub -> (rank p1 + weight fd0 (At fd e) <= rank p0)%nat).
Proof.
  intros Hw' Hsh Hnb Hnbs Hrem Hst Hrank fd0 nb0 p0 H0 Hp0 Heq. rewrite Hnbs. cbn [weight]. destruct (decide (fd = fd0)) as [<-|Hne].
  - rewrite lookup_insert_eq. exists nb', p'. split_and!; [done|done|]. intros Hs. specialize (Hrank Hs). rewrite (Heq eq_refl). lia.
  - rewrite lookup_insert_ne by done. exists nb0, p0. split_and!; [done| |lia]. eapply stands_cong; [exact Hp0|by apply Hrem|done].
Qed.

(** One event of connection [fd] from one of its phases. *)
Lemma step_at fd e w nb p r :
  winv w -> w_nbs w !! fd = Some nb -> stands w fd nb p -> world_do sockfd pub (At fd e) w = Some r ->
  exists w' nb' p', r = Ok w' /\ winv w' /\ w_sh w' = w_sh w /\ w_nbs w' = <[fd := nb']> (w_nbs w) /\ stands w' fd nb' p' /\
    (forall fd', fd' <> fd -> mine fd' (pr_sq (w_peer w')) = mine fd' (pr_sq (w_peer w))) /\ (w_sh w = pub -> (rank p' < rank p)%nat).
Proof.
  intros Hw Hnb Hst Hdo. pose proof Hst as (Hfd & q0 & Hq0 & Hp0). destruct (phase_pending fd q0 p _ Hp0) as (o & STATE & Hat & _).
  assert (mine fd (pr_sq (w_peer w)) = [Sqe o (make_request_data fd (state_p2p_num STATE))]) as Hmine
    by (unfold P_at in Hat; cbn in Hat; by injection Hat as Hat).
  set (p' := next_phase (negb (block_created_mtx (w_sh w))) p e).
  assert (forall q r', 0 <= q < 2 ^ 31 -> at_phase sockfd pub fd q blk date p (view fd w nb) -> e <> Publish ->
    net_do sockfd pub e (view fd w nb) = Some r' -> steps_to sockfd pub fd q blk date r' p' (w_sh w)) as Hnet.
  { intros q r' Hq Hp He Hn. exact (net_step sockfd pub fd q blk date Hpub Hfi Hfd Hq p _ e r' Hp (wi_sh _ Hw) He Hn). }
  assert (forall r', e <> Publish -> net_do sockfd pub e (view fd w nb) = Some r' -> w_sh w = pub -> (rank p' < rank p)%nat) as Hrank.
  { intros r' He Hn Hs. unfold p'. rewrite Hs, (pb_free _ _ _ Hpub). exact (rank_decreases sockfd pub fd q0 blk date p _ e r' Hp0 He Hn). }
  cbn [world_do] in Hdo. rewrite Hnb in Hdo. cbn [mbind option_bind] in Hdo.
  destruct e; [| | | |done];
    (match type of Hdo with context [take_op ?f ?l] => destruct (take_op f l) as [[x rest]|] eqn:Ht end; [|done]); cbn [mbind option_bind] in Hdo.
  - destruct (take_mine fd _ _ x rest _ (fun o H => proj2 (andb_prop _ _ H)) Hmine Ht) as (-> & Ho & _). cbn [sqe_op] in Ho.
    apply andb_prop in Ho as [Ho _]. injection Hdo as <-.
    assert (exists r', net_do sockfd pub PeerSend (view fd w nb) = Some r' /\ r' = peer_done sockfd (view fd w nb) (Sqe o (make_request_data fd (state_p2p_num STATE)))
      [acc; acc] (Z.of_nat (length (sent_bytes o))) [] (put (sent_bytes o) (nb_to nb)) (nb_from nb)) as (r' & Hn & Hr')
      by (eexists; split; [|reflexivity]; unfold P_at in Hat; cbn [net_do]; rewrite Hat; cbn; by rewrite Ho).
    destruct (peer_step _ fd w nb p _ rest (Z.of_nat (length (sent_bytes o))) [] (Nb (nb_list nb) (nb_mem nb) (put (sent_bytes o) (nb_to nb)) (nb_from nb)) p'
      Hw Hnb Hst (fun o H => proj2 (andb_prop _ _ H)) Ht eq_refl eq_refl) as (w' & H1 & H2 & H3 & H4 & H5 & H6).
    { intros q Hq Hp. cbn [nb_to nb_from]. rewrite <-Hr'. by apply (Hnet q). }
    do 3 eexists. split_and!; [exact H1|done|done|exact H4|exact H5|done|by eapply Hrank].
  - destruct (nb_from nb) as [|b l] eqn:Hfr; [done|]. injection Hdo as <-.
    destruct (take_mine fd _ _ x rest _ (fun o H => proj2 (andb_prop _ _ H)) Hmine Ht) as (-> & Ho & _). cbn [sqe_op] in Ho.
    apply andb_prop in Ho as [Ho _].
    assert (exists r', net_do sockfd pub PeerRecv (view fd w nb) = Some r' /\ r' = peer_done sockfd (view fd w nb) (Sqe o (make_request_data fd (state_p2p_num STATE)))
      [acc; acc] (Z.of_nat (length b)) b (nb_to nb) l) as (r' & Hn & Hr')
      by (eexists; split; [|reflexivity]; unfold P_at in Hat; cbn [net_do]; rewrite Hat; cbn; by rewrite Ho, Hfr).
    destruct (peer_step _ fd w nb p _ rest (Z.of_nat (length b)) b (Nb (nb_list nb) (nb_mem nb) (nb_to nb) l) p'
      Hw Hnb Hst (fun o H => proj2 (andb_prop _ _ H)) Ht eq_refl eq_refl) as (w' & H1 & H2 & H3 & H4 & H5 & H6).
    { intros q Hq Hp. cbn [nb_to nb_from]. rewrite <-Hr'. by apply (Hnet q). }
    do 3 eexists. split_and!; [exact H1|done|done|exact H4|exact H5|done|by eapply Hrank].
  - injection Hdo as <-. set (b := sent_bytes (sqe_op x)).
    assert (net_do sockfd pub ListSend (view fd w nb) = Some (list_done (view fd w nb) x rest (Z.of_nat (length b)) [] (nb_to nb) (put b (nb_from nb)))) as Hn
      by (cbn [net_do view n_list]; by rewrite Ht).
    destruct (nb_step fd w nb p x rest (Z.of_nat (length b)) [] (nb_to nb) (put b (nb_from nb)) p' Hw Hnb Hst) as (w' & nb' & H1 & H2 & H3 & H4 & H5 & H6).
    { intros q Hq Hp. by apply (Hnet q). }
    exists w', nb', p'. split_and!; [done|done|done|done|done|by rewrite H6|by eapply Hrank].
  - destruct (nb_to nb) as [|b l] eqn:Hto; [done|]. injection Hdo as <-.
    assert (net_do sockfd pub ListRecv (view fd w nb) = Some (list_done (view fd w nb) x rest (Z.of_nat (length b)) b l (nb_from nb))) as Hn
      by (cbn [net_do view n_list n_pl]; by rewrite Ht, Hto).
    destruct (nb_step fd w nb p x rest (Z.of_nat (length b)) b l (nb_from nb) p' Hw Hnb Hst) as (w' & nb' & H1 & H2 & H3 & H4 & H5 & H6).
    { intros q Hq Hp. by apply (Hnet q). }
    exists w', nb', p'. split_and!; [done|done|done|done|done|by rewrite H6|by eapply Hrank].
Qed.

(** Newcomers have descriptors within the arrays. *)
Definition fair_event (ev : wev) : Prop :=
  match ev with Arrive fd q _ => peer_fd fd /\ 0 <= q < 2 ^ 31 | _ => True end.

Lemma mine_acc fd : mine fd [acc] = [].
Proof. done. Qed.

Lemma step_arrive fd q ml w r :
  winv w -> fair_event (Arrive fd q ml) -> world_do sockfd pub (Arrive fd q ml) w = Some r ->
  exists w' nb', r = Ok w' /\ winv w' /\ w_sh w' = w_sh w /\ w_nbs w !! fd = None /\ w_nbs w' = <[fd := nb']> (w_nbs w) /\
    forall fd', fd' <> fd -> mine fd' (pr_sq (w_peer w')) = mine fd' (pr_sq (w_peer w)).
Proof.
  intros Hw [Hfd Hq] Hdo. cbn [world_do] in Hdo. destruct (w_nbs w !! fd) as [nb|] eqn:Hnone; [done|].
  destruct (take_op is_accept (pr_sq (w_peer w))) as [[x rest]|] eqn:Ht; [|done]. cbn [mbind option_bind] in Hdo. injection Hdo as <-.
  destruct (take_op_split _ _ _ _ Ht) as (l1 & l2 & Heq & -> & Hx).
  assert (x = acc) as -> by (apply (wi_accept _ Hw); [rewrite Heq; apply elem_of_app; right; by left|done]).
  assert (forall fd', mine fd' (l1 ++ l2) = mine fd' (pr_sq (w_peer w))) as Hrem
    by (intros fd'; rewrite Heq, (cons_middle acc), !mine_app, mine_acc; done).
  destruct (accept_greets sockfd (w_sh w) fd (pr_set_sq (l1 ++ l2) (w_peer w)) (w_mem w) Hfd) as (s1 & m1 & t & Hturn & Hsq).
  set (ping := Sqe (OpSend fd _) _) in Hsq. cbn [pr_sq pr_set_sq] in Hsq. set (nb' := Nb (listener_start q) ml [] []).
  set (w' := World s1 m1 (<[fd := nb']> (w_nbs w)) (w_sh w)).
  assert (forall fd', fd' <> fd -> mine fd' (pr_sq (w_peer w')) = mine fd' (pr_sq (w_peer w))) as Hoth.
  { intros fd' Hne. cbn [w_peer w']. rewrite Hsq, mine_app, Hrem, mine_app, mine_acc, (mine_other fd fd' ping) by (done || apply about_self). by rewrite !app_nil_r. }
  assert (stands w' fd nb' (PSend P2P_PING)) as Hst.
  { split; [done|]. exists q. split; [done|]. do 2 eexists. split_and!; [apply decodes_status; lia|constructor| |by repeat split|by repeat split].
    unfold P_at. cbn [view n_peer pr_sq pr_set_sq w_peer w']. rewrite Hsq, mine_app, Hrem, mine_app, mine_acc, (wi_none _ Hw _ Hnone), (mine_all fd [ping]) by
      (apply Forall_singleton, about_self). done. }
  exists w', nb'. split_and!; [|split|done|done|done|done].
  - unfold peer_side. cbn [sqe_data accept_sqe]. by rewrite Hturn.
  - intros fd' nb0 H0. cbn [w_nbs w'] in H0. destruct (decide (fd' = fd)) as [->|Hne].
    + rewrite lookup_insert_eq in H0. injection H0 as <-. by eexists.
    + rewrite lookup_insert_ne in H0 by done. destruct (wi_nb _ Hw _ _ H0) as [p0 Hp0]. exists p0.
      eapply stands_cong; [exact Hp0|by apply Hoth|done].
  - intros fd' H0. cbn [w_nbs w'] in H0. destruct (decide (fd' = fd)) as [->|Hne]; [by rewrite lookup_insert_eq in H0|].
    rewrite lookup_insert_ne in H0 by done. rewrite Hoth by done. by apply (wi_none _ Hw).
  - intros e He Hacc. cbn [w_peer w'] in He. rewrite Hsq, !elem_of_app, !list_elem_of_singleton in He.
    destruct He as [[He|He]|[->| ->]]; [| |done|done]; apply (wi_accept _ Hw); try done; rewrite Heq; apply elem_of_app;
      [by left|right; by apply list_elem_of_further].
  - exact (wi_sh _ Hw).
Qed.

Lemma world_step ev w r :
  winv w -> fair_event ev -> world_do sockfd pub ev w = Some r -> exists w', r = Ok w' /\ moves ev w w'.
Proof.
  intros Hw Hev Hdo. destruct ev as [fd e|fd q ml|].
  - assert (exists nb, w_nbs w !! fd = Some nb) as [nb Hnb] by (cbn [world_do] in Hdo; destruct (w_nbs w !! fd); [by eexists|done]).
    destruct (wi_nb _ Hw _ _ Hnb) as [p Hst]. destruct (step_at fd e w nb p r Hw Hnb Hst Hdo) as (w' & nb' & p' & -> & H1 & H2 & H3 & H4 & H5 & H6).
    exists w'. split; [done|]. split_and!; [done|congruence|]. intros fd0 nb0 p0 H0 Hp0.
    destruct (decide (fd0 = fd)) as [->|Hne].
    + destruct (step_at fd e w nb0 p0 (Ok w') Hw H0 Hp0 Hdo) as (w2 & nb2 & p2 & [= <-] & _ & K2 & K3 & K4 & K5 & K6).
      eapply (moves_at fd e w w' nb0 nb2 p0 p2); try done.
    + eapply (moves_at fd e w w' nb nb' p p'); try done.
  - destruct (step_arrive fd q ml w r Hw Hev Hdo) as (w' & nb' & -> & H1 & H2 & H3 & H4 & H5). exists w'. split; [done|].
    split_and!; [done|congruence|]. intros fd0 nb0 p0 H0 Hp0. assert (fd0 <> fd) as Hne by congruence. exists nb0, p0.
    rewrite H4, lookup_insert_ne by done. split_and!; [done|eapply stands_cong; [exact Hp0|by apply H5|done]|cbn; lia].
  - cbn [world_do] in Hdo. destruct (block_created_mtx (w_sh w)) eqn:Hm; [|done]. injection Hdo as <-. eexists. split; [done|].
    assert (forall fd nb p, stands w fd nb p -> stands (World (w_peer w) (w_mem w) (w_nbs w) pub) fd nb p) as Hst.
    { intros fd nb p (Hfd & q & Hq & Hp). split; [done|]. exists q. split; [done|]. exact (at_phase_publish sockfd pub fd q blk date Hq p _ Hp). }
    split_and!; [|done|].
    + split; [|exact (wi_none _ Hw)|exact (wi_accept _ Hw)|by left]. intros fd nb H0. destruct (wi_nb _ Hw _ _ H0) as [p Hp]. exists p. by apply Hst.
    + intros fd nb p H0 Hp. exists nb, p. split_and!; [done|by apply Hst|cbn; lia].
Qed.

Lemma world_run_inv es w r :
  winv w -> Forall fair_event es -> world_run sockfd pub es w = Some r ->
  exists w', r = Ok w' /\ winv w' /\ (w_sh w = pub -> w_sh w' = pub) /\
    forall fd nb p, w_nbs w !! fd = Some nb -> stands w fd nb p ->
      exists nb' p', w_nbs w' !! fd = Some nb' /\ stands w' fd nb' p' /\ (w_sh w = pub -> (rank p' + list_sum (weight fd <$> es) <= rank p)%nat).
Proof.
  intros Hw Hes. revert w Hw. induction Hes as [|ev es Hev Hes IH]; intros w Hw Hr; cbn [world_run] in Hr.
  - injection Hr as <-. exists w. split_and!; [done|done|done|]. intros fd nb p H0 Hp. exists nb, p. split_and!; [done|done|].
    change (list_sum _) with 0%nat. lia.
  - destruct (world_do sockfd pub ev w) as [r1|] eqn:Hdo; [|done].
    destruct (world_step ev w r1 Hw Hev Hdo) as (w1 & -> & Hw1 & Hs1 & Hm1). destruct (IH w1 Hw1 Hr) as (w2 & -> & Hw2 & Hs2 & Hm2).
    exists w2. split_and!; [done|done|auto|]. intros fd nb p H0 Hp. destruct (Hm1 fd nb p H0 Hp) as (nb1 & p1 & H1 & Hp1 & Hr1).
    destruct (Hm2 fd nb1 p1 H1 Hp1) as (nb2 & p2 & H2 & Hp2 & Hr2). exists nb2, p2. split_and!; [done|done|]. intros Hs.
    specialize (Hr1 Hs). specialize (Hr2 (Hs1 Hs)). change (list_sum (weight fd <$> ev :: es)) with (weight fd ev + list_sum (weight fd <$> es))%nat. lia.
Qed.

Lemma winv_start locked mp : block_created_mtx locked = true -> winv (world_start sockfd locked mp).
Proof.
  intros Hl. split; [done|done| |by right]. intros e He _. cbn in He. rewrite !elem_of_cons, elem_of_nil in He. naive_solver.
Qed.

(** The neighbour holds the block. *)
Definition nb_holds (nb : neighbour) : Prop :=
  exists x, ls_blocks (nb_list nb) = [Ptr x 0] /\ heap (nb_mem nb) !! x = Some (BBlks [received_block blk date]).

Lemma stands_block w fd nb p :
  stands w fd nb p -> ls_blocks (nb_list nb) = [] \/ w_sh w = pub /\ nb_holds nb.
Proof.
  intros (_ & q & _ & Hp). exact (phase_block sockfd pub fd q blk date p _ Hp).
Qed.

Lemma take_op_mine fd f l e :
  mine fd l = [e] -> f (sqe_op e) = true -> exists x rest, take_op (fun o => f o && about fd o) l = Some (x, rest).
Proof.
  intros Hm Hf. assert (e ∈ l /\ about fd (sqe_op e) = true) as [He Ha].
  { assert (e ∈ mine fd l) as H by (rewrite Hm; by left). unfold mine in H. apply list_elem_of_filter in H. naive_solver. }
  clear Hm. induction l as [|y l IH]; [by apply elem_of_nil in He|]. cbn [take_op]. cbv beta.
  destruct (f (sqe_op y) && about fd (sqe_op y)) eqn:Hy; [by do 2 eexists|].
  apply elem_of_cons in He as [->|He]; [by rewrite Hf, Ha in Hy|]. destruct (IH He) as (x & rest & ->). by do 2 eexists.
Qed.

(** Before the neighbour holds the block, its connection has an event. *)
Lemma world_progress w fd nb p :
  w_nbs w !! fd = Some nb -> stands w fd nb p -> p <> Received true -> exists e r, world_do sockfd pub (At fd e) w = Some r.
Proof.
  intros Hnb (Hfd & q & Hq & Hp) Hne.
  destruct (phase_pending fd q p _ Hp) as (o & STATE & Hat & _). unfold P_at in Hat. cbn [view n_peer pr_sq pr_set_sq] in Hat. injection Hat as Hmine.
  destruct (progress sockfd pub fd q blk date p _ Hp Hne) as (e & r & He & Hdo). exists e. cbn [world_do]. rewrite Hnb.
  cbn [mbind option_bind]. destruct e; [| | | |done]; cbn [net_do view n_peer n_list n_pl n_lp] in Hdo; cbn [pr_sq pr_set_sq] in Hdo.
  - rewrite Hmine in Hdo. cbn in Hdo. destruct (is_send o) eqn:Ho; [|done].
    destruct (take_op_mine fd is_send _ _ Hmine Ho) as (x & rest & Ht). rewrite Ht. by eexists.
  - rewrite Hmine in Hdo. cbn in Hdo. destruct (is_recv o) eqn:Ho; [|done]. cbn in Hdo.
    destruct (take_op_mine fd is_recv _ _ Hmine Ho) as (x & rest & Ht). rewrite Ht. cbn. destruct (nb_from nb); [done|by eexists].
  - destruct (take_op is_send (ls_sq (nb_list nb))) as [[x rest]|]; [by eexists|done].
  - destruct (take_op is_recv (ls_sq (nb_list nb))) as [[x rest]|]; [|done]. cbn in Hdo |- *. destruct (nb_to nb); [done|by eexists].
Qed.

Lemma received_holds w fd nb : stands w fd nb (Received true) -> nb_holds nb.
Proof. intros (_ & q & _ & b & _ & _ & [_ Hb] & _). exact Hb. Qed.

(** At rest on its connection, the neighbour holds the block. *)
Lemma rest_holds w fd nb :
  winv w -> w_nbs w !! fd = Some nb -> (forall e, world_do sockfd pub (At fd e) w = None) -> nb_holds nb.
Proof.
  intros Hw Hnb Hstuck. destruct (wi_nb _ Hw _ _ Hnb) as (p & Hst).
  destruct (decide (p = Received true)) as [->|Hne]; [by eapply received_holds|].
  destruct (world_progress w fd nb p Hnb Hst Hne) as (e & r & He). by rewrite Hstuck in He.
Qed.
End facts.

(** ** The code as it is written *)

(** The events in which a peer reads a status. *)
Definition reads_status (ev : wev) : bool := match ev with At _ e => receives e | _ => false end.

Section written.
Context {sod : Sodium} {clk : Clock} {pb : Protobuf} {st : Stray} {ok : SodiumOk sod} {pbok : ProtobufOk pb}.
Context (sockfd : Z) (pub : shared) (blk : block_t) (date : list byte) (Hpub : published pub blk date).

Lemma peer_side_same rd rd' w fd o fd' s rest res bytes nb :
  peer_fd fd' -> s <> P_TEST_RESPONSE ->
  peer_side (rd:=rd) sockfd w fd (Sqe o (make_request_data fd' (state_p2p_num s))) rest res bytes nb =
  peer_side (rd:=rd') sockfd w fd (Sqe o (make_request_data fd' (state_p2p_num s))) rest res bytes nb.
Proof. intros Hfd Hs. unfold peer_side. erewrite peer_turn_same; [done|]. cbn [cqe_user_data sqe_data]. rewrite p2p_tag_state by done. congruence. Qed.

Lemma nb_side_same rd rd' w fd nb o q s rest res bytes to from :
  0 <= q < 2 ^ 31 -> s <> PROCESS_RESPONSE ->
  nb_side (rd:=rd) w fd nb (Sqe o (make_request_data q (cl_p2p_num s))) rest res bytes to from =
  nb_side (rd:=rd') w fd nb (Sqe o (make_request_data q (cl_p2p_num s))) rest res bytes to from.
Proof. intros Hq Hs. unfold nb_side. erewrite listener_turn_same; [done|]. cbn [cqe_user_data sqe_data]. rewrite cl_tag_state by done. congruence. Qed.

(** An event of the offering side of a connection. *)
Lemma offering_written fd e w nb p :
  w_nbs w !! fd = Some nb -> stands sockfd pub blk date w fd nb p -> e = PeerSend \/ e = PeerRecv ->
  world_do (rd:=as_written) sockfd pub (At fd e) w = cut (receives e) (world_do (rd:=exchanged) sockfd pub (At fd e) w).
Proof.
  intros Hnb (Hfd & q & Hq & Hp) He. destruct (phase_pends sockfd pub fd q blk date Hpub Hq p _ Hp) as [(o & s & Hat & Hs) _ _ Hfrom].
  unfold P_at in Hat. cbn [view n_peer pr_sq pr_set_sq] in Hat. injection Hat as Hmine.
  destruct He as [-> | ->]; cbn [world_do receives cut]; rewrite Hnb; cbn [mbind option_bind];
    destruct (take_op _ (pr_sq (w_peer w))) as [[x rest]|] eqn:Ht; try done; cbn [mbind option_bind];
    destruct (take_mine fd _ _ _ _ _ (fun o H => proj2 (andb_prop _ _ H)) Hmine Ht) as (-> & Ho & _ & _);
    cbn [sqe_op] in Ho; apply andb_true_iff in Ho as [Ho _].
  - rewrite Ho in Hs. f_equal. by apply peer_side_same.
  - destruct (is_send o) eqn:Hso; [by destruct o|]. destruct Hs as [-> _]. destruct (nb_from nb) as [|b l] eqn:Hf; [done|].
    cbn [fmap option_fmap option_map]. destruct (Hfrom b l Hf) as (z & Hl & msg & Hu & _). f_equal. unfold peer_side. cbn [sqe_data].
    by rewrite (peer_read_dangles (rd:=as_written) sockfd _ _ fd b msg) by done.
Qed.

(** And of the asking side. *)
Lemma asking_written fd e w nb p :
  w_nbs w !! fd = Some nb -> stands sockfd pub blk date w fd nb p -> e = ListSend \/ e = ListRecv ->
  world_do (rd:=as_written) sockfd pub (At fd e) w = cut (receives e) (world_do (rd:=exchanged) sockfd pub (At fd e) w).
Proof.
  intros Hnb (Hfd & q & Hq & Hp) He. destruct (phase_pends sockfd pub fd q blk date Hpub Hq p _ Hp) as [_ Hls Hto _].
  cbn [view n_list n_pl] in Hls, Hto. destruct Hls as [Hls|(ol & sl & Hls & Hsl)];
    [destruct He as [-> | ->]; cbn [world_do receives cut]; rewrite Hnb; cbn [mbind option_bind]; by rewrite Hls|].
  assert (ls_sq (nb_list nb) <> [Sqe OpStale 0]) as Hne by (by rewrite Hls).
  destruct He as [-> | ->]; cbn [world_do receives cut]; rewrite Hnb; cbn [mbind option_bind]; rewrite Hls; cbn [take_op is_send is_recv sqe_op mbind option_bind].
  - destruct (is_send ol); [|done]. cbn [mbind option_bind]. f_equal. by apply nb_side_same.
  - destruct (is_recv ol) eqn:Ho; [|done]. cbn [mbind option_bind]. destruct (is_send ol) eqn:Hso; [by destruct ol|]. destruct Hsl as [-> _].
    destruct (nb_to nb) as [|b l] eqn:Ht; [done|]. cbn [fmap option_fmap option_map]. destruct (Hto b l eq_refl Hne) as (z & Hl & msg & Hu & _).
    f_equal. unfold nb_side. cbn [sqe_data]. by rewrite (listener_read_dangles (rd:=as_written) _ q b msg) by done.
Qed.

Lemma world_written ev w :
  winv sockfd pub blk date w ->
  world_do (rd:=as_written) sockfd pub ev w = cut (reads_status ev) (world_do (rd:=exchanged) sockfd pub ev w).
Proof.
  intros Hw. destruct ev as [fd e|fd q ml|]; [| |done].
  - destruct (w_nbs w !! fd) as [nb|] eqn:Hnb; [|cbn [world_do reads_status]; rewrite Hnb; unfold cut; by destruct (receives e)].
    destruct (wi_nb _ _ _ _ _ Hw _ _ Hnb) as [p Hst].
    destruct e; [eapply offering_written; [exact Hnb|exact Hst|auto]..|eapply asking_written; [exact Hnb|exact Hst|auto]|eapply asking_written; [exact Hnb|exact Hst|auto]|].
    cbn [world_do]. by rewrite Hnb.
  - cbn [world_do reads_status cut]. destruct (w_nbs w !! fd); [done|].
    destruct (take_op is_accept (pr_sq (w_peer w))) as [[x rest]|] eqn:Ht; [|done]. cbn [mbind option_bind]. f_equal.
    destruct (take_op_split _ _ _ _ Ht) as (l1 & l2 & Heq & _ & Hx).
    assert (x = accept_sqe sockfd) as -> by (apply (wi_accept _ _ _ _ _ Hw); [rewrite Heq; apply elem_of_app; right; by left|done]).
    by apply peer_side_same; [apply peer_fd_0|].
Qed.

(** Either way, a run that reads no status where that is a fault is a run of the
    code that reads before it releases. *)
Lemma world_run_readings rd es w r :
  winv sockfd pub blk date w -> Forall fair_event es -> world_run (rd:=rd) sockfd pub es w = Some r ->
  if dangles (rd:=rd) reads_status es then r = Fault BadPointer else world_run (rd:=exchanged) sockfd pub es w = Some r.
Proof.
  intros Hw Hes. destruct rd; [|done]. revert w Hw. unfold dangles, reading. induction Hes as [|ev es Hev Hes IH]; intros w Hw Hr; [exact Hr|].
  cbn [world_run existsb] in *. rewrite (world_written ev w Hw) in Hr. unfold cut in Hr. destruct (reads_status ev); cbn [orb].
  - destruct (world_do (rd:=exchanged) sockfd pub ev w); cbn in Hr; [congruence|done].
  - destruct (world_do (rd:=exchanged) sockfd pub ev w) as [r1|] eqn:Hdo; [|done].
    destruct (world_step (rd:=exchanged) sockfd pub blk date Hpub eq_refl ev w r1 Hw Hev Hdo) as (w1 & -> & Hw1 & _). by apply IH.
Qed.

Lemma world_do_none rd ev w :
  winv sockfd pub blk date w -> world_do (rd:=rd) sockfd pub ev w = None -> world_do (rd:=exchanged) sockfd pub ev w = None.
Proof. intros Hw. destruct rd; [|done]. rewrite (world_written ev w Hw). apply cut_none. Qed.
End written.

(** ** Claims *)
Section claims.
Context {sod : Sodium} {clk : Clock} {pb : Protobuf} {st : Stray} {ok : SodiumOk sod} {pbok : ProtobufOk pb}.

End claims.

(** ** The claim at work *)

(** Two neighbours come, the block is published, they talk in turns. *)
Definition crowd : list wev :=
  [Arrive 5 6 empty_mem; Arrive 7 8 empty_mem; Unlock] ++
  flat_map (fun e => [At 5 e; At 7 e])
    [PeerSend; ListRecv; ListSend; PeerRecv; PeerSend; ListRecv; ListSend; PeerRecv; PeerSend; ListRecv; PeerSend].

Definition sample_world : option (res world) :=
  world_run (clk:=Toy.toy_clock) (pb:=Wire.proto2) (st:=calm) (rd:=exchanged) 3 sample_pub crowd (world_start 3 sample_locked empty_mem).

Lemma crowd_fair : Forall fair_event crowd.
Proof. unfold crowd, flat_map. cbn [app]. repeat (apply Forall_cons; split; [cbn; unfold peer_fd; lia|]). by apply Forall_nil. Qed.

(** Whether the connection has no event left. *)
Definition resting (fd : Z) (w : world) : bool :=
  forallb (fun e => match world_do (clk:=Toy.toy_clock) (pb:=Wire.proto2) (st:=calm) (rd:=exchanged) 3 sample_pub (At fd e) w with None => true | Some _ => false end)
    [PeerSend; PeerRecv; ListSend; ListRecv; Publish].

Lemma resting_none fd w e : resting fd w = true -> world_do (clk:=Toy.toy_clock) (pb:=Wire.proto2) (st:=calm) (rd:=exchanged) 3 sample_pub (At fd e) w = None.
Proof.
  unfold resting. cbn [forallb]. rewrite !andb_true_iff. intros (H1 & H2 & H3 & H4 & H5 & _).
  destruct e; match goal with |- ?o = None => destruct o; done end.
Qed.

(** The same events in the code as written. *)
Definition written_world : option (res world) :=
  world_run (clk:=Toy.toy_clock) (pb:=Wire.proto2) (st:=calm) (rd:=as_written) 3 sample_pub crowd (world_start 3 sample_locked empty_mem).

