(* ===== verification/Session.v ===== *)
(** * A session of server and client

    The message server (Server.v) and one client (Client.v), each with its own
    memory, joined by their socket.  [exchange] is one round: the server's
    pending send reaches the client, the client's turn answers, the answer
    reaches the server.  Every send arrives as one receive.  The lemmas on
    exchanges carry the theorems of Sessions.v, Threads.v and Network.v. *)

From S2P Require Import Prelude.
From S2P Require Import CTypes.
From S2P Require Import Memory.
From S2P Require Import Platform.
From S2P Require Import Accounts.
From S2P Require Import Hashing.
From S2P Require Import Layering.
From S2P Require Import MerkleTree.
From S2P Require Import MerkleVerify.
From S2P Require Import Misc.
From S2P Require Import BlockData.
From S2P Require Import BlockProcess.
From S2P Require Import RequestData.
From S2P Require Import Codec.
From S2P Require Import CircBuf.
From S2P Require Import Server.
From S2P Require Import Ledger.
From S2P Require Import Serving.
From S2P Require Import ClientIpc.
From S2P Require Import Client.

Record system := System { sy_s : server; sy_ms : mem; sy_c : client; sy_mc : mem }.

(** The bytes of the last operation submitted, when it is a send. *)
Definition last_send (l : list sqe) : list byte :=
  match last l with Some (Sqe (OpSend _ b) _) => b | _ => [] end.

(** The bytes of the client's last send. *)
Definition last_out (l : list (Z * list byte)) : list byte := match last l with Some (_, b) => b | None => [] end.

Section code.
Context {sod : Sodium} {clk : Clock} {pb : Protobuf} {un : Uninit}.

Definition rbind {A B} (r : res A) (k : A -> res B) : res B :=
  match r with Ok a => k a | Fault f => Fault f | Die => Die | NoFuel => NoFuel end.

Definition exchange (fuel : nat) (sockfd fd : Z) (y : system) : res system :=
  let bytes := last_send (sq (sy_s y)) in
  rbind (server_turn fuel sockfd (sy_s y)
           (Cqe (make_request_data fd (flag_num READ_RESPONSE)) (Z.of_nat (length bytes)) []) (sy_ms y)) (fun '(s, ms) =>
  rbind (client_turn fuel (sy_c y) bytes (sy_mc y)) (fun '(c, mc) =>
  let reply := last_out (out c) in
  rbind (server_turn fuel sockfd s
           (Cqe (make_request_data fd (flag_num TEST_RESPONSE)) (Z.of_nat (length reply)) reply) ms) (fun '(s, ms) =>
  Ok (System s ms c mc)))).

Fixpoint exchanges (n : nat) (fuel : nat) (sockfd fd : Z) (y : system) : res system :=
  match n with
  | O => Ok y
  | S n => rbind (exchange fuel sockfd fd y) (exchanges n fuel sockfd fd)
  end.

(** The server accepts a connection with descriptor [fd], the client starts. *)
Definition join (fuel : nat) (sockfd fd s : Z) (sh0 : shared) (sv : server) (ms mc : mem) : res system :=
  rbind (server_turn fuel sockfd sv (Cqe (make_request_data 0 (flag_num FLAG_ACCEPT)) fd []) ms) (fun '(sv, ms) =>
  rbind (client_start s sh0 mc) (fun '(c, mc) => Ok (System sv ms c mc))).

(** The same with a server that enters its loop. *)
Definition connect (fuel : nat) (sockfd fd s : Z) (ring_data_buf : ptr) (sh0 : shared) (ms mc : mem) : res system :=
  rbind (event_loop_start sockfd (initial_server ring_data_buf) ms) (fun '(sv, ms) => join fuel sockfd fd s sh0 sv ms mc).
End code.

Section facts.
Context {sod : Sodium} {clk : Clock} {pb : Protobuf} {un : Uninit} {ok : SodiumOk sod} {pbok : ProtobufOk pb}.
Context (Hun : uninit_short) (sh0 : shared) (q : nat) (cl : list Z) (r : nat).

(** The client's globals while it collects: its thread holds the mutex. *)
Definition locked : shared := Shared (flag_block_created sh0) (buffer_BLOCK_DATA sh0) (block_written_size sh0) true.

(** And once the block of these bytes is published. *)
Definition unlocked (bytes : list byte) : shared :=
  Shared 1 (overwrite (buffer_BLOCK_DATA sh0) bytes 0) (Z.of_nat (length bytes)) false.

Lemma rbind_wp {A B} (c : M A) m (k : A * mem -> res B) (Q : A -> mem -> Prop) (R : B -> Prop) :
  wp c Q m -> (forall a m', Q a m' -> exists b, k (a, m') = Ok b /\ R b) -> exists b, rbind (c m) k = Ok b /\ R b.
Proof. intros (a & m' & Hc & HQ) Hk. rewrite Hc. by apply Hk. Qed.

Lemma last_out_snoc l s b : last_out (l ++ [(s, b)]) = b.
Proof. unfold last_out. by rewrite last_snoc. Qed.

Lemma last_send_sent l fd b d : last_send (l ++ [Sqe (OpSend fd b) d]) = b.
Proof. unfold last_send. by rewrite last_snoc. Qed.

(** The last reply of a client that has just sent one of status [status]. *)
Lemma replies_last l l' s status :
  replies l' = replies l ++ [(s, Some status)] ->
  exists msg, ipc_message__unpack (last_out l') = Some msg /\ status_code msg = status /\ (0 < length (last_out l'))%nat.
Proof.
  unfold replies. intros H. destruct l' as [|[s' b] l' _] using rev_ind; [by destruct l|].
  rewrite fmap_app in H. apply app_inj_2 in H as [_ H]; [|done]. injection H as -> Hb.
  rewrite last_out_snoc. destruct (ipc_message__unpack b) as [msg|] eqn:Hu; [|done]. injection Hb as Hb.
  exists msg. split_and!; [done|done|]. destruct b; [by rewrite ipc_unpack_nil in Hu|cbn; lia].
Qed.

(** The server reads the answer once its send is done. *)
Lemma server_reads fuel sockfd m s b ids ps L fd n :
  serving m s b ids ps L -> good_fd fd -> 0 < n ->
  wp (server_turn fuel sockfd s (Cqe (make_request_data fd (flag_num READ_RESPONSE)) n []))
    (fun s' m' => serving m s' b ids ps L /\ m' = m) m.
Proof.
  intros Hsv Hfd Hn. unfold server_turn. cbn [cqe_user_data cqe_res]. rewrite tag_flag, tag_fd by done.
  rewrite (proj2 (Z.eqb_neq _ _)) by lia. unfold READ_STATUS_RESPONSE. apply wp_bind. eapply wp_run; [by apply check_slot_ok|].
  apply wp_ret. split; [|done]. by eapply (serving_keep m m s).
Qed.

(** What the server does with an answer. *)
Lemma server_answers fuel sockfd m s b ids ps L fd bytes msg (Q : server -> mem -> Prop) :
  serving m s b ids ps L -> good_fd fd -> ipc_message__unpack bytes = Some msg -> (0 < length bytes)%nat ->
  (forall s1, serving m s1 b ids ps L ->
    wp (if status_code msg =? IPC_NEED_MORE then handle_response_NEED_MORE_MSG fuel s1 fd else
        if status_code msg =? IPC_ACKN_OK then request_ASK_NEED_MSG s1 fd else
        if status_code msg =? IPC_ENOUGH then FINISH_SENDING s1 fd else mret s1) Q m) ->
  wp (server_turn fuel sockfd s (Cqe (make_request_data fd (flag_num TEST_RESPONSE)) (Z.of_nat (length bytes)) bytes)) Q m.
Proof.
  intros Hsv Hfd Hu Hl HQ. unfold server_turn. cbn [cqe_user_data cqe_res]. rewrite tag_flag, tag_i32, tag_fd by done.
  destruct (Z.gtb_spec (Z.of_nat (length bytes)) 0); [|lia]. apply wp_bind. eapply wp_run; [by apply check_slot_ok|].
  apply wp_bind. unfold read_ONLY_STATUS_response. rewrite received_bytes, Hu by done. apply wp_ret. apply HQ.
  eapply (serving_keep m m s _ b ids ps L []); try done. symmetry; apply app_nil_r.
Qed.

(** The books while the session of [fd] runs: [q] blocks closed, [n] the
    client's next message, nobody else served, [cl] the descriptors closed. *)
Record books (fd : Z) (n : nat) (L : ledger) : Prop := Books {
  bk_count : count L fd = n;
  bk_others fd' : fd' <> fd -> count L fd' = 0%nat;
  bk_blocks : blocks L = q;
  bk_latest : latest L = fd;
  bk_shut : shut L = cl }.

Lemma books_more fd n L :
  books fd n L -> (n < CIRC_BUF_SIZE)%nat -> exists L', ledger_step (More fd) L = Some L' /\ books fd (S n) L'.
Proof.
  intros [Hc Ho Hb Hl Hs] Hn. cbn [ledger_step]. rewrite Hc, (proj2 (Nat.ltb_lt _ _) Hn). eexists. split; [done|].
  split; try done; unfold count; cbn [counts]; [by rewrite lookup_insert_eq|]. intros fd' Hne.
  rewrite lookup_insert_ne by done. by apply Ho.
Qed.

Lemma books_enough fd n L :
  books fd n L -> CIRC_BUF_SIZE = made L ->
  exists L', ledger_step (Enough fd) L = Some L' /\ blocks L' = S q /\
    (forall fd', count L' fd' = 0%nat) /\ latest L' = fd /\ shut L' = cl.
Proof.
  intros [Hc Ho Hb Hl Hs] Hm. cbn [ledger_step]. rewrite (proj2 (Nat.ltb_ge _ _)) by lia. eexists. split; [done|].
  split_and!; [cbn; congruence| |done|done]. intros fd'. unfold count. cbn [counts]. rewrite count_insert.
  case_decide; [done|by apply Ho].
Qed.

(** The server serves by such books; its first message was made from draw [r]. *)
Definition counted (y : system) (fd : Z) (b : positive) (ids : list (positive * positive)) (n : nat) : Prop :=
  exists ps L, serving (sy_ms y) (sy_s y) b ids ps L /\ books fd n L /\ minted r (sy_ms y) ids.

(** The server's buffer and memory at a later point. *)
Definition later (b : positive) (ids : list (positive * positive)) (m : mem) (ids' : list (positive * positive)) (m' : mem) : Prop :=
  ids `prefix_of` ids' /\ extends b m m'.

Lemma later_trans b ids1 m1 ids2 m2 ids3 m3 : later b ids1 m1 ids2 m2 -> later b ids2 m2 ids3 m3 -> later b ids1 m1 ids3 m3.
Proof. intros [H1 H2] [H3 H4]. split; [by etrans|by eapply extends_trans]. Qed.

(** The client holds the first [k] messages of the server's buffer; the server
    has just sent the client [bytes]. *)
Record round (y : system) (fd : Z) (b : positive) (ids : list (positive * positive)) (k n : nat) (r0 : nat)
    (a : positive) (bufs : list positive) (bytes : list byte) : Prop := Round {
  ro_serving : counted y fd b ids n;
  ro_last : last_send (sq (sy_s y)) = bytes;
  ro_client : collecting (sy_mc y) (sy_c y) a bufs (ring_data (heap (sy_ms y)) <$> take k ids);
  ro_rng : rng (sy_mc y) = r0;
  ro_shared : sh (sy_c y) = locked }.

Definition asking (y : system) fd b ids k r0 a bufs : Prop :=
  exists t, round y fd b ids k k r0 a bufs (ipc_message__pack (status_msg t IPC_ASK_NEED_MSG)).

Definition offering (y : system) fd b ids k r0 a bufs : Prop :=
  exists id t, ids !! k = Some id /\
    round y fd b ids k (S k) r0 a bufs (ipc_message__pack (data_msg (heap (sy_ms y)) id t)).

(** The first half of an exchange: the client's turn on the server's bytes. *)
Lemma exchange_client fuel sockfd fd y b ids ps L (Qc : client -> mem -> Prop) (R : system -> Prop) :
  serving (sy_ms y) (sy_s y) b ids ps L -> good_fd fd -> (0 < length (last_send (sq (sy_s y))))%nat ->
  wp (client_turn fuel (sy_c y) (last_send (sq (sy_s y)))) Qc (sy_mc y) ->
  (forall s1 c mc, serving (sy_ms y) s1 b ids ps L -> Qc c mc ->
     wp (server_turn fuel sockfd s1 (Cqe (make_request_data fd (flag_num TEST_RESPONSE))
       (Z.of_nat (length (last_out (out c)))) (last_out (out c)))) (fun s ms => R (System s ms c mc)) (sy_ms y)) ->
  exists y', exchange fuel sockfd fd y = Ok y' /\ R y'.
Proof.
  intros Hsv Hfd Hl Hc HR. unfold exchange. eapply rbind_wp; [apply (server_reads fuel sockfd _ _ b ids ps L); [done|done|lia]|].
  intros s1 m1 (Hs1 & ->). eapply rbind_wp; [exact Hc|]. intros c mc HQ.
  eapply rbind_wp; [by apply HR|]. intros s2 m2 H2. by eexists.
Qed.

Lemma status_packet t : packet (ipc_message__pack (status_msg t IPC_ASK_NEED_MSG)) /\ data_of (ipc_message__pack (status_msg t IPC_ASK_NEED_MSG)) = [] /\
  (0 < length (ipc_message__pack (status_msg t IPC_ASK_NEED_MSG)))%nat.
Proof.
  assert (ipc_wf (status_msg t IPC_ASK_NEED_MSG)) as Hw by (apply status_msg_wf; [done|lia]).
  split_and!; [|unfold data_of; by rewrite ipc_unpack_pack|by apply ipc_pack_nonempty].
  eapply Pk_ask; [by apply ipc_unpack_pack|done].
Qed.

Lemma data_packet h id t :
  ring_msg h id -> packet (ipc_message__pack (data_msg h id t)) /\ data_of (ipc_message__pack (data_msg h id t)) = [ring_data h id] /\
  (0 < length (ipc_message__pack (data_msg h id t)))%nat.
Proof.
  intros Hm. pose proof (data_msg_wf h id t Hm) as Hw. destruct (ring_data_length h id Hm) as [Hd Hk].
  split_and!; [| |by apply ipc_pack_nonempty].
  - eapply Pk_data; [by apply ipc_unpack_pack|rewrite Hd; lia|exact Hk].
  - unfold data_of. rewrite ipc_unpack_pack by done. cbn. by destruct (ring_data h id).
Qed.

(** The client answers the question, the server sends the next message. *)
Lemma exchange_ask fuel sockfd fd y b ids k r0 a bufs :
  asking y fd b ids k r0 a bufs -> good_fd fd -> (k < CIRC_BUF_SIZE)%nat -> (CIRC_BUF_SIZE <= fuel)%nat ->
  exists y', exchange fuel sockfd fd y = Ok y' /\ keeps (a :: bufs) (sy_mc y) (sy_mc y') /\
    exists ids', later b ids (sy_ms y) ids' (sy_ms y') /\ offering y' fd b ids' k r0 a bufs.
Proof.
  intros (t & [(ps & L & Hsv & Hbk & Hmd) Hls Hco Hrg Hsh]) Hfd Hk Hf. destruct (status_packet t) as (Hpk & Hdat & Hlen).
  eapply exchange_client; [exact Hsv|done|by rewrite Hls| |].
  { rewrite Hls. eapply client_turn_packet; [exact Hco|done|]. rewrite Hdat, app_nil_r. exact (co_lt _ _ _ _ _ Hco). }
  intros s1 c mc Hs1 (Hco1 & Hr1 & Hn1 & Hold1 & Hrep & Hsh1 & _). rewrite Hdat, app_nil_r in Hco1.
  unfold reply_to in Hrep. rewrite decide_True in Hrep by done.
  destruct (replies_last _ _ _ _ Hrep) as (msg & Hu & Hst & Hlr).
  eapply server_answers; [exact Hs1|done|exact Hu|done|]. intros s2 Hs2. rewrite Hst. cbn [Z.eqb Pos.eqb].
  eapply wp_mono.
  { eapply (handle_more_spec fuel s2 fd k b (reset L) ids ps); try done; [exact (sv_wf _ _ _ _ _ _ Hs2)|exact (sv_cbuf _ _ _ _ _ _ Hs2)|
      exact (sv_ring _ _ _ _ _ _ Hs2)|by eapply sv_len|by eapply sv_full|by rewrite (sv_count _ _ _ _ _ _ Hs2), (bk_count _ _ _ Hbk)]. }
  intros s3 m3 (ids' & ps' & id & t' & Hl' & Hid & Hpre & Hr' & Hex & Hmi & ->).
  assert (k <= length ids)%nat as Hkl.
  { pose proof (so_count _ (sv_sound _ _ _ _ _ _ Hs2) fd) as Hle. by rewrite (bk_count _ _ _ Hbk), <-(sv_made _ _ _ _ _ _ Hs2) in Hle. }
  destruct (books_more fd k L Hbk Hk) as (L' & HL & HbL).
  split; [split; [exact (co_wf _ _ _ _ _ Hco1)|cbn; by rewrite Hn1|intros x _; apply Hold1]|].
  exists ids'. split; [done|]. exists id, t'. split; [done|]. split; cbn [sy_s sy_ms sy_c sy_mc].
  - exists ps', L'. split_and!; [|done|].
    + eapply (serving_sent (sy_ms y)); try done. exact (bk_count _ _ _ Hbk).
    + pose proof (sv_len _ _ _ _ _ _ Hs2). eapply minted_mints; [exact Hmd|exact Hmi|exact (sv_wf _ _ _ _ _ _ Hs2)|exact (sv_ring _ _ _ _ _ _ Hs2)|done|done|lia].
  - cbn [sq set_sended sent submit]. apply last_send_sent.
  - rewrite (ring_data_take (sy_ms y) m3 b ids ids' ps); [done|exact (sv_wf _ _ _ _ _ _ Hs2)|exact (sv_ring _ _ _ _ _ _ Hs2)|done|done|lia].
  - congruence.
  - congruence.
Qed.

(** The client stores a message and acknowledges it, the server asks again. *)
Lemma exchange_data fuel sockfd fd y b ids k r0 a bufs :
  offering y fd b ids k r0 a bufs -> good_fd fd -> (S k < CIRC_BUF_SIZE)%nat ->
  exists y', exchange fuel sockfd fd y = Ok y' /\ keeps (a :: bufs) (sy_mc y) (sy_mc y') /\
    later b ids (sy_ms y) ids (sy_ms y') /\ asking y' fd b ids (S k) r0 a bufs.
Proof.
  intros (id & t & Hid & [(ps & L & Hsv & Hbk & Hmd) Hls Hco Hrg Hsh]) Hfd Hk.
  pose proof (rr_msg _ _ _ _ (sv_ring _ _ _ _ _ _ Hsv) _ _ Hid) as Hm. destruct (data_packet _ id t Hm) as (Hpk & Hdat & Hlen).
  pose proof (lookup_lt_Some _ _ _ Hid) as Hkl.
  assert ((ring_data (heap (sy_ms y)) <$> take k ids) ++ [ring_data (heap (sy_ms y)) id] = ring_data (heap (sy_ms y)) <$> take (S k) ids) as Happ
    by (erewrite take_S_r by exact Hid; by rewrite fmap_app).
  eapply exchange_client; [exact Hsv|done|by rewrite Hls| |].
  { rewrite Hls. eapply client_turn_packet; [exact Hco|done|]. rewrite Hdat, Happ, length_fmap, length_take. unfold CIRC_BUF_SIZE in Hk. lia. }
  intros s1 c mc Hs1 (Hco1 & Hr1 & Hn1 & Hold1 & Hrep & Hsh1 & _). rewrite Hdat, Happ in Hco1.
  unfold reply_to in Hrep. rewrite decide_False in Hrep by (by rewrite Hdat).
  destruct (replies_last _ _ _ _ Hrep) as (msg & Hu & Hst & Hlr).
  eapply server_answers; [exact Hs1|done|exact Hu|done|]. intros s2 Hs2. rewrite Hst. cbn [Z.eqb Pos.eqb].
  eapply wp_run; [by apply request_ASK_NEED_MSG_run|].
  split; [split; [exact (co_wf _ _ _ _ _ Hco1)|cbn; by rewrite Hn1|intros x _; apply Hold1]|].
  split; [split; [done|by apply heap_extends; [exact (sv_wf _ _ _ _ _ _ Hsv)|..]]|].
  exists (ticks (sy_ms y)). split; cbn [sy_s sy_ms sy_c sy_mc].
  - exists ps, L. split_and!; [|done|by eapply minted_same]. eapply (serving_keep (sy_ms y) _ s2); try done.
    intros fd'. rewrite omap_one. rewrite payload_status; [done|done|lia].
  - apply last_send_sent.
  - exact Hco1.
  - congruence.
  - congruence.
Qed.

(** ** The end of the session *)

(** The client's side of an agreement on the messages [ids] of the server's heap
    [h] and their root: the client holds them, slot by slot, its block was made
    and solved for the root, and its packed form is published. *)
Definition client_agrees (h : gmap positive block) (ids : list (positive * positive)) (root : list byte) (c : client) (mc : mem) : Prop :=
  exists i t,
    (forall j id, ids !! j = Some id -> ring_msg h id /\
       exists sm, msg_at (heap mc) (padd (c_msg_arr c) (Z.of_nat j)) sm (ring_data h id).1 /\ sm_public_key sm = (ring_data h id).2) /\
    load (block_dummy c) mc = Ok (made_block root i t, mc) /\ solves root 3 i /\ ver_printed c = Some 512 /\
    sh c = unlocked (p2p__ipc_message__pack (block_msg (made_block root i t) (made_date t))).

(** Server and client have the same block: the root the server printed last is
    over the 512 messages they share. *)
Definition agreed_on (ids : list (positive * positive)) (y : system) : Prop :=
  let root := ring_root (heap (sy_ms y)) ids in
  length ids = CIRC_BUF_SIZE /\ printed (sy_s y) = replicate (S q) root /\ client_agrees (heap (sy_ms y)) ids root (sy_c y) (sy_mc y).

(** And the server, whose buffer and memory were [ids] and [m], serves on. *)
Definition agreed_serving (fd : Z) (b : positive) (ids : list (positive * positive)) (m : mem) (y : system) : Prop :=
  exists ids' ps L, later b ids m ids' (sy_ms y) /\ agreed_on ids' y /\ serving (sy_ms y) (sy_s y) b ids' ps L /\
    (forall fd', count L fd' = 0%nat) /\ blocks L = S q /\ latest L = fd /\ shut L = cl /\ minted r (sy_ms y) ids'.

(** The puzzle for [root] has a solution among the [fuel] draws from draw [r0] on. *)
Definition solvable (fuel r0 : nat) (root : list byte) : Prop := exists k, (k < fuel)%nat /\ solves root 3 (r0 + k).

(** Then it has a first one. *)
Lemma solvable_first fuel r0 root :
  solvable fuel r0 root -> exists k, (k < fuel)%nat /\ solves root 3 (r0 + k) /\ forall j, (j < k)%nat -> ~ solves root 3 (r0 + j).
Proof.
  intros (k & Hk & Hy). induction k as [k IH] using lt_wf_ind.
  destruct (decide (Exists (fun j => solves root 3 (r0 + j)) (List.seq 0 k))) as [He|Hn].
  - apply Exists_exists in He as (j & [_ Hj]%elem_of_seq & Hy'). apply (IH j); [lia|lia|done].
  - exists k. split_and!; [done|done|]. intros j Hj Hy'. apply Hn, Exists_exists. exists j. split; [apply elem_of_seq; lia|done].
Qed.

Lemma got_root_ring h ids : got_root (ring_data h <$> ids) = ring_root h ids.
Proof. unfold got_root, ring_root. f_equal. rewrite <-list_fmap_compose. done. Qed.

Lemma exchange_last fuel sockfd fd y b ids r0 a bufs :
  offering y fd b ids 511 r0 a bufs -> good_fd fd -> solvable fuel r0 (minted_root r) ->
  exists y', exchange fuel sockfd fd y = Ok y' /\ keeps (a :: bufs) (sy_mc y) (sy_mc y') /\ flag_block_filled (sy_c y') = 1 /\
    agreed_serving fd b ids (sy_ms y) y'.
Proof.
  intros (id & t & Hid & [(ps & L & Hsv & Hbk & Hmd) Hls Hco Hrg Hsh]) Hfd Hsol.
  pose proof (rr_msg _ _ _ _ (sv_ring _ _ _ _ _ _ Hsv) _ _ Hid) as Hm. destruct (data_packet _ id t Hm) as (Hpk & Hdat & Hlen).
  pose proof (lookup_lt_Some _ _ _ Hid) as Hkl. pose proof (sv_len _ _ _ _ _ _ Hsv) as [_ Hids]. unfold CIRC_BUF_SIZE in Hids.
  assert (length ids = CIRC_BUF_SIZE) as Hids' by (unfold CIRC_BUF_SIZE; lia). set (h := heap (sy_ms y)) in *.
  assert ((ring_data h <$> take 511 ids) ++ [ring_data h id] = ring_data h <$> ids) as Happ.
  { rewrite <-(take_drop 511 ids) at 2. rewrite fmap_app. f_equal. erewrite drop_S by exact Hid. rewrite drop_ge by lia. done. }
  destruct (ring_data h id) as [d kk] eqn:Hrd.
  rewrite <-(minted_ring_root r (sy_ms y) ids Hmd Hids') in Hsol. fold h in Hsol.
  destruct (solvable_first fuel r0 (ring_root h ids) Hsol) as (k0 & Hk0 & Hyes & Hno).
  eapply exchange_client; [exact Hsv|done|by rewrite Hls| |].
  { rewrite Hls. eapply (client_turn_last fuel k0); [exact Hco|done|exact Hdat| | | |exact Hk0].
    - rewrite Happ, length_fmap. exact Hids'.
    - rewrite Happ, got_root_ring, Hrg. exact Hno.
    - rewrite Happ, got_root_ring, Hrg. exact Hyes. }
  rewrite Happ, got_root_ring, Hrg.
  intros s1 c mc Hs1 (m1 & gc & bb & c0 & t0 & -> & Hsl & Hwf1 & Hn1 & Hold1 & Hb & Hwf2 & Hrep & Hsh0 & Harr & _).
  destruct (replies_last _ _ _ _ Hrep) as (msg & Hu & Hst & Hlr).
  eapply server_answers; [exact Hs1|done|exact Hu|done|]. intros s2 Hs2. rewrite Hst. cbn [Z.eqb Pos.eqb].
  eapply wp_mono; [by eapply FINISH_SENDING_spec|]. intros s3 m3 (Hh & Hnx & ->).
  pose proof (built_slots _ _ _ _ _ _ _ _ Hwf1 Hsl Hb) as Hsl'.
  destruct (books_enough fd 512 L Hbk) as (L' & HL & HbL & Hrest); [rewrite <-(sv_made _ _ _ _ _ _ Hs2); exact (eq_sym Hids')|].
  pose proof (serving_finished _ _ _ _ _ _ _ _ _ Hs2 Hh Hnx HL) as Hs3.
  pose proof (sv_printed _ _ _ _ _ _ Hs3) as Hp3. rewrite HbL, Hh in Hp3.
  split; [by eapply keeps_built|]. split; [done|].
  exists ids, ps, L'. split_and!; [split; [done|by apply heap_extends; [exact (sv_wf _ _ _ _ _ _ Hsv)|..]]| |done|apply Hrest|done|apply Hrest|apply Hrest|].
  2:{ destruct Hmd as [_ Hd]. split; [lia|]. intros j x Hj. cbn [sy_ms]. rewrite Hh. by apply Hd. }
  unfold agreed_on. cbn [sy_s sy_ms sy_c sy_mc]. rewrite Hh. fold h.
  split_and!; [done|exact Hp3|]. exists (r0 + k0)%nat, t0. split_and!.
  - intros j x Hj. split; [exact (rr_msg _ _ _ _ (sv_ring _ _ _ _ _ _ Hs2) _ _ Hj)|].
    change (c_msg_arr (cqe_seen _)) with (c_msg_arr c0). rewrite Harr. destruct (ring_data h x) as [d' k'] eqn:Hx.
    apply (slots_msg mc a bufs (ring_data h <$> ids) j d' k' Hsl').
    + by rewrite list_lookup_fmap, Hj, <-Hx.
    + rewrite length_fmap. lia.
  - apply (load_live (H:=storable_blk)). destruct Hb as (m2 & la & lp & arr & T & _ & _ & Hh2). rewrite Hh2. apply lookup_insert_eq.
  - done.
  - done.
  - cbn [sh cqe_seen with_block set_filled set_block]. by rewrite Hsh0, Hsh.
Qed.

Lemma exchanges_S n fuel sockfd fd y (R : system -> Prop) :
  (exists y1, exchange fuel sockfd fd y = Ok y1 /\ exists y2, exchanges n fuel sockfd fd y1 = Ok y2 /\ R y2) ->
  exists y2, exchanges (S n) fuel sockfd fd y = Ok y2 /\ R y2.
Proof. intros (y1 & H1 & H2). cbn [exchanges]. by rewrite H1. Qed.

(** From the question for message [k] to the end: two exchanges a message. *)
Lemma exchanges_all n fuel sockfd fd y b ids k r0 a bufs :
  asking y fd b ids k r0 a bufs -> good_fd fd -> (k + n = 511)%nat -> (CIRC_BUF_SIZE <= fuel)%nat -> solvable fuel r0 (minted_root r) ->
  exists y', exchanges (2 * n + 2) fuel sockfd fd y = Ok y' /\ agreed_serving fd b ids (sy_ms y) y'.
Proof.
  intros Hy Hfd Hn Hf Hsol. revert y ids k Hy Hn. induction n as [|n IH]; intros y ids k Hy Hn;
    (destruct (exchange_ask fuel sockfd fd y b ids k r0 a bufs) as (y1 & H1 & _ & ids1 & Hl1 & Hy1); [done|done|unfold CIRC_BUF_SIZE; lia|done|]).
  - apply exchanges_S. exists y1. split; [done|]. apply exchanges_S. replace k with 511%nat in Hy1 by lia.
    destruct (exchange_last fuel sockfd fd y1 b ids1 r0 a bufs) as (y2 & H2 & _ & _ & ids2 & ps2 & L2 & Hl2 & Hy2); [done|done|done|].
    exists y2. split; [done|]. exists y2. split; [done|]. exists ids2, ps2, L2. split; [by eapply later_trans|done].
  - replace (2 * S n + 2)%nat with (S (S (2 * n + 2))) by lia. apply exchanges_S. exists y1. split; [done|]. apply exchanges_S.
    destruct (exchange_data fuel sockfd fd y1 b ids1 k r0 a bufs) as (y2 & H2 & _ & Hl2 & Hy2); [done|done|unfold CIRC_BUF_SIZE; lia|].
    exists y2. split; [done|]. destruct (IH y2 ids1 (S k) Hy2 ltac:(lia)) as (y3 & H3 & ids3 & ps3 & L3 & Hl3 & Hy3).
    exists y3. split; [done|]. exists ids3, ps3, L3. split; [|done]. by eapply later_trans, later_trans.
Qed.

(** A new client of a server that is in the middle of no session. *)
Lemma join_asking fuel sockfd fd s b ids ps L sv ms mc :
  serving ms sv b ids ps L -> (forall fd', count L fd' = 0%nat) -> blocks L = q -> shut L = cl -> minted r ms ids -> wf mc -> good_fd fd ->
  exists y, join fuel sockfd fd s sh0 sv ms mc = Ok y /\ later b ids ms ids (sy_ms y) /\ keeps [] mc (sy_mc y) /\ exists a bufs, asking y fd b ids 0 (rng mc) a bufs.
Proof.
  intros Hsv Hc Hq Hcl Hmd Hwc Hfd. unfold join. set (L' := Ledger (counts L) (logs L) (made L) (blocks L) fd (shut L)).
  eapply (rbind_wp _ _ _ (fun s' m' => exists t, later b ids ms ids m' /\ serving m' s' b ids ps L' /\ minted r m' ids /\
    last_send (sq s') = ipc_message__pack (status_msg t IPC_ASK_NEED_MSG))).
  { unfold server_turn. cbn [cqe_user_data cqe_res]. rewrite tag_flag by apply good_0.
    eapply wp_run; [by apply request_ASK_NEED_MSG_run|]. exists (ticks ms). split_and!; [split; [done|by apply heap_extends; [exact (sv_wf _ _ _ _ _ _ Hsv)|..]]| |by eapply minted_same|apply last_send_sent].
    eapply (serving_frame ms _ sv); [exact Hsv|done|done|done|done|done|exact (eq_sym (app_assoc (sq sv) [_] [_]))| |done| |exact (sv_shut _ _ _ _ _ _ Hsv)].
    - intros fd'. rewrite (omap_app (payload_to fd') [_] [_]), !omap_one, payload_status; [done|done|lia].
    - cbn [current_client_fd sent submit set_length set_buffer set_current latest L']. unfold good_fd in Hfd.
      rewrite u64_small by lia. apply request_data_fd_small. lia. }
  intros sv2 m2 (t & Hlt & Hsv2 & Hmd2 & Hl2). eapply rbind_wp; [by apply client_start_spec|].
  intros c m3 (a & bufs & Hsl & Hw3 & Hr3 & _ & Hold & Hnew & ->). eexists. split; [done|]. split; [done|]. split.
  { split; [done| |]; cbn [sy_mc].
    - destruct (sl_arr _ _ _ _ Hsl) as (sms & Ha & _). pose proof (wf_lt _ _ _ Hw3 Ha). pose proof (Hnew a ltac:(by left)). lia.
    - intros x Hx _. apply Hold. intros Hin. pose proof (Hnew x Hin). lia. }
  exists a, bufs, t.
  split; cbn [sy_s sy_ms sy_c sy_mc]; [|done| |done|done].
  - exists ps, L'. split_and!; [done| |done]. split; try done; [by apply Hc|]. intros fd' _. apply Hc.
  - rewrite take_0. split; try done. cbn. lia.
Qed.
End facts.

Section start.
Context {sod : Sodium} {clk : Clock} {pb : Protobuf} {un : Uninit} {ok : SodiumOk sod} {pbok : ProtobufOk pb}.

Lemma connect_asking fuel sockfd fd s b sh0 ms mc :
  uninit_short -> wf ms -> heap ms !! b = Some (BPtrs (replicate CIRC_BUF_SIZE NULL)) -> wf mc -> good_fd fd ->
  exists y, connect fuel sockfd fd s (Ptr b 0) sh0 ms mc = Ok y /\ exists ids a bufs, asking sh0 0 [] (rng ms) y fd b ids 0 (rng mc) a bufs.
Proof.
  intros Hun Hwf Hb Hwc Hfd. unfold connect. eapply rbind_wp; [by apply serving_start|]. intros sv m1 (id & ps & Hsv & _ & Hmd).
  destruct (join_asking Hun sh0 0 [] (rng ms) fuel sockfd fd s b [id] ps opening sv m1 mc) as (y & Hy & _ & _ & a & bufs & Ha); try done.
  exists y. split; [done|]. by exists [id], a, bufs.
Qed.
End start.

(** Any puzzle of the prefix hash is solved by the third draw. *)
Lemma prefix_solvable root : solvable (sod:=Toy.prefixing) 512 0 root.
Proof. exists 2%nat. split; [lia|]. apply prefix_solved. Qed.
