(* ===== verification/Sessions.v ===== *)
(** * Several clients of one server

    Clients served one after another ([sessions]): every session is that of
    Session.v, followed by the completion that closes it.  And what happens to
    a client that was accepted while another one finishes.  The entry
    FINISH_SENDING submits without preparing it is taken to complete with
    result 0 and to do nothing. *)

From S2P Require Import Prelude.
From S2P Require Import CTypes.
From S2P Require Import Memory.
From S2P Require Import Platform.
From S2P Require Import MerkleTree.
From S2P Require Import Misc.
From S2P Require Import BlockData.
From S2P Require Import RequestData.
From S2P Require Import Codec.
From S2P Require Import CircBuf.
From S2P Require Import Server.
From S2P Require Import Ledger.
From S2P Require Import Serving.
From S2P Require Import ClientIpc.
From S2P Require Import Client.
From S2P Require Import Session.

(** A client to come: the descriptor it is accepted with, its own socket, its
    globals and its memory. *)
Record visitor := Visitor { v_fd : Z; v_s : Z; v_sh : shared; v_mem : mem }.

Section code.
Context {sod : Sodium} {clk : Clock} {pb : Protobuf} {un : Uninit}.

(** One session from the accepted connection to its close. *)
Definition full_session (fuel : nat) (sockfd : Z) (v : visitor) (sv : server) (ms : mem) : res (client * mem * (server * mem)) :=
  rbind (join fuel sockfd (v_fd v) (v_s v) (v_sh v) sv ms (v_mem v)) (fun y =>
  rbind (exchanges 1024 fuel sockfd (v_fd v) y) (fun y =>
  rbind (server_turn fuel sockfd (sy_s y) (Cqe (make_request_data (v_fd v) (flag_num FLAG_CLOSE_CONNECTION)) 0 []) (sy_ms y)) (fun r =>
  Ok (sy_c y, sy_mc y, r)))).

Fixpoint sessions (fuel : nat) (sockfd : Z) (vs : list visitor) (sv : server) (ms : mem) : res (list (client * mem) * (server * mem)) :=
  match vs with
  | [] => Ok ([], (sv, ms))
  | v :: vs =>
      rbind (full_session fuel sockfd v sv ms) (fun '(c, (sv, ms)) =>
      rbind (sessions fuel sockfd vs sv ms) (fun '(cs, r) => Ok (c :: cs, r)))
  end.
End code.

Section facts.
Context {sod : Sodium} {clk : Clock} {pb : Protobuf} {un : Uninit} {ok : SodiumOk sod} {pbok : ProtobufOk pb}.
Context (Hun : uninit_short) (fuel : nat) (sockfd : Z) (Hf : (CIRC_BUF_SIZE <= fuel)%nat) (b : positive) (r : nat).

(** A client that can come to a server whose first message is made from draw
    [r]: its draws solve the puzzle for that server's root within the fuel. *)
Definition welcome (v : visitor) : Prop := good_fd (v_fd v) /\ wf (v_mem v) /\ solvable fuel (rng (v_mem v)) (minted_root r).

(** The server between sessions. *)
Definition between (q : nat) (cl : list Z) (ids : list (positive * positive)) (sv : server) (ms : mem) : Prop :=
  exists ps L, serving ms sv b ids ps L /\ (forall fd, count L fd = 0%nat) /\ blocks L = q /\ shut L = cl /\ minted r ms ids.

(** What a client has agreed on outlasts the server's later turns. *)
Lemma client_agrees_later sh0 ids ps L sv m m' c mc :
  serving m sv b ids ps L -> extends b m m' ->
  client_agrees sh0 (heap m) ids (ring_root (heap m) ids) c mc -> client_agrees sh0 (heap m') ids (ring_root (heap m') ids) c mc.
Proof.
  intros Hsv Hex (i & t & Hm & H). pose proof (sv_wf _ _ _ _ _ _ Hsv) as Hwf. pose proof (sv_ring _ _ _ _ _ _ Hsv) as Hr.
  rewrite (ring_root_old m m' b ids ps) by done. exists i, t. split; [|done]. intros j id Hj. destruct (Hm j id Hj) as [Hid Hsm].
  rewrite (ring_data_old m m' b ids ps) by (done || by eapply list_elem_of_lookup_2). split; [|done].
  eapply ring_msg_old; [done|exact (rr_buf _ _ _ _ Hr)|done|exact (ex_old _ _ _ Hex)].
Qed.

(** The completion that closes a session. *)
Lemma close_turn fd q cl ids ps L sv ms :
  good_fd fd -> serving ms sv b ids ps L -> (forall fd', count L fd' = 0%nat) -> blocks L = q -> latest L = fd -> shut L = cl -> minted r ms ids ->
  exists sv', server_turn fuel sockfd sv (Cqe (make_request_data fd (flag_num FLAG_CLOSE_CONNECTION)) 0 []) ms = Ok (sv', ms) /\
    between q (cl ++ [fd]) ids sv' ms.
Proof.
  intros Hfd Hsv Hc Hq Hla Hcl Hmd. eexists. split.
  { unfold server_turn. cbn [cqe_user_data]. rewrite tag_flag, tag_fd by done. by erewrite bind_ok by by apply check_slot_ok. }
  eexists ps, _. split; [by eapply serving_shut|]. split_and!; [|done|cbn [shut]; congruence|done].
  intros fd'. unfold count. cbn [counts]. rewrite count_insert. case_decide; [done|apply Hc].
Qed.

(** One session: the client agrees with the server on the messages, its own
    descriptor is closed, one more root is printed. *)
Lemma full_session_spec v q cl ids sv ms :
  welcome v -> between q cl ids sv ms ->
  exists c mc sv' ms' ids', full_session fuel sockfd v sv ms = Ok (c, mc, (sv', ms')) /\ later b ids ms ids' ms' /\
    length ids' = CIRC_BUF_SIZE /\ between (S q) (cl ++ [v_fd v]) ids' sv' ms' /\
    client_agrees (v_sh v) (heap ms') ids' (ring_root (heap ms') ids') c mc.
Proof.
  intros (Hfd & Hwc & Hsol) (ps & L & Hsv & Hc & Hq & Hcl & Hmd). unfold full_session.
  destruct (join_asking Hun (v_sh v) q cl r fuel sockfd (v_fd v) (v_s v) b ids ps L sv ms (v_mem v) Hsv Hc Hq Hcl Hmd Hwc Hfd)
    as (y & -> & Hl0 & _ & a & bufs & Ha). cbn [rbind].
  destruct (exchanges_all Hun (v_sh v) q cl r 511 fuel sockfd (v_fd v) y b ids 0 _ a bufs Ha Hfd eq_refl Hf Hsol)
    as (y' & Hy' & ids' & ps' & L' & Hl1 & (Hl & _ & Hag) & Hsv' & Hc' & Hq' & Hla & Hsh & Hmd'). change (2 * 511 + 2)%nat with 1024%nat in Hy'.
  rewrite Hy'. cbn [rbind].
  destruct (close_turn (v_fd v) (S q) cl ids' ps' L' (sy_s y') (sy_ms y') Hfd Hsv' Hc' Hq' Hla Hsh Hmd') as (sv' & -> & Hbt).
  cbn [rbind]. do 4 eexists. exists ids'. split; [done|]. split; [by eapply later_trans|]. done.
Qed.

Lemma sessions_spec vs q cl ids sv ms :
  Forall welcome vs -> between q cl ids sv ms ->
  exists outs sv' ms' ids', sessions fuel sockfd vs sv ms = Ok (outs, (sv', ms')) /\ later b ids ms ids' ms' /\
    between (q + length vs) (cl ++ (v_fd <$> vs)) ids' sv' ms' /\ (vs <> [] -> length ids' = CIRC_BUF_SIZE) /\
    Forall2 (fun v o => client_agrees (v_sh v) (heap ms') ids' (ring_root (heap ms') ids') o.1 o.2) vs outs.
Proof.
  intros Hvs. revert q cl ids sv ms. induction Hvs as [|v vs Hv Hvs IH]; intros q cl ids sv ms Hb.
  - exists [], sv, ms, ids. cbn [length fmap list_fmap]. rewrite Nat.add_0_r, app_nil_r. pose proof Hb as (ps & L & Hsv & _).
    split_and!; [done| |done|done|constructor]. split; [done|by apply extends_refl, (sv_wf _ _ _ _ _ _ Hsv)].
  - destruct (full_session_spec v q cl ids sv ms Hv Hb) as (c & mc & sv1 & ms1 & ids1 & H1 & Hl1 & Hf1 & Hb1 & Ha1).
    destruct (IH (S q) (cl ++ [v_fd v]) ids1 sv1 ms1 Hb1) as (outs & sv2 & ms2 & ids2 & H2 & Hl2 & Hb2 & _ & Ha2).
    assert (ids2 = ids1) as ->.
    { destruct Hl2 as [Hpre _], Hb2 as (ps & L & Hsv & _). symmetry. apply prefix_length_eq; [done|].
      pose proof (sv_len _ _ _ _ _ _ Hsv). lia. }
    exists ((c, mc) :: outs), sv2, ms2, ids1. cbn [sessions]. rewrite H1. cbn [rbind]. rewrite H2. cbn [rbind].
    split_and!; [done|by eapply later_trans| |done|].
    + cbn [length fmap list_fmap]. rewrite <-Nat.add_succ_comm, (cons_middle (v_fd v)), app_assoc. done.
    + constructor; [|done]. destruct Hb1 as (ps1 & L1 & Hsv1 & _). eapply client_agrees_later; [exact Hsv1|exact (proj2 Hl2)|exact Ha1].
Qed.
End facts.

(** ** Claims *)
Section claims.
Context {sod : Sodium} {clk : Clock} {pb : Protobuf} {un : Uninit} {ok : SodiumOk sod} {pbok : ProtobufOk pb}.

(** C6: every block is the first block.  A server that starts with an empty
    buffer and serves any number of clients one after another, clients whose
    draws solve the puzzle for its root, survives all sessions; it makes 512
    messages in the first and none later: every client ends up with the same
    512 messages and a block for the same root, the root over the messages made
    from the server's first 1024 draws; that root is printed once per client, and
    each close hits the client it is meant for. *)
Theorem sessions_same_block fuel sockfd b vs ms :
  let root := minted_root (rng ms) in
  uninit_short -> wf ms -> heap ms !! b = Some (BPtrs (replicate CIRC_BUF_SIZE NULL)) ->
  (CIRC_BUF_SIZE <= fuel)%nat -> Forall (welcome fuel (rng ms)) vs -> vs <> [] ->
  exists sv m0 outs sv' ms' ids,
    event_loop_start sockfd (initial_server (Ptr b 0)) ms = Ok (sv, m0) /\ sessions fuel sockfd vs sv m0 = Ok (outs, (sv', ms')) /\
    length ids = CIRC_BUF_SIZE /\ ring_root (heap ms') ids = root /\
    Forall2 (fun v o => client_agrees (v_sh v) (heap ms') ids root o.1 o.2) vs outs /\
    printed sv' = replicate (length vs) root /\ closed sv' = v_fd <$> vs.
Proof.
  intros root Hun Hwf Hb Hf Hvs Hne. destruct (serving_start sockfd b ms Hwf Hb) as (sv & m0 & Hrun & id & ps & Hsv & _ & Hmd).
  destruct (sessions_spec Hun fuel sockfd Hf b (rng ms) vs 0 [] [id] sv m0 Hvs) as (outs & sv' & ms' & ids & Hs & _ & Hbt & Hl & Ha).
  { by exists ps, opening. }
  destruct Hbt as (ps' & L & Hsv' & _ & Hbl & Hsh & Hmd'). specialize (Hl Hne). pose proof (minted_ring_root _ _ _ Hmd' Hl) as Hroot. rewrite Hroot in Ha.
  exists sv, m0, outs, sv', ms', ids. split_and!; [done|done|done|done|done| |].
  - by rewrite (sv_printed _ _ _ _ _ _ Hsv'), Hbl, Hroot.
  - by rewrite (sv_shut _ _ _ _ _ _ Hsv'), Hsh.
Qed.

(** C33: a client that finishes cuts off the one accepted last.  When client
    [A] says ENOUGH to a server whose buffer is full and client [B] was
    accepted after it, the two turns that end [A]'s session close [B]'s
    descriptor; and the end of the stream, which is what [B] then receives,
    makes its thread dereference a null message. *)
Theorem finishing_cuts_off_latest fuel sockfd m s b ids ps L A B bytes msg c mc a bufs got :
  uninit_short -> serving m s b ids ps L -> length ids = CIRC_BUF_SIZE -> good_fd A -> latest L = B -> (CIRC_BUF_SIZE <= fuel)%nat ->
  ipc_message__unpack bytes = Some msg -> status_code msg = IPC_ENOUGH -> (0 < length bytes <= BUFFER_SIZE)%nat ->
  collecting mc c a bufs got ->
  wp (server_run fuel sockfd s
        [Cqe (make_request_data A (flag_num TEST_RESPONSE)) (Z.of_nat (length bytes)) bytes;
         Cqe (make_request_data A (flag_num FLAG_CLOSE_CONNECTION)) 0 []])
    (fun s' _ => closed s' = closed s ++ [B]) m /\
  client_turn fuel c [] mc = Fault NullDeref.
Proof.
  intros Hun Hsv Hl HA HB Hf Hu Hst Hlb Hco. split.
  - set (cs := [_; _]). pose proof (serving_run Hun fuel sockfd cs m s b ids ps L Hsv) as Hrun.
    assert (request_of <$> cs = [Enough A; Shut A]) as Hrq.
    { unfold cs. cbn [fmap list_fmap]. rewrite request_reply; [|exact HA|lia]. rewrite Hu. cbn [reply_request]. rewrite Hst.
      unfold request_of. cbn [cqe_user_data]. rewrite tag_flag, tag_fd by exact HA. reflexivity. }
    rewrite Hrq in Hrun. cbn [ledger_run ledger_step] in Hrun. rewrite (sv_made _ _ _ _ _ _ Hsv) in Hl. rewrite Hl in Hrun.
    change (CIRC_BUF_SIZE <? CIRC_BUF_SIZE)%nat with false in Hrun. cbn [mbind option_bind ledger_run ledger_step shut latest] in Hrun.
    eapply wp_mono; [apply Hrun; [|exact Hf]|].
    + repeat (apply Forall_cons; split); [by apply (Ev_reply A bytes HA Hlb)|by apply (Ev_done A _ _ _ HA)|by apply Forall_nil].
    + intros s' m' (ids' & ps' & _ & _ & Hs'). rewrite (sv_shut _ _ _ _ _ _ Hs'). cbn [shut]. by rewrite (sv_shut _ _ _ _ _ _ Hsv), HB.
  - destruct Hco as [_ _ _ _ _ Hcq Hfl]. unfold client_turn. rewrite Hfl, Hcq, Nat.eqb_refl. cbn [negb Z.eqb]. cbn [length Z.of_nat Z.to_nat].
    rewrite take_0. apply bind_fault. unfold read_response_ONLY_STATUS. by rewrite ipc_unpack_nil.
Qed.
End claims.

(** ** The claims at work *)

(** Two clients on the same descriptor, one after the other. *)
Definition guests : list visitor := [Visitor 5 4 no_block empty_mem; Visitor 5 7 no_block empty_mem].

Lemma guests_welcome : Forall (welcome (sod:=Toy.prefixing) 512 0) guests.
Proof.
  assert (welcome (sod:=Toy.prefixing) 512 0 (Visitor 5 4 no_block empty_mem)) as H
    by (split_and!; [exact good_5|exact empty_mem_wf|apply prefix_solvable]).
  apply Forall_cons. split; [exact H|]. apply Forall_cons. split; [exact H|]. by apply Forall_nil.
Qed.

Lemma sessions_same_block_witness :
  exists sv m0 outs sv' ms', let root := minted_root (sod:=Toy.prefixing) 0 in
    event_loop_start (sod:=Toy.prefixing) (clk:=Toy.toy_clock) 3 (initial_server (Ptr 1 0)) empty_ring_mem = Ok (sv, m0) /\
    sessions (sod:=Toy.prefixing) (clk:=Toy.toy_clock) (pb:=Wire.proto2) (un:=quiet) 512 3 guests sv m0 = Ok (outs, (sv', ms')) /\
    printed sv' = [root; root] /\ closed sv' = [5; 5].
Proof.
  destruct (sessions_same_block (sod:=Toy.prefixing) (clk:=Toy.toy_clock) (pb:=Wire.proto2) (un:=quiet) (ok:=Toy.prefixing_ok)
    (pbok:=Wire.proto2_ok) 512 3 1 guests empty_ring_mem quiet_short empty_ring_wf eq_refl (le_n _) guests_welcome)
    as (sv & m0 & outs & sv' & ms' & ids & H1 & H2 & _ & _ & _ & Hp & Hc); [discriminate|].
  exists sv, m0, outs, sv', ms'. split; [exact H1|]. split; [exact H2|]. split; [exact Hp|exact Hc].
Defined.

(** A full buffer, client 6 accepted last and collecting, client 5 finishes. *)
Lemma finishing_cuts_off_latest_witness :
  wp (full_then (fun s => server_run (sod:=Toy.mixing) (clk:=Toy.toy_clock) (pb:=Wire.proto2) (un:=quiet) 512 3 (set_current 6 s)
        [Cqe (make_request_data 5 (flag_num TEST_RESPONSE)) (Z.of_nat (length enough)) enough;
         Cqe (make_request_data 5 (flag_num FLAG_CLOSE_CONNECTION)) 0 []]))
    (fun s' _ => closed s' = [6]) empty_ring_mem /\
  exists c mc, client_start 4 no_block empty_mem = Ok (c, mc) /\
    client_turn (sod:=Toy.mixing) (clk:=Toy.toy_clock) (pb:=Wire.proto2) 512 c [] mc = Fault NullDeref.
Proof.
  destruct (client_start_spec 4 no_block empty_mem empty_mem_wf) as (c & mc & Hrun & a & bufs & Hsl & Hwf & _ & _ & _ & _ & Hc).
  assert (collecting mc c a bufs []) as Hco by (subst c; split; try exact Hwf; try exact Hsl; try reflexivity; cbn; lia).
  assert (forall m ids ps, serving (sod:=Toy.mixing) (pb:=Wire.proto2) m (set_CBUF (ring 1 512) (initial_server (Ptr 1 0))) 1 ids ps (idle 512) ->
     length ids = CIRC_BUF_SIZE ->
     wp (server_run (sod:=Toy.mixing) (clk:=Toy.toy_clock) (pb:=Wire.proto2) (un:=quiet) 512 3
           (set_current 6 (set_CBUF (ring 1 512) (initial_server (Ptr 1 0))))
        [Cqe (make_request_data 5 (flag_num TEST_RESPONSE)) (Z.of_nat (length enough)) enough;
         Cqe (make_request_data 5 (flag_num FLAG_CLOSE_CONNECTION)) 0 []]) (fun s' _ => closed s' = [6]) m /\
     client_turn (sod:=Toy.mixing) (clk:=Toy.toy_clock) (pb:=Wire.proto2) 512 c [] mc = Fault NullDeref) as Hall.
  { intros m ids ps Hsv Hl.
    refine (finishing_cuts_off_latest (sod:=Toy.mixing) (clk:=Toy.toy_clock) (pb:=Wire.proto2) (un:=quiet) (ok:=Toy.mixing_ok) (pbok:=Wire.proto2_ok)
      512 3 m (set_current 6 (set_CBUF (ring 1 512) (initial_server (Ptr 1 0)))) 1 ids ps (Ledger ∅ ∅ 512 0 6 []) 5 6 enough
      (MkIpcMessage None None [x30] 7 IPC_ENOUGH) c mc a bufs [] quiet_short _ Hl good_5 eq_refl (le_n _) _ eq_refl _ Hco).
    - apply (serving_frame (sod:=Toy.mixing) (pb:=Wire.proto2) m m _ _ 1 ids ps (idle 512) _ [] Hsv); try reflexivity. by repeat split.
    - by vm_compute.
    - vm_compute length. unfold BUFFER_SIZE. lia. }
  split.
  - apply full_then_spec. intros m ids ps Hsv Hl. exact (proj1 (Hall m ids ps Hsv Hl)).
  - exists c, mc. split; [exact Hrun|].
    destruct (full_then_spec (fun _ => mret ()) (fun _ _ => client_turn (sod:=Toy.mixing) (clk:=Toy.toy_clock) (pb:=Wire.proto2) 512 c [] mc = Fault NullDeref))
      as (u & m' & _ & H); [|exact H]. intros m ids ps Hsv Hl. apply wp_ret. exact (proj2 (Hall m ids ps Hsv Hl)).
Defined.
