(* ===== verification/Threads.v ===== *)
(** * One client's threads on one heap

    A client process runs three threads: the message thread (setup_client.c),
    the offering thread (p2p_event_loop.c) and the asking thread (p2p_listen.c).
    Here they run interleaved, turn by turn, on one memory and one set of
    globals, with the message server, any number of neighbours that ask this
    node for its block, and the neighbour this node asks.  Nothing stands for
    the publication of the block: it is what the message thread's last turn
    does.

    A turn is a step of its own: threads share the heap, where each uses only
    blocks it allocated, and the published block's buffer, which the offering
    thread reads only when it finds the mutex free and the message thread writes
    only while it holds it. *)

From S2P Require Import Prelude.
From S2P Require Import CTypes.
From S2P Require Import Memory.
From S2P Require Import Platform.
From S2P Require Import Misc.
From S2P Require Import Accounts.
From S2P Require Import BlockData.
From S2P Require Import BlockProcess.
From S2P Require Import RequestData.
From S2P Require Import Codec.
From S2P Require Import CircBuf.
From S2P Require Import Dump.
From S2P Require Import ClientIpc.
From S2P Require Import Server.
From S2P Require Import Ledger.
From S2P Require Import Serving.
From S2P Require Import Client.
From S2P Require Import P2P.
From S2P Require Import Peers.
From S2P Require Import Neighbours.
From S2P Require Import Session.

(** The neighbour this node asks: its offering thread, memory and globals, the
    bytes to this node and from it. *)
Record far := Far { fr_peer : peer; fr_mem : mem; fr_sh : shared; fr_to : list (list byte); fr_from : list (list byte) }.

(** The process: server and message thread ([sy_mc] is the memory of the whole
    process, [sh (sy_c)] its globals), the offering thread and the neighbours it
    serves, the asking thread and the neighbour it asks. *)
Record process := Process {
  ps_sys : system;
  ps_peer : peer;
  ps_nbs : gmap Z neighbour;
  ps_list : listener;
  ps_far : far }.

(** What the offering thread and its neighbours, and what the asking thread and
    the node it asks, see of the process. *)
Definition offer_view (n : process) : world :=
  World (ps_peer n) (sy_mc (ps_sys n)) (ps_nbs n) (sh (sy_c (ps_sys n))).
Definition ask_view (n : process) : net :=
  Net (fr_peer (ps_far n)) (ps_list n) (fr_mem (ps_far n)) (sy_mc (ps_sys n)) (fr_to (ps_far n)) (fr_from (ps_far n)) (fr_sh (ps_far n)).

Definition set_mc (m : mem) (y : system) : system := System (sy_s y) (sy_ms y) (sy_c y) m.

(** An exchange of the message thread with the server, an event of the offering
    thread or its neighbours, an event of the asking thread or the node it asks. *)
Inductive tev := Serve | Offer (ev : wev) | Ask (e : nev).

Section code.
Context {sod : Sodium} {clk : Clock} {pb : Protobuf} {un : Uninit} {st : Stray} {rd : Reading}.
Context (fuel : nat) (sockfd fd psock fsock : Z) (fpub : shared).

Definition process_do (ev : tev) (n : process) : option (res process) :=
  match ev with
  | Serve =>
      if flag_block_filled (sy_c (ps_sys n)) =? 0 then
        Some (rbind (exchange fuel sockfd fd (ps_sys n)) (fun y => Ok (Process y (ps_peer n) (ps_nbs n) (ps_list n) (ps_far n))))
      else None
  | Offer Unlock => None
  | Offer ev =>
      r ← world_do psock (sh (sy_c (ps_sys n))) ev (offer_view n);
      Some (rbind r (fun w => Ok (Process (set_mc (w_mem w) (ps_sys n)) (w_peer w) (w_nbs w) (ps_list n) (ps_far n))))
  | Ask e =>
      r ← net_do fsock fpub e (ask_view n);
      Some (rbind r (fun a => Ok (Process (set_mc (n_ml a) (ps_sys n)) (ps_peer n) (ps_nbs n) (n_list a)
                                    (Far (n_peer a) (n_mp a) (n_sh a) (n_pl a) (n_lp a)))))
  end.

Fixpoint process_run (es : list tev) (n : process) : option (res process) :=
  match es with
  | [] => Some (Ok n)
  | e :: es =>
      match process_do e n with
      | Some (Ok n) => process_run es n
      | o => o
      end
  end.

(** The message thread is connected; so is the asking thread, on descriptor
    [ffd] of the node it asks and [q] of its own. *)
Definition process_start (s : Z) (ring_data_buf : ptr) (sh0 : shared) (ms mc : mem) (ffd q : Z) (flocked : shared) (fmem : mem) : res process :=
  rbind (connect fuel sockfd fd s ring_data_buf sh0 ms mc) (fun y =>
  rbind (net_init fsock ffd q flocked fmem (sy_mc y)) (fun a =>
  Ok (Process y (peer_start psock) ∅ (n_list a) (Far (n_peer a) (n_mp a) (n_sh a) [] [])))).
End code.

(** ** What a turn of a peer-to-peer thread leaves of the heap *)

(** [c] writes no block below [n] and draws no random bytes. *)
Definition above (n : positive) {A} (c : M A) : Prop :=
  forall m a m', wf m -> (n <= next m)%positive -> c m = Ok (a, m') ->
    wf m' /\ (next m <= next m')%positive /\ rng m' = rng m /\ forall x, (x < n)%positive -> heap m' !! x = heap m !! x.

Lemma above_keeps {A} (c : M A) m a m' :
  wf m -> above (next m) c -> c m = Ok (a, m') -> keeps [] m m' /\ rng m' = rng m.
Proof. intros Hwf Hc Hr. destruct (Hc m a m' Hwf (Pos.le_refl _) Hr) as (H1 & H2 & H3 & H4). split; [|done]. split; auto. Qed.

Section above.
Context {sod : Sodium} {clk : Clock} {pb : Protobuf} {st : Stray} {rd : Reading}.
Context (n : positive).

Lemma above_ret {A} (a : A) : above n (mret a).
Proof. intros m b m' Hwf _ [= <- <-]. split_and!; done. Qed.

Lemma above_fail {A} f : above n (fail (A:=A) f).
Proof. intros m b m' _ _ [=]. Qed.

Lemma above_bind {A B} (c : M A) (k : A -> M B) : above n c -> (forall a, above n (k a)) -> above n (c ≫= k).
Proof.
  intros Hc Hk m b m' Hwf Hn H. unfold mbind, M_bind in H. destruct (c m) as [[a m1]| | |] eqn:Hr; try done.
  destruct (Hc _ _ _ Hwf Hn Hr) as (H1 & H2 & H3 & H4). destruct (Hk a m1 b m' H1 ltac:(lia) H) as (K1 & K2 & K3 & K4).
  split_and!; [done|lia|congruence|]. intros x Hx. by rewrite K4, H4.
Qed.

Lemma above_tick {A} (f : nat -> A) : above n (tick f).
Proof. intros m a m' Hwf _ [= <- <-]. split_and!; try done; lia. Qed.

Lemma above_load {A} `{Storable A} p : above n (load (A:=A) p).
Proof. intros m a m' Hwf _ Hr. apply load_same in Hr as ->. split_and!; try done; lia. Qed.

Lemma above_lift {A} (r : res A) : above n (lift_res r).
Proof. intros m a m' Hwf _ Hr. unfold lift_res in Hr. destruct r; try done. injection Hr as <- <-. split_and!; try done; lia. Qed.

(** A fresh block may be written. *)
Lemma above_calloc_bind {A B} `{Storable A} z (a : A) (k : ptr -> M B) :
  (forall b, (n <= b)%positive -> above n (k (Ptr b 0))) -> above n (calloc z a ≫= k).
Proof.
  intros Hk m b m' Hwf Hn Hr. unfold calloc, alloc, mbind, M_bind in Hr. cbn [to_block] in Hr.
  destruct (Hk (next m) Hn _ _ _ (wf_alloc _ _ Hwf) (ltac:(cbn; lia)) Hr) as (H1 & H2 & H3 & H4). cbn [next rng heap] in *.
  split_and!; [done|lia|done|]. intros x Hx. rewrite H4, lookup_insert_ne by lia. done.
Qed.

Lemma above_update {A} `{Storable A} b i (f : A -> A) : (n <= b)%positive -> above n (update (Ptr b i) f).
Proof.
  intros Hb. unfold update. apply above_bind; [apply above_load|]. intros a m [] m' Hwf Hn Hr. unfold store, block_at in Hr.
  destruct (heap m !! b) as [blk|] eqn:Hh; [|done]. destruct (of_block blk) as [l|]; [|done]. destruct (zlookup l i); [|done].
  injection Hr as <-. cbn [next rng heap]. split_and!; [|lia|done|].
  - pose proof (wf_lt _ _ _ Hwf Hh). intros x Hx. cbn [next heap] in *. rewrite lookup_insert_ne by lia. by apply Hwf.
  - intros x Hx. by rewrite lookup_insert_ne by lia.
Qed.

Lemma above_copy_field b k data get set : (n <= b)%positive -> above n (copy_field (Ptr b 0) k data get set).
Proof. intros Hb. unfold copy_field. destruct (_ <=? _)%nat; [by apply above_update|apply above_fail]. Qed.
End above.

Create HintDb above.
#[export] Hint Resolve above_ret above_fail above_tick above_load above_lift above_update above_copy_field : above.

(** Follows the code: binds, tests, and the primitives above. *)
Ltac above :=
  repeat first
    [ solve [eauto with above]
    | apply above_bind; [|intros ?]
    | match goal with |- above _ (match ?x with _ => _ end) => destruct x end ].

Section turns.
Context {sod : Sodium} {clk : Clock} {pb : Protobuf} {st : Stray} {rd : Reading}.
Context (n : positive).

Lemma above_send_status fd STATUS STATE s : above n (P2Pser_send_STATUS s fd STATUS STATE).
Proof. unfold P2Pser_send_STATUS, p2p_slot, P2P_send_status. above. Qed.

Lemma above_send_block shr s fd : above n (P2Pser_send_block shr s fd).
Proof. unfold P2Pser_send_block, p2p_slot. above. Qed.

Lemma above_read_status s fd : above n (P2P_read_status_response s fd).
Proof. unfold P2P_read_status_response, p2p_slot. above. Qed.

Lemma above_deserialize_status b : above n (P2P_deserialize_STATUS b).
Proof. unfold P2P_deserialize_STATUS. above. Qed.

Lemma above_cl_send l fd STATUS STATE : above n (cl_p2p_send_STATUS l fd STATUS STATE).
Proof. unfold cl_p2p_send_STATUS, P2P_send_status. above. Qed.

Lemma above_deserialize_block b : above n (deserialize_block b).
Proof. unfold deserialize_block. apply above_calloc_bind. intros x Hx. above. Qed.

Lemma above_print p : above n (print_block_data p).
Proof. unfold print_block_data, DumpHex_field. above. Qed.
End turns.

#[export] Hint Resolve above_send_status above_send_block above_read_status above_deserialize_status above_cl_send
  above_deserialize_block above_print : above.

Section views.
Context {sod : Sodium} {clk : Clock} {pb : Protobuf} {st : Stray} {rd : Reading}.

Lemma above_peer_turn n sockfd shr s c : above n (peer_turn false sockfd shr s c).
Proof. unfold peer_turn, P2P_send_PING, p2p_slot. above. Qed.

Lemma above_listener_turn n l c : above n (listener_turn false l c).
Proof. unfold listener_turn. above. Qed.

Lemma keeps_refl B m : wf m -> keeps B m m.
Proof. by intros; apply keeps_ticked. Qed.

(** An event of the offering side leaves the process's memory to the others. *)
Lemma world_do_keeps sockfd pub ev w w' :
  wf (w_mem w) -> world_do sockfd pub ev w = Some (Ok w') -> ev <> Unlock ->
  keeps [] (w_mem w) (w_mem w') /\ rng (w_mem w') = rng (w_mem w) /\ w_sh w' = w_sh w.
Proof.
  intros Hwf Hdo Hev.
  assert (forall fd x rest res bytes nb, peer_side sockfd w fd x rest res bytes nb = Ok w' ->
    keeps [] (w_mem w) (w_mem w') /\ rng (w_mem w') = rng (w_mem w) /\ w_sh w' = w_sh w) as Hp.
  { intros fd x rest res bytes nb H. unfold peer_side in H.
    destruct (peer_turn _ _ _ _ _ _) as [[s m]| | |] eqn:Hr; try done. injection H as <-.
    destruct (above_keeps _ _ _ _ Hwf (above_peer_turn _ _ _ _ _) Hr). done. }
  assert (forall fd nb x rest res bytes to from, nb_side w fd nb x rest res bytes to from = Ok w' ->
    keeps [] (w_mem w) (w_mem w') /\ rng (w_mem w') = rng (w_mem w) /\ w_sh w' = w_sh w) as Hl.
  { intros fd nb x rest res bytes to from H. unfold nb_side in H.
    destruct (listener_turn _ _ _ _) as [[s m]| | |] eqn:Hr; try done. injection H as <-. split; [by apply keeps_refl|done]. }
  destruct ev as [fd e|fd q ml|]; [| |done]; cbn [world_do] in Hdo; destruct (w_nbs w !! fd) as [nb|]; try done; cbn [mbind option_bind] in Hdo.
  - destruct e; try done; destruct (take_op _ _) as [[x rest]|]; try done; cbn [mbind option_bind] in Hdo.
    + injection Hdo as Hdo. by eapply Hp.
    + destruct (nb_from nb); [done|]. injection Hdo as Hdo. by eapply Hp.
    + injection Hdo as Hdo. by eapply Hl.
    + destruct (nb_to nb); [done|]. injection Hdo as Hdo. by eapply Hl.
  - destruct (take_op _ _) as [[x rest]|]; [|done]. injection Hdo as Hdo. by eapply Hp.
Qed.

(** Who arrives is there. *)
Lemma arrive_joins sockfd pub fd q ml w w' :
  world_do sockfd pub (Arrive fd q ml) w = Some (Ok w') ->
  w_nbs w !! fd = None /\ w_nbs w' = <[fd := Nb (listener_start q) ml [] []]> (w_nbs w).
Proof.
  cbn [world_do]. destruct (w_nbs w !! fd); [done|]. destruct (take_op _ _) as [[x rest]|]; [|done]. cbn [mbind option_bind]. unfold peer_side.
  destruct (peer_turn _ _ _ _ _ _) as [[s m]| | |]; try done. by intros [= <-].
Qed.

Lemma process_arrive {un : Uninit} fuel sockfd fd psock fsock fpub fd' q ml n n' :
  process_do fuel sockfd fd psock fsock fpub (Offer (Arrive fd' q ml)) n = Some (Ok n') ->
  ps_nbs n' !! fd' = Some (Nb (listener_start q) ml [] []).
Proof.
  unfold process_do. destruct (world_do _ _ _ _) as [[w| | |]|] eqn:Hw; try done. cbn [mbind option_bind rbind]. intros [= <-].
  cbn [ps_nbs]. destruct (arrive_joins _ _ _ _ _ _ _ Hw) as [_ ->]. apply lookup_insert_eq.
Qed.

(** So does an event of the asking side. *)
Lemma net_do_keeps sockfd pub e n n' :
  wf (n_ml n) -> net_do sockfd pub e n = Some (Ok n') -> keeps [] (n_ml n) (n_ml n') /\ rng (n_ml n') = rng (n_ml n).
Proof.
  intros Hwf Hdo.
  assert (forall x rest res bytes pl lp, peer_done sockfd n x rest res bytes pl lp = Ok n' -> n_ml n' = n_ml n) as Hp.
  { intros x rest res bytes pl lp H. unfold peer_done, run_turn in H. destruct (peer_turn _ _ _ _ _ _) as [[s m]| | |]; try done. by injection H as <-. }
  assert (forall x rest res bytes pl lp, list_done n x rest res bytes pl lp = Ok n' ->
    keeps [] (n_ml n) (n_ml n') /\ rng (n_ml n') = rng (n_ml n)) as Hl.
  { intros x rest res bytes pl lp H. unfold list_done, run_turn in H. destruct (listener_turn _ _ _ _) as [[s m]| | |] eqn:Hr; try done.
    injection H as <-. by apply (above_keeps _ _ _ _ Hwf (above_listener_turn _ _ _) Hr). }
  destruct e; cbn [net_do] in Hdo; try (destruct (take_op _ _) as [[x rest]|]; [|done]; cbn [mbind option_bind] in Hdo).
  - injection Hdo as Hdo. rewrite (Hp _ _ _ _ _ _ Hdo). split; [by apply keeps_refl|done].
  - destruct (n_lp n); [done|]. injection Hdo as Hdo. rewrite (Hp _ _ _ _ _ _ Hdo). split; [by apply keeps_refl|done].
  - injection Hdo as Hdo. by eapply Hl.
  - destruct (n_pl n); [done|]. injection Hdo as Hdo. by eapply Hl.
  - destruct (block_created_mtx (n_sh n)); [|done]. injection Hdo as <-. split; [by apply keeps_refl|done].
Qed.
End views.

(** ** The block of a session *)
Section made.
Context {sod : Sodium} {clk : Clock} {pb : Protobuf} {st : Stray} {rd : Reading} {ok : SodiumOk sod} {pbok : ProtobufOk pb}.

(** The globals a session leaves are a published block. *)
Lemma unlocked_published sh0 root i t :
  length (buffer_BLOCK_DATA sh0) = P2P_BUFFER_SIZE ->
  published (unlocked sh0 (p2p__ipc_message__pack (block_msg (made_block root i t) (made_date t)))) (made_block root i t) (made_date t).
Proof.
  intros Hl. pose proof (made_block_ok root i t) as Hb. pose proof (serialize_block_size _ _ Hb) as Hs.
  split; [done| |done|].
  - split; [|cbn [unlocked block_written_size]; lia]. cbn [unlocked buffer_BLOCK_DATA]. unfold overwrite.
    rewrite take_0, !length_app, length_drop. cbn [length]. lia.
  - cbn [unlocked buffer_BLOCK_DATA block_written_size]. rewrite Nat2Z.id. apply take_overwrite0.
Qed.
(** The asking thread [l] holds one block, in memory [m], and it commits to
    [root]: its root field is the hash of [root], its nonce solves the puzzle of
    three zero bytes for [root]. *)
Definition holds_for (root : list byte) (l : listener) (m : mem) : Prop :=
  exists x blk, ls_blocks l = [Ptr x 0] /\ heap m !! x = Some (BBlks [blk]) /\
    bl_merkle_root blk = crypto_generichash root /\ take 3 (crypto_generichash (bl_nonce blk ++ root)) = zeros 3.

Lemma received_made_holds root i t l m x :
  solves root 3 i -> ls_blocks l = [Ptr x 0] -> heap m !! x = Some (BBlks [received_block (made_block root i t) (made_date t)]) ->
  holds_for root l m.
Proof. intros Hs Hl Hx. by exists x, (received_block (made_block root i t) (made_date t)). Qed.

End made.

(** ** Where the message thread stands *)
Section stages.
Context {sod : Sodium} {clk : Clock} {pb : Protobuf} {un : Uninit} {ok : SodiumOk sod} {pbok : ProtobufOk pb}.
Context (Hun : uninit_short) (sh0 : shared) (q : nat) (cl : list Z) (r : nat) (fd : Z) (b : positive) (r0 : nat).

(** After [j] exchanges: message [j/2] is asked for or on its way, or the block is
    made.  The server has made the messages [ids]. *)
Inductive stage : list (positive * positive) -> nat -> system -> Prop :=
| St_asking y ids k a bufs : asking sh0 q cl r y fd b ids k r0 a bufs -> (k < CIRC_BUF_SIZE)%nat -> stage ids (2 * k) y
| St_offering y ids k a bufs : offering sh0 q cl r y fd b ids k r0 a bufs -> (k < CIRC_BUF_SIZE)%nat -> stage ids (2 * k + 1) y
| St_done y ids ps L : wf (sy_mc y) -> flag_block_filled (sy_c y) = 1 -> agreed_on sh0 q ids y ->
    serving (sy_ms y) (sy_s y) b ids ps L -> (forall fd', count L fd' = 0%nat) -> blocks L = S q -> latest L = fd -> shut L = cl -> minted r (sy_ms y) ids ->
    stage ids 1024 y.

Lemma stage_bound ids j y : stage ids j y -> (j <= 1024)%nat.
Proof. destruct 1; unfold CIRC_BUF_SIZE in *; lia. Qed.

Lemma stage_wf ids j y : stage ids j y -> wf (sy_mc y).
Proof.
  destruct 1 as [y ids k a bufs (t & H) _|y ids k a bufs (id & t & _ & H) _|]; [..|done]; exact (co_wf _ _ _ _ _ (ro_client _ _ _ _ _ _ _ _ _ _ _ _ _ _ H)).
Qed.

Lemma stage_serving ids j y : stage ids j y -> exists ps L, serving (sy_ms y) (sy_s y) b ids ps L.
Proof.
  destruct 1 as [y ids k a bufs (t & H) _|y ids k a bufs (id & t & _ & H) _|]; [..|by do 2 eexists];
    destruct (ro_serving _ _ _ _ _ _ _ _ _ _ _ _ _ _ H) as (ps & L & Hsv & _); by exists ps, L.
Qed.

Lemma stage_minted ids j y : stage ids j y -> minted r (sy_ms y) ids.
Proof.
  destruct 1 as [y ids k a bufs (t & H) _|y ids k a bufs (id & t & _ & H) _|]; [..|done];
    destruct (ro_serving _ _ _ _ _ _ _ _ _ _ _ _ _ _ H) as (ps & L & _ & Hc); naive_solver.
Qed.

(** The loop still receives exactly until the block is made. *)
Lemma stage_filled ids j y : stage ids j y -> (flag_block_filled (sy_c y) =? 0) = bool_decide (j < 1024)%nat.
Proof.
  destruct 1 as [y ids k a bufs (t & H) Hk|y ids k a bufs (id & t & _ & H) Hk|y ids ps L _ H]; unfold CIRC_BUF_SIZE in *.
  1,2: rewrite (co_filled _ _ _ _ _ (ro_client _ _ _ _ _ _ _ _ _ _ _ _ _ _ H)), bool_decide_true; [done|lia].
  by rewrite H.
Qed.

(** The mutex is held exactly until then. *)
Lemma stage_locked ids j y : stage ids j y -> (j < 1024)%nat -> sh (sy_c y) = locked sh0.
Proof.
  destruct 1 as [y ids k a bufs (t & H) _|y ids k a bufs (id & t & _ & H) _|]; intros Hj; [..|lia]; exact (ro_shared _ _ _ _ _ _ _ _ _ _ _ _ _ _ H).
Qed.

Lemma stage_final ids j y : stage ids j y -> (1024 <= j)%nat -> agreed_on sh0 q ids y.
Proof. destruct 1; unfold CIRC_BUF_SIZE in *; [lia..|done]. Qed.

Lemma stage_closing ids j y :
  stage ids j y -> (1024 <= j)%nat ->
  exists ps L, serving (sy_ms y) (sy_s y) b ids ps L /\ (forall fd', count L fd' = 0%nat) /\ blocks L = S q /\ latest L = fd /\ shut L = cl /\ minted r (sy_ms y) ids.
Proof. destruct 1 as [| |y ids ps L]; unfold CIRC_BUF_SIZE in *; [lia..|]. intros _. by exists ps, L. Qed.

(** Once the block is made, the root is that of the server's messages. *)
Lemma stage_root ids j y : stage ids j y -> (1024 <= j)%nat -> ring_root (heap (sy_ms y)) ids = minted_root r.
Proof.
  intros Hst Hj. destruct (stage_final _ _ _ Hst Hj) as [Hl _]. destruct (stage_closing _ _ _ Hst Hj) as (ps & L & _ & _ & _ & _ & _ & Hmd).
  by apply minted_ring_root.
Qed.

(** A message slot is not a block. *)
Lemma slots_not_block m a bufs got x blks : slots m a bufs got -> heap m !! x = Some (BBlks blks) -> x ∉ a :: bufs.
Proof.
  intros Hs Hx [->|[i Hi]%list_elem_of_lookup]%elem_of_cons.
  - destruct (sl_arr _ _ _ _ Hs) as (sms & Ha & _). congruence.
  - destruct (sl_buf _ _ _ _ Hs i x Hi) as (l & Hl & _). congruence.
Qed.

(** Every decoded block of [m] is in [m']. *)
Definition spares (m m' : mem) : Prop := forall x blks, heap m !! x = Some (BBlks blks) -> heap m' !! x = Some (BBlks blks).

Lemma keeps_spares m m' : wf m -> keeps [] m m' -> spares m m'.
Proof. intros Hwf Hk x blks Hx. eapply keeps_live; [exact Hwf|exact Hk|apply not_elem_of_nil|exact Hx]. Qed.

Lemma slots_spares m m' a bufs got : wf m -> slots m a bufs got -> keeps (a :: bufs) m m' -> spares m m'.
Proof. intros Hwf Hsl Hk x blks Hx. eapply keeps_live; [done|exact Hk| |done]. by eapply slots_not_block. Qed.

(** An exchange brings the next stage and spares the blocks of other threads. *)
Lemma stage_exchange fuel sockfd ids j y :
  stage ids j y -> (j < 1024)%nat -> good_fd fd -> (CIRC_BUF_SIZE <= fuel)%nat -> solvable fuel r0 (minted_root r) ->
  exists y' ids', exchange fuel sockfd fd y = Ok y' /\ later b ids (sy_ms y) ids' (sy_ms y') /\ stage ids' (S j) y' /\ spares (sy_mc y) (sy_mc y').
Proof.
  intros Hst Hj Hfd Hf Hsol. pose proof (stage_wf _ _ _ Hst) as Hwf.
  destruct Hst as [y ids k a bufs Ha Hk|y ids k a bufs Ho Hk|]; [..|lia].
  - pose proof Ha as (t & H). pose proof (co_slots _ _ _ _ _ (ro_client _ _ _ _ _ _ _ _ _ _ _ _ _ _ H)) as Hsl.
    destruct (exchange_ask Hun sh0 q cl r fuel sockfd fd y b ids k r0 a bufs Ha Hfd Hk Hf) as (y' & He & Hkp & ids' & Hl & Ho).
    exists y', ids'. split_and!; [done|done| |by eapply slots_spares]. replace (S (2 * k)) with (2 * k + 1)%nat by lia. by eapply St_offering.
  - pose proof Ho as (id & t & _ & H). pose proof (co_slots _ _ _ _ _ (ro_client _ _ _ _ _ _ _ _ _ _ _ _ _ _ H)) as Hsl.
    destruct (decide (k = 511%nat)) as [->|Hne].
    + destruct (exchange_last sh0 q cl r fuel sockfd fd y b ids r0 a bufs Ho Hfd Hsol) as (y' & He & Hkp & Hfl & ids' & ps & L & Hl & Hag & Hsv & Hc & Hbl & Hla & Hsh & Hmd).
      exists y', ids'. split_and!; [done|done| |by eapply slots_spares]. by eapply (St_done y' ids' ps L); [exact (kp_wf _ _ _ Hkp)|..].
    + assert (S k < CIRC_BUF_SIZE)%nat as HSk by (unfold CIRC_BUF_SIZE in *; lia).
      destruct (exchange_data Hun sh0 q cl r fuel sockfd fd y b ids k r0 a bufs Ho Hfd HSk) as (y' & He & Hkp & Hl & Ha).
      exists y', ids. split_and!; [done|done| |by eapply slots_spares]. replace (S (2 * k + 1)) with (2 * S k)%nat by lia. by eapply St_asking.
Qed.

(** Turns of the other threads do not disturb the message thread. *)
Lemma collecting_keeps m m' c a bufs got : collecting m c a bufs got -> keeps [] m m' -> collecting m' c a bufs got.
Proof.
  intros [Hwf Hsl Hc Hlt Ha Hcq Hfl] Hk. split; try done; [exact (kp_wf _ _ _ Hk)|]. eapply slots_frame; [exact Hsl|].
  intros x [v Hv]%(slots_live _ _ _ _ _ Hsl). rewrite Hv. eapply keeps_live; [done|exact Hk|apply not_elem_of_nil|done].
Qed.

Lemma round_keeps y k n ids a bufs bytes m' :
  round sh0 q cl r y fd b ids k n r0 a bufs bytes -> keeps [] (sy_mc y) m' -> rng m' = rng (sy_mc y) ->
  round sh0 q cl r (set_mc m' y) fd b ids k n r0 a bufs bytes.
Proof. intros [H1 H2 H3 H4 H5] Hk Hr. split; [done|done|by eapply collecting_keeps|cbn; congruence|done]. Qed.

Lemma client_agrees_keeps h ids root c m m' :
  wf m -> client_agrees sh0 h ids root c m -> keeps [] m m' -> client_agrees sh0 h ids root c m'.
Proof.
  intros Hwf (i & t & Hm & Hb & Hs & Hv & Hsh) Hk.
  assert (forall x, (x < next m)%positive -> heap m' !! x = heap m !! x) as Hold
    by (intros x Hx; apply (kp_old _ _ _ Hk); [done|apply not_elem_of_nil]).
  exists i, t. split_and!; [|by eapply load_old|done|done|done].
  intros j id Hj. destruct (Hm j id Hj) as (Hr & sm & Hsm & Hkey). split; [done|]. exists sm. split; [|done]. by eapply msg_at_old.
Qed.

Lemma stage_keeps ids j y m' : stage ids j y -> keeps [] (sy_mc y) m' -> rng m' = rng (sy_mc y) -> stage ids j (set_mc m' y).
Proof.
  intros Hst Hk Hr. destruct Hst as [y ids k a bufs (t & H) Hlt|y ids k a bufs (id & t & Hid & H) Hlt|y ids ps L Hwf Hfl (H1 & H2 & H3) H4 H5 H6 H7 H8 H9].
  - eapply (St_asking _ ids k a bufs); [|done]. exists t. by apply round_keeps.
  - eapply (St_offering _ ids k a bufs); [|done]. exists id, t. split; [done|]. by apply round_keeps.
  - apply (St_done _ ids ps L); try done; [exact (kp_wf _ _ _ Hk)|]. split_and!; [done|done|]. by eapply client_agrees_keeps.
Qed.
End stages.

(** ** The offering side, whatever will be published *)
Section offered.
Context {sod : Sodium} {clk : Clock} {pb : Protobuf} {st : Stray} {rd : Reading} {ok : SodiumOk sod} {pbok : ProtobufOk pb}.
Context (psock : Z) (Hfi : reading = exchanged).

(** A block that is published, or that may be. *)
Definition possible (shr pub : shared) (blk : block_t) (date : list byte) : Prop :=
  published pub blk date /\ (shr = pub \/ block_created_mtx shr = true).

(** The invariant of Neighbours.v for each of them. *)
Definition offered (w : world) : Prop := forall pub blk date, possible (w_sh w) pub blk date -> winv psock pub blk date w.

Lemma offered_start shr m : block_created_mtx shr = true -> offered (World (peer_start psock) m ∅ shr).
Proof. intros Hlk pub blk date _. by apply winv_start. Qed.

(** The process's own memory is no part of what the phases say. *)
Lemma winv_mem pub blk date s m m' nbs shr : winv psock pub blk date (World s m nbs shr) -> winv psock pub blk date (World s m' nbs shr).
Proof.
  intros Hw. split; [|exact (wi_none _ _ _ _ _ Hw)|exact (wi_accept _ _ _ _ _ Hw)|exact (wi_sh _ _ _ _ _ Hw)].
  intros fd' nb H. destruct (wi_nb _ _ _ _ _ Hw fd' nb H) as [p Hp]. exists p. by eapply stands_cong.
Qed.

(** Of an asking thread's memory it is the received block. *)
Lemma at_phase_spares pub fd q blk date p pr l mp ml ml' pl lp shr :
  spares ml ml' ->
  at_phase psock pub fd q blk date p (Net pr l mp ml pl lp shr) -> at_phase psock pub fd q blk date p (Net pr l mp ml' pl lp shr).
Proof.
  intros Hkeep. destruct p as [z|z|z|z| |[]|[]]; try exact (fun H => H); intros H; cbn [at_phase] in *.
  - destruct H as (x & H1 & H2 & (H3 & y & H4 & H5) & H6). exists x. split_and!; [done|done| |done]. split; [done|]. exists y. split; [done|]. by apply Hkeep.
  - destruct H as (x & H0 & H1 & H2 & (H3 & y & H4 & H5) & H6). exists x. split_and!; [done|done|done| |done]. split; [done|]. exists y. split; [done|]. by apply Hkeep.
Qed.

(** The message thread's turns: the mutex stays as it is, or is let go. *)
Lemma offered_serve s m m' nbs shr shr' :
  offered (World s m nbs shr) -> block_created_mtx shr = true -> shr' = shr \/ block_created_mtx shr' = false -> offered (World s m' nbs shr').
Proof.
  intros Hof Hlk Hsh pub blk date [Hpub Hp]. cbn [w_sh] in Hp. pose proof (Hof pub blk date (conj Hpub (or_intror Hlk))) as Hw.
  destruct Hsh as [->|Hfree]; [by eapply winv_mem|]. destruct Hp as [->|Hp]; [|congruence]. eapply winv_mem.
  destruct (world_step psock pub blk date Hpub Hfi Unlock (World s m nbs shr) (Ok (World s m nbs pub))) as (w' & [= <-] & Hw' & _);
    [done|done|cbn [world_do w_sh]; by rewrite Hlk|exact Hw'].
Qed.

Lemma world_do_pub pub pub' ev w : ev <> Unlock -> world_do psock pub ev w = world_do psock pub' ev w.
Proof. by destruct ev. Qed.

(** A turn of the offering thread or of a neighbour. *)
Lemma offered_step pub' ev w r :
  offered w -> (exists pub blk date, possible (w_sh w) pub blk date) -> wf (w_mem w) -> fair_event ev -> ev <> Unlock ->
  world_do psock pub' ev w = Some r ->
  exists w', r = Ok w' /\ offered w' /\ keeps [] (w_mem w) (w_mem w') /\ rng (w_mem w') = rng (w_mem w) /\ w_sh w' = w_sh w /\
    forall pub blk date, possible (w_sh w) pub blk date -> moves psock pub blk date ev w w'.
Proof.
  intros Hof (pub0 & blk0 & date0 & H0) Hwf Hev Hne Hdo.
  assert (forall pub blk date, possible (w_sh w) pub blk date -> exists w', r = Ok w' /\ moves psock pub blk date ev w w') as Hmv.
  { intros pub blk date [Hpub Hsh]. erewrite world_do_pub in Hdo by done. eapply (world_step psock pub blk date Hpub Hfi); [by apply Hof|done|exact Hdo]. }
  destruct (Hmv _ _ _ H0) as (w' & -> & _). destruct (world_do_keeps _ _ _ w _ Hwf Hdo Hne) as (Hk & Hr & Hsw).
  exists w'. split; [done|].
  assert (forall pub blk date, possible (w_sh w) pub blk date -> moves psock pub blk date ev w w') as Hall
    by (intros pub blk date H; by destruct (Hmv _ _ _ H) as (w2 & [= <-] & Hw2)).
  split_and!; [|done|done|done|done]. intros pub blk date Hp. rewrite Hsw in Hp. apply (Hall _ _ _ Hp).
Qed.
End offered.

(** ** What the message thread publishes *)
Section possible.
Context {sod : Sodium} {clk : Clock} {pb : Protobuf} {un : Uninit} {ok : SodiumOk sod} {pbok : ProtobufOk pb}.
Context (sh0 : shared) (Hl0 : length (buffer_BLOCK_DATA sh0) = P2P_BUFFER_SIZE).

Lemma agrees_possible h ids root c m :
  client_agrees sh0 h ids root c m -> exists i t, solves root 3 i /\ possible (sh c) (sh c) (made_block root i t) (made_date t).
Proof. intros (i & t & _ & _ & Hs & _ & ->). exists i, t. split; [done|]. split; [by apply unlocked_published|by left]. Qed.

(** What the globals hold is published, or it is to come. *)
Lemma stage_possible q cl r fd b r0 ids j y : stage sh0 q cl r fd b r0 ids j y -> exists pub blk date, possible (sh (sy_c y)) pub blk date.
Proof.
  intros Hst. destruct (decide (j < 1024)%nat) as [Hj|Hj].
  - do 3 eexists. split; [by apply (unlocked_published sh0 [] 0 0)|]. right. by rewrite (stage_locked _ _ _ _ _ _ _ _ _ _ Hst Hj).
  - destruct (stage_final _ _ _ _ _ _ _ _ _ _ Hst) as (_ & _ & Hag); [lia|]. destruct (agrees_possible _ _ _ _ _ Hag) as (i & t & _ & Hp). by do 3 eexists.
Qed.
End possible.

(** ** The invariant of the process *)

(** Newcomers have descriptors within the arrays. *)
Definition fair_turn (ev : tev) : Prop := match ev with Offer ev => fair_event ev | _ => True end.

(** The exchanges with the server, and the events of connection [fd]. *)
Definition serves (ev : tev) : nat := match ev with Serve => 1 | _ => 0 end.
Definition offers (fd : Z) (ev : tev) : nat := match ev with Offer ev => weight fd ev | _ => 0 end.

Section facts.
Context {sod : Sodium} {clk : Clock} {pb : Protobuf} {un : Uninit} {st : Stray} {rd : Reading} {ok : SodiumOk sod} {pbok : ProtobufOk pb}.
Context (fuel : nat) (sockfd fd : Z) (b : positive) (sh0 : shared) (r r0 : nat) (psock : Z).
Context (fsock : Z) (fpub : shared) (ffd q : Z) (fblk : block_t) (fdate : list byte).

Record pinv (j : nat) (n : process) : Prop := Pinv {
  pi_stage : exists ids, stage sh0 0 [] r fd b r0 ids j (ps_sys n);
  pi_offer : offered psock (offer_view n);
  pi_ask : exists p, at_phase fsock fpub ffd q fblk fdate p (ask_view n);
  pi_far : sh_inv fpub (ask_view n) }.

Context (Hun : uninit_short) (Hfi : reading = exchanged) (Hfd : good_fd fd) (Hf : (CIRC_BUF_SIZE <= fuel)%nat) (Hsol : solvable fuel r0 (minted_root r)).
Context (Hl0 : length (buffer_BLOCK_DATA sh0) = P2P_BUFFER_SIZE).
Context (Hfpub : published fpub fblk fdate) (Hffd : peer_fd ffd) (Hq : 0 <= q < 2 ^ 31).

(** What a turn leaves of the neighbours once [pub] is published. *)
Definition advances (pub : shared) (blk : block_t) (date : list byte) (ev : tev) (n n' : process) : Prop :=
  sh (sy_c (ps_sys n')) = pub /\
  forall fd' nb p, ps_nbs n !! fd' = Some nb -> stands psock pub blk date (offer_view n) fd' nb p ->
    exists nb' p', ps_nbs n' !! fd' = Some nb' /\ stands psock pub blk date (offer_view n') fd' nb' p' /\ (rank p' + offers fd' ev <= rank p)%nat.

(** A turn with the server. *)
Lemma serve_step j n r1 :
  pinv j n -> process_do fuel sockfd fd psock fsock fpub Serve n = Some r1 ->
  exists n', r1 = Ok n' /\ pinv (S j) n' /\ block_created_mtx (sh (sy_c (ps_sys n))) = true.
Proof.
  intros [[ids Hst] Hof [p Hp] Hfar] Hdo. cbn [process_do] in Hdo. rewrite (stage_filled _ _ _ _ _ _ _ _ _ _ Hst) in Hdo.
  destruct (bool_decide _) eqn:Hj; [|done]. apply bool_decide_eq_true in Hj. apply (inj Some) in Hdo as <-.
  destruct (stage_exchange Hun sh0 0 [] r fd b r0 fuel sockfd ids j _ Hst Hj Hfd Hf Hsol) as (y' & ids' & He & _ & Hst' & Hspare).
  rewrite He. eexists. split; [done|]. pose proof (stage_locked _ _ _ _ _ _ _ _ _ _ Hst Hj) as Hs.
  assert (block_created_mtx (sh (sy_c (ps_sys n))) = true) as Hlk by by rewrite Hs.
  split; [|done]. split; cbn [ps_sys]; [by exists ids'| |exists p; by eapply at_phase_spares|done].
  eapply (offered_serve psock Hfi _ _ _ _ _ (sh (sy_c y'))); [exact Hof|done|]. destruct (decide (S j < 1024)%nat) as [Hj'|Hj'].
  - left. by rewrite (stage_locked _ _ _ _ _ _ _ _ _ _ Hst' Hj').
  - right. destruct (stage_final _ _ _ _ _ _ _ _ _ _ Hst') as (_ & _ & i & t & _ & _ & _ & _ & ->); [lia|done].
Qed.

(** A turn of the offering thread or of one of its neighbours. *)
Lemma offer_step j ev n r2 :
  pinv j n -> fair_event ev -> process_do fuel sockfd fd psock fsock fpub (Offer ev) n = Some r2 ->
  exists n', r2 = Ok n' /\ pinv j n' /\
    forall pub blk date, published pub blk date -> sh (sy_c (ps_sys n)) = pub -> advances pub blk date (Offer ev) n n'.
Proof.
  intros [[ids Hst] Hof [p Hp] Hfar] Hev Hdo. pose proof (stage_wf _ _ _ _ _ _ _ _ _ _ Hst) as Hwf.
  assert (ev <> Unlock) as Hne by (by intros ->). cbn [process_do] in Hdo.
  assert ((r1 ← world_do psock (sh (sy_c (ps_sys n))) ev (offer_view n);
    Some (rbind r1 (fun w => Ok (Process (set_mc (w_mem w) (ps_sys n)) (w_peer w) (w_nbs w) (ps_list n) (ps_far n))))) = Some r2) as Hdo' by by destruct ev.
  clear Hdo. destruct (world_do psock _ ev (offer_view n)) as [r1|] eqn:Hw; [|done]. apply (inj Some) in Hdo' as <-.
  destruct (offered_step psock Hfi _ ev (offer_view n) r1 Hof (stage_possible sh0 Hl0 _ _ _ _ _ _ _ _ _ Hst) Hwf Hev Hne Hw) as (w' & -> & Hof' & Hk & Hr & Hsw & Hmv).
  eexists. split; [done|]. destruct w' as [s' m' nbs' shr']. cbn [offer_view w_mem w_peer w_nbs w_sh] in *. subst shr'. split.
  - split; cbn [ps_sys ps_list ps_far]; [exists ids; by apply stage_keeps|exact Hof'|exists p|done].
    eapply at_phase_spares; [|exact Hp]. by apply keeps_spares.
  - intros pub blk date Hpub Hsh. destruct (Hmv _ _ _ (conj Hpub (or_introl Hsh))) as (_ & _ & Hm). split; [done|].
    intros fd' nb p' Hnb Hs. destruct (Hm fd' nb p' Hnb Hs) as (nb' & p2 & H1 & H2 & H3). exists nb', p2. split_and!; [done|done|]. by apply H3.
Qed.

(** A turn of the asking thread or of the node it asks. *)
Lemma ask_step j e n r2 :
  pinv j n -> process_do fuel sockfd fd psock fsock fpub (Ask e) n = Some r2 ->
  exists n', r2 = Ok n' /\ pinv j n' /\
    forall pub blk date, published pub blk date -> sh (sy_c (ps_sys n)) = pub -> advances pub blk date (Ask e) n n'.
Proof.
  intros [[ids Hst] Hof Hp Hfar] Hdo. pose proof (stage_wf _ _ _ _ _ _ _ _ _ _ Hst) as Hwf. cbn [process_do] in Hdo.
  destruct (net_do fsock fpub e (ask_view n)) as [r1|] eqn:Hn; [|done]. apply (inj Some) in Hdo as <-.
  destruct (inv_step fsock fpub ffd q fblk fdate Hfpub Hfi Hffd Hq (ask_view n) e r1) as (a & -> & Hp' & Hfar'); [by split|exact Hn|].
  destruct (net_do_keeps _ _ _ (ask_view n) _ Hwf Hn) as (Hk & Hr). cbn [ask_view n_ml] in Hk, Hr.
  eexists. split; [done|]. destruct a as [pr l mp ml pl lp shr]. cbn [n_peer n_list n_mp n_ml n_pl n_lp n_sh] in *. split.
  - split; cbn [ps_sys]; [exists ids; by apply stage_keeps| |exact Hp'|exact Hfar']. intros pub blk date Hp0. eapply winv_mem. by apply Hof.
  - intros pub blk date Hpub Hsh. split; [done|]. intros fd' nb p Hnb Hs. exists nb, p. cbn [offers]. split_and!; [done| |lia]. by eapply stands_cong.
Qed.

Lemma process_step j ev n r1 :
  pinv j n -> fair_turn ev -> process_do fuel sockfd fd psock fsock fpub ev n = Some r1 ->
  exists n', r1 = Ok n' /\ pinv (serves ev + j) n' /\
    forall pub blk date, published pub blk date -> sh (sy_c (ps_sys n)) = pub -> advances pub blk date ev n n'.
Proof.
  intros Hn Hev Hdo. destruct ev as [|ev|e].
  - destruct (serve_step j n r1 Hn Hdo) as (n' & -> & Hn' & Hlk). exists n'. split_and!; [done|done|].
    intros pub blk date Hpub Hsh. by rewrite Hsh, (pb_free _ _ _ Hpub) in Hlk.
  - by eapply offer_step.
  - by eapply ask_step.
Qed.

(** Every interleaving keeps the invariant; once the block is published, every
    event of a connection brings it nearer its end. *)
Lemma process_run_inv es j n r2 :
  pinv j n -> Forall fair_turn es -> process_run fuel sockfd fd psock fsock fpub es n = Some r2 ->
  exists n', r2 = Ok n' /\ pinv (list_sum (serves <$> es) + j) n' /\
    forall pub blk date, published pub blk date -> sh (sy_c (ps_sys n)) = pub ->
    forall fd' nb p, ps_nbs n !! fd' = Some nb -> stands psock pub blk date (offer_view n) fd' nb p ->
      (list_sum (offers fd' <$> es) <= rank p)%nat.
Proof.
  intros Hn Hes. revert j n Hn. induction Hes as [|ev es Hev Hes IH]; intros j n Hn Hr; cbn [process_run] in Hr.
  - apply (inj Some) in Hr as <-. exists n. split_and!; [done|done|]. intros. cbn. lia.
  - destruct (process_do fuel sockfd fd psock fsock fpub ev n) as [r1|] eqn:Hdo; [|done].
    destruct (process_step j ev n r1 Hn Hev Hdo) as (n1 & -> & Hn1 & Had). destruct (IH _ n1 Hn1 Hr) as (n2 & -> & Hn2 & Hb).
    exists n2. split; [done|]. split.
    { change (list_sum (serves <$> ev :: es)) with (serves ev + list_sum (serves <$> es))%nat.
      by replace (serves ev + list_sum (serves <$> es) + j)%nat with (list_sum (serves <$> es) + (serves ev + j))%nat by lia. }
    intros pub blk date Hpub Hsh fd' nb p Hnb Hs. destruct (Had pub blk date Hpub Hsh) as (Hsh1 & Hm).
    destruct (Hm fd' nb p Hnb Hs) as (nb1 & p1 & H1 & H2 & H3). specialize (Hb pub blk date Hpub Hsh1 fd' nb1 p1 H1 H2).
    change (list_sum (offers fd' <$> ev :: es)) with (offers fd' ev + list_sum (offers fd' <$> es))%nat. lia.
Qed.

Abbreviation run := (process_run fuel sockfd fd psock fsock fpub).

(** A published block can be brought home in as many events as its rank. *)
Lemma offer_reaches pub blk date j n fd' nb p :
  pinv j n -> published pub blk date -> sh (sy_c (ps_sys n)) = pub -> ps_nbs n !! fd' = Some nb ->
  stands psock pub blk date (offer_view n) fd' nb p ->
  exists es n' nb', (length es <= rank p)%nat /\ run ((fun e => Offer (At fd' e)) <$> es) n = Some (Ok n') /\
    ps_nbs n' !! fd' = Some nb' /\ nb_holds blk date nb'.
Proof.
  remember (rank p) as k eqn:Hk. revert p n nb Hk. induction k as [k IH] using lt_wf_ind. intros p n nb -> Hn Hpub Hsh Hnb Hst.
  destruct (decide (p = Received true)) as [->|Hne].
  { exists [], n, nb. split_and!; [cbn; lia|done|done|by eapply received_holds]. }
  destruct (world_progress psock pub blk date (offer_view n) fd' nb p Hnb Hst Hne) as (e & r2 & He).
  destruct (process_do fuel sockfd fd psock fsock fpub (Offer (At fd' e)) n) as [r1|] eqn:Hdo;
    [|cbn [process_do] in Hdo; by rewrite Hsh, He in Hdo].
  destruct (offer_step j (At fd' e) n r1 Hn I Hdo) as (n1 & -> & Hn1 & Had). destruct (Had _ _ _ Hpub Hsh) as (Hsh1 & Hm).
  destruct (Hm fd' nb p Hnb Hst) as (nb1 & p1 & Hnb1 & Hst1 & Hr). cbn [offers weight] in Hr. rewrite decide_True in Hr by done.
  destruct (IH (rank p1) ltac:(lia) p1 n1 nb1 eq_refl Hn1 Hpub Hsh1 Hnb1 Hst1) as (es & n' & nb' & Hl & Hrun & H1 & H2).
  exists (e :: es), n', nb'. split_and!; [cbn; lia| |done|done]. cbn [fmap list_fmap process_run]. by rewrite Hdo.
Qed.

(** The message thread alone can finish. *)
Lemma serve_all k j n :
  pinv j n -> (j + k <= 1024)%nat -> exists n', run (replicate k Serve) n = Some (Ok n') /\ ps_nbs n' = ps_nbs n.
Proof.
  revert j n. induction k as [|k IH]; intros j n Hn Hj; [by exists n|].
  change (replicate (S k) Serve) with (Serve :: replicate k Serve).
  destruct (pi_stage _ _ Hn) as [ids Hst].
  destruct (stage_exchange Hun sh0 0 [] r fd b r0 fuel sockfd ids j _ Hst ltac:(lia) Hfd Hf Hsol) as (y' & ids' & He & _).
  assert (process_do fuel sockfd fd psock fsock fpub Serve n = Some (Ok (Process y' (ps_peer n) (ps_nbs n) (ps_list n) (ps_far n)))) as Hdo
    by (cbn [process_do]; by rewrite (stage_filled _ _ _ _ _ _ _ _ _ _ Hst), bool_decide_true, He by lia).
  cbn [process_run]. rewrite Hdo. destruct (serve_step j n _ Hn Hdo) as (n1 & Hn1 & Hi1 & _). injection Hn1 as <-.
  exact (IH (S j) _ Hi1 ltac:(lia)).
Qed.
End facts.

(** ** The code as it is written *)

(** The turns in which a peer reads a status. *)
Definition reads_turn (ev : tev) : bool :=
  match ev with Serve => false | Offer ev => reads_status ev | Ask e => receives e end.

Section written.
Context {sod : Sodium} {clk : Clock} {pb : Protobuf} {un : Uninit} {st : Stray} {ok : SodiumOk sod} {pbok : ProtobufOk pb}.

Lemma cut_bind {A B} reads (o : option (res A)) (k : A -> res B) :
  (r ← cut reads o; Some (rbind r k)) = cut reads (r ← o; Some (rbind r k)).
Proof. unfold cut. destruct reads; [|done]. by destruct o. Qed.

(** A connection is accepted without reading a status. *)
Lemma net_init_same rd rd' sockfd fd q locked mp ml :
  net_init (rd:=rd) sockfd fd q locked mp ml = net_init (rd:=rd') sockfd fd q locked mp ml.
Proof. unfold net_init. erewrite peer_turn_same; [done|]. cbn [cqe_user_data]. by rewrite p2p_tag_state by apply peer_fd_0. Qed.

Lemma process_start_same rd rd' fuel sockfd fd psock fsock s p sh0 ms mc ffd q flocked fmem :
  process_start (rd:=rd) fuel sockfd fd psock fsock s p sh0 ms mc ffd q flocked fmem =
  process_start (rd:=rd') fuel sockfd fd psock fsock s p sh0 ms mc ffd q flocked fmem.
Proof. unfold process_start. destruct (connect _ _ _ _ _ _ _ _); [|done..]. cbn [rbind]. by rewrite (net_init_same rd rd'). Qed.

(** What the offering thread's invariant says of its turns. *)
Lemma offered_written psock pub' ev w :
  offered psock w -> (exists pub blk date, possible (w_sh w) pub blk date) -> ev <> Unlock ->
  world_do (rd:=as_written) psock pub' ev w = cut (reads_status ev) (world_do (rd:=exchanged) psock pub' ev w).
Proof.
  intros Hof (pub & blk & date & Hp) Hne. rewrite !(world_do_pub psock pub' pub) by done.
  apply (world_written psock pub blk date (proj1 Hp)). by apply Hof.
Qed.

Context (fuel : nat) (sockfd fd : Z) (b : positive) (sh0 : shared) (r r0 : nat) (psock : Z).
Context (fsock : Z) (fpub : shared) (ffd q : Z) (fblk : block_t) (fdate : list byte).
Context (Hun : uninit_short) (Hfd : good_fd fd) (Hf : (CIRC_BUF_SIZE <= fuel)%nat) (Hsol : solvable fuel r0 (minted_root r)).
Context (Hl0 : length (buffer_BLOCK_DATA sh0) = P2P_BUFFER_SIZE).
Context (Hfpub : published fpub fblk fdate) (Hffd : peer_fd ffd) (Hq : 0 <= q < 2 ^ 31).

Abbreviation sound := (pinv fd b sh0 r r0 psock fsock fpub ffd q fblk fdate).

Lemma process_written j ev n :
  sound j n ->
  process_do (rd:=as_written) fuel sockfd fd psock fsock fpub ev n =
    cut (reads_turn ev) (process_do (rd:=exchanged) fuel sockfd fd psock fsock fpub ev n).
Proof.
  intros [[ids Hst] Hof [p Hp] _]. destruct ev as [|ev|e]; [done| |].
  - assert (ev <> Unlock -> world_do (rd:=as_written) psock (sh (sy_c (ps_sys n))) ev (offer_view n) =
      cut (reads_status ev) (world_do (rd:=exchanged) psock (sh (sy_c (ps_sys n))) ev (offer_view n))) as Hw
      by (intros Hne; apply offered_written; [exact Hof|exact (stage_possible sh0 Hl0 _ _ _ _ _ _ _ _ _ Hst)|exact Hne]).
    destruct ev as [fd' e|fd' q' ml|]; [| |done]; cbn [process_do reads_turn]; rewrite Hw by done; apply cut_bind.
  - cbn [process_do reads_turn]. rewrite (net_written fsock fpub ffd q fblk fdate Hfpub Hffd Hq p (ask_view n) e Hp). apply cut_bind.
Qed.

Lemma process_run_readings rd es j n r1 :
  sound j n -> Forall fair_turn es -> process_run (rd:=rd) fuel sockfd fd psock fsock fpub es n = Some r1 ->
  if dangles (rd:=rd) reads_turn es then r1 = Fault BadPointer else process_run (rd:=exchanged) fuel sockfd fd psock fsock fpub es n = Some r1.
Proof.
  intros Hn Hes. destruct rd; [|done]. revert j n Hn. unfold dangles, reading. induction Hes as [|ev es Hev Hes IH]; intros j n Hn Hr; [exact Hr|].
  cbn [process_run existsb] in *. rewrite (process_written j ev n Hn) in Hr. unfold cut in Hr. destruct (reads_turn ev); cbn [orb].
  - destruct (process_do (rd:=exchanged) _ _ _ _ _ _ ev n); cbn in Hr; [congruence|done].
  - destruct (process_do (rd:=exchanged) _ _ _ _ _ _ ev n) as [r2|] eqn:Hdo; [|done].
    destruct (process_step (rd:=exchanged) fuel sockfd fd b sh0 r r0 psock fsock fpub ffd q fblk fdate Hun eq_refl Hfd Hf Hsol Hl0 Hfpub Hffd Hq j ev n r2 Hn Hev Hdo)
      as (n1 & -> & Hn1 & _). by apply (IH _ n1 Hn1).
Qed.

Lemma process_do_none rd j ev n :
  sound j n -> process_do (rd:=rd) fuel sockfd fd psock fsock fpub ev n = None -> process_do (rd:=exchanged) fuel sockfd fd psock fsock fpub ev n = None.
Proof. intros Hn. destruct rd; [|done]. rewrite (process_written j ev n Hn). apply cut_none. Qed.
End written.

(** ** Claims *)
Section claims.
Context {sod : Sodium} {clk : Clock} {pb : Protobuf} {un : Uninit} {st : Stray} {rd : Reading} {ok : SodiumOk sod} {pbok : ProtobufOk pb}.

(** The process as it starts: the server's buffer is empty, the globals hold no
    block, the client's draws solve the puzzle for the server's root within the
    fuel, the node that is asked will publish [fblk]. *)
Record starts (fuel : nat) (fd : Z) (b : positive) (sh0 : shared) (ms mc : mem) (ffd q : Z) (flocked fpub : shared)
    (fblk : block_t) (fdate : list byte) : Prop := Starts {
  ss_ring : heap ms !! b = Some (BPtrs (replicate CIRC_BUF_SIZE NULL));
  ss_server : wf ms;
  ss_client : wf mc;
  ss_buffer : length (buffer_BLOCK_DATA sh0) = P2P_BUFFER_SIZE;
  ss_fd : good_fd fd;
  ss_fuel : (CIRC_BUF_SIZE <= fuel)%nat;
  ss_solvable : solvable fuel (rng mc) (minted_root (rng ms));
  ss_far : published fpub fblk fdate;
  ss_far_fd : peer_fd ffd;
  ss_own_fd : 0 <= q < 2 ^ 31;
  ss_locked : block_created_mtx flocked = true }.

Lemma process_start_inv fuel sockfd fd s b sh0 ms mc psock fsock ffd q flocked fmem fpub fblk fdate :
  uninit_short -> starts fuel fd b sh0 ms mc ffd q flocked fpub fblk fdate ->
  exists n, process_start fuel sockfd fd psock fsock s (Ptr b 0) sh0 ms mc ffd q flocked fmem = Ok n /\
    pinv fd b sh0 (rng ms) (rng mc) psock fsock fpub ffd q fblk fdate 0 n /\ ps_peer n = peer_start psock /\ ps_nbs n = ∅.
Proof.
  intros Hun [Hb Hwf Hwc Hl Hfd Hf Hsol Hfp Hffd Hq Hlk]. unfold process_start.
  destruct (connect_asking fuel sockfd fd s b sh0 ms mc Hun Hwf Hb Hwc Hfd) as (y & -> & ids & a & bufs & Ha). cbn [rbind].
  destruct (net_init_phase fsock fpub ffd q fblk fdate Hffd flocked fmem (sy_mc y)) as (n0 & H0 & Hp & Hs). pose proof H0 as Hi.
  unfold net_init, run_turn in Hi. destruct (peer_turn _ _ _ _ _ _) as [[s1 m1]| | |]; try done. injection Hi as <-. rewrite H0. cbn [rbind n_list n_peer n_mp n_sh].
  eexists. split; [done|]. pose proof Ha as (t & Hr). pose proof (ro_shared _ _ _ _ _ _ _ _ _ _ _ _ _ _ Hr) as Hsh.
  split; [|done]. split; cbn [ps_sys].
  - exists ids. apply (St_asking sh0 0 [] (rng ms) fd b (rng mc) y ids 0 a bufs Ha). unfold CIRC_BUF_SIZE. lia.
  - unfold offer_view. cbn [ps_sys ps_peer ps_nbs]. rewrite Hsh. by apply offered_start.
  - by exists (PSend P2P_PING).
  - by right.
Qed.

(** C3: the threads of a client do not disturb each other.  However the turns
    of the message thread, the offering thread, the asking thread and their
    counterparts interleave on the client's one heap and its globals: the code as
    written faults exactly when a peer-to-peer thread takes up a packet, whose
    status it reads after releasing it; no other turn faults, and with the two
    statements exchanged none does.  The message thread makes at most 1024
    exchanges and can make the next whenever it has made fewer; until then the
    mutex is held and no neighbour has decoded a block; from then on server and
    client agree on the 512 messages and the block, which the later turns of the
    other threads leave intact, and a neighbour has decoded nothing or a block
    that commits to the root the server printed.  The asking thread has decoded
    nothing or holds, intact in the shared heap, exactly the block its neighbour
    published. *)
Theorem threads_do_not_interfere fuel sockfd fd s b sh0 ms mc psock fsock ffd q flocked fmem fpub fblk fdate :
  uninit_short -> starts fuel fd b sh0 ms mc ffd q flocked fpub fblk fdate ->
  exists n0, process_start fuel sockfd fd psock fsock s (Ptr b 0) sh0 ms mc ffd q flocked fmem = Ok n0 /\
  forall es r, Forall fair_turn es -> process_run fuel sockfd fd psock fsock fpub es n0 = Some r ->
  if dangles reads_turn es then r = Fault BadPointer else
  exists n, r = Ok n /\ (list_sum (serves <$> es) <= 1024)%nat /\
    ((list_sum (serves <$> es) < 1024)%nat ->
       block_created_mtx (sh (sy_c (ps_sys n))) = true /\
       (exists n', process_do fuel sockfd fd psock fsock fpub Serve n = Some (Ok n')) /\
       forall fd' nb, ps_nbs n !! fd' = Some nb -> ls_blocks (nb_list nb) = []) /\
    (list_sum (serves <$> es) = 1024%nat ->
       exists ids, agreed_on sh0 0 ids (ps_sys n) /\ ring_root (heap (sy_ms (ps_sys n))) ids = minted_root (rng ms) /\
       forall fd' nb, ps_nbs n !! fd' = Some nb ->
         ls_blocks (nb_list nb) = [] \/ holds_for (minted_root (rng ms)) (nb_list nb) (nb_mem nb)) /\
    (ls_blocks (ps_list n) = [] \/
     exists x, ls_blocks (ps_list n) = [Ptr x 0] /\ heap (sy_mc (ps_sys n)) !! x = Some (BBlks [received_block fblk fdate])).
Proof.
  intros Hun Hs. destruct (process_start_inv fuel sockfd fd s b sh0 ms mc psock fsock ffd q flocked fmem fpub fblk fdate Hun Hs) as (n0 & H0 & Hi & _).
  destruct Hs as [Hb Hwf Hwc Hl Hfd Hf Hsol Hfp Hffd Hq Hlk].
  exists n0. split; [done|]. intros es r Hes Hr.
  pose proof (process_run_readings fuel sockfd fd b sh0 (rng ms) (rng mc) psock fsock fpub ffd q fblk fdate Hun Hfd Hf Hsol Hl Hfp Hffd Hq rd es 0 n0 r Hi Hes Hr) as Hrd.
  destruct (dangles reads_turn es); [done|].
  destruct (process_run_inv (rd:=exchanged) fuel sockfd fd b sh0 (rng ms) (rng mc) psock fsock fpub ffd q fblk fdate Hun eq_refl Hfd Hf Hsol Hl Hfp Hffd Hq es 0 n0 r Hi Hes Hrd)
    as (n & -> & Hn & _). rewrite Nat.add_0_r in Hn. set (j := list_sum _) in *. pose proof Hn as [[ids Hst] Hof [p Hp] Hfar].
  exists n. split; [done|]. split; [by eapply stage_bound|]. split_and!.
  - intros Hj. pose proof (stage_locked _ _ _ _ _ _ _ _ _ _ Hst Hj) as Hsh. split_and!; [by rewrite Hsh| |].
    + destruct (stage_exchange Hun sh0 0 [] (rng ms) fd b (rng mc) fuel sockfd ids j _ Hst Hj Hfd Hf Hsol) as (y' & ids' & He & _).
      eexists. cbn [process_do]. rewrite (stage_filled _ _ _ _ _ _ _ _ _ _ Hst), bool_decide_true, He by done. done.
    + intros fd' nb Hnb. pose proof (unlocked_published sh0 [] 0 0 Hl) as Hpub.
      assert (block_created_mtx (sh (sy_c (ps_sys n))) = true) as Hm by by rewrite Hsh.
      destruct (wi_nb _ _ _ _ _ (Hof _ _ _ (conj Hpub (or_intror Hm))) fd' nb Hnb) as [p' Hp'].
      destruct (stands_block _ _ _ _ _ _ _ _ Hp') as [Hnil|[He _]]; [done|]. cbn [offer_view w_sh] in He. by rewrite He in Hm.
  - intros Hj. pose proof (stage_final _ _ _ _ _ _ _ _ _ _ Hst ltac:(lia)) as Hag. pose proof (stage_root _ _ _ _ _ _ _ _ _ _ Hst ltac:(lia)) as Hroot.
    exists ids. split; [done|]. split; [done|]. intros fd' nb Hnb. destruct Hag as (_ & _ & i & t & _ & _ & Hsv & _ & Hsh). rewrite Hroot in *. set (root := minted_root _) in *.
    destruct (wi_nb _ _ _ _ _ (Hof _ _ _ (conj (unlocked_published sh0 root i t Hl) (or_introl Hsh))) fd' nb Hnb) as [p' Hp'].
    destruct (stands_block _ _ _ _ _ _ _ _ Hp') as [Hnil|[_ (x & Hx & Hh)]]; [by left|right]. by eapply received_made_holds.
  - destruct (phase_block fsock fpub ffd q fblk fdate p (ask_view n) Hp) as [Hnil|[_ Hx]]; [by left|by right].
Qed.

End claims.

(** ** The claims at work *)

Lemma sample_starts :
  starts (sod:=Toy.prefixing) (pb:=Wire.proto2) 512 5 1 no_block empty_ring_mem empty_mem 5 6 sample_locked sample_pub sample_block [x33; x31].
Proof.
  split; [reflexivity|exact empty_ring_wf|exact empty_mem_wf|reflexivity|exact good_5|exact (le_n _)|apply prefix_solvable|
    exact sample_published|exact peer_fd_5|lia|reflexivity].
Qed.

Definition sample_process_start : res process :=
  process_start (sod:=Toy.prefixing) (clk:=Toy.toy_clock) (pb:=Wire.proto2) (un:=quiet) (rd:=exchanged)
    512 3 5 3 3 4 (Ptr 1 0) no_block empty_ring_mem empty_mem 5 6 sample_locked empty_mem.
Definition sample_process_run (es : list tev) (n : process) : option (res process) :=
  process_run (sod:=Toy.prefixing) (clk:=Toy.toy_clock) (pb:=Wire.proto2) (un:=quiet) (st:=calm) (rd:=exchanged) 512 3 5 3 3 sample_pub es n.

(** A neighbour comes, three messages are received, this node receives its other
    neighbour's block meanwhile. *)
Definition busy : list tev :=
  [Offer (Arrive 5 6 empty_mem); Ask PeerSend; Serve; Ask ListRecv; Serve; Ask ListSend; Ask Publish; Ask PeerRecv; Offer (At 5 PeerSend);
   Ask PeerSend; Serve; Ask ListRecv; Ask ListSend; Serve; Ask PeerRecv; Ask PeerSend; Offer (At 5 ListRecv); Ask ListRecv; Serve; Serve].

Definition busy_outcome : option (Z * nat) :=
  n0 ← match sample_process_start with Ok n => Some n | _ => None end;
  r ← sample_process_run busy n0;
  n ← match r with Ok n => Some n | _ => None end;
  Some (c_count (sy_c (ps_sys n)), length (ls_blocks (ps_list n))).

Lemma busy_computed : busy_outcome = Some (3, 1%nat).
Proof. vm_compute. reflexivity. Qed.

Lemma busy_fair : Forall fair_turn busy.
Proof. unfold busy. repeat (apply Forall_cons; split; [cbn; unfold peer_fd; lia|]). by apply Forall_nil. Qed.

(** The same turns in the code as written. *)
Abbreviation written_start :=
  (process_start (sod:=Toy.prefixing) (clk:=Toy.toy_clock) (pb:=Wire.proto2) (un:=quiet) (rd:=as_written)
    512 3 5 3 3 4 (Ptr 1 0) no_block empty_ring_mem empty_mem 5 6 sample_locked empty_mem).
Abbreviation written_run :=
  (process_run (sod:=Toy.prefixing) (clk:=Toy.toy_clock) (pb:=Wire.proto2) (un:=quiet) (st:=calm) (rd:=as_written) 512 3 5 3 3 sample_pub).

Lemma written_computed : match written_start with Ok n => bool_decide (is_Some (written_run busy n)) | _ => false end = true.
Proof. vm_compute. reflexivity. Qed.

Lemma threads_do_not_interfere_witness :
  (exists n0, written_start = Ok n0 /\ written_run busy n0 = Some (Fault BadPointer)) /\
  exists n0 n, sample_process_start = Ok n0 /\ sample_process_run busy n0 = Some (Ok n) /\
    c_count (sy_c (ps_sys n)) = 3 /\ block_created_mtx (sh (sy_c (ps_sys n))) = true /\
    exists x, ls_blocks (ps_list n) = [Ptr x 0] /\
      heap (sy_mc (ps_sys n)) !! x = Some (BBlks [received_block (st:=calm) sample_block [x33; x31]]).
Proof.
  split.
  { destruct (threads_do_not_interfere (sod:=Toy.prefixing) (clk:=Toy.toy_clock) (pb:=Wire.proto2) (un:=quiet) (st:=calm) (rd:=as_written)
      (ok:=Toy.prefixing_ok) (pbok:=Wire.proto2_ok) 512 3 5 4 1 no_block empty_ring_mem empty_mem 3 3 5 6 sample_locked empty_mem sample_pub
      sample_block [x33; x31] quiet_short sample_starts) as (n0 & H0 & Hall).
    pose proof written_computed as Hc. rewrite H0 in Hc. apply bool_decide_eq_true in Hc as [r Hr].
    exists n0. split; [exact H0|]. rewrite Hr. f_equal. exact (Hall busy r busy_fair Hr). }
  destruct (threads_do_not_interfere (sod:=Toy.prefixing) (clk:=Toy.toy_clock) (pb:=Wire.proto2) (un:=quiet) (st:=calm) (rd:=exchanged)
    (ok:=Toy.prefixing_ok) (pbok:=Wire.proto2_ok) 512 3 5 4 1 no_block empty_ring_mem empty_mem 3 3 5 6 sample_locked empty_mem sample_pub
    sample_block [x33; x31] quiet_short sample_starts) as (n0 & H0 & Hall).
  pose proof busy_computed as Hc. unfold busy_outcome in Hc. change (sample_process_start = Ok n0) in H0. rewrite H0 in Hc. cbn [mbind option_bind] in Hc.
  destruct (sample_process_run busy n0) as [r|] eqn:Hr; [|discriminate Hc]. cbn [mbind option_bind] in Hc.
  destruct (Hall busy r busy_fair Hr) as (n & -> & _ & Hlt & _ & Hask). cbn [mbind option_bind] in Hc. injection Hc as Hc Hb.
  exists n0, n. split; [exact H0|]. split; [exact Hr|]. split; [exact Hc|]. split.
  - apply Hlt. apply Nat.ltb_lt. vm_compute. reflexivity.
  - destruct Hask as [Hnil|Hx]; [|exact Hx]. rewrite Hnil in Hb. discriminate Hb.
Defined.

(** A neighbour comes, then the message thread runs to its end. *)
Definition long : list tev := Offer (Arrive 5 6 empty_mem) :: replicate 1024 Serve.

Lemma long_fair : Forall fair_turn long.
Proof. apply Forall_cons. split; [cbn; unfold peer_fd; lia|]. by apply Forall_replicate. Qed.

Lemma long_runs : exists n0 n nb, sample_process_start = Ok n0 /\ sample_process_run long n0 = Some (Ok n) /\ ps_nbs n !! 5 = Some nb.
Proof.
  destruct (process_start_inv (sod:=Toy.prefixing) (clk:=Toy.toy_clock) (pb:=Wire.proto2) (un:=quiet) (st:=calm) (rd:=exchanged)
    (ok:=Toy.prefixing_ok) (pbok:=Wire.proto2_ok) 512 3 5 4 1 no_block empty_ring_mem empty_mem 3 3 5 6 sample_locked empty_mem sample_pub
    sample_block [x33; x31] quiet_short sample_starts) as (n0 & H0 & Hi & Hpeer & Hnbs).
  pose proof sample_starts as [_ _ _ Hl Hfd Hf Hsol Hfp Hffd Hq _].
  pose proof (process_step (sod:=Toy.prefixing) (clk:=Toy.toy_clock) (pb:=Wire.proto2) (un:=quiet) (st:=calm) (rd:=exchanged)
    (ok:=Toy.prefixing_ok) (pbok:=Wire.proto2_ok) 512 3 5 1 no_block _ _ 3 3 sample_pub 5 6 sample_block [x33; x31]
    quiet_short eq_refl Hfd Hf Hsol Hl Hfp Hffd Hq 0 (Offer (Arrive 5 6 empty_mem)) n0) as Hstep.
  destruct (process_do _ _ _ _ _ _ (Offer (Arrive 5 6 empty_mem)) n0) as [r|] eqn:Hdo;
    [|cbn [process_do world_do offer_view w_nbs w_peer] in Hdo; by rewrite Hnbs, Hpeer in Hdo].
  destruct (Hstep r Hi) as (n1 & -> & Hi1 & _); [cbn; unfold peer_fd; lia|done|].
  assert (exists nb, ps_nbs n1 !! 5 = Some nb) as [nb Hnb].
  { eexists. exact (process_arrive _ _ _ _ _ _ _ _ _ _ _ Hdo). }
  destruct (serve_all (sod:=Toy.prefixing) (clk:=Toy.toy_clock) (pb:=Wire.proto2) (un:=quiet) (st:=calm) (rd:=exchanged)
    (ok:=Toy.prefixing_ok) (pbok:=Wire.proto2_ok) 512 3 5 1 no_block _ _ 3 3 sample_pub 5 6 sample_block [x33; x31]
    quiet_short eq_refl Hfd Hf Hsol Hl 1024 0 n1 Hi1 (le_n _)) as (n & Hr & Hk).
  exists n0, n, nb. split; [exact H0|]. split; [|by rewrite Hk]. unfold sample_process_run, long. cbn [process_run]. by rewrite Hdo.
Qed.

