(* ===== verification/Network.v ===== *)
(** * A network of clients

    One message server and any number of client processes.  The server serves
    the clients one after another, in any order; each client's message,
    offering and asking thread run on its own heap (Threads.v); a client asks
    another one for its block, once, and may be asked by many.  All turns of
    all processes interleave freely; the clients' sessions with the server do not
    overlap (what happens when they do is [finishing_cuts_off_latest]).

    A client is asked only after its message thread has taken the mutex (what
    happens before is [peer_status_dangles]), and no client asks itself. *)

From S2P Require Import Prelude.
From S2P Require Import CTypes.
From S2P Require Import Memory.
From S2P Require Import Platform.
From S2P Require Import Misc.
From S2P Require Import BlockData.
From S2P Require Import BlockProcess.
From S2P Require Import RequestData.
From S2P Require Import Codec.
From S2P Require Import CircBuf.
From S2P Require Import ClientIpc.
From S2P Require Import Server.
From S2P Require Import Ledger.
From S2P Require Import Serving.
From S2P Require Import Client.
From S2P Require Import P2P.
From S2P Require Import Peers.
From S2P Require Import Neighbours.
From S2P Require Import Session.
From S2P Require Import Sessions.
From S2P Require Import Threads.

(** A connection: the client that asks, the bytes to it and from it. *)
Record link := Link { lk_from : nat; lk_to : list (list byte); lk_back : list (list byte) }.

(** A client process: its message thread and its asking thread once they are
    connected, its memory, its offering thread and the connections it has
    accepted, by descriptor. *)
Record node := MkNode {
  nd_msg : option client;
  nd_mem : mem;
  nd_peer : peer;
  nd_links : gmap Z link;
  nd_ask : option listener }.

(** The server, the clients, and the client in session. *)
Record network := Network {
  nw_server : server;
  nw_ms : mem;
  nw_nodes : nat -> node;
  nw_cur : option nat }.

Definition set_node (i : nat) (x : node) (f : nat -> node) : nat -> node := fun k => if decide (k = i) then x else f k.

Definition set_msg (i : nat) (c : client) (m : mem) (f : nat -> node) : nat -> node :=
  set_node i (MkNode (Some c) m (nd_peer (f i)) (nd_links (f i)) (nd_ask (f i))) f.
Definition set_offer (j : nat) (s : peer) (m : mem) (l : gmap Z link) (f : nat -> node) : nat -> node :=
  set_node j (MkNode (nd_msg (f j)) m s l (nd_ask (f j))) f.
Definition set_ask (i : nat) (l : listener) (m : mem) (f : nat -> node) : nat -> node :=
  set_node i (MkNode (nd_msg (f i)) m (nd_peer (f i)) (nd_links (f i)) (Some l)) f.

(** The client at the other end of a connection. *)
Definition far_end (f : nat -> node) (k : link) : neighbour :=
  Nb (default (listener_start 0) (nd_ask (f (lk_from k)))) (nd_mem (f (lk_from k))) (lk_to k) (lk_back k).

(** Client [j] as its offering thread and those who ask it see it. *)
Definition node_world (f : nat -> node) (j : nat) (shr : shared) : world :=
  World (nd_peer (f j)) (nd_mem (f j)) (far_end f <$> nd_links (f j)) shr.

(** The server accepts client [i]; an exchange of the session; its close; client
    [i] connects to [j]; an event of the connection [fd] of client [j]. *)
Inductive nwev := NwJoin (i : nat) | NwServe | NwClose | NwConnect (i j : nat) (fd q : Z) | NwTalk (j : nat) (fd : Z) (e : nev).

Section code.
Context {sod : Sodium} {clk : Clock} {pb : Protobuf} {un : Uninit} {st : Stray} {rd : Reading}.
Context (fuel : nat) (sockfd : Z) (vs : nat -> visitor) (psock : nat -> Z).

Definition nw_do (ev : nwev) (nw : network) : option (res network) :=
  let f := nw_nodes nw in
  match ev with
  | NwJoin i =>
      match nw_cur nw, nd_msg (f i) with
      | None, None =>
          Some (rbind (join fuel sockfd (v_fd (vs i)) (v_s (vs i)) (v_sh (vs i)) (nw_server nw) (nw_ms nw) (nd_mem (f i))) (fun y =>
            Ok (Network (sy_s y) (sy_ms y) (set_msg i (sy_c y) (sy_mc y) f) (Some i))))
      | _, _ => None
      end
  | NwServe =>
      i ← nw_cur nw; c ← nd_msg (f i);
      if flag_block_filled c =? 0 then
        Some (rbind (exchange fuel sockfd (v_fd (vs i)) (System (nw_server nw) (nw_ms nw) c (nd_mem (f i)))) (fun y =>
          Ok (Network (sy_s y) (sy_ms y) (set_msg i (sy_c y) (sy_mc y) f) (Some i))))
      else None
  | NwClose =>
      i ← nw_cur nw; c ← nd_msg (f i);
      if flag_block_filled c =? 0 then None else
        Some (rbind (server_turn fuel sockfd (nw_server nw)
                       (Cqe (make_request_data (v_fd (vs i)) (flag_num FLAG_CLOSE_CONNECTION)) 0 []) (nw_ms nw)) (fun '(sv, ms) =>
          Ok (Network sv ms f None)))
  | NwConnect i j fd q =>
      match decide (i = j), nd_ask (f i), nd_msg (f j) with
      | right _, None, Some c =>
          r ← world_do (psock j) (sh c) (Arrive fd q (nd_mem (f i))) (node_world f j (sh c));
          Some (rbind r (fun w =>
            Ok (Network (nw_server nw) (nw_ms nw)
                  (set_ask i (listener_start q) (nd_mem (f i)) (set_offer j (w_peer w) (w_mem w) (<[fd := Link i [] []]> (nd_links (f j))) f))
                  (nw_cur nw))))
      | _, _, _ => None
      end
  | NwTalk j fd e =>
      k ← nd_links (f j) !! fd; c ← nd_msg (f j);
      r ← world_do (psock j) (sh c) (At fd e) (node_world f j (sh c));
      Some (rbind r (fun w =>
        let nb := default (far_end f k) (w_nbs w !! fd) in
        Ok (Network (nw_server nw) (nw_ms nw)
              (set_ask (lk_from k) (nb_list nb) (nb_mem nb)
                 (set_offer j (w_peer w) (w_mem w) (<[fd := Link (lk_from k) (nb_to nb) (nb_from nb)]> (nd_links (f j))) f))
              (nw_cur nw))))
  end.

Fixpoint nw_run (es : list nwev) (nw : network) : option (res network) :=
  match es with
  | [] => Some (Ok nw)
  | e :: es =>
      match nw_do e nw with
      | Some (Ok nw) => nw_run es nw
      | o => o
      end
  end.

(** The server enters its loop; no client is connected. *)
Definition nw_start (ring_data_buf : ptr) (ms : mem) : res network :=
  rbind (event_loop_start sockfd (initial_server ring_data_buf) ms) (fun '(sv, ms) =>
  Ok (Network sv ms (fun i => MkNode None (v_mem (vs i)) (peer_start (psock i)) ∅ None) None)).
End code.

(** ** The offering side when memories elsewhere change *)
Section frame.
Context {sod : Sodium} {clk : Clock} {pb : Protobuf} {st : Stray} {rd : Reading}.

(** The same neighbour, its blocks still in its memory. *)
Definition same_nb (nb nb' : neighbour) : Prop :=
  nb_list nb' = nb_list nb /\ nb_to nb' = nb_to nb /\ nb_from nb' = nb_from nb /\ spares (nb_mem nb) (nb_mem nb').

Lemma offered_same psock s m m' nbs nbs' shr :
  offered psock (World s m nbs shr) -> (forall fd nb', nbs' !! fd = Some nb' -> exists nb, nbs !! fd = Some nb /\ same_nb nb nb') ->
  (forall fd, nbs' !! fd = None -> nbs !! fd = None) -> offered psock (World s m' nbs' shr).
Proof.
  intros Hof Hsome Hnone pub blk date Hp. pose proof (Hof pub blk date Hp) as Hw.
  split; [|intros fd H; apply (wi_none _ _ _ _ _ Hw), Hnone, H|exact (wi_accept _ _ _ _ _ Hw)|exact (wi_sh _ _ _ _ _ Hw)].
  intros fd nb' H. destruct (Hsome fd nb' H) as (nb & H0 & H1 & H2 & H3 & Hsp). destruct (wi_nb _ _ _ _ _ Hw fd nb H0) as (p & Hfd & q & Hq & Hph).
  exists p. split; [done|]. exists q. split; [done|]. unfold view in *. cbn [w_peer w_mem w_sh] in *. rewrite H1, H2, H3.
  eapply at_phase_spares; [exact Hsp|]. by eapply at_phase_cong; [exact Hph|..].
Qed.

(** What an event leaves of the neighbour it is about. *)
Lemma world_do_at sockfd pub fd e w w' nb :
  world_do sockfd pub (At fd e) w = Some (Ok w') -> w_nbs w !! fd = Some nb -> wf (nb_mem nb) ->
  exists nb', w_nbs w' = <[fd := nb']> (w_nbs w) /\ keeps [] (nb_mem nb) (nb_mem nb') /\ rng (nb_mem nb') = rng (nb_mem nb).
Proof.
  intros Hdo Hnb Hwf. cbn [world_do] in Hdo. rewrite Hnb in Hdo. cbn [mbind option_bind] in Hdo.
  assert (forall x rest res bytes nb', peer_side sockfd w fd x rest res bytes nb' = Ok w' -> nb_mem nb' = nb_mem nb ->
    exists nb', w_nbs w' = <[fd := nb']> (w_nbs w) /\ keeps [] (nb_mem nb) (nb_mem nb') /\ rng (nb_mem nb') = rng (nb_mem nb)) as Hp.
  { intros x rest res bytes nb' H Hm. unfold peer_side in H. destruct (peer_turn _ _ _ _ _ _) as [[s m]| | |]; try done. injection H as <-.
    exists nb'. rewrite Hm. split_and!; [done|by apply keeps_refl|done]. }
  assert (forall x rest res bytes to from, nb_side w fd nb x rest res bytes to from = Ok w' ->
    exists nb', w_nbs w' = <[fd := nb']> (w_nbs w) /\ keeps [] (nb_mem nb) (nb_mem nb') /\ rng (nb_mem nb') = rng (nb_mem nb)) as Hl.
  { intros x rest res bytes to from H. unfold nb_side in H. destruct (listener_turn _ _ _ _) as [[s m]| | |] eqn:Hr; try done. injection H as <-.
    destruct (above_keeps _ _ _ _ Hwf (above_listener_turn _ _ _) Hr). by eexists. }
  destruct e; try done; destruct (take_op _ _) as [[x rest]|]; try done; cbn [mbind option_bind] in Hdo.
  - injection Hdo as Hdo. by eapply Hp.
  - destruct (nb_from nb); [done|]. injection Hdo as Hdo. by eapply Hp.
  - injection Hdo as Hdo. by eapply Hl.
  - destruct (nb_to nb); [done|]. injection Hdo as Hdo. by eapply Hl.
Qed.
End frame.

(** ** The invariant *)
Section facts.
Context {sod : Sodium} {clk : Clock} {pb : Protobuf} {un : Uninit} {st : Stray} {rd : Reading} {ok : SodiumOk sod} {pbok : ProtobufOk pb}.
Context (fuel : nat) (sockfd : Z) (vs : nat -> visitor) (psock : nat -> Z) (b : positive) (r : nat).

Abbreviation stage_of i q cl := (stage (v_sh (vs i)) q cl r (v_fd (vs i)) b (rng (v_mem (vs i)))).

(** Server and client in session, when there is one. *)
Definition session_at (ids : list (positive * positive)) (nw : network) : Prop :=
  match nw_cur nw with
  | None => exists q cl, between b r q cl ids (nw_server nw) (nw_ms nw)
  | Some i => exists c q cl j, nd_msg (nw_nodes nw i) = Some c /\
      stage_of i q cl ids j (System (nw_server nw) (nw_ms nw) c (nd_mem (nw_nodes nw i)))
  end.

(** Client [k] has finished: it holds the server's messages and their block. *)
Definition finished (ids : list (positive * positive)) (nw : network) (k : nat) (c : client) : Prop :=
  length ids = CIRC_BUF_SIZE /\
  client_agrees (v_sh (vs k)) (heap (nw_ms nw)) ids (ring_root (heap (nw_ms nw)) ids) c (nd_mem (nw_nodes nw k)).

(** The connections: of a client that asks one only, with another client. *)
Definition linked (f : nat -> node) : Prop :=
  forall j fd k, nd_links (f j) !! fd = Some k ->
    lk_from k <> j /\ is_Some (nd_ask (f (lk_from k))) /\
    forall j' fd' k', nd_links (f j') !! fd' = Some k' -> lk_from k' = lk_from k -> j' = j /\ fd' = fd.

Record nwinv (ids : list (positive * positive)) (nw : network) : Prop := Nwinv {
  ni_session : session_at ids nw;
  ni_finished k c : nd_msg (nw_nodes nw k) = Some c -> nw_cur nw <> Some k -> finished ids nw k c;
  ni_mem k : wf (nd_mem (nw_nodes nw k));
  ni_new k : nd_msg (nw_nodes nw k) = None -> rng (nd_mem (nw_nodes nw k)) = rng (v_mem (vs k)) /\
    nd_links (nw_nodes nw k) = ∅ /\ nd_peer (nw_nodes nw k) = peer_start (psock k);
  ni_offer j c : nd_msg (nw_nodes nw j) = Some c -> offered (psock j) (node_world (nw_nodes nw) j (sh c));
  ni_linked : linked (nw_nodes nw) }.

(** Every client can come. *)
Context (Hun : uninit_short) (Hfi : reading = exchanged) (Hf : (CIRC_BUF_SIZE <= fuel)%nat).
Context (Hvs : forall i, welcome fuel r (vs i) /\ length (buffer_BLOCK_DATA (v_sh (vs i))) = P2P_BUFFER_SIZE).

Lemma session_serving ids nw : session_at ids nw -> exists ps L, serving (nw_ms nw) (nw_server nw) b ids ps L.
Proof.
  unfold session_at. destruct (nw_cur nw) as [i|].
  - intros (c & q & cl & j & _ & Hst). destruct (stage_serving _ _ _ _ _ _ _ _ _ _ Hst) as (ps & L & H). by exists ps, L.
  - intros (q & cl & ps & L & H & _). by exists ps, L.
Qed.

Lemma session_minted ids nw : session_at ids nw -> minted r (nw_ms nw) ids.
Proof.
  unfold session_at. destruct (nw_cur nw) as [i|].
  - intros (c & q & cl & j & _ & Hst). exact (stage_minted _ _ _ _ _ _ _ _ _ _ Hst).
  - intros (q & cl & ps & L & _ & _ & _ & _ & Hmd). done.
Qed.

(** A connected client publishes, or will. *)
Lemma joined_possible ids nw j c : nwinv ids nw -> nd_msg (nw_nodes nw j) = Some c -> exists pub blk date, possible (sh c) pub blk date.
Proof.
  intros Hn Hj. destruct (Hvs j) as [_ Hl]. destruct (decide (nw_cur nw = Some j)) as [Hc|Hc].
  - pose proof (ni_session _ _ Hn) as Hs. unfold session_at in Hs. rewrite Hc in Hs. destruct Hs as (c' & q & cl & k & Hj' & Hst).
    assert (c' = c) as -> by congruence. exact (stage_possible _ Hl _ _ _ _ _ _ _ _ _ Hst).
  - destruct (ni_finished _ _ Hn j c Hj Hc) as [_ Hag]. destruct (agrees_possible _ Hl _ _ _ _ _ Hag) as (i & t & _ & Hp). by do 3 eexists.
Qed.

(** The server's later turns leave the finished clients agreed. *)
Lemma finished_later ids ids' sv ps L ms nw nw' k c :
  nw_ms nw = ms -> serving ms sv b ids ps L -> later b ids ms ids' (nw_ms nw') -> (length ids' <= CIRC_BUF_SIZE)%nat ->
  nd_mem (nw_nodes nw' k) = nd_mem (nw_nodes nw k) -> finished ids nw k c -> finished ids' nw' k c.
Proof.
  intros <- Hsv [Hpre Hex] Hle Hm [Hl Hag]. assert (ids' = ids) as -> by (symmetry; apply prefix_length_eq; [done|lia]).
  split; [done|]. rewrite Hm. by eapply client_agrees_later.
Qed.

(** ** Turns of the peer-to-peer threads *)

(** Every message thread finds what it left. *)
Definition undisturbed (f f' : nat -> node) : Prop :=
  forall k, nd_msg (f' k) = nd_msg (f k) /\ keeps [] (nd_mem (f k)) (nd_mem (f' k)) /\ rng (nd_mem (f' k)) = rng (nd_mem (f k)).

Lemma session_undisturbed ids sv ms f f' cur :
  undisturbed f f' -> session_at ids (Network sv ms f cur) -> session_at ids (Network sv ms f' cur).
Proof.
  intros Hu. unfold session_at. cbn [nw_cur nw_nodes nw_server nw_ms]. destruct cur as [i|]; [|done]. destruct (Hu i) as (Hm & Hk & Hr).
  intros (c & q & cl & j & Hi & Hst). exists c, q, cl, j. split; [congruence|]. exact (stage_keeps _ _ _ _ _ _ _ _ _ _ _ Hst Hk Hr).
Qed.

Lemma finished_undisturbed ids sv ms f f' cur k c :
  undisturbed f f' -> wf (nd_mem (f k)) -> finished ids (Network sv ms f cur) k c -> finished ids (Network sv ms f' cur) k c.
Proof. intros Hu Hwf [Hl Hag]. destruct (Hu k) as (_ & Hk & _). split; [done|]. by eapply client_agrees_keeps. Qed.

(** The nodes after a turn on connection [fd] between [j], which offers, and [i], which asks. *)
Definition talked (i j : nat) (fd : Z) (w : world) (nb : neighbour) (f : nat -> node) : nat -> node :=
  set_ask i (nb_list nb) (nb_mem nb) (set_offer j (w_peer w) (w_mem w) (<[fd := Link i (nb_to nb) (nb_from nb)]> (nd_links (f j))) f).

Lemma talked_asking i j fd w nb f : i <> j ->
  talked i j fd w nb f i = MkNode (nd_msg (f i)) (nb_mem nb) (nd_peer (f i)) (nd_links (f i)) (Some (nb_list nb)).
Proof. intros Hij. unfold talked, set_ask, set_offer, set_node. by rewrite decide_True, decide_False. Qed.

Lemma talked_offering i j fd w nb f : i <> j ->
  talked i j fd w nb f j = MkNode (nd_msg (f j)) (w_mem w) (w_peer w) (<[fd := Link i (nb_to nb) (nb_from nb)]> (nd_links (f j))) (nd_ask (f j)).
Proof. intros Hij. unfold talked, set_ask, set_offer, set_node. by rewrite decide_False, decide_True. Qed.

Lemma talked_other i j fd w nb f k : k <> i -> k <> j -> talked i j fd w nb f k = f k.
Proof. intros Hi Hj. unfold talked, set_ask, set_offer, set_node. by rewrite !decide_False. Qed.

(** A client whose own connections did not change. *)
Lemma offered_elsewhere f f' j shr :
  nd_peer (f' j) = nd_peer (f j) -> nd_links (f' j) = nd_links (f j) ->
  (forall fd k, nd_links (f j) !! fd = Some k -> nd_ask (f' (lk_from k)) = nd_ask (f (lk_from k)) /\
     spares (nd_mem (f (lk_from k))) (nd_mem (f' (lk_from k)))) ->
  offered (psock j) (node_world f j shr) -> offered (psock j) (node_world f' j shr).
Proof.
  intros Hp Hl Hk Hof. unfold node_world. rewrite Hp, Hl. eapply offered_same; [exact Hof|..].
  - intros fd nb'. rewrite !lookup_fmap. destruct (nd_links (f j) !! fd) as [k|] eqn:Hfd; [|done]. cbn [fmap option_fmap option_map]. intros [= <-].
    eexists. split; [done|]. destruct (Hk fd k Hfd) as [Ha Hs]. unfold far_end. rewrite Ha. by repeat split.
  - intros fd. rewrite !lookup_fmap. by destruct (nd_links (f j) !! fd).
Qed.

Section talk.
Context (f : nat -> node) (i j : nat) (fd : Z) (w : world) (nb : neighbour).
Context (Hij : i <> j) (Hlk : linked f).
Context (Honly : forall j' fd' k', nd_links (f j') !! fd' = Some k' -> lk_from k' = i -> j' = j /\ fd' = fd).

Lemma talked_undisturbed :
  (forall k, wf (nd_mem (f k))) -> keeps [] (nd_mem (f i)) (nb_mem nb) -> rng (nb_mem nb) = rng (nd_mem (f i)) ->
  keeps [] (nd_mem (f j)) (w_mem w) -> rng (w_mem w) = rng (nd_mem (f j)) -> undisturbed f (talked i j fd w nb f).
Proof.
  intros Hwf Hki Hri Hkj Hrj k. destruct (decide (k = i)) as [->|Hi]; [by rewrite talked_asking|].
  destruct (decide (k = j)) as [->|Hj]; [by rewrite talked_offering|]. rewrite talked_other by done. split_and!; [done|by apply keeps_refl|done].
Qed.

Lemma talked_linked : linked (talked i j fd w nb f).
Proof.
  assert (forall j' fd' k', nd_links (talked i j fd w nb f j') !! fd' = Some k' ->
    (j' = j /\ fd' = fd /\ lk_from k' = i) \/ (~ (j' = j /\ fd' = fd) /\ nd_links (f j') !! fd' = Some k')) as Hcase.
  { intros j' fd' k' H. destruct (decide (j' = j)) as [->|Hj].
    - rewrite talked_offering in H by done. cbn [nd_links] in H. destruct (decide (fd' = fd)) as [->|Hfd].
      + rewrite lookup_insert_eq in H. injection H as <-. by left.
      + rewrite lookup_insert_ne in H by done. right. split; [naive_solver|done].
    - right. split; [naive_solver|]. destruct (decide (j' = i)) as [->|Hi]; [by rewrite talked_asking in H|by rewrite talked_other in H]. }
  assert (forall k, is_Some (nd_ask (f k)) \/ k = i -> is_Some (nd_ask (talked i j fd w nb f k))) as Hask.
  { intros k [H|H]; (destruct (decide (k = i)) as [->|Hi]; [rewrite talked_asking by done; by eexists|]); [|done].
    destruct (decide (k = j)) as [->|Hj]; [by rewrite talked_offering|by rewrite talked_other]. }
  intros j' fd' k' H. destruct (Hcase _ _ _ H) as [(-> & -> & Hk)|[Hne H0]].
  - rewrite Hk. split_and!; [done|apply Hask; by right|]. intros j2 fd2 k2 H2 Heq.
    destruct (Hcase _ _ _ H2) as [(-> & -> & _)|[Hne2 H3]]; [done|]. by apply (Honly _ _ _ H3).
  - destruct (Hlk _ _ _ H0) as (Hj' & Ha & Hu). split_and!; [done|apply Hask; by left|]. intros j2 fd2 k2 H2 Heq.
    destruct (Hcase _ _ _ H2) as [(-> & -> & Hk2)|[_ H3]]; [|by apply (Hu _ _ _ H3)]. exfalso. apply Hne. apply (Honly _ _ _ H0). congruence.
Qed.

(** Client [j] sees what its turn left. *)
Lemma talked_world shr : w_sh w = shr -> w_nbs w = <[fd := nb]> (w_nbs (node_world f j shr)) -> node_world (talked i j fd w nb f) j shr = w.
Proof.
  intros Hsh Hnbs. destruct w as [p m nbs shr'] eqn:Hw. cbn [w_sh w_nbs] in *. subst shr' nbs. unfold node_world at 1.
  rewrite talked_offering by done. cbn [nd_peer nd_mem nd_links w_peer w_mem]. f_equal. apply map_eq. intros fd'.
  rewrite lookup_fmap. destruct (decide (fd' = fd)) as [->|Hne].
  - rewrite !lookup_insert_eq. cbn [fmap option_fmap option_map]. f_equal. unfold far_end. cbn [lk_from lk_to lk_back]. rewrite talked_asking by done.
    by destruct nb.
  - rewrite !lookup_insert_ne by done. cbn [node_world w_nbs]. rewrite lookup_fmap. destruct (nd_links (f j) !! fd') as [k|] eqn:Hk; [|done].
    cbn [fmap option_fmap option_map]. f_equal. unfold far_end. destruct (Hlk _ _ _ Hk) as (Hkj & _).
    rewrite talked_other; [done| |done]. intros Hki. apply Hne. by apply (Honly _ _ _ Hk).
Qed.
End talk.

(** A turn of the offering thread of [j] or of the asking thread of [i]. *)
Lemma p2p_step ids sv ms f cur i j fd c ev r2 :
  nwinv ids (Network sv ms f cur) -> i <> j -> nd_msg (f j) = Some c -> fair_event ev -> ev <> Unlock ->
  (forall j' fd' k', nd_links (f j') !! fd' = Some k' -> lk_from k' = i -> j' = j /\ fd' = fd) ->
  world_do (psock j) (sh c) ev (node_world f j (sh c)) = Some r2 ->
  (forall w, r2 = Ok w -> exists nb, w_nbs w = <[fd := nb]> (w_nbs (node_world f j (sh c))) /\
     keeps [] (nd_mem (f i)) (nb_mem nb) /\ rng (nb_mem nb) = rng (nd_mem (f i))) ->
  exists w nb, r2 = Ok w /\ w_nbs w = <[fd := nb]> (w_nbs (node_world f j (sh c))) /\
    nwinv ids (Network sv ms (talked i j fd w nb f) cur) /\ node_world (talked i j fd w nb f) j (sh c) = w /\
    forall pub blk date, possible (sh c) pub blk date -> moves (psock j) pub blk date ev (node_world f j (sh c)) w.
Proof.
  intros Hn Hij Hj Hev Hne Honly Hdo Hnb. pose proof Hn as [Hse Hfin Hmem Hnew Hof Hlk]. cbn [nw_nodes nw_cur] in *.
  destruct (offered_step (psock j) Hfi _ ev _ r2 (Hof j c Hj) (joined_possible _ _ j c Hn Hj) (Hmem j) Hev Hne Hdo) as (w & -> & Hofw & Hkj & Hrj & Hshw & Hmv).
  destruct (Hnb w eq_refl) as (nb & Hnbs & Hki & Hri). exists w, nb. split; [done|]. split; [done|].
  pose proof (talked_undisturbed f i j fd w nb Hij Hmem Hki Hri Hkj Hrj) as Hu. pose proof (talked_world f i j fd w nb Hij Hlk Honly (sh c) Hshw Hnbs) as Hww.
  split; [|done]. set (f' := talked i j fd w nb f) in *. split; cbn [nw_nodes nw_cur].
  - by eapply session_undisturbed.
  - intros k c' Hk Hcur. destruct (Hu k) as (Hm & _). apply (finished_undisturbed ids sv ms f f' cur k c' Hu (Hmem k)). apply Hfin; [congruence|done].
  - intros k. destruct (Hu k) as (_ & Hk & _). exact (kp_wf _ _ _ Hk).
  - intros k Hk. destruct (Hu k) as (Hm & _ & Hr). destruct (Hnew k) as (H1 & H2 & H3); [congruence|]. split; [congruence|].
    assert (k <> j) as Hkj' by congruence. unfold f'. destruct (decide (k = i)) as [->|Hki']; [by rewrite talked_asking|by rewrite talked_other].
  - intros j2 c2 Hj2. destruct (Hu j2) as (Hm & _). destruct (decide (j2 = j)) as [->|Hne2].
    + assert (c2 = c) as -> by congruence. by rewrite Hww.
    + assert (nd_peer (f' j2) = nd_peer (f j2) /\ nd_links (f' j2) = nd_links (f j2)) as [Hp Hl]
        by (unfold f'; destruct (decide (j2 = i)) as [->|Hi2]; [by rewrite talked_asking|by rewrite talked_other]).
      apply (offered_elsewhere f f' j2); [done|done| |apply Hof; congruence]. intros fd2 k Hk.
      assert (lk_from k <> i) as Hki' by (intros Hk'; by destruct (Honly _ _ _ Hk Hk')). destruct (Hu (lk_from k)) as (_ & Hkk & _). split; [|by apply keeps_spares].
      unfold f'. destruct (decide (lk_from k = j)) as [->|Hkj']; [by rewrite talked_offering|by rewrite talked_other].
  - by apply talked_linked.
Qed.

(** Newcomers have descriptors within the arrays. *)
Definition fair_nw (ev : nwev) : Prop := match ev with NwConnect _ _ fd q => peer_fd fd /\ 0 <= q < 2 ^ 31 | _ => True end.

Abbreviation nwdo := (nw_do fuel sockfd vs psock).

Lemma connect_step ids nw i j fd q r2 :
  nwinv ids nw -> peer_fd fd -> 0 <= q < 2 ^ 31 -> nwdo (NwConnect i j fd q) nw = Some r2 -> exists nw', r2 = Ok nw' /\ nwinv ids nw'.
Proof.
  intros Hn Hfd Hq Hdo. destruct nw as [sv ms f cur]. cbn [nw_do nw_nodes nw_server nw_ms nw_cur] in Hdo.
  destruct (decide (i = j)) as [|Hij]; [done|]. destruct (nd_ask (f i)) as [l|] eqn:Hi; [done|]. destruct (nd_msg (f j)) as [c|] eqn:Hj; [|done].
  destruct (world_do (psock j) (sh c) (Arrive fd q (nd_mem (f i))) (node_world f j (sh c))) as [r1|] eqn:Hw; [|done]. apply (inj Some) in Hdo as <-.
  destruct (p2p_step ids sv ms f cur i j fd c _ r1 Hn Hij Hj (conj Hfd Hq : fair_event (Arrive fd q (nd_mem (f i)))) ltac:(done)) as (w & nb & -> & Hnbs & Hn' & _); [|exact Hw| |].
  - intros j' fd' k' Hk Hk'. destruct (ni_linked _ _ Hn _ _ _ Hk) as (_ & [l Ha] & _). cbn [nw_nodes] in Ha. rewrite Hk', Hi in Ha. done.
  - intros w ->. destruct (arrive_joins _ _ _ _ _ _ _ Hw) as [_ ->]. eexists. split; [done|]. split; [|done]. apply keeps_refl. exact (ni_mem _ _ Hn i).
  - destruct (arrive_joins _ _ _ _ _ _ _ Hw) as [_ Hnbs']. rewrite Hnbs' in Hnbs. assert (nb = Nb (listener_start q) (nd_mem (f i)) [] []) as ->.
    { apply (f_equal (lookup fd)) in Hnbs. rewrite !lookup_insert_eq in Hnbs. by injection Hnbs. }
    eexists. split; [done|]. exact Hn'.
Qed.

Lemma talk_step ids nw j fd e k c r2 :
  nwinv ids nw -> nd_links (nw_nodes nw j) !! fd = Some k -> nd_msg (nw_nodes nw j) = Some c -> nwdo (NwTalk j fd e) nw = Some r2 ->
  exists nw' k', r2 = Ok nw' /\ nwinv ids nw' /\ nd_links (nw_nodes nw' j) !! fd = Some k' /\ lk_from k' = lk_from k /\
    nd_msg (nw_nodes nw' j) = Some c /\
    forall blk date p, published (sh c) blk date ->
      stands (psock j) (sh c) blk date (node_world (nw_nodes nw) j (sh c)) fd (far_end (nw_nodes nw) k) p ->
      exists p', stands (psock j) (sh c) blk date (node_world (nw_nodes nw') j (sh c)) fd (far_end (nw_nodes nw') k') p' /\ (rank p' < rank p)%nat.
Proof.
  intros Hn Hk Hj Hdo. destruct nw as [sv ms f cur]. cbn [nw_do nw_nodes nw_server nw_ms nw_cur] in *.
  rewrite Hk in Hdo. cbn [mbind option_bind] in Hdo. rewrite Hj in Hdo. cbn [mbind option_bind] in Hdo.
  destruct (world_do (psock j) (sh c) (At fd e) (node_world f j (sh c))) as [r1|] eqn:Hw; [|done]. apply (inj Some) in Hdo as <-.
  destruct (ni_linked _ _ Hn _ _ _ Hk) as (Hij & _ & Hu). cbn [nw_nodes] in Hu. pose proof (ni_mem _ _ Hn) as Hmem. cbn [nw_nodes] in Hmem.
  assert (w_nbs (node_world f j (sh c)) !! fd = Some (far_end f k)) as Hfar by (cbn [node_world w_nbs]; by rewrite lookup_fmap, Hk).
  destruct (p2p_step ids sv ms f cur (lk_from k) j fd c _ r1 Hn Hij Hj (I : fair_event (At fd e)) ltac:(done) Hu Hw) as (w & nb & -> & Hnbs & Hn' & Hww & Hmv).
  { intros w ->. eapply (world_do_at (psock j) _ fd e _ w (far_end f k)); [exact Hw|exact Hfar|apply Hmem]. }
  cbn [rbind]. rewrite Hnbs, lookup_insert_eq. cbn [default Datatypes.id]. change (set_ask _ _ _ _) with (talked (lk_from k) j fd w nb f).
  eexists _, (Link (lk_from k) (nb_to nb) (nb_from nb)). split; [done|]. cbn [nw_nodes]. split; [done|]. rewrite talked_offering by done. cbn [nd_links nd_msg].
  split; [apply lookup_insert_eq|]. split; [done|]. split; [done|]. intros blk date p Hpub Hst.
  destruct (Hmv _ _ _ (conj Hpub (or_introl eq_refl))) as (_ & _ & Hm). destruct (Hm fd _ p Hfar Hst) as (nb' & p' & H1 & H2 & H3).
  specialize (H3 eq_refl). cbn [weight] in H3. rewrite decide_True in H3 by done. exists p'. split; [|lia]. rewrite Hww.
  assert (far_end (talked (lk_from k) j fd w nb f) (Link (lk_from k) (nb_to nb) (nb_from nb)) = nb') as ->; [|done].
  rewrite Hnbs, lookup_insert_eq in H1. injection H1 as <-. unfold far_end. cbn [lk_from lk_to lk_back]. rewrite talked_asking by done. by destruct nb.
Qed.

(** ** Turns of the server and the message threads *)

Lemma set_msg_self i c m f : set_msg i c m f i = MkNode (Some c) m (nd_peer (f i)) (nd_links (f i)) (nd_ask (f i)).
Proof. unfold set_msg, set_node. by rewrite decide_True. Qed.

Lemma set_msg_other i c m f k : k <> i -> set_msg i c m f k = f k.
Proof. intros Hk. unfold set_msg, set_node. by rewrite decide_False. Qed.

(** A message thread's turn changes its own memory and state only. *)
Lemma set_msg_fields i c m f k :
  nd_peer (set_msg i c m f k) = nd_peer (f k) /\ nd_links (set_msg i c m f k) = nd_links (f k) /\ nd_ask (set_msg i c m f k) = nd_ask (f k).
Proof. destruct (decide (k = i)) as [->|Hk]; [by rewrite set_msg_self|by rewrite set_msg_other]. Qed.

Lemma set_msg_spares i c m f k : spares (nd_mem (f i)) m -> spares (nd_mem (f k)) (nd_mem (set_msg i c m f k)).
Proof. intros Hs. destruct (decide (k = i)) as [->|Hk]; [by rewrite set_msg_self|rewrite set_msg_other by done; by intros x blks]. Qed.

Lemma linked_fields f f' :
  (forall k, nd_links (f' k) = nd_links (f k) /\ nd_ask (f' k) = nd_ask (f k)) -> linked f -> linked f'.
Proof.
  intros Hf' Hl j fd k. destruct (Hf' j) as [-> _]. intros Hk. destruct (Hl j fd k Hk) as (H1 & H2 & H3). split_and!; [done|by destruct (Hf' (lk_from k)) as [_ ->]|].
  intros j' fd' k'. destruct (Hf' j') as [-> _]. apply H3.
Qed.

Lemma message_step ids ids' q cl n sv ms f cur sv' ms' i c m :
  nwinv ids (Network sv ms f cur) -> cur = None \/ cur = Some i -> later b ids ms ids' ms' ->
  stage_of i q cl ids' n (System sv' ms' c m) -> spares (nd_mem (f i)) m ->
  offered (psock i) (World (nd_peer (f i)) m (far_end f <$> nd_links (f i)) (sh c)) ->
  nwinv ids' (Network sv' ms' (set_msg i c m f) (Some i)).
Proof.
  intros Hn Hcur Hlat Hst Hsp Hofi. pose proof Hn as [Hse Hfin Hmem Hnew Hof Hlk]. cbn [nw_nodes nw_cur nw_ms nw_server] in *.
  destruct (session_serving _ _ Hse) as (ps & L & Hsv). cbn [nw_ms nw_server] in Hsv.
  destruct (stage_serving _ _ _ _ _ _ _ _ _ _ Hst) as (ps' & L' & Hsv'). pose proof (sv_len _ _ _ _ _ _ Hsv') as [_ Hle].
  split; cbn [nw_nodes nw_cur].
  - unfold session_at. cbn [nw_nodes nw_cur nw_ms nw_server]. exists c, q, cl, n. rewrite set_msg_self. by split.
  - intros k c' Hk Hne. assert (k <> i) as Hki by congruence. rewrite set_msg_other in Hk by done.
    apply (finished_later ids ids' sv ps L ms (Network sv ms f cur) _ k c'); try done; [cbn [nw_nodes]; by rewrite set_msg_other|].
    apply Hfin; [done|]. cbn [nw_cur]. destruct Hcur as [->| ->]; congruence.
  - intros k. destruct (decide (k = i)) as [->|Hki]; [rewrite set_msg_self; exact (stage_wf _ _ _ _ _ _ _ _ _ _ Hst)|rewrite set_msg_other by done; apply Hmem].
  - intros k Hk. destruct (decide (k = i)) as [->|Hki]; [by rewrite set_msg_self in Hk|]. rewrite set_msg_other in Hk |- * by done. by apply Hnew.
  - assert (forall j shr, offered (psock j) (node_world f j shr) -> offered (psock j) (node_world (set_msg i c m f) j shr)) as Helse.
    { intros j shr. destruct (set_msg_fields i c m f j) as (H1 & H2 & _). apply offered_elsewhere; [done|done|]. intros fd k _.
      destruct (set_msg_fields i c m f (lk_from k)) as (_ & _ & H3). split; [done|by apply set_msg_spares]. }
    intros j c' Hj. destruct (decide (j = i)) as [->|Hji].
    + rewrite set_msg_self in Hj. injection Hj as <-. unfold node_world. rewrite set_msg_self. cbn [nd_peer nd_mem nd_links].
      replace (far_end (set_msg i c m f) <$> nd_links (f i)) with (far_end f <$> nd_links (f i)); [exact Hofi|].
      apply map_fmap_ext. intros fd k Hk. destruct (Hlk _ _ _ Hk) as (Hki & _). unfold far_end. by rewrite set_msg_other.
    + rewrite set_msg_other in Hj by done. by apply Helse, Hof.
  - eapply linked_fields; [|exact Hlk]. intros k. destruct (set_msg_fields i c m f k) as (_ & H2 & H3). by split.
Qed.

(** Where the session with client [i] stands. *)
Definition in_session (ids : list (positive * positive)) (nw : network) (i n : nat) : Prop :=
  exists c q cl, nw_cur nw = Some i /\ nd_msg (nw_nodes nw i) = Some c /\
    stage_of i q cl ids n (System (nw_server nw) (nw_ms nw) c (nd_mem (nw_nodes nw i))).

Lemma join_step ids nw i :
  nwinv ids nw -> nw_cur nw = None -> nd_msg (nw_nodes nw i) = None ->
  exists nw', nwdo (NwJoin i) nw = Some (Ok nw') /\ nwinv ids nw' /\ in_session ids nw' i 0.
Proof.
  intros Hn Hcur Hi. destruct nw as [sv ms f cur]. cbn [nw_cur nw_nodes] in Hcur, Hi. subst cur.
  cbn [nw_do nw_nodes nw_server nw_ms nw_cur]. rewrite Hi. cbn iota.
  destruct (Hvs i) as [(Hfd & _ & _) _]. destruct (ni_session _ _ Hn) as (q & cl & ps & L & Hsv & Hc & Hq & Hcl & Hmd).
  pose proof (ni_mem _ _ Hn i) as Hwf. destruct (ni_new _ _ Hn i Hi) as (Hr & Hlinks & Hpeer). cbn [nw_nodes nw_server nw_ms] in *.
  destruct (join_asking Hun (v_sh (vs i)) q cl r fuel sockfd (v_fd (vs i)) (v_s (vs i)) b ids ps L sv ms (nd_mem (f i)) Hsv Hc Hq Hcl Hmd Hwf Hfd)
    as (y & -> & Hlat & Hk & a & bufs & Ha). rewrite Hr in Ha. cbn [rbind]. eexists. split; [done|].
  pose proof Ha as (t & Hro). pose proof (ro_shared _ _ _ _ _ _ _ _ _ _ _ _ _ _ Hro) as Hsh.
  assert (stage_of i q cl ids 0 y) as Hst by (apply (St_asking _ _ _ _ _ _ _ _ ids 0 a bufs Ha); unfold CIRC_BUF_SIZE; lia). split.
  - eapply (message_step ids ids q cl 0 sv ms f None); [exact Hn|by left|exact Hlat|by destruct y|by apply keeps_spares|].
    rewrite Hlinks, Hpeer, fmap_empty, Hsh. by apply offered_start.
  - exists (sy_c y), q, cl. cbn [nw_cur nw_nodes nw_server nw_ms]. rewrite set_msg_self. cbn [nd_msg nd_mem]. by destruct y.
Qed.

(** The connections are what they were. *)
Definition same_links (f f' : nat -> node) : Prop := forall k, nd_links (f' k) = nd_links (f k) /\ nd_ask (f' k) = nd_ask (f k).

Lemma exchange_step ids nw i n :
  nwinv ids nw -> in_session ids nw i n -> (n < 1024)%nat ->
  exists nw' ids', nwdo NwServe nw = Some (Ok nw') /\ nwinv ids' nw' /\ in_session ids' nw' i (S n) /\ same_links (nw_nodes nw) (nw_nodes nw').
Proof.
  intros Hn (c & q & cl & Hcur & Hi & Hst) Hj. destruct nw as [sv ms f cur]. cbn [nw_cur nw_nodes nw_server nw_ms] in *. subst cur.
  cbn [nw_do nw_nodes nw_server nw_ms nw_cur mbind option_bind]. rewrite Hi. cbn [mbind option_bind].
  pose proof (stage_filled _ _ _ _ _ _ _ _ _ _ Hst) as Hfl. cbn [sy_c] in Hfl. rewrite Hfl, bool_decide_true by done. destruct (Hvs i) as [(Hfd & _ & Hsol) _].
  destruct (stage_exchange Hun _ _ _ _ _ _ _ fuel sockfd ids n _ Hst Hj Hfd Hf Hsol) as (y & ids' & -> & Hlat & Hst' & Hsp).
  cbn [sy_ms sy_mc] in Hlat, Hsp. cbn [rbind]. exists (Network (sy_s y) (sy_ms y) (set_msg i (sy_c y) (sy_mc y) f) (Some i)), ids'. split; [done|].
  pose proof (stage_locked _ _ _ _ _ _ _ _ _ _ Hst Hj) as Hs. cbn [sy_c] in Hs. split_and!.
  - eapply (message_step ids ids' q cl (S n) sv ms f (Some i)); [exact Hn|by right|exact Hlat|by destruct y|exact Hsp|].
    eapply (offered_serve (psock i) Hfi _ (nd_mem (f i)) _ _ (sh c)); [exact (ni_offer _ _ Hn i c Hi)|by rewrite Hs|].
    destruct (decide (S n < 1024)%nat) as [Hj'|Hj'].
    + left. by rewrite (stage_locked _ _ _ _ _ _ _ _ _ _ Hst' Hj').
    + right. destruct (stage_final _ _ _ _ _ _ _ _ _ _ Hst') as (_ & _ & i' & t & _ & _ & _ & _ & ->); [lia|done].
  - exists (sy_c y), q, cl. cbn [nw_cur nw_nodes nw_server nw_ms]. rewrite set_msg_self. cbn [nd_msg nd_mem]. by destruct y.
  - intros k. cbn [nw_nodes]. by destruct (set_msg_fields i (sy_c y) (sy_mc y) f k) as (_ & H1 & H2).
Qed.

Lemma close_step ids nw i :
  nwinv ids nw -> in_session ids nw i 1024 ->
  exists nw' c, nwdo NwClose nw = Some (Ok nw') /\ nwinv ids nw' /\ nd_msg (nw_nodes nw' i) = Some c /\ flag_block_filled c <> 0 /\
    nw_nodes nw' = nw_nodes nw.
Proof.
  intros Hn (c & q & cl & Hcur & Hi & Hst). destruct nw as [sv ms f cur]. pose proof Hn as [_ Hfin Hmem Hnew Hof Hlk].
  cbn [nw_nodes nw_server nw_ms nw_cur] in *. subst cur. cbn [nw_do nw_nodes nw_server nw_ms nw_cur mbind option_bind]. rewrite Hi. cbn [mbind option_bind].
  pose proof (stage_filled _ _ _ _ _ _ _ _ _ _ Hst) as Hfl. cbn [sy_c] in Hfl. rewrite Hfl, bool_decide_false by lia. destruct (Hvs i) as [(Hfd & _ & _) _].
  destruct (stage_final _ _ _ _ _ _ _ _ _ _ Hst) as (Hl & _ & Hag); [lia|]. cbn [sy_ms sy_c sy_mc] in Hag.
  destruct (stage_closing _ _ _ _ _ _ _ _ _ _ Hst) as (ps & L & Hsv & Hc & Hbl & Hla & Hsh & Hmd); [lia|]. cbn [sy_ms sy_s] in Hsv.
  destruct (close_turn fuel sockfd b r (v_fd (vs i)) (S q) cl ids ps L sv ms Hfd Hsv Hc Hbl Hla Hsh Hmd) as (sv' & -> & Hbt).
  cbn [rbind]. eexists _, c. split; [done|]. cbn [nw_nodes]. split; [|split; [done|split; [by apply Z.eqb_neq; rewrite Hfl, bool_decide_false by lia|done]]].
  split; cbn [nw_nodes nw_cur]; [by exists (S q), (cl ++ [v_fd (vs i)])| |done|done|done|done].
  intros k c' Hk _. destruct (decide (k = i)) as [->|Hne]; [|by apply Hfin; [|congruence]].
  assert (c' = c) as -> by congruence. by split.
Qed.

(** ** Runs *)

Lemma session_going ids nw : nwinv ids nw -> nw_cur nw = None \/ exists i n, in_session ids nw i n.
Proof.
  intros Hn. pose proof (ni_session _ _ Hn) as Hs. unfold session_at in Hs. destruct (nw_cur nw) as [i|] eqn:Hc; [|by left].
  destruct Hs as (c & q & cl & n & Hi & Hst). right. exists i, n, c, q, cl. done.
Qed.

Lemma nw_step ids ev nw r2 :
  nwinv ids nw -> fair_nw ev -> nwdo ev nw = Some r2 -> exists nw' ids', r2 = Ok nw' /\ nwinv ids' nw'.
Proof.
  intros Hn Hev Hdo. destruct ev as [i| | |i j fd q|j fd e].
  - assert (nw_cur nw = None /\ nd_msg (nw_nodes nw i) = None) as [Hc Hi] by (cbn [nw_do] in Hdo; by destruct (nw_cur nw), (nd_msg (nw_nodes nw i))).
    destruct (join_step ids nw i Hn Hc Hi) as (nw' & H1 & H2 & _). rewrite H1 in Hdo. injection Hdo as <-. by exists nw', ids.
  - destruct (session_going ids nw Hn) as [Hc|(i & n & Hse)]; [cbn [nw_do] in Hdo; by rewrite Hc in Hdo|].
    assert (n < 1024)%nat as Hj.
    { destruct Hse as (c & q & cl & Hc & Hi & Hst). cbn [nw_do] in Hdo. rewrite Hc in Hdo. cbn [mbind option_bind] in Hdo. rewrite Hi in Hdo. cbn [mbind option_bind] in Hdo.
      pose proof (stage_filled _ _ _ _ _ _ _ _ _ _ Hst) as Hfl. cbn [sy_c] in Hfl. rewrite Hfl in Hdo. by case_bool_decide. }
    destruct (exchange_step ids nw i n Hn Hse Hj) as (nw' & ids' & H1 & H2 & _). rewrite H1 in Hdo. injection Hdo as <-. by exists nw', ids'.
  - destruct (session_going ids nw Hn) as [Hc|(i & n & Hse)]; [cbn [nw_do] in Hdo; by rewrite Hc in Hdo|].
    assert (n = 1024)%nat as ->.
    { destruct Hse as (c & q & cl & Hc & Hi & Hst). cbn [nw_do] in Hdo. rewrite Hc in Hdo. cbn [mbind option_bind] in Hdo. rewrite Hi in Hdo. cbn [mbind option_bind] in Hdo.
      pose proof (stage_filled _ _ _ _ _ _ _ _ _ _ Hst) as Hfl. pose proof (stage_bound _ _ _ _ _ _ _ _ _ _ Hst). cbn [sy_c] in Hfl. rewrite Hfl in Hdo.
      case_bool_decide; [done|lia]. }
    destruct (close_step ids nw i Hn Hse) as (nw' & c & H1 & H2 & _). rewrite H1 in Hdo. injection Hdo as <-. by exists nw', ids.
  - destruct Hev as [Hfd Hq]. destruct (connect_step ids nw i j fd q r2 Hn Hfd Hq Hdo) as (nw' & H). by exists nw', ids.
  - pose proof Hdo as H. cbn [nw_do] in H. destruct (nd_links (nw_nodes nw j) !! fd) as [k|] eqn:Hk; [|done]. cbn [mbind option_bind] in H.
    destruct (nd_msg (nw_nodes nw j)) as [c|] eqn:Hj; [|done]. destruct (talk_step ids nw j fd e k c r2 Hn Hk Hj Hdo) as (nw' & k' & H1 & H2 & _).
    by exists nw', ids.
Qed.

Abbreviation nwrun := (nw_run fuel sockfd vs psock).

Lemma nw_run_inv es ids nw r2 :
  nwinv ids nw -> Forall fair_nw es -> nwrun es nw = Some r2 -> exists nw' ids', r2 = Ok nw' /\ nwinv ids' nw'.
Proof.
  intros Hn Hes. revert ids nw Hn. induction Hes as [|ev es Hev Hes IH]; intros ids nw Hn Hr; cbn [nw_run] in Hr.
  - apply (inj Some) in Hr as <-. by exists nw, ids.
  - destruct (nwdo ev nw) as [r1|] eqn:Hdo; [|done]. destruct (nw_step ids ev nw r1 Hn Hev Hdo) as (nw1 & ids1 & -> & Hn1). by eapply IH.
Qed.

Lemma nw_run_app es es' nw nw' o : nwrun es nw = Some (Ok nw') -> nwrun es' nw' = o -> nwrun (es ++ es') nw = o.
Proof.
  revert nw. induction es as [|e es IH]; intros nw Hr Hr'; [by injection Hr as <-|]. cbn [app nw_run] in *.
  destruct (nwdo e nw) as [[nw1| | |]|]; try done. by apply IH.
Qed.

(** A session that has begun can be ended. *)
Lemma session_ends k ids nw i n :
  nwinv ids nw -> in_session ids nw i n -> (n + k = 1024)%nat ->
  exists nw' ids' c, nwrun (replicate k NwServe ++ [NwClose]) nw = Some (Ok nw') /\ nwinv ids' nw' /\
    nd_msg (nw_nodes nw' i) = Some c /\ flag_block_filled c <> 0 /\ same_links (nw_nodes nw) (nw_nodes nw').
Proof.
  revert ids nw n. induction k as [|k IH]; intros ids nw n Hn Hse Hk.
  - rewrite Nat.add_0_r in Hk. subst n. destruct (close_step ids nw i Hn Hse) as (nw' & c & H1 & H2 & H3 & H4 & H5).
    exists nw', ids, c. split; [|split_and!; [done|done|done|intros j; by rewrite H5]].
    change (replicate 0 NwServe ++ [NwClose]) with [NwClose]. cbn [nw_run]. by rewrite H1.
  - destruct (exchange_step ids nw i n Hn Hse) as (nw1 & ids1 & H1 & H2 & H3 & Hl1); [lia|].
    destruct (IH ids1 nw1 (S n) H2 H3) as (nw' & ids' & c & H4 & H5 & H6 & H7 & Hl2); [lia|]. exists nw', ids', c.
    split; [|split_and!; [done|done|done|intros j; destruct (Hl1 j), (Hl2 j); split; congruence]].
    change (replicate (S k) NwServe ++ [NwClose]) with (NwServe :: (replicate k NwServe ++ [NwClose])). cbn [nw_run]. by rewrite H1.
Qed.

Lemma nw_start_inv ms :
  rng ms = r -> wf ms -> heap ms !! b = Some (BPtrs (replicate CIRC_BUF_SIZE NULL)) ->
  exists nw ids, nw_start sockfd vs psock (Ptr b 0) ms = Ok nw /\ nwinv ids nw.
Proof.
  intros Hr Hwf Hb. destruct (serving_start sockfd b ms Hwf Hb) as (sv & m0 & Hrun & id & ps & Hsv & _ & Hmd). rewrite Hr in Hmd. unfold nw_start. rewrite Hrun. cbn [rbind].
  eexists _, [id]. split; [done|]. split; cbn [nw_nodes nw_cur nd_msg nd_mem nd_links nd_peer]; try done.
  - exists 0%nat, []. by exists ps, opening.
  - intros k. apply (Hvs k).
Qed.

(** ** What holds in every configuration *)

(** A connected client has finished, or holds its mutex. *)
Lemma joined_cases ids nw k c :
  nwinv ids nw -> nd_msg (nw_nodes nw k) = Some c ->
  finished ids nw k c \/ block_created_mtx (sh c) = true /\ flag_block_filled c = 0.
Proof.
  intros Hn Hk. destruct (decide (nw_cur nw = Some k)) as [Hc|Hc]; [|left; by apply (ni_finished _ _ Hn)].
  pose proof (ni_session _ _ Hn) as Hs. unfold session_at in Hs. rewrite Hc in Hs. destruct Hs as (c' & q & cl & n & Hk' & Hst).
  assert (c' = c) as -> by congruence. destruct (decide (n < 1024)%nat) as [Hj|Hj].
  - right. pose proof (stage_locked _ _ _ _ _ _ _ _ _ _ Hst Hj) as Hs. pose proof (stage_filled _ _ _ _ _ _ _ _ _ _ Hst) as Hfl. cbn [sy_c] in Hs, Hfl.
    rewrite bool_decide_true in Hfl by done. split; [by rewrite Hs|by apply Z.eqb_eq].
  - left. destruct (stage_final _ _ _ _ _ _ _ _ _ _ Hst) as (Hl & _ & Hag); [lia|]. by split.
Qed.

(** A client's connections exist once its message thread is connected. *)
Lemma linked_joined ids nw j fd k : nwinv ids nw -> nd_links (nw_nodes nw j) !! fd = Some k -> exists c, nd_msg (nw_nodes nw j) = Some c.
Proof.
  intros Hn Hk. destruct (nd_msg (nw_nodes nw j)) as [c|] eqn:Hj; [by exists c|]. destruct (ni_new _ _ Hn j Hj) as (_ & Hl & _). by rewrite Hl in Hk.
Qed.

Abbreviation root_of ids nw := (ring_root (heap (nw_ms nw)) ids).

Lemma printed_root ids nw h : nwinv ids nw -> h ∈ printed (nw_server nw) -> h = root_of ids nw.
Proof.
  intros Hn Hin. destruct (session_serving ids nw (ni_session _ _ Hn)) as (ps & L & Hsv). rewrite (sv_printed _ _ _ _ _ _ Hsv) in Hin.
  by apply elem_of_replicate in Hin as [-> _].
Qed.

(** A full buffer holds the messages of the server's first draws. *)
Lemma full_root ids nw : nwinv ids nw -> length ids = CIRC_BUF_SIZE -> root_of ids nw = minted_root r.
Proof. intros Hn Hl. apply minted_ring_root; [|done]. by apply session_minted, ni_session. Qed.

(** The asking thread at the end of a connection, and what it may hold. *)
Lemma link_holds ids nw j fd k :
  nwinv ids nw -> nd_links (nw_nodes nw j) !! fd = Some k ->
  exists l, nd_ask (nw_nodes nw (lk_from k)) = Some l /\
    (ls_blocks l = [] \/ holds_for (root_of ids nw) l (nd_mem (nw_nodes nw (lk_from k)))) /\
    ((forall e, nwdo (NwTalk j fd e) nw = None) -> holds_for (root_of ids nw) l (nd_mem (nw_nodes nw (lk_from k)))).
Proof.
  intros Hn Hk. destruct (linked_joined ids nw j fd k Hn Hk) as [c Hj]. destruct (ni_linked _ _ Hn j fd k Hk) as (_ & [l Hl] & _).
  exists l. split; [done|]. pose proof (ni_offer _ _ Hn j c Hj) as Hof. set (w := node_world (nw_nodes nw) j (sh c)) in *.
  assert (w_nbs w !! fd = Some (far_end (nw_nodes nw) k)) as Hnb by (unfold w; cbn [node_world w_nbs]; by rewrite lookup_fmap, Hk).
  assert (nb_list (far_end (nw_nodes nw) k) = l) as Hnl by (unfold far_end; by rewrite Hl).
  assert ((forall e, nwdo (NwTalk j fd e) nw = None) -> forall pub e, world_do (psock j) pub (At fd e) w = None) as Hrest.
  { intros Hstuck pub e. specialize (Hstuck e). cbn [nw_do] in Hstuck. rewrite Hk in Hstuck. cbn [mbind option_bind] in Hstuck. rewrite Hj in Hstuck.
    cbn [mbind option_bind] in Hstuck. rewrite (world_do_pub _ pub (sh c)) by done. fold w in Hstuck. by destruct (world_do (psock j) (sh c) (At fd e) w). }
  destruct (joined_cases ids nw j c Hn Hj) as [[_ Hag]|[Hlk _]].
  - destruct (agrees_possible _ (proj2 (Hvs j)) _ _ _ _ _ Hag) as (i & t & Hs & Hp). pose proof (Hof _ _ _ Hp) as Hw. split.
    + destruct (wi_nb _ _ _ _ _ Hw fd _ Hnb) as [p Hst]. destruct (stands_block _ _ _ _ _ _ _ _ Hst) as [Hnil|[_ (x & Hx & Hh)]].
      * left. by rewrite <-Hnl.
      * right. rewrite <-Hnl. by eapply received_made_holds.
    + intros Hstuck. destruct (rest_holds _ _ _ _ _ _ _ Hw Hnb (Hrest Hstuck _)) as (x & Hx & Hh). rewrite <-Hnl. by eapply received_made_holds.
  - pose proof (unlocked_published (v_sh (vs j)) [] 0 0 (proj2 (Hvs j))) as Hpub. pose proof (Hof _ _ _ (conj Hpub (or_intror Hlk))) as Hw.
    assert (ls_blocks l = []) as Hnil.
    { destruct (wi_nb _ _ _ _ _ Hw fd _ Hnb) as [p Hst]. destruct (stands_block _ _ _ _ _ _ _ _ Hst) as [Hnil|[Hsh _]]; [by rewrite <-Hnl|].
      unfold w in Hsh. cbn [node_world w_sh] in Hsh. by rewrite Hsh in Hlk. }
    split; [by left|]. intros Hstuck. destruct (rest_holds _ _ _ _ _ _ _ Hw Hnb (Hrest Hstuck _)) as (x & Hx & _). by rewrite Hnl, Hnil in Hx.
Qed.

(** A made block can be brought to whoever asks for it. *)
Lemma link_reaches ids nw j fd k c blk date p :
  nwinv ids nw -> nd_links (nw_nodes nw j) !! fd = Some k -> nd_msg (nw_nodes nw j) = Some c -> published (sh c) blk date ->
  stands (psock j) (sh c) blk date (node_world (nw_nodes nw) j (sh c)) fd (far_end (nw_nodes nw) k) p ->
  exists es nw' k', (length es <= rank p)%nat /\ nwrun (NwTalk j fd <$> es) nw = Some (Ok nw') /\ nwinv ids nw' /\
    nd_links (nw_nodes nw' j) !! fd = Some k' /\ lk_from k' = lk_from k /\ nb_holds blk date (far_end (nw_nodes nw') k').
Proof.
  remember (rank p) as n eqn:Hrk. revert p nw k Hrk. induction n as [n IH] using lt_wf_ind. intros p nw k -> Hn Hk Hj Hpub Hst.
  destruct (decide (p = Received true)) as [->|Hne].
  { exists [], nw, k. split_and!; [cbn; lia|done|done|done|done|by eapply received_holds]. }
  assert (w_nbs (node_world (nw_nodes nw) j (sh c)) !! fd = Some (far_end (nw_nodes nw) k)) as Hnb by (cbn [node_world w_nbs]; by rewrite lookup_fmap, Hk).
  destruct (world_progress (psock j) (sh c) blk date _ fd _ p Hnb Hst Hne) as (e & r2 & He).
  destruct (nwdo (NwTalk j fd e) nw) as [r1|] eqn:Hdo;
    [|cbn [nw_do] in Hdo; rewrite Hk in Hdo; cbn [mbind option_bind] in Hdo; rewrite Hj in Hdo; cbn [mbind option_bind] in Hdo; by rewrite He in Hdo].
  destruct (talk_step ids nw j fd e k c r1 Hn Hk Hj Hdo) as (nw1 & k1 & -> & Hn1 & Hk1 & Hfrom & Hj1 & Hm).
  destruct (Hm blk date p Hpub Hst) as (p1 & Hst1 & Hlt).
  destruct (IH (rank p1) Hlt p1 nw1 k1 eq_refl Hn1 Hk1 Hj1 Hpub Hst1) as (es & nw' & k' & Hl & Hrun & Hn' & Hk' & Hf' & Hh).
  exists (e :: es), nw', k'. split_and!; [cbn; lia| |done|done|congruence|done]. cbn [fmap list_fmap nw_run]. by rewrite Hdo.
Qed.

(** Talking leaves the server alone. *)
Lemma talk_server es j fd nw nw' : nwrun (NwTalk j fd <$> es) nw = Some (Ok nw') -> nw_ms nw' = nw_ms nw.
Proof.
  revert nw. induction es as [|e es IH]; intros nw Hr; [by injection Hr as ->|]. cbn [fmap list_fmap nw_run] in Hr.
  destruct (nwdo (NwTalk j fd e) nw) as [[nw1| | |]|] eqn:Hdo; try done. rewrite (IH nw1 Hr). clear IH Hr. cbn [nw_do] in Hdo.
  destruct (nd_links _ !! fd); [|done]. cbn [mbind option_bind] in Hdo. destruct (nd_msg _); [|done]. cbn [mbind option_bind] in Hdo.
  destruct (world_do _ _ _ _) as [[w| | |]|]; try done. by injection Hdo as <-.
Qed.
End facts.

(** ** The code as it is written *)

(** The turns in which a peer reads a status, and those of the sessions. *)
Definition reads_nw (ev : nwev) : bool := match ev with NwTalk _ _ e => receives e | _ => false end.
Definition of_session (ev : nwev) : bool := match ev with NwConnect _ _ _ _ | NwTalk _ _ _ => false | _ => true end.

Section written.
Context {sod : Sodium} {clk : Clock} {pb : Protobuf} {un : Uninit} {st : Stray} {ok : SodiumOk sod} {pbok : ProtobufOk pb}.
Context (fuel : nat) (sockfd : Z) (vs : nat -> visitor) (psock : nat -> Z) (b : positive) (r : nat).
Context (Hun : uninit_short) (Hf : (CIRC_BUF_SIZE <= fuel)%nat).
Context (Hvs : forall i, welcome fuel r (vs i) /\ length (buffer_BLOCK_DATA (v_sh (vs i))) = P2P_BUFFER_SIZE).

Lemma nw_written ids ev nw :
  nwinv vs psock b r ids nw ->
  nw_do (rd:=as_written) fuel sockfd vs psock ev nw = cut (reads_nw ev) (nw_do (rd:=exchanged) fuel sockfd vs psock ev nw).
Proof.
  intros Hn.
  assert (forall j c pub ev, nd_msg (nw_nodes nw j) = Some c -> ev <> Unlock ->
    world_do (rd:=as_written) (psock j) pub ev (node_world (nw_nodes nw) j (sh c)) =
    cut (reads_status ev) (world_do (rd:=exchanged) (psock j) pub ev (node_world (nw_nodes nw) j (sh c)))) as Hw.
  { intros j c pub e Hj Hne. apply offered_written; [exact (ni_offer _ _ _ _ _ _ Hn j c Hj)|by eapply joined_possible|exact Hne]. }
  destruct ev as [i| | |i j fd q|j fd e]; [done..| |]; cbn [nw_do reads_nw].
  - destruct (decide (i = j)); [done|]. destruct (nd_ask (nw_nodes nw i)); [done|]. destruct (nd_msg (nw_nodes nw j)) as [c|] eqn:Hj; [|done].
    rewrite (Hw j c _ _ Hj) by done. apply cut_bind.
  - destruct (nd_links (nw_nodes nw j) !! fd) as [k|]; cbn [mbind option_bind]; [|unfold cut; by destruct (receives e)].
    destruct (nd_msg (nw_nodes nw j)) as [c|] eqn:Hj; cbn [mbind option_bind]; [|unfold cut; by destruct (receives e)].
    rewrite (Hw j c _ _ Hj) by done. apply cut_bind.
Qed.

Lemma nw_run_readings rd es ids nw r2 :
  nwinv vs psock b r ids nw -> Forall fair_nw es -> nw_run (rd:=rd) fuel sockfd vs psock es nw = Some r2 ->
  if dangles (rd:=rd) reads_nw es then r2 = Fault BadPointer else nw_run (rd:=exchanged) fuel sockfd vs psock es nw = Some r2.
Proof.
  intros Hn Hes. destruct rd; [|done]. revert ids nw Hn. unfold dangles, reading. induction Hes as [|ev es Hev Hes IH]; intros ids nw Hn Hr; [exact Hr|].
  cbn [nw_run existsb] in *. rewrite (nw_written ids ev nw Hn) in Hr. unfold cut in Hr. destruct (reads_nw ev); cbn [orb].
  - destruct (nw_do (rd:=exchanged) _ _ _ _ ev nw); cbn in Hr; [congruence|done].
  - destruct (nw_do (rd:=exchanged) _ _ _ _ ev nw) as [r1|] eqn:Hdo; [|done].
    destruct (nw_step (rd:=exchanged) fuel sockfd vs psock b r Hun eq_refl Hf Hvs ids ev nw r1 Hn Hev Hdo) as (nw1 & ids1 & -> & Hn1). by apply (IH ids1 nw1 Hn1).
Qed.

Lemma nw_do_none rd ids ev nw :
  nwinv vs psock b r ids nw -> nw_do (rd:=rd) fuel sockfd vs psock ev nw = None -> nw_do (rd:=exchanged) fuel sockfd vs psock ev nw = None.
Proof. intros Hn. destruct rd; [|done]. rewrite (nw_written ids ev nw Hn). apply cut_none. Qed.

(** No session reads a peer's status. *)
Lemma session_same rd es nw :
  forallb of_session es = true -> nw_run (rd:=rd) fuel sockfd vs psock es nw = nw_run (rd:=exchanged) fuel sockfd vs psock es nw.
Proof.
  revert nw. induction es as [|ev es IH]; intros nw; [done|]. cbn [forallb nw_run]. intros [Hev Hes]%andb_true_iff.
  assert (nw_do (rd:=rd) fuel sockfd vs psock ev nw = nw_do (rd:=exchanged) fuel sockfd vs psock ev nw) as -> by by destruct ev.
  destruct (nw_do _ _ _ _ ev nw) as [[]|]; [by apply IH|done..].
Qed.

Lemma serves_of_session n : forallb of_session (replicate n NwServe ++ [NwClose]) = true.
Proof. rewrite forallb_app, andb_true_r. by induction n. Qed.
End written.

(** ** Claims *)
Section claims.
Context {sod : Sodium} {clk : Clock} {pb : Protobuf} {un : Uninit} {st : Stray} {rd : Reading} {ok : SodiumOk sod} {pbok : ProtobufOk pb}.

(** The server's message buffer is empty; every client can come, its draws solve
    the puzzle for the server's root within the fuel. *)
Record network_ready (fuel : nat) (vs : nat -> visitor) (b : positive) (ms : mem) : Prop := NetworkReady {
  nr_server : wf ms;
  nr_ring : heap ms !! b = Some (BPtrs (replicate CIRC_BUF_SIZE NULL));
  nr_fuel : (CIRC_BUF_SIZE <= fuel)%nat;
  nr_clients i : welcome fuel (rng ms) (vs i) /\ length (buffer_BLOCK_DATA (v_sh (vs i))) = P2P_BUFFER_SIZE }.

(** C1: the network agrees.  The server serves its clients one after another, in
    any order; clients ask each other for their blocks; the turns of these
    sessions and exchanges interleave in any way.  The code as written faults
    exactly when a peer takes up a packet, whose status it reads after releasing
    it; no other turn of any process faults, and with the two statements
    exchanged none does.  In every configuration reached without a fault there
    are messages such that: every root the server has printed is the root over
    them; every client whose block is made holds all 512 of them, slot by slot,
    with a block made and solved for their root and published, and that root is
    the one over the messages of the server's first 1024 draws; and a client
    that asks another one has decoded nothing or holds one block, which commits
    to that same root. *)
Theorem network_agrees fuel sockfd vs psock b ms :
  uninit_short -> network_ready fuel vs b ms ->
  exists nw0, nw_start sockfd vs psock (Ptr b 0) ms = Ok nw0 /\
  forall es r, Forall fair_nw es -> nw_run fuel sockfd vs psock es nw0 = Some r ->
  if dangles reads_nw es then r = Fault BadPointer else
  exists nw ids, r = Ok nw /\ let root := ring_root (heap (nw_ms nw)) ids in
    (forall h, h ∈ printed (nw_server nw) -> h = root) /\
    (forall k c, nd_msg (nw_nodes nw k) = Some c -> flag_block_filled c <> 0 ->
       length ids = CIRC_BUF_SIZE /\ root = minted_root (rng ms) /\
       client_agrees (v_sh (vs k)) (heap (nw_ms nw)) ids root c (nd_mem (nw_nodes nw k))) /\
    (forall j fd k, nd_links (nw_nodes nw j) !! fd = Some k ->
       exists l, nd_ask (nw_nodes nw (lk_from k)) = Some l /\ (ls_blocks l = [] \/ holds_for root l (nd_mem (nw_nodes nw (lk_from k))))).
Proof.
  intros Hun [Hwf Hb Hf Hvs]. destruct (nw_start_inv fuel sockfd vs psock b (rng ms) Hvs ms eq_refl Hwf Hb) as (nw0 & ids0 & H0 & Hn0).
  exists nw0. split; [done|]. intros es r Hes Hr.
  pose proof (nw_run_readings fuel sockfd vs psock b (rng ms) Hun Hf Hvs rd es ids0 nw0 r Hn0 Hes Hr) as Hrd. destruct (dangles reads_nw es); [done|].
  destruct (nw_run_inv (rd:=exchanged) fuel sockfd vs psock b (rng ms) Hun eq_refl Hf Hvs es ids0 nw0 r Hn0 Hes Hrd) as (nw & ids & -> & Hn).
  exists nw, ids. split; [done|]. cbv zeta. split_and!.
  - intros h. by eapply printed_root.
  - intros k c Hk Hfl. destruct (joined_cases fuel vs psock b (rng ms) Hf ids nw k c Hn Hk) as [[Hl Hag]|[_ H]]; [|done].
    split; [done|]. split; [|done]. by eapply full_root.
  - intros j fd k Hk. destruct (link_holds (rd:=exchanged) fuel sockfd vs psock b (rng ms) Hf Hvs ids nw j fd k Hn Hk) as (l & Hl & Hh & _). by exists l.
Qed.

(** C2: the network delivers.  In every configuration reached without a fault, a
    session under way ends after at most 1024 exchanges and its close, and a
    client that has not come yet can then be served in a session of 1024
    exchanges, with its block made, whatever the other processes are doing.  A
    client at rest on its connection holds a block for the root the server
    prints; and once the asked client's block is made, in the code that reads a
    status before it releases it, at most eleven events of the connection bring
    it. *)
Theorem network_delivers fuel sockfd vs psock b ms :
  uninit_short -> network_ready fuel vs b ms ->
  exists nw0, nw_start sockfd vs psock (Ptr b 0) ms = Ok nw0 /\
  forall es nw, Forall fair_nw es -> nw_run fuel sockfd vs psock es nw0 = Some (Ok nw) ->
  (forall i, nw_cur nw = Some i -> exists k nw' c, (k <= 1024)%nat /\
     nw_run fuel sockfd vs psock (replicate k NwServe ++ [NwClose]) nw = Some (Ok nw') /\
     nd_msg (nw_nodes nw' i) = Some c /\ flag_block_filled c <> 0) /\
  (forall i, nw_cur nw = None -> nd_msg (nw_nodes nw i) = None -> exists nw' c,
     nw_run fuel sockfd vs psock (NwJoin i :: replicate 1024 NwServe ++ [NwClose]) nw = Some (Ok nw') /\
     nd_msg (nw_nodes nw' i) = Some c /\ flag_block_filled c <> 0) /\
  exists root, (forall h, h ∈ printed (nw_server nw) -> h = root) /\
  forall j fd k, nd_links (nw_nodes nw j) !! fd = Some k ->
    exists l, nd_ask (nw_nodes nw (lk_from k)) = Some l /\
    ((forall e, nw_do fuel sockfd vs psock (NwTalk j fd e) nw = None) -> holds_for root l (nd_mem (nw_nodes nw (lk_from k)))) /\
    (reading = exchanged -> forall c, nd_msg (nw_nodes nw j) = Some c -> flag_block_filled c <> 0 ->
       exists es' nw' l', (length es' <= 11)%nat /\ nw_run fuel sockfd vs psock (NwTalk j fd <$> es') nw = Some (Ok nw') /\
         nd_ask (nw_nodes nw' (lk_from k)) = Some l' /\ holds_for root l' (nd_mem (nw_nodes nw' (lk_from k)))).
Proof.
  intros Hun [Hwf Hb Hf Hvs]. destruct (nw_start_inv fuel sockfd vs psock b (rng ms) Hvs ms eq_refl Hwf Hb) as (nw0 & ids0 & H0 & Hn0).
  exists nw0. split; [done|]. intros es nw Hes Hr.
  pose proof (nw_run_readings fuel sockfd vs psock b (rng ms) Hun Hf Hvs rd es ids0 nw0 _ Hn0 Hes Hr) as Hrd. destruct (dangles reads_nw es); [done|].
  destruct (nw_run_inv (rd:=exchanged) fuel sockfd vs psock b (rng ms) Hun eq_refl Hf Hvs es ids0 nw0 _ Hn0 Hes Hrd) as (nw2 & ids & Heq & Hn). injection Heq as <-.
  pose proof (session_ends (rd:=exchanged) fuel sockfd vs psock b (rng ms) Hun eq_refl Hf Hvs) as Hend. split_and!.
  - intros i Hc. destruct (session_going vs psock b (rng ms) ids nw Hn) as [Hc'|(i' & n & Hse)]; [congruence|].
    pose proof Hse as (c0 & q & cl & Hc' & _ & Hst). assert (i' = i) as -> by congruence. pose proof (stage_bound _ _ _ _ _ _ _ _ _ _ Hst).
    destruct (Hend (1024 - n)%nat ids nw i n Hn Hse ltac:(lia)) as (nw' & _ & c & H1 & _ & H2 & H3 & _). exists (1024 - n)%nat, nw', c. split; [lia|].
    rewrite session_same by apply serves_of_session. by split.
  - intros i Hc Hi. destruct (join_step (rd:=exchanged) fuel sockfd vs psock b (rng ms) Hun Hf Hvs ids nw i Hn Hc Hi) as (nw1 & H1 & Hn1 & Hse).
    destruct (Hend 1024%nat ids nw1 i 0%nat Hn1 Hse eq_refl) as (nw' & _ & c & H2 & _ & H3 & H4 & _). exists nw', c. split; [|by split].
    rewrite session_same by exact (serves_of_session 1024). cbn [nw_run]. by rewrite H1.
  - exists (ring_root (heap (nw_ms nw)) ids). split; [intros h; by eapply printed_root|].
    intros j fd k Hk. destruct (link_holds (rd:=exchanged) fuel sockfd vs psock b (rng ms) Hf Hvs ids nw j fd k Hn Hk) as (l & Hl & _ & Hrest). exists l. split_and!; [done| |].
    { intros Hstuck. apply Hrest. intros e. by eapply (nw_do_none fuel sockfd vs psock b (rng ms)). }
    intros Hex c Hj Hfl. destruct (joined_cases fuel vs psock b (rng ms) Hf ids nw j c Hn Hj) as [[_ Hag]|[_ H]]; [|done].
    destruct (agrees_possible _ (proj2 (Hvs j)) _ _ _ _ _ Hag) as (i & t & Hs & Hp).
    assert (w_nbs (node_world (nw_nodes nw) j (sh c)) !! fd = Some (far_end (nw_nodes nw) k)) as Hnb by (cbn [node_world w_nbs]; by rewrite lookup_fmap, Hk).
    destruct (wi_nb _ _ _ _ _ (ni_offer _ _ _ _ _ _ Hn j c Hj _ _ _ Hp) fd _ Hnb) as [p Hst].
    destruct (link_reaches fuel sockfd vs psock b (rng ms) Hex Hf Hvs ids nw j fd k c _ _ p Hn Hk Hj (proj1 Hp) Hst) as (es' & nw' & k' & Hle & Hrun & Hn' & Hk' & Hfrom & x & Hx & Hh).
    pose proof (rank_bound p). destruct (ni_linked _ _ _ _ _ _ Hn' j fd k' Hk') as (_ & [l' Hl'] & _). exists es', nw', l'. rewrite <-Hfrom.
    split_and!; [lia|done|done|]. eapply received_made_holds; [done| |exact Hh]. unfold far_end in Hx. by rewrite Hl' in Hx.
Qed.
End claims.

(** ** The claims at work *)

(** Clients that all come on descriptor 5. *)
Definition sample_vs (i : nat) : visitor := Visitor 5 4 no_block empty_mem.

Lemma sample_ready : network_ready (sod:=Toy.prefixing) 512 sample_vs 1 empty_ring_mem.
Proof.
  split; [exact empty_ring_wf|reflexivity|exact (le_n _)|]. intros i. split; [|reflexivity].
  split; [exact good_5|]. split; [exact empty_mem_wf|apply prefix_solvable].
Qed.

Abbreviation sample_nw_start := (nw_start (sod:=Toy.prefixing) (clk:=Toy.toy_clock) 3 sample_vs (fun _ => 3) (Ptr 1 0) empty_ring_mem).
Abbreviation sample_nw_run :=
  (nw_run (sod:=Toy.prefixing) (clk:=Toy.toy_clock) (pb:=Wire.proto2) (un:=quiet) (st:=calm) (rd:=exchanged) 512 3 sample_vs (fun _ => 3)).

(** Client 0 is served; client 1 connects to it and talks to it meanwhile. *)
Definition meeting : list nwev :=
  [NwJoin 0; NwServe; NwConnect 1 0 5 6; NwTalk 0 5 PeerSend; NwServe; NwTalk 0 5 ListRecv; NwServe; NwTalk 0 5 ListSend; NwTalk 0 5 PeerRecv].

Lemma meeting_fair : Forall fair_nw meeting.
Proof. unfold meeting. repeat (apply Forall_cons; split; [cbn; unfold peer_fd; lia|]). by apply Forall_nil. Qed.

Definition meeting_outcome : option (option nat * option nat) :=
  nw0 ← match sample_nw_start with Ok nw => Some nw | _ => None end;
  r ← sample_nw_run meeting nw0;
  nw ← match r with Ok nw => Some nw | _ => None end;
  Some (nw_cur nw, lk_from <$> nd_links (nw_nodes nw 0) !! 5).

Lemma meeting_computed : meeting_outcome = Some (Some 0%nat, Some 1%nat).
Proof. vm_compute. reflexivity. Qed.

(** The session goes on to its end. *)
Lemma meeting_served :
  exists nw0 es nw c k, sample_nw_start = Ok nw0 /\ Forall fair_nw es /\ sample_nw_run es nw0 = Some (Ok nw) /\
    nd_msg (nw_nodes nw 0) = Some c /\ flag_block_filled c <> 0 /\ nd_links (nw_nodes nw 0) !! 5 = Some k /\ lk_from k = 1%nat.
Proof.
  pose proof sample_ready as [Hwf Hb Hf Hvs].
  destruct (nw_start_inv (sod:=Toy.prefixing) (clk:=Toy.toy_clock) (pb:=Wire.proto2) (un:=quiet) (st:=calm) (ok:=Toy.prefixing_ok)
    512 3 sample_vs (fun _ => 3) 1 0 Hvs empty_ring_mem eq_refl Hwf Hb) as (nw0 & ids0 & H0 & Hn0).
  pose proof meeting_computed as Hc. unfold meeting_outcome in Hc. rewrite H0 in Hc. cbn [mbind option_bind] in Hc.
  destruct (sample_nw_run meeting nw0) as [r|] eqn:Hr; [|discriminate Hc]. cbn [mbind option_bind] in Hc.
  destruct (nw_run_inv (sod:=Toy.prefixing) (clk:=Toy.toy_clock) (pb:=Wire.proto2) (un:=quiet) (st:=calm) (rd:=exchanged) (ok:=Toy.prefixing_ok) (pbok:=Wire.proto2_ok)
    512 3 sample_vs (fun _ => 3) 1 0 quiet_short eq_refl Hf Hvs meeting ids0 nw0 r Hn0 meeting_fair Hr) as (nw1 & ids1 & -> & Hn1).
  cbn [mbind option_bind] in Hc. injection Hc as Hcur Hlink. destruct (nd_links (nw_nodes nw1 0) !! 5) as [k|] eqn:Hk; [|discriminate Hlink]. injection Hlink as Hfrom.
  destruct (session_going _ _ _ _ _ _ Hn1) as [Hnone|(i & n & Hse)]; [congruence|]. pose proof Hse as (c0 & q & cl & Hc0 & _ & Hst).
  assert (i = 0%nat) as -> by congruence. pose proof (stage_bound _ _ _ _ _ _ _ _ _ _ Hst).
  destruct (session_ends (sod:=Toy.prefixing) (clk:=Toy.toy_clock) (pb:=Wire.proto2) (un:=quiet) (st:=calm) (rd:=exchanged) (ok:=Toy.prefixing_ok) (pbok:=Wire.proto2_ok)
    512 3 sample_vs (fun _ => 3) 1 0 quiet_short eq_refl Hf Hvs (1024 - n) ids1 nw1 0 n Hn1 Hse ltac:(lia)) as (nw & ids & c & Hrun & _ & Hm & Hfl & Hl).
  exists nw0, (meeting ++ (replicate (1024 - n) NwServe ++ [NwClose])), nw, c, k. split; [exact H0|]. split.
  { apply Forall_app. split; [exact meeting_fair|]. apply Forall_app. split; [by apply Forall_replicate|by apply Forall_singleton]. }
  split; [by eapply nw_run_app|]. split; [exact Hm|]. split; [exact Hfl|]. split; [|exact Hfrom]. by destruct (Hl 0%nat) as [-> _].
Qed.

(** The meeting in the code as written. *)
Abbreviation written_nw_run :=
  (nw_run (sod:=Toy.prefixing) (clk:=Toy.toy_clock) (pb:=Wire.proto2) (un:=quiet) (st:=calm) (rd:=as_written) 512 3 sample_vs (fun _ => 3)).

Lemma meeting_written : match sample_nw_start with Ok nw => bool_decide (is_Some (written_nw_run meeting nw)) | _ => false end = true.
Proof. vm_compute. reflexivity. Qed.

Lemma network_agrees_witness :
  (exists nw0, sample_nw_start = Ok nw0 /\ written_nw_run meeting nw0 = Some (Fault BadPointer)) /\
  exists nw0 es nw c, sample_nw_start = Ok nw0 /\ sample_nw_run es nw0 = Some (Ok nw) /\ nd_msg (nw_nodes nw 0) = Some c /\ ver_printed c = Some 512.
Proof.
  split.
  { destruct (network_agrees (sod:=Toy.prefixing) (clk:=Toy.toy_clock) (pb:=Wire.proto2) (un:=quiet) (st:=calm) (rd:=as_written)
      (ok:=Toy.prefixing_ok) (pbok:=Wire.proto2_ok) 512 3 sample_vs (fun _ => 3) 1 empty_ring_mem quiet_short sample_ready) as (nw0 & H0 & Hall).
    pose proof meeting_written as Hc. rewrite H0 in Hc. apply bool_decide_eq_true in Hc as [r Hr].
    exists nw0. split; [exact H0|]. rewrite Hr. f_equal. exact (Hall meeting r meeting_fair Hr). }
  destruct (network_agrees (sod:=Toy.prefixing) (clk:=Toy.toy_clock) (pb:=Wire.proto2) (un:=quiet) (st:=calm) (rd:=exchanged)
    (ok:=Toy.prefixing_ok) (pbok:=Wire.proto2_ok) 512 3 sample_vs (fun _ => 3) 1 empty_ring_mem quiet_short sample_ready) as (nw0 & H0 & Hall).
  destruct meeting_served as (nw1 & es & nw & c & k & H1 & Hes & Hr & Hc & Hfl & _). rewrite H0 in H1. injection H1 as <-.
  destruct (Hall es (Ok nw) Hes Hr) as (nw2 & ids & Heq & _ & Hag & _). injection Heq as <-.
  destruct (Hag 0%nat c Hc Hfl) as (_ & _ & i & t & _ & _ & _ & Hv & _). exists nw0, es, nw, c. repeat (split; [assumption|]). exact Hv.
Defined.

Lemma network_delivers_witness :
  exists nw0 es nw es' nw' root l, sample_nw_start = Ok nw0 /\ sample_nw_run es nw0 = Some (Ok nw) /\
    (length es' <= 11)%nat /\ sample_nw_run (NwTalk 0 5 <$> es') nw = Some (Ok nw') /\
    nd_ask (nw_nodes nw' 1) = Some l /\ holds_for (sod:=Toy.prefixing) root l (nd_mem (nw_nodes nw' 1)).
Proof.
  destruct (network_delivers (sod:=Toy.prefixing) (clk:=Toy.toy_clock) (pb:=Wire.proto2) (un:=quiet) (st:=calm) (rd:=exchanged) (ok:=Toy.prefixing_ok) (pbok:=Wire.proto2_ok)
    512 3 sample_vs (fun _ => 3) 1 empty_ring_mem quiet_short sample_ready) as (nw0 & H0 & Hall).
  destruct meeting_served as (nw1 & es & nw & c & k & H1 & Hes & Hr & Hc & Hfl & Hk & Hfrom). rewrite H0 in H1. injection H1 as <-.
  destruct (Hall es nw Hes Hr) as (_ & _ & root & _ & Hlinks). destruct (Hlinks 0%nat 5 k Hk) as (l0 & _ & _ & Hreach).
  destruct (Hreach eq_refl c Hc Hfl) as (es' & nw' & l & Hle & Hr' & Hl & Hh). rewrite Hfrom in Hl, Hh.
  exists nw0, es, nw, es', nw', root, l. repeat (split; [assumption|]). exact Hh.
Defined.
