(* ===== verification/Serdes.v ===== *)
(** * The decoders of serdes, and its trial program

    serdes/serdes.c [deserialize_data] and [print_serialized_data], which the
    server links but does not call, and serdes/main.c, a trial program that
    writes a packed message to a file and reads it back.  A local struct that
    was not initialised has fields without a value. *)

From stdpp Require Import strings.
From S2P Require Import Prelude.
From S2P Require Import CTypes.
From S2P Require Import Memory.
From S2P Require Import Platform.
From S2P Require Import Misc.
From S2P Require Import Dump.
From S2P Require Import Codec.
From S2P Require Import CircBuf.
From S2P Require Import Server.

Local Open Scope list_scope.
Local Open Scope Z_scope.

(** A [signed_message_t] on the stack. *)
Record local_message := LocalMessage {
  lm_message : option ptr;
  lm_length : option Z;
  lm_public_key : option (list byte) }.

Definition uninitialised : local_message := LocalMessage None None None.

Section code.
Context {clk : Clock} {pb : Protobuf}.

(** [memcpy(a_msg.public_key, data, 32)] from a block of the data's length. *)
Definition copy_pubkey (a_msg : local_message) (k : option (list byte)) : M local_message :=
  match k with
  | None => mret a_msg
  | Some k =>
      if (crypto_sign_PUBLICKEYBYTES <=? length k)%nat
      then mret (LocalMessage (lm_message a_msg) (lm_length a_msg) (Some (take crypto_sign_PUBLICKEYBYTES k)))
      else fail OutOfBounds
  end.

(** [a_msg.message] is not set before it is copied to. *)
Definition copy_transaction (a_msg : local_message) (data : option (list byte)) : M local_message :=
  match data with
  | None => mret a_msg
  | Some data =>
      let a_msg := LocalMessage (lm_message a_msg) (Some (Z.of_nat (length data))) (lm_public_key a_msg) in
      p ← determinate (lm_message a_msg);
      store_bytes p data ;;
      mret a_msg
  end.

(** serdes.c [deserialize_data]: [None] when [read] fails; its -1 becomes the
    length 2^64 - 1. *)
Definition deserialize_data (received : option (list byte)) : M local_message :=
  match received with
  | None => fail OutOfBounds
  | Some bytes =>
      match ipc_message__unpack (take 4096 bytes) with
      | None => fail NullDeref
      | Some message =>
          a_msg ← copy_pubkey uninitialised (pubkey message);
          copy_transaction a_msg (transaction_msg message)
      end
  end.

(** serdes.c [print_serialized_data]: an empty line, and a look at the flags. *)
Definition print_serialized_data (buffer_in : list byte) : M (list byte) :=
  match ipc_message__unpack buffer_in with
  | None => fail NullDeref
  | Some _ => mret newline
  end.

(** ** serdes/main.c *)

Definition puzzle_msg : list byte := str "testpuzzle".
Definition test_pubkey : list byte := [xaa; xaa; xaa; xaa; xee].

(** [serialize_data]: what it writes to the file. *)
Definition trial_serialize_data : M (list byte) :=
  t ← tick time_now;
  mret (ipc_message__pack (MkIpcMessage (Some puzzle_msg) (Some test_pubkey) (strftime_stamp (gmtime t)) 0 IPC_OK)).

(** [serialize_data_v2] of the trial program: status OK, no time number. *)
Definition trial_serialize_data_v2 (a_message : ptr) : M (list byte) :=
  sm ← load (A:=signed_message_t) a_message;
  t ← tick time_now;
  data ← load_bytes (sm_message sm) (Z.to_nat (sm_length sm));
  mret (ipc_message__pack (MkIpcMessage (Some data) (Some (sm_public_key sm)) (strftime_stamp (gmtime t)) 0 IPC_OK)).

(** [get_timestamp] of the trial program, the same text as that of misc.c. *)
Definition trial_get_timestamp (buffer : ptr) : M Z := get_timestamp_at (store_bytes buffer).

(** [deserialize_data] of the trial program: as in serdes.c, with what it
    prints. *)
Definition trial_deserialize_data (received : option (list byte)) : M (local_message * list byte) :=
  match received with
  | None => fail OutOfBounds
  | Some bytes =>
      match ipc_message__unpack (take 4096 bytes) with
      | None => fail NullDeref
      | Some message =>
          let out := if status_code message =? IPC_OK then str "OK!" ++ newline else [] in
          a_msg ← copy_pubkey uninitialised (pubkey message);
          a_msg ← copy_transaction a_msg (transaction_msg message);
          let date := match transaction_msg message with Some _ => str "date: " ++ timestamp message ++ newline | None => [] end in
          mret (a_msg, out ++ date)
      end
  end.

(** A [protobuf_c_boolean] printed with [%d]. *)
Definition flag_text {A} (o : option A) : list byte := match o with Some _ => str "1" | None => str "0" end.

(** [main]: the key's bytes are printed as a string; the block the library
    allocates for them has their length. *)
Definition trial_main : M (list byte) :=
  file ← trial_serialize_data;
  match ipc_message__unpack (take 1024 file) with
  | None => fail NullDeref
  | Some message =>
      key ← (match pubkey message with
             | Some k => s ← lift_res (print_s (Some <$> k)); mret (str "has pubkey!" ++ newline ++ s ++ newline)
             | None => mret []
             end);
      mret (str "serialized!" ++ newline ++ key ++
        str "has pubkey " ++ flag_text (pubkey message) ++ newline ++ str "has msg " ++ flag_text (transaction_msg message) ++ newline ++
        str "date: " ++ timestamp message ++ newline)
  end.
End code.

Section facts.
Context {sod : Sodium} {clk : Clock} {pb : Protobuf} {pbok : ProtobufOk pb}.

(** A packet the server makes has its transaction and a key of 32 bytes. *)
Lemma deserialize_packet_faults msg m :
  ipc_wf msg -> (length (ipc_message__pack msg) <= 4096)%nat -> is_Some (transaction_msg msg) ->
  olen (pubkey msg) = crypto_sign_PUBLICKEYBYTES ->
  deserialize_data (Some (ipc_message__pack msg)) m = Fault Indeterminate.
Proof.
  intros Hwf Hl [data Hd] Hk. unfold deserialize_data. rewrite take_ge, ipc_unpack_pack by done.
  unfold mbind, M_bind, copy_pubkey. rewrite Hd. destruct (pubkey msg) as [k|]; [|done].
  cbn [olen] in Hk. by rewrite Hk.
Qed.

(** C36: [deserialize_data] cannot take any message the server serves: for every
    message of the ring, packed by [serialize_data_v2], it copies the
    transaction through a pointer that was never set. *)
Theorem deserialize_data_wild id m :
  ring_msg (heap m) id ->
  (bytes ← serialize_data_v2 (Ptr id.1 0); deserialize_data (Some bytes)) m = Fault Indeterminate.
Proof.
  intros Hid. unfold mbind, M_bind. rewrite serialize_data_v2_run by done.
  destruct (ring_data_length _ _ Hid) as [Hd Hk].
  apply deserialize_packet_faults; [by apply data_msg_wf|by apply data_packet_size|by eexists|]. by cbn; rewrite Hk.
Qed.

(** The trial program's decoder fails on its own packets too: their key is
    shorter than the 32 bytes it copies. *)
Lemma trial_decoder_overreads m :
  (bytes ← trial_serialize_data; trial_deserialize_data (Some bytes)) m = Fault OutOfBounds.
Proof.
  unfold trial_serialize_data, trial_deserialize_data, mbind, M_bind, tick, mret, M_ret.
  set (msg := MkIpcMessage _ _ _ _ _). assert (ipc_wf msg) as Hwf by (split_and!; cbn; lia).
  rewrite take_ge, ipc_unpack_pack by (done || (pose proof (ipc_pack_size msg Hwf); cbn in *; lia)). done.
Qed.

(** The trial program reads past the end of the key it printed. *)
Lemma trial_main_overreads m : trial_main m = Fault OutOfBounds.
Proof.
  unfold trial_main, trial_serialize_data, mbind, M_bind, tick, mret, M_ret.
  set (msg := MkIpcMessage _ _ _ _ _). assert (ipc_wf msg) as Hwf by (split_and!; cbn; lia).
  rewrite take_ge, ipc_unpack_pack by (done || (pose proof (ipc_pack_size msg Hwf); cbn in *; lia)). done.
Qed.
End facts.

(** A memory with one signed message of 100 zeros. *)
Definition one_message : mem :=
  let keys := Toy.toy_keypair 0 in
  Mem (<[1%positive := BMsgs [SignedMessage (Ptr 2 0) 164 keys.1]]>
        (<[2%positive := BBytes (Toy.toy_sign (zeros 100) keys.2)]> ∅)) 3 0 0.

Lemma deserialize_data_wild_witness :
  (bytes ← serialize_data_v2 (clk:=Toy.toy_clock) (pb:=Wire.proto2) (Ptr 1 0);
   deserialize_data (pb:=Wire.proto2) (Some bytes)) one_message = Fault Indeterminate.
Proof.
  apply (deserialize_data_wild (sod:=Toy.mixing) (clk:=Toy.toy_clock) (pb:=Wire.proto2)
    (pbok:=Wire.proto2_ok) (1%positive, 2%positive) one_message).
  eexists _, _, (zeros 100). split_and!; [reflexivity|reflexivity|reflexivity|reflexivity|vm_compute; reflexivity|reflexivity].
Defined.
