(* ===== verification/Tests.v ===== *)
(** * The program's own tests

    sources/tests/tests.c and tests2.c.  A server compiled with TESTMODE runs
    [tests] instead of serving (sources/main/main.c): keys, signatures, hashes,
    tree nodes, whole trees and their verification, all on the functions the
    server and the client use.  Each test is a program over the heap; its value
    is what it returns, 0 for success.  Local arrays of unknown size are blocks
    released on return; no entry of them is read before it is written.  The
    theorem gives the outcome of the whole run, for every result of the random
    source, and what it leaves allocated. *)

From stdpp Require Import strings.
From S2P Require Import Prelude.
From S2P Require Import CTypes.
From S2P Require Import Memory.
From S2P Require Import Platform.
From S2P Require Import Accounts.
From S2P Require Import Hashing.
From S2P Require Import Layering.
From S2P Require Import MerkleTree.
From S2P Require Import MerkleVerify.
From S2P Require Import Leftover.
From S2P Require Import Misc.
From S2P Require Import Dump.
From S2P Require Import Codec.
From S2P Require Import CircBuf.
From S2P Require Import Server.
From S2P Require Import Serdes.

Local Open Scope list_scope.
Local Open Scope Z_scope.

(** ** Loops *)

(** [for (i = 0; i < n; i++) rez += body(i)] *)
Fixpoint sum_from (i n : nat) (body : nat -> M Z) (rez : Z) : M Z :=
  match n with
  | O => mret rez
  | S n => v ← body i; sum_from (S i) n body (rez + v)
  end.

(** [for (; i < n; i++) if (!body(i)) break;] and the final [i]. *)
Fixpoint until_break (i n : nat) (body : nat -> M bool) : M nat :=
  match n with
  | O => mret i
  | S n => go ← body i; if (go : bool) then until_break (S i) n body else mret i
  end.

(** An array filled by [n] calls. *)
Fixpoint collect {A} (n : nat) (c : M A) : M (list A) :=
  match n with
  | O => mret []
  | S n => x ← c; xs ← collect n c; mret (x :: xs)
  end.

(** [strncmp(a, b, n)], as the difference of the first bytes that differ. *)
Fixpoint strncmp (a b : list byte) (n : nat) : Z :=
  match n, a, b with
  | S n, x :: a, y :: b =>
      if decide (x = y) then if decide (x = x00) then 0 else strncmp a b n
      else Z_of_byte x - Z_of_byte y
  | _, _, _ => 0
  end.

Section code.
Context {sod : Sodium} {clk : Clock}.

(** ** Messages *)

(** The inner loop of [test_valid_messages]: one message checked [n] times. *)
Fixpoint check_again (n : nat) (a_msg : signed_message_t) (pk : list byte) (result : Z) : M Z :=
  match n with
  | O => mret result
  | S n =>
      v ← validate_a_message a_msg pk;
      let result := if v =? 0 then 0 else 1 in
      if result =? 0 then mret result else check_again n a_msg pk result
  end.

Definition test_valid_messages : M Z :=
  uk ← create_key_pair;
  i ← until_break 0 15 (fun _ =>
    somemsg ← ls_get_test_msg 15;
    a_msg ← sign_a_message somemsg (uk_sk uk);
    result ← check_again 100 a_msg (uk_pk uk) 0;
    mret (negb (result =? 0)));
  mret (if (i =? 15)%nat then 0 else 1).

(** The second loop of [test_INvalid_messages]. *)
Fixpoint count_valid (msgs : list test_msg_t) (uk : user_keys) (result : Z) : M Z :=
  match msgs with
  | [] => mret result
  | somemsg :: msgs =>
      a_msg ← sign_a_message somemsg (uk_sk uk);
      v ← validate_a_message a_msg (uk_pk uk);
      count_valid msgs uk (if v =? 0 then 0 else result + 1)
  end.

Definition test_INvalid_messages : M Z :=
  uk ← create_key_pair;
  tick time_now ;;
  somemsg ← collect 15 (ls_get_test_msg 15);
  result ← count_valid somemsg uk 0;
  mret (if result =? 15 then 0 else 1).

Definition test_cleanup_message : M Z :=
  uk ← create_key_pair;
  msg ← ls_get_a_signed_msg uk;
  sm ← load (A:=signed_message_t) msg;
  validate_a_message sm (uk_pk uk) ;;
  destroy_signed_message msg ;;
  mret 0.

(** [msg_arr[i] = ls_get_a_signed_msg(uk)] and the check of [*msg_arr[i]]. *)
Definition make_message (uk : user_keys) (msg_arr : ptr) (i : nat) : M Z :=
  p ← ls_get_a_signed_msg uk;
  store_ix msg_arr (Z.of_nat i) p ;;
  q ← load_ix (A:=ptr) msg_arr (Z.of_nat i);
  sm ← load (A:=signed_message_t) q;
  validate_a_message sm (uk_pk uk).

(** The loop that releases the messages. *)
Definition destroy_messages (n : nat) (msg_arr : ptr) : M unit :=
  for_ n (fun i => p ← load_ix (A:=ptr) msg_arr (Z.of_nat i); destroy_signed_message p).

Definition test_message_creation_and_validation : M Z :=
  uk ← create_key_pair;
  msg_arr ← calloc 512 NULL;
  rez ← sum_from 0 512 (make_message uk msg_arr) 0;
  destroy_messages 512 msg_arr ;;
  free msg_arr ;;
  mret (if rez =? 512 then 0 else 1).

(** ** Hashes and nodes *)

Definition test_hash : M Z :=
  uk ← create_key_pair;
  tick time_now ;;
  somemsg ← get_test_msg 100;
  a_msg ← sign_a_message somemsg (uk_sk uk);
  p ← calc_hash a_msg;
  hash ← load_bytes p crypto_generichash_BYTES;
  i ← until_break 0 500 (fun _ =>
    p ← calc_hash a_msg;
    hash_re ← load_bytes p crypto_generichash_BYTES;
    mret (strncmp hash hash_re crypto_generichash_BYTES =? 0));
  mret (if (i =? 500)%nat then 0 else 1).

(** The arguments of [merge_2hashses] are evaluated in the order written; the
    other order would only swap two numbered blocks. *)
Definition test_hash_merging : M Z :=
  uk ← create_key_pair;
  tick time_now ;;
  somemsg ← get_test_msg 100;
  a_msg ← sign_a_message somemsg (uk_sk uk);
  uk2 ← create_key_pair;
  somemsg2 ← get_test_msg 100;
  a_msg2 ← sign_a_message somemsg2 (uk_sk uk2);
  h1 ← calc_hash a_msg;
  h2 ← calc_hash a_msg2;
  merge_2hashses_at h1 h2 ;;
  mret 0.

Definition test_create_and_destroy_hpoint : M Z :=
  uk ← create_key_pair;
  msg1 ← ls_get_a_signed_msg uk;
  sm1 ← load (A:=signed_message_t) msg1;
  validate_a_message sm1 (uk_pk uk) ;;
  uk2 ← create_key_pair;
  msg2 ← ls_get_a_signed_msg uk2;
  sm2 ← load (A:=signed_message_t) msg2;
  validate_a_message sm2 (uk_pk uk2) ;;
  HASH_POINT ← create_hpoint_message msg1 msg2;
  hp ← load (A:=hash_point) HASH_POINT;
  ms ← determinate (get_messages (hp_u hp));
  let rez := (if decide (smsg_p1 ms = msg1) then 1 else 0) + (if decide (smsg_p2 ms = msg2) then 1 else 0) in
  destroy_signed_message msg1 ;;
  destroy_signed_message msg2 ;;
  destroy_hpoint_message HASH_POINT ;;
  mret (if rez =? 2 then 0 else 1).

(** ** Trees *)

Definition test_process_messages_L1_v2 : M Z :=
  let n_msg := u64 (Z.shiftl 1 5) in
  uk ← create_key_pair;
  msg_arr ← calloc n_msg NULL;
  rez ← sum_from 0 (Z.to_nat n_msg) (make_message uk msg_arr) 0;
  root_layer ← process_s_messagesV2 n_msg msg_arr;
  destoroy_a_layer root_layer ;;
  destroy_messages (Z.to_nat n_msg) msg_arr ;;
  free msg_arr ;;
  mret (if u64 rez =? n_msg then 0 else 1).

(** The loop that releases the layers. *)
Definition destroy_layers (EXPONENT : Z) (L_arrays : ptr) : M unit :=
  for_ (Z.to_nat EXPONENT) (fun i => p ← load_ix (A:=ptr) L_arrays (Z.of_nat i); destoroy_a_layer p).

Definition create_test_messages (EXPONENT : Z) : M Z :=
  let n_msg := u64 (Z.shiftl 1 EXPONENT) in
  L_arrays ← calloc EXPONENT NULL;
  L_arrays_p ← calloc EXPONENT zero_layer_hp;
  uk ← create_key_pair;
  msg_arr ← calloc n_msg NULL;
  sum_from 0 (Z.to_nat n_msg) (make_message uk msg_arr) 0 ;;
  build_layers EXPONENT n_msg msg_arr L_arrays L_arrays_p ;;
  destroy_layers EXPONENT L_arrays ;;
  destroy_messages (Z.to_nat n_msg) msg_arr ;;
  free msg_arr ;;
  free L_arrays ;;
  free L_arrays_p ;;
  mret 0.

(** The loop that checks every message, up to the first that is rejected. *)
Fixpoint verify_messages (EXPONENT : Z) (L_arrays_p : ptr) (i n : nat) (ver_result : Z) : M Z :=
  match n with
  | O => mret ver_result
  | S n =>
      rez ← merkle_verify_message EXPONENT (Z.of_nat i) L_arrays_p;
      if rez =? 0 then mret ver_result else verify_messages EXPONENT L_arrays_p (S i) n (ver_result + rez)
  end.

(** The first message of base node [node] is overwritten with another. *)
Definition overwrite_message (EXPONENT : Z) (L_arrays_p : ptr) (node : Z) (wrong_message : ptr) : M unit :=
  p ← node_at L_arrays_p (EXPONENT - 1) node;
  hp ← load (A:=hash_point) p;
  ms ← determinate (get_messages (hp_u hp));
  sm ← load (A:=signed_message_t) (smsg_p1 ms);
  w ← load (A:=signed_message_t) wrong_message;
  memcpy (sm_message sm) (sm_message w) (Z.to_nat (sm_length w)).

(** What the two proof tests share: they differ in the exponent, in whether a
    message is overwritten, and in the count they expect. *)
Definition proof_test (EXPONENT : Z) (wreck : bool) : M Z :=
  let n_msg := u64 (Z.shiftl 1 EXPONENT) in
  L_arrays ← calloc EXPONENT NULL;
  L_arrays_p ← calloc EXPONENT zero_layer_hp;
  uk ← create_key_pair;
  wrong_message ← ls_get_a_signed_msg uk;
  msg_arr ← calloc n_msg NULL;
  sum_from 0 (Z.to_nat n_msg) (make_message uk msg_arr) 0 ;;
  build_layers EXPONENT n_msg msg_arr L_arrays L_arrays_p ;;
  (if wreck then overwrite_message EXPONENT L_arrays_p 125 wrong_message else mret ()) ;;
  ver_result ← verify_messages EXPONENT L_arrays_p 0 (Z.to_nat n_msg) 0;
  destroy_layers EXPONENT L_arrays ;;
  destroy_messages (Z.to_nat n_msg) msg_arr ;;
  free msg_arr ;;
  destroy_signed_message wrong_message ;;
  free L_arrays ;;
  free L_arrays_p ;;
  mret ver_result.

Definition test_mekrle_proof_RIGHT : M Z :=
  ver_result ← proof_test 9 false;
  mret (if ver_result =? u64 (Z.shiftl 1 9) then 0 else 1).

Definition test_mekrle_proof_WRONG : M Z :=
  ver_result ← proof_test 14 true;
  mret (if ver_result =? 125 * 2 then 0 else 1).

(** [tests]: the number it prints. *)
Definition tests : M Z :=
  r1 ← test_valid_messages;
  r2 ← test_INvalid_messages;
  r3 ← test_hash;
  r4 ← test_hash_merging;
  r5 ← test_cleanup_message;
  r6 ← test_message_creation_and_validation;
  r7 ← test_create_and_destroy_hpoint;
  r8 ← test_process_messages_L1_v2;
  r9 ← create_test_messages 9;
  r10 ← test_mekrle_proof_RIGHT;
  r11 ← test_mekrle_proof_WRONG;
  mret (r1 + r2 + r3 + r4 + r5 + r6 + r7 + r8 + r9 + r10 + r11).

(** ** Tests that are not called *)

(** A node over two messages: 1 when it points to the first. *)
Definition test_hpoint_from_2msg_creation : M Z :=
  uk ← create_key_pair;
  a_msg ← get_a_signed_msg uk;
  sm ← load (A:=signed_message_t) a_msg;
  DumpHex (sm_message sm) (Z.to_nat (sm_length sm)) ;;
  uk2 ← create_key_pair;
  a_msg2 ← get_a_signed_msg uk2;
  sm ← load (A:=signed_message_t) a_msg;
  validate_a_message sm (uk_pk uk) ;;
  sm2 ← load (A:=signed_message_t) a_msg2;
  validate_a_message sm2 (uk_pk uk2) ;;
  aHP1 ← create_hpoint_message a_msg a_msg2;
  hp ← load (A:=hash_point) aHP1;
  ms ← determinate (get_messages (hp_u hp));
  sm1 ← load (A:=signed_message_t) (smsg_p1 ms);
  DumpHex (sm_message sm1) (Z.to_nat (sm_length sm1)) ;;
  mret (if decide (a_msg = smsg_p1 ms) then 1 else 0).

(** [((hash_point_p)(node))->messages] *)
Definition messages_of (node : ptr) : M smgs2 :=
  hp ← load (A:=hash_point) node;
  determinate (get_messages (hp_u hp)).

(** The four lines it prints, as the outcome of the four comparisons. *)
Definition test_hashG_node_creation : M (Z * list bool) :=
  uk ← create_key_pair;
  a_msg ← get_a_signed_msg uk;
  sm ← load (A:=signed_message_t) a_msg;
  DumpHex (sm_message sm) (Z.to_nat (sm_length sm)) ;;
  a_msg2 ← get_a_signed_msg uk;
  sm ← load (A:=signed_message_t) a_msg;
  validate_a_message sm (uk_pk uk) ;;
  sm2 ← load (A:=signed_message_t) a_msg2;
  validate_a_message sm2 (uk_pk uk) ;;
  aHP1 ← create_hpoint_message a_msg a_msg2;
  a_msg3 ← get_a_signed_msg uk;
  a_msg4 ← get_a_signed_msg uk;
  sm3 ← load (A:=signed_message_t) a_msg3;
  validate_a_message sm3 (uk_pk uk) ;;
  sm4 ← load (A:=signed_message_t) a_msg4;
  validate_a_message sm4 (uk_pk uk) ;;
  aHP2 ← create_hpoint_message a_msg3 a_msg4;
  GNODE ← create_hpoint_hashG aHP1 aHP2;
  g ← load (A:=hash_point) GNODE;
  hpoint1 ← determinate (get_hpoint1 (hp_u g));
  hpoint2 ← determinate (get_hpoint2 (hp_u g));
  ms1 ← messages_of hpoint1;
  ms2 ← messages_of hpoint2;
  mret (1, [bool_decide (smsg_p1 ms1 = a_msg); bool_decide (smsg_p2 ms1 = a_msg2);
            bool_decide (smsg_p1 ms2 = a_msg3); bool_decide (smsg_p2 ms2 = a_msg4)]).
End code.

(** ** tests2.c *)
Section code2.
Context {sod : Sodium} {clk : Clock} {pb : Protobuf}.

(** [test1]: what it prints.  The local struct [msg] and the library's struct
    are blocks released at the end. *)
Definition test1 : M (list byte) :=
  uk ← create_key_pair;
  msg_p ← ls_get_a_signed_msg uk;
  sm ← load (A:=signed_message_t) msg_p;
  msg ← alloc [sm];
  d1 ← DumpHex (sm_message sm) (Z.to_nat (sm_length sm));
  message ← calloc sizeof_IpcMessage x00;
  bytes ← serialize_data_v2 msg;
  (if (length bytes <=? 4096)%nat then mret () else fail OutOfBounds) ;;
  d2 ← lift_res (dump bytes);
  nl ← print_serialized_data bytes;
  free message ;;
  free msg_p ;;
  free msg ;;
  mret (str "testing serialization!" ++ newline ++ str "sended message" ++ newline ++ d1 ++ newline ++ d2 ++ nl).

Definition tests2 : M (list byte) := test1.

(** [main] of a server compiled with TESTMODE. *)
Definition main_TESTMODE : M Z := tests ;; mret 0.
End code2.

(** ** The loops *)

Lemma wp_sum_from (I : nat -> mem -> Prop) body i n rez m :
  I i m -> (forall j m, (i <= j < i + n)%nat -> I j m -> wp (body j) (fun v m' => v = 1 /\ I (S j) m') m) ->
  wp (sum_from i n body rez) (fun v m' => v = rez + Z.of_nat n /\ I (i + n)%nat m') m.
Proof.
  revert i rez m. induction n as [|n IH]; intros i rez m HI Hb; cbn [sum_from].
  - apply wp_ret. split; [lia|]. by rewrite Nat.add_0_r.
  - apply wp_bind. eapply wp_mono; [apply Hb; [lia|exact HI]|]. intros v m1 [-> HI1].
    eapply wp_mono; [apply (IH (S i)); [exact HI1|intros j m2 Hj; apply Hb; lia]|].
    intros v m2 [-> HI2]. split; [lia|]. by replace (i + S n)%nat with (S i + n)%nat by lia.
Qed.

Lemma wp_until_break (I : nat -> mem -> Prop) body i n m :
  I i m -> (forall j m, (i <= j < i + n)%nat -> I j m -> wp (body j) (fun go m' => go = true /\ I (S j) m') m) ->
  wp (until_break i n body) (fun r m' => r = (i + n)%nat /\ I (i + n)%nat m') m.
Proof.
  revert i m. induction n as [|n IH]; intros i m HI Hb; cbn [until_break].
  - apply wp_ret. by rewrite Nat.add_0_r.
  - apply wp_bind. eapply wp_mono; [apply Hb; [lia|exact HI]|]. intros go m1 [-> HI1].
    eapply wp_mono; [apply (IH (S i)); [exact HI1|intros j m2 Hj; apply Hb; lia]|].
    intros r m2 [-> HI2]. replace (i + S n)%nat with (S i + n)%nat by lia. done.
Qed.

Lemma strncmp_refl a n : strncmp a a n = 0.
Proof. revert a; induction n as [|n IH]; intros [|x a]; cbn; [done..|]. rewrite decide_True by done. case_decide; [done|apply IH]. Qed.

Section facts.
Context {sod : Sodium} {clk : Clock} {ok : SodiumOk sod}.

(** ** Messages *)

(** The key pair of draw [n]. *)
Definition key (n : nat) : user_keys := UserKeys (crypto_sign_keypair n).1 (crypto_sign_keypair n).2.

Lemma wp_key {A} (c : user_keys -> M A) Q m :
  wp (c (key (rng m))) Q (Mem (heap m) (next m) (S (rng m)) (ticks m)) -> wp (uk ← create_key_pair; c uk) Q m.
Proof. intros Hc. apply wp_bind. unfold create_key_pair. apply wp_bind, wp_draw, wp_ret. exact Hc. Qed.

Lemma kept_key m : wf m -> kept m (Mem (heap m) (next m) (S (rng m)) (ticks m)) [] 1.
Proof. intros Hwf. eapply (kept_env _ _ _ (rng m) _ (ticks m) _ _ 0 1); [rewrite <-mem_eta; by apply kept_refl|done]. Qed.

(** A message signed with a generated key is accepted. *)
Lemma validate_signed b text n len pk m :
  heap m !! b = Some (BBytes (crypto_sign text (uk_sk (key n)))) -> (0 < length text)%nat -> len = 64 + Z.of_nat (length text) ->
  len < 2 ^ 64 -> validate_a_message (SignedMessage (Ptr b 0) len pk) (uk_pk (key n)) m = Ok (1, m).
Proof.
  intros Hb Hl -> Hlt. erewrite validate_a_message_run; cbn [sm_message sm_length].
  - unfold key. cbn [uk_pk uk_sk]. by rewrite sign_open.
  - apply bytes_at_all; [exact Hb|]. rewrite sign_length. lia.
  - lia.
  - rewrite sign_length. lia.
  - apply keypair_pk_length.
Qed.

(** Signing a text of the run: its block is exchanged for the message's. *)
Lemma wp_sign {A} b text n len (c : signed_message_t -> M A) Q m0 m F G k :
  kept m0 m F k -> F ≡ₚ b :: G -> heap m !! b = Some (BBytes text) -> len = Z.of_nat (length text) ->
  (forall m', kept m0 m' (next m :: G) k -> (forall x, x ∈ G -> heap m' !! x = heap m !! x) ->
     heap m' !! next m = Some (BBytes (crypto_sign text (uk_sk (key n)))) -> rng m' = rng m ->
     wp (c (SignedMessage (Ptr (next m) 0) (64 + len) [])) Q m') ->
  wp (sm ← sign_a_message (TestMsg (Ptr b 0) len) (uk_sk (key n)); c sm) Q m.
Proof.
  intros Hk HF Hb Hl Hc. apply wp_bind. pose proof (k_wf _ _ _ _ Hk) as Hwf. pose proof (wf_lt _ _ _ Hwf Hb) as Hlt.
  pose proof (k_NoDup _ _ _ _ Hk) as Hnd. rewrite HF, NoDup_cons in Hnd. destruct Hnd as [HbG Hnd].
  eapply wp_run; [apply sign_a_message_run; [done|exact Hb|done|apply keypair_sk_length]|]. apply Hc.
  - eapply kept_delete; [apply kept_alloc; rewrite <-mem_eta; exact Hk|]. rewrite HF. apply Permutation_swap.
  - intros x Hx. cbn. assert (x <> b) by (by intros ->). assert (x <> next m).
    { intros ->. assert (next m ∈ F) as Hin%(k_range _ _ _ _ Hk); [rewrite HF; by apply elem_of_cons; right|]. lia. }
    by rewrite lookup_delete_ne, lookup_insert_ne by done.
  - cbn. by rewrite lookup_delete_ne, lookup_insert_eq by lia.
  - done.
Qed.

Lemma wp_text {A} n len (c : test_msg_t -> M A) Q m0 m F k :
  len = Z.of_nat n -> kept m0 m F k ->
  (forall m', kept m0 m' (next m :: F) (k + 1) -> (forall x, x ∈ F -> heap m' !! x = heap m !! x) ->
     heap m' !! next m = Some (BBytes (randombytes_buf (rng m) n)) -> rng m' = S (rng m) -> wp (c (TestMsg (Ptr (next m) 0) len)) Q m') ->
  wp (tm ← ls_get_test_msg len; c tm) Q m.
Proof.
  intros -> Hk Hc. apply wp_bind. eapply wp_run; [apply ls_get_test_msg_run; lia|]. rewrite Nat2Z.id. apply Hc.
  - eapply kept_env; [apply kept_alloc; rewrite <-mem_eta; exact Hk|done].
  - intros x Hx%(k_range _ _ _ _ Hk). cbn. by rewrite lookup_insert_ne by lia.
  - apply lookup_insert_eq.
  - done.
Qed.

Lemma check_again_spec n b text len kn pk m r :
  heap m !! b = Some (BBytes (crypto_sign text (uk_sk (key kn)))) -> len = Z.of_nat (length text) -> (0 < length text)%nat -> len < 2 ^ 32 -> r = 0 \/ r = 1 ->
  check_again n (SignedMessage (Ptr b 0) (64 + len) pk) (uk_pk (key kn)) r m = Ok (match n with O => r | S _ => 1 end, m).
Proof.
  intros Hb -> Hl Hlt. revert r. induction n as [|n IH]; intros r Hr; [done|]. cbn [check_again].
  erewrite bind_ok by (eapply validate_signed; [exact Hb|done|done|lia]). cbn [Z.eqb]. rewrite IH by by right. by destruct n.
Qed.

Lemma test_valid_messages_spec m : wf m -> wp test_valid_messages (fun r m' => r = 0 /\ leftover m m' 15 16) m.
Proof.
  intros Hwf. unfold test_valid_messages. apply wp_key. apply wp_bind. pose proof (kept_key m Hwf) as Hk.
  eapply wp_mono; [apply (wp_until_break (fun j m1 => leftover m m1 j (1 + j)))|].
  - by exists [].
  - intros j m1 Hj (F & HF & Hk1). eapply (wp_text 15); [done|exact Hk1|]. intros m2 Hk2 _ Hb2 _.
    eapply (wp_sign _ _ (rng m)); [exact Hk2|done|exact Hb2|by rewrite randombytes_length|]. intros m3 Hk3 _ Hb3 _.
    apply wp_bind. eapply wp_run.
    { eapply check_again_spec; [exact Hb3|by rewrite randombytes_length|rewrite randombytes_length; lia|lia|by left]. }
    apply wp_ret. split; [done|]. exists (next m2 :: F). split; [cbn; lia|]. by replace (1 + S j)%nat with (1 + j + 1)%nat by lia.
  - intros r m1 [-> Hl]. by apply wp_ret.
Qed.

(** The texts of [test_INvalid_messages] at the blocks [bs]. *)
Definition texts_at (h : gmap positive block) (bs : list positive) : Prop :=
  forall b, b ∈ bs -> exists text, h !! b = Some (BBytes text) /\ length text = 15%nat.

Definition texts (bs : list positive) : list test_msg_t := (fun b => TestMsg (Ptr b 0) 15) <$> bs.

Lemma collect_spec n m0 m F k :
  kept m0 m F k -> texts_at (heap m) F ->
  wp (collect n (ls_get_test_msg 15))
    (fun ts m' => exists bs, ts = texts bs /\ length bs = n /\ kept m0 m' (rev bs ++ F) (k + n) /\ texts_at (heap m') (rev bs ++ F)) m.
Proof.
  revert m F k. induction n as [|n IH]; intros m F k Hk Ht; cbn [collect].
  - apply wp_ret. exists []. by rewrite Nat.add_0_r.
  - eapply (wp_text 15); [done|exact Hk|]. intros m1 Hk1 Hold Hb _. apply wp_bind.
    eapply wp_mono; [apply (IH m1 (next m :: F) (k + 1)%nat Hk1)|].
    + intros b [->|HbF]%elem_of_cons; [eexists; split; [exact Hb|by rewrite randombytes_length]|].
      destruct (Ht b HbF) as (text & Hb' & Hl). exists text. by rewrite Hold.
    + intros ts m2 (bs & -> & Hl & Hk2 & Ht2). apply wp_ret. exists (next m :: bs). cbn [rev]. rewrite <-app_assoc. cbn [app].
      split; [done|]. split; [cbn; lia|]. replace (k + S n)%nat with (k + 1 + n)%nat by lia. done.
Qed.

Lemma count_valid_spec n bs r m0 m F G k :
  kept m0 m F k -> F ≡ₚ bs ++ G -> texts_at (heap m) bs ->
  wp (count_valid (texts bs) (key n) r)
    (fun v m' => v = r + Z.of_nat (length bs) /\ exists new, length new = length bs /\ kept m0 m' (new ++ G) k) m.
Proof.
  revert r m F G. induction bs as [|b bs IH]; intros r m F G Hk HF Ht; cbn [texts fmap list_fmap count_valid app] in *.
  - apply wp_ret. split; [cbn; lia|]. exists []. split; [done|]. by eapply kept_perm.
  - destruct (Ht b) as (text & Hb & Hl); [apply elem_of_cons; by left|].
    eapply (wp_sign _ _ n); [exact Hk|exact HF|exact Hb|by rewrite Hl|]. intros m1 Hk1 Hold Hb1 _.
    apply wp_bind. eapply wp_run; [eapply validate_signed; [exact Hb1|lia|lia|done]|]. cbn [Z.eqb].
    eapply wp_mono; [apply (IH _ m1 _ (next m :: G) Hk1)|].
    + apply Permutation_middle.
    + intros x Hx. rewrite Hold by (apply elem_of_app; by left). apply Ht, elem_of_cons. by right.
    + intros v m2 [-> (new & Hn & Hk2)]. split; [cbn [length]; lia|]. exists (new ++ [next m]).
      rewrite length_app, <-app_assoc. split; [cbn [length]; lia|done].
Qed.

Lemma test_INvalid_messages_spec m : wf m -> wp test_INvalid_messages (fun r m' => r = 0 /\ leftover m m' 15 16) m.
Proof.
  intros Hwf. unfold test_INvalid_messages. apply wp_key. apply wp_bind, wp_tick, wp_bind.
  pose proof (kept_env _ _ _ _ _ _ (S (ticks m)) _ _ 0 (kept_key m Hwf) eq_refl) as Hk. mem_cbn.
  eapply wp_mono; [apply (collect_spec 15 _ _ _ _ Hk); by intros b ?%not_elem_of_nil|].
  intros ts m1 (bs & -> & Hl & Hk1 & Ht1). rewrite app_nil_r in Hk1, Ht1. apply wp_bind.
  eapply wp_mono; [apply (count_valid_spec (rng m) bs 0 m m1 _ [] _ Hk1)|].
  - rewrite app_nil_r. symmetry. apply Permutation_rev.
  - intros b Hb. apply Ht1. by rewrite <-Permutation_rev.
  - intros v m2 [-> (new & Hn & Hk2)]. apply wp_ret. rewrite Hl. split; [done|]. exists new. rewrite app_nil_r in Hk2. split; [lia|done].
Qed.

(** ** Hashes *)

(** A text of [rand()] characters, signed. *)
Lemma wp_rand_signed {A} n (c : signed_message_t -> M A) Q m0 m F k :
  kept m0 m F k ->
  (forall b text m', kept m0 m' (b :: F) (k + 100) -> (forall x, x ∈ F -> heap m' !! x = heap m !! x) ->
     heap m' !! b = Some (BBytes (crypto_sign text (uk_sk (key n)))) -> length text = 100%nat -> rng m' = (100 + rng m)%nat ->
     wp (c (SignedMessage (Ptr b 0) 164 [])) Q m') ->
  wp (tm ← get_test_msg 100; sm ← sign_a_message tm (uk_sk (key n)); c sm) Q m.
Proof.
  intros Hk Hc. apply wp_bind. eapply wp_mono; [apply get_test_msg_run; [exact (k_wf _ _ _ _ Hk)|lia]|].
  intros tm m1 (-> & text & Hh & Hl & _ & Hn & Hr).
  assert (kept m0 m1 (next m :: F) (k + 100)) as Hk1.
  { rewrite (mem_eta m1), Hh, Hn. eapply kept_env; [apply (kept_alloc _ _ _ (rng m) (ticks m)); rewrite <-mem_eta; exact Hk|exact Hr]. }
  eapply (wp_sign _ _ n); [exact Hk1|done|rewrite Hh; apply lookup_insert_eq|by rewrite Hl|].
  intros m2 Hk2 Hold Hb Hr2. apply (Hc (next m1) text); [done| |done|by rewrite Hl|by rewrite Hr2, Hr].
  intros x Hx. rewrite Hold, Hh, lookup_insert_ne; [done| |done]. apply (k_range _ _ _ _ Hk) in Hx. lia.
Qed.

Lemma wp_calc_hash {A} b text n pk (c : ptr -> M A) Q m0 m F k :
  kept m0 m F k -> b ∈ F -> heap m !! b = Some (BBytes (crypto_sign text (uk_sk (key n)))) -> length text = 100%nat ->
  (forall m', kept m0 m' (next m :: F) k -> (forall x, x ∈ F -> heap m' !! x = heap m !! x) ->
     heap m' !! next m = Some (BBytes (crypto_generichash (crypto_sign text (uk_sk (key n))))) -> rng m' = rng m ->
     wp (c (Ptr (next m) 0)) Q m') ->
  wp (p ← calc_hash (SignedMessage (Ptr b 0) 164 pk); c p) Q m.
Proof.
  intros Hk HbF Hb Hl Hc. apply wp_bind. eapply wp_run.
  { apply calc_hash_run; [exact (k_wf _ _ _ _ Hk)|]. cbn [sm_message sm_length]. apply bytes_at_all; [exact Hb|]. by rewrite sign_length, Hl. }
  apply Hc; [apply kept_alloc; by rewrite <-mem_eta| |apply lookup_insert_eq|done].
  intros x Hx%(k_range _ _ _ _ Hk). cbn. by rewrite lookup_insert_ne by lia.
Qed.

Lemma test_hash_spec m : wf m -> wp test_hash (fun r m' => r = 0 /\ leftover m m' 502 101) m.
Proof.
  intros Hwf. unfold test_hash. apply wp_key. apply wp_bind, wp_tick. mem_cbn.
  pose proof (kept_env _ _ _ _ _ _ (S (ticks m)) _ _ 0 (kept_key m Hwf) eq_refl) as Hk.
  eapply wp_rand_signed; [exact Hk|]. intros b text m1 Hk1 _ Hb Hl _.
  eapply wp_calc_hash; [exact Hk1|apply elem_of_cons; by left|exact Hb|done|]. intros m2 Hk2 Hold2 Hb2 _.
  apply wp_bind. eapply wp_load_bytes; [apply bytes_at_all; [exact Hb2|by rewrite generichash_length]|].
  set (hash := crypto_generichash _). apply wp_bind.
  eapply wp_mono; [apply (wp_until_break (fun j m3 => exists F, length F = (2 + j)%nat /\ b ∈ F /\ kept m m3 F 101 /\
    heap m3 !! b = Some (BBytes (crypto_sign text (uk_sk (key (rng m)))))))|].
  - exists [next m1; b]. split_and!; [done|set_solver|done|]. rewrite Hold2 by set_solver. exact Hb.
  - intros j m3 Hj (F & HF & HbF & Hk3 & Hb3). eapply wp_calc_hash; [exact Hk3|done|exact Hb3|done|]. intros m4 Hk4 Hold4 Hb4 _.
    apply wp_bind. eapply wp_load_bytes; [apply bytes_at_all; [exact Hb4|by rewrite generichash_length]|].
    apply wp_ret. fold hash. rewrite strncmp_refl. split; [done|]. exists (next m3 :: F). split_and!; [cbn; lia|set_solver|done|].
    by rewrite Hold4.
  - intros r m3 [-> (F & HF & _ & Hk3 & _)]. apply wp_ret. split; [done|]. by exists F.
Qed.

Lemma test_hash_merging_spec m : wf m -> wp test_hash_merging (fun r m' => r = 0 /\ leftover m m' 5 202) m.
Proof.
  intros Hwf. unfold test_hash_merging. apply wp_key. apply wp_bind, wp_tick. mem_cbn.
  pose proof (kept_env _ _ _ _ _ _ (S (ticks m)) _ _ 0 (kept_key m Hwf) eq_refl) as Hk.
  eapply wp_rand_signed; [exact Hk|]. intros b text m1 Hk1 _ Hb Hl _. apply wp_key.
  pose proof (kept_trans _ _ _ _ _ _ _ Hk1 (kept_key m1 (k_wf _ _ _ _ Hk1))) as Hk1'. cbn [app] in Hk1'.
  eapply wp_rand_signed; [exact Hk1'|]. intros b2 text2 m2 Hk2 Hold2 Hb2 Hl2 _.
  eapply wp_calc_hash; [exact Hk2|set_solver|rewrite Hold2 by set_solver; exact Hb|done|]. intros m3 Hk3 Hold3 Hh1 _.
  eapply wp_calc_hash; [exact Hk3|set_solver|rewrite Hold3 by set_solver; exact Hb2|done|]. intros m4 Hk4 Hold4 Hh2 _.
  apply wp_bind. eapply wp_run.
  { apply merge_2hashses_at_run; [apply bytes_at_all; [rewrite Hold4 by set_solver; exact Hh1|by rewrite generichash_length]|
      apply bytes_at_all; [exact Hh2|by rewrite generichash_length]|apply generichash_length..]. }
  apply wp_ret. split; [done|]. eexists. split; [|apply kept_alloc; rewrite <-mem_eta; exact Hk4]. done.
Qed.

(** ** Signed messages on the heap *)

(** The struct at [id.1], whose buffer [id.2] holds a message of key [n]. *)
Definition msg_blk (h : gmap positive block) (n : nat) (id : positive * positive) (text : list byte) : Prop :=
  h !! id.1 = Some (BMsgs [SignedMessage (Ptr id.2 0) 164 (uk_pk (key n))]) /\
  h !! id.2 = Some (BBytes (crypto_sign text (uk_sk (key n)))).

(** A struct that points to the buffer [id.2], whatever it holds. *)
Definition holds (h : gmap positive block) (id : positive * positive) : Prop :=
  exists sm, h !! id.1 = Some (BMsgs [sm]) /\ sm_message sm = Ptr id.2 0.

Lemma msg_blk_holds h n id text : msg_blk h n id text -> holds h id.
Proof. intros [H _]. by eexists. Qed.

Lemma msg_blk_ext h h' n id text : (forall x, x ∈ [id.1; id.2] -> h' !! x = h !! x) -> msg_blk h n id text -> msg_blk h' n id text.
Proof. intros Heq [H1 H2]. split; rewrite Heq; done || set_solver. Qed.

Lemma kept_two m m' a b va vb k :
  wf m -> (next m <= a)%positive -> (next m <= b)%positive -> (a < next m')%positive -> (b < next m')%positive -> a <> b ->
  heap m' = <[a := va]> (<[b := vb]> (heap m)) -> rng m' = (k + rng m)%nat -> kept m m' [a; b] k.
Proof.
  intros Hwf Ha Hb Ha' Hb' Hne Hh Hr. split; [lia| | | | |done| |done].
  - intros x. rewrite !elem_of_cons, elem_of_nil. intros [->|[->|[]]]; lia.
  - apply NoDup_cons. split; [set_solver|apply NoDup_singleton].
  - intros x. rewrite Hh, !elem_of_cons, elem_of_nil. intros [->|[->|[]]]; [|rewrite lookup_insert_ne by done];
      rewrite lookup_insert_eq; by eexists.
  - intros x. rewrite !not_elem_of_cons. intros (? & ? & _). by rewrite Hh, !lookup_insert_ne.
  - intros x Hx. rewrite Hh, !lookup_insert_ne by lia. apply Hwf. lia.
Qed.

Lemma wp_message {A} n (c : ptr -> M A) Q m0 m F k :
  kept m0 m F k ->
  (forall id m', kept m0 m' (id.1 :: id.2 :: F) (k + 1) -> (forall x, (x < next m)%positive -> heap m' !! x = heap m !! x) ->
     msg_blk (heap m') n id (randombytes_buf (rng m) 100) -> rng m' = S (rng m) -> wp (c (Ptr id.1 0)) Q m') ->
  wp (p ← ls_get_a_signed_msg (key n); c p) Q m.
Proof.
  intros Hk Hc. pose proof (k_wf _ _ _ _ Hk) as Hwf. apply wp_bind.
  eapply wp_run; [apply (ls_get_a_signed_msg_spec (key n) m Hwf (keypair_pk_length n) (keypair_sk_length n))|].
  apply (Hc (Pos.succ (next m), Pos.succ (Pos.succ (next m)))); cbn [fst snd heap rng].
  - apply (kept_trans _ _ _ _ [_; _] _ _ Hk). eapply kept_two; [done|cbn; lia..|reflexivity|done].
  - intros x Hx. by rewrite !lookup_insert_ne by lia.
  - split; cbn [fst snd]; [apply lookup_insert_eq|]. by rewrite lookup_insert_ne, lookup_insert_eq by lia.
  - done.
Qed.

(** [*msg] is checked. *)
Lemma check_run n id text m :
  msg_blk (heap m) n id text -> length text = 100%nat ->
  (sm ← load (A:=signed_message_t) (Ptr id.1 0); validate_a_message sm (uk_pk (key n))) m = Ok (1, m).
Proof.
  intros [H1 H2] Hl. apply wp_eq, wp_bind. eapply (wp_load (H:=storable_msg)); [exact H1|done|].
  eapply wp_run; [eapply validate_signed; [exact H2|lia|lia|done]|done].
Qed.

Lemma wp_check {A} n id text (c : Z -> M A) Q m :
  msg_blk (heap m) n id text -> length text = 100%nat -> wp (c 1) Q m ->
  wp (sm ← load (A:=signed_message_t) (Ptr id.1 0); v ← validate_a_message sm (uk_pk (key n)); c v) Q m.
Proof.
  intros [H1 H2] Hl Hc. apply wp_bind. eapply (wp_load (H:=storable_msg)); [exact H1|done|].
  apply wp_bind. eapply wp_run; [|exact Hc]. eapply validate_signed; [exact H2|lia|lia|done].
Qed.

Lemma destroy_spec id m0 m F G k :
  kept m0 m F k -> F ≡ₚ [id.1; id.2] ++ G -> holds (heap m) id ->
  wp (destroy_signed_message (Ptr id.1 0)) (fun _ m' => released m m' [id.1; id.2] /\ kept m0 m' G k) m.
Proof.
  intros Hk HF (sm & H1 & H2). pose proof (k_NoDup _ _ _ _ Hk) as Hnd. rewrite HF in Hnd. cbn [app] in Hnd.
  apply NoDup_cons in Hnd as [Hne _]. destruct (k_live _ _ _ _ Hk id.2) as [blk H3]; [rewrite HF; set_solver|].
  eapply wp_run; [eapply destroy_signed_message_run; [exact H1|exact H2|exact H3|set_solver]|].
  assert (released m (Mem (delete id.1 (delete id.2 (heap m))) (next m) (rng m) (ticks m)) [id.1; id.2]) as Hr.
  { split; try done. intros b. cbn. rewrite !lookup_delete. repeat case_decide; set_solver. }
  split; [exact Hr|by eapply kept_released].
Qed.

Lemma wp_destroy {A} id (c : M A) Q m0 m F G k :
  kept m0 m F k -> F ≡ₚ [id.1; id.2] ++ G -> holds (heap m) id ->
  (forall m', kept m0 m' G k -> (forall x, x ∈ G -> heap m' !! x = heap m !! x) -> wp c Q m') ->
  wp (destroy_signed_message (Ptr id.1 0) ;; c) Q m.
Proof.
  intros Hk HF Hh Hc. apply wp_bind. eapply wp_mono; [by eapply destroy_spec|]. intros [] m' [Hr Hk']. apply Hc; [done|].
  intros x Hx. rewrite (r_heap _ _ _ Hr), decide_False; [done|]. pose proof (k_NoDup _ _ _ _ Hk) as Hnd. rewrite HF in Hnd.
  apply NoDup_app in Hnd as (_ & Hd & _). intros Hin. by apply (Hd x).
Qed.

Lemma test_cleanup_message_spec m : wf m -> wp test_cleanup_message (fun r m' => r = 0 /\ leftover m m' 0 2) m.
Proof.
  intros Hwf. unfold test_cleanup_message. apply wp_key. eapply wp_message; [by apply kept_key|]. intros id m1 Hk1 _ Hm1 _.
  eapply wp_check; [exact Hm1|apply randombytes_length|].
  eapply wp_destroy with (G := []); [exact Hk1|done|by eapply msg_blk_holds|]. intros m2 Hk2 _. apply wp_ret. split; [done|]. by exists [].
Qed.

Lemma msg_blk_at h n id text : msg_blk h n id text -> length text = 100%nat ->
  exists sm, msg_at h (Ptr id.1 0) sm (crypto_sign text (uk_sk (key n))).
Proof.
  intros [H1 H2] Hl. eexists. split; [do 3 eexists; split; [done|]; split; [exact H1|done]|].
  cbn [sm_message sm_length]. apply bytes_at_all; [exact H2|]. by rewrite sign_length, Hl.
Qed.

Lemma test_create_and_destroy_hpoint_spec m : wf m -> wp test_create_and_destroy_hpoint (fun r m' => r = 0 /\ leftover m m' 0 4) m.
Proof.
  intros Hwf. unfold test_create_and_destroy_hpoint. apply wp_key.
  eapply wp_message; [by apply kept_key|]. intros id m1 Hk1 _ Hm1 _. eapply wp_check; [exact Hm1|apply randombytes_length|].
  apply wp_key. pose proof (kept_trans _ _ _ _ _ _ _ Hk1 (kept_key m1 (k_wf _ _ _ _ Hk1))) as Hk1'. cbn [app] in Hk1'.
  eapply wp_message; [exact Hk1'|]. cbn [next heap rng]. intros id2 m2 Hk2 Hold2 Hm2 _.
  eapply wp_check; [exact Hm2|apply randombytes_length|].
  apply (msg_blk_ext _ (heap m2)) in Hm1;
    [|intros x Hx; apply Hold2; apply (k_range _ _ _ _ Hk1); rewrite !elem_of_cons, elem_of_nil in Hx; set_solver].
  destruct (msg_blk_at _ _ _ _ Hm1 (randombytes_length _ _)) as [sm1 Ha1]. destruct (msg_blk_at _ _ _ _ Hm2 (randombytes_length _ _)) as [sm2 Ha2].
  apply wp_bind. eapply wp_run; [eapply create_hpoint_message_run; [exact (k_wf _ _ _ _ Hk2)|exact Ha1|exact Ha2]|].
  apply wp_bind. eapply (wp_load (H:=storable_hp)); [apply lookup_insert_eq|done|]. cbn [hp_u get_messages].
  apply wp_bind, wp_ret. cbn [smsg_p1 smsg_p2]. rewrite !decide_True by done.
  set (m3 := Mem _ _ _ _).
  assert (kept m m3 (next m2 :: id2.1 :: id2.2 :: id.1 :: id.2 :: []) 4) as Hk3.
  { eapply kept_skip; [apply kept_alloc; rewrite <-mem_eta; exact Hk2|lia]. }
  assert (forall x, x ∈ [id.1; id.2; id2.1; id2.2] -> heap m3 !! x = heap m2 !! x) as Hold3.
  { intros x Hx. cbn. rewrite lookup_insert_ne; [done|]. intros <-.
    assert (next m2 < next m2)%positive; [|lia]. apply (k_range _ _ _ _ Hk2). set_solver. }
  apply (msg_blk_ext _ (heap m3)) in Hm1; [|intros x Hx; apply Hold3; set_solver].
  apply (msg_blk_ext _ (heap m3)) in Hm2; [|intros x Hx; apply Hold3; set_solver].
  eapply wp_destroy with (id := id) (G := [next m2; id2.1; id2.2]); [exact Hk3|solve_Permutation|by eapply msg_blk_holds|]. intros m4 Hk4 Hold4.
  eapply wp_destroy with (id := id2) (G := [next m2]); [exact Hk4|solve_Permutation| |].
  { eapply msg_blk_holds, msg_blk_ext; [|exact Hm2]. intros x Hx. apply Hold4. set_solver. }
  intros m5 Hk5 _. unfold destroy_hpoint_message. eapply kept_free; [exact Hk5|done|]. intros m6 Hk6 _. apply wp_ret. split; [done|]. by exists [].
Qed.

(** ** Arrays of messages *)

Definition id_ptrs (ids : list (positive * positive)) : list ptr := (fun id => Ptr id.1 0) <$> ids.

(** The first entries of an array of [n] point to the messages [ids] of key
    [kn], whose texts are the draws from number [r] on. *)
Record filled (h : gmap positive block) (arr : positive) (n kn r : nat) (ids : list (positive * positive)) : Prop := Filled {
  fl_arr : h !! arr = Some (BPtrs (id_ptrs ids ++ replicate (n - length ids) NULL));
  fl_msg i id : ids !! i = Some id -> msg_blk h kn id (randombytes_buf (r + i) 100) }.

Lemma in_id_blocks ids x : x ∈ id_blocks ids <-> exists id, id ∈ ids /\ x ∈ [id.1; id.2].
Proof.
  unfold id_blocks. rewrite list_elem_of_In, in_flat_map. split; intros (id & H1 & H2); exists id; by rewrite ?list_elem_of_In in *.
Qed.

Lemma id_blocks_app ids ids' : id_blocks (ids ++ ids') = id_blocks ids ++ id_blocks ids'.
Proof. apply List.flat_map_app. Qed.

Lemma id_in_blocks ids i id x : ids !! i = Some id -> x ∈ [id.1; id.2] -> x ∈ id_blocks ids.
Proof. intros Hi Hx. apply in_id_blocks. exists id. split; [by eapply list_elem_of_lookup_2|done]. Qed.

Lemma id_blocks_lookup ids i id :
  ids !! i = Some id -> id_blocks ids !! (2 * i)%nat = Some id.1 /\ id_blocks ids !! (2 * i + 1)%nat = Some id.2.
Proof.
  revert i. induction ids as [|a ids IH]; intros [|i] Hi; [done..|injection Hi as ->; done|].
  replace (2 * S i)%nat with (S (S (2 * i))) by lia. by apply IH.
Qed.

(** Different messages, different blocks. *)
Lemma id_blocks_distinct ids i j a b :
  NoDup (id_blocks ids) -> ids !! i = Some a -> ids !! j = Some b -> (a.2 = b.2 <-> j = i) /\ a.2 <> b.1.
Proof.
  intros Hnd Hi Hj. destruct (id_blocks_lookup _ _ _ Hi) as [_ Ha]. destruct (id_blocks_lookup _ _ _ Hj) as [Hb1 Hb2]. split; [split|].
  - intros He. rewrite He in Ha. pose proof (NoDup_lookup _ _ _ _ Hnd Ha Hb2). lia.
  - intros ->. by simplify_eq.
  - intros He. rewrite He in Ha. pose proof (NoDup_lookup _ _ _ _ Hnd Ha Hb1). lia.
Qed.

(** One more message, and its entry in the array. *)
Lemma make_message_spec arr n kn r ids m0 m F k :
  kept m0 m (id_blocks ids ++ F) k -> arr ∈ F -> filled (heap m) arr n kn r ids -> (length ids < n)%nat -> rng m = (r + length ids)%nat ->
  wp (make_message (key kn) (Ptr arr 0) (length ids))
    (fun v m' => v = 1 /\ exists id, kept m0 m' (id_blocks (ids ++ [id]) ++ F) (k + 1) /\
       filled (heap m') arr n kn r (ids ++ [id]) /\ rng m' = S (rng m) /\
       forall x, x ∈ F -> x <> arr -> heap m' !! x = heap m !! x) m.
Proof.
  intros Hk Harr [Ha Hm] Hlt Hr. unfold make_message. eapply wp_message; [exact Hk|]. intros id m1 Hk1 Hold Hid Hr1.
  assert (forall x, x ∈ id_blocks ids ++ F -> (x < next m)%positive) as Hrange by (intros x Hx%(k_range _ _ _ _ Hk); lia).
  assert (forall x, x ∈ [id.1; id.2] -> x ∉ id_blocks ids ++ F) as Hnew.
  { pose proof (k_NoDup _ _ _ _ Hk1) as Hnd. rewrite !NoDup_cons, !not_elem_of_cons in Hnd. set_solver. }
  assert (arr ∈ id_blocks ids ++ F) as Harr' by (apply elem_of_app; by right).
  assert (length (id_ptrs ids) = length ids) as Hl by apply length_fmap.
  destruct (n - length ids)%nat as [|z] eqn:Hz; [lia|].
  unfold store_ix. cbn [padd]. rewrite Z.add_0_l. apply wp_bind.
  eapply (wp_store (H:=storable_ptr)); [rewrite Hold by auto; exact Ha|rewrite zlookup_of_nat, lookup_app_r, Hl, Nat.sub_diag by lia; done|].
  rewrite Nat2Z.id, insert_app_r_alt, Hl, Nat.sub_diag by lia. cbn [replicate list_insert insert].
  set (m2 := Mem _ _ _ _).
  assert (heap m2 !! arr = Some (BPtrs (id_ptrs (ids ++ [id]) ++ replicate z NULL))) as Ha2.
  { cbn. rewrite lookup_insert_eq. unfold id_ptrs. by rewrite fmap_app, <-app_assoc. }
  assert (forall x, x <> arr -> heap m2 !! x = heap m1 !! x) as Hold2 by (intros x Hx; cbn; by rewrite lookup_insert_ne).
  assert (msg_blk (heap m2) kn id (randombytes_buf (rng m) 100)) as Hid2.
  { eapply msg_blk_ext; [|exact Hid]. intros x Hx. apply Hold2. intros ->. by apply (Hnew arr). }
  apply wp_bind. eapply wp_run.
  { eapply load_ix_ptr; [exact Ha2|lia|]. rewrite Nat2Z.id. unfold id_ptrs. rewrite fmap_app, lookup_app_l by (rewrite length_app, length_fmap; cbn; lia).
    rewrite lookup_app_r, length_fmap, Nat.sub_diag by (rewrite length_fmap; lia). done. }
  eapply wp_run; [by eapply check_run; [|apply randombytes_length]|]. split; [done|]. exists id. split_and!.
  - unfold m2. apply kept_write; [rewrite <-mem_eta|apply elem_of_app; by right].
    eapply kept_perm; [exact Hk1|]. rewrite id_blocks_app. cbn [id_blocks flat_map app]. solve_Permutation.
  - split; [by rewrite length_app, Nat.sub_add_distr, Hz, Nat.sub_1_r|]. intros i id' Hi.
    apply lookup_app_Some in Hi as [Hi|[Hge Hi]].
    + eapply msg_blk_ext; [|by apply Hm]. intros x Hx. pose proof (id_in_blocks _ _ _ _ Hi Hx) as Hin.
      rewrite Hold2, Hold; [done|apply Hrange, elem_of_app; by left|]. intros ->.
      pose proof (k_NoDup _ _ _ _ Hk) as Hnd. apply NoDup_app in Hnd as (_ & Hd & _). by apply (Hd arr).
    + apply list_lookup_singleton_Some in Hi as [Hi <-]. by replace (r + i)%nat with (rng m) by lia.
  - exact Hr1.
  - intros x Hx Hne. rewrite Hold2, Hold; [done|apply Hrange, elem_of_app; by right|done].
Qed.

Lemma fill_spec arr n kn m0 m F k :
  kept m0 m F k -> arr ∈ F -> heap m !! arr = Some (BPtrs (replicate n NULL)) ->
  wp (sum_from 0 n (make_message (key kn) (Ptr arr 0)) 0)
    (fun v m' => v = Z.of_nat n /\ exists ids, length ids = n /\ kept m0 m' (id_blocks ids ++ F) (k + n) /\
       filled (heap m') arr n kn (rng m) ids /\ forall x, x ∈ F -> x <> arr -> heap m' !! x = heap m !! x) m.
Proof.
  intros Hk Harr Ha. eapply wp_mono; [apply (wp_sum_from (fun j m1 => exists ids, length ids = j /\ kept m0 m1 (id_blocks ids ++ F) (k + j) /\
    filled (heap m1) arr n kn (rng m) ids /\ rng m1 = (rng m + j)%nat /\ forall x, x ∈ F -> x <> arr -> heap m1 !! x = heap m !! x))|].
  - exists []. rewrite !Nat.add_0_r. split_and!; [done|done| |done|done]. split; [by rewrite Nat.sub_0_r|done].
  - intros j m1 Hj (ids & <- & Hk1 & Hf1 & Hr1 & Hx1). eapply wp_mono; [apply (make_message_spec arr n kn (rng m) ids m0 m1 F _ Hk1 Harr Hf1); lia|].
    intros v m2 [-> (id & Hk2 & Hf2 & Hr2 & Hx2)]. split; [done|]. exists (ids ++ [id]). rewrite length_app. cbn [length].
    split_and!; [lia| |done|lia|intros x Hx Hne; by rewrite Hx2, Hx1]. by replace (k + S (length ids))%nat with (k + length ids + 1)%nat by lia.
  - intros v m1 [-> (ids & Hl & Hk1 & Hf1 & _ & Hx)]. split; [done|]. exists ids. done.
Qed.

(** Releasing the messages, whatever their buffers hold. *)
Lemma destroy_messages_spec arr ids m0 m F G k :
  kept m0 m F k -> F ≡ₚ id_blocks ids ++ G -> arr ∈ G -> heap m !! arr = Some (BPtrs (id_ptrs ids)) ->
  (forall id, id ∈ ids -> holds (heap m) id) ->
  wp (destroy_messages (length ids) (Ptr arr 0)) (fun _ m' => released m m' (id_blocks ids) /\ kept m0 m' G k) m.
Proof.
  intros Hk HF Harr Ha Hids. unfold destroy_messages. pose proof (k_NoDup _ _ _ _ Hk) as Hnd. rewrite HF in Hnd.
  eapply wp_mono; [apply (wp_for (fun j m1 => released m m1 (id_blocks (take j ids)) /\ kept m0 m1 (id_blocks (drop j ids) ++ G) k))|].
  - split; [apply released_nil|by eapply kept_perm].
  - intros j m1 Hj [Hr Hk1]. destruct (lookup_lt_is_Some_2 ids j Hj) as [id Hid].
    rewrite (drop_S _ _ _ Hid) in Hk1. cbn [id_blocks flat_map] in Hk1. fold (id_blocks (drop (S j) ids)) in Hk1.
    assert (forall x, x ∈ [id.1; id.2] ++ G -> heap m1 !! x = heap m !! x) as Hold.
    { intros x Hx. rewrite (r_heap _ _ _ Hr), decide_False; [done|]. rewrite <-(take_drop j ids), id_blocks_app, <-app_assoc in Hnd.
      apply NoDup_app in Hnd as (_ & Hd & _). intros Hin. apply (Hd x Hin). rewrite (drop_S _ _ _ Hid). cbn [id_blocks flat_map]. set_solver. }
    apply wp_bind. eapply wp_run.
    { eapply load_ix_ptr; [rewrite Hold by set_solver; exact Ha|lia|]. rewrite Nat2Z.id. unfold id_ptrs. by rewrite list_lookup_fmap, Hid. }
    eapply wp_mono; [eapply (destroy_spec id m0 m1 _ (id_blocks (drop (S j) ids) ++ G)); [exact Hk1|by rewrite <-app_assoc|]|].
    + destruct (Hids id) as (sm & H1 & H2); [by eapply list_elem_of_lookup_2|]. exists sm. rewrite Hold by set_solver. done.
    + intros [] m2 [Hr2 Hk2]. split; [|done]. rewrite (take_S_r _ _ _ Hid), id_blocks_app. cbn [id_blocks flat_map]. rewrite app_nil_r.
      by eapply released_trans.
  - intros [] m1 [Hr Hk1]. rewrite take_ge in Hr by done. rewrite drop_ge in Hk1 by done. done.
Qed.

(** What a block keeps of [filled] once its entries are all set. *)
Lemma filled_all h arr n kn r ids : filled h arr n kn r ids -> length ids = n ->
  h !! arr = Some (BPtrs (id_ptrs ids)) /\ forall id, id ∈ ids -> holds h id.
Proof.
  intros [Ha Hm] Hl. split.
  - by rewrite Hl, Nat.sub_diag, app_nil_r in Ha.
  - intros id [i Hi]%list_elem_of_lookup_1. by eapply msg_blk_holds, Hm.
Qed.

Lemma test_message_creation_and_validation_spec m :
  wf m -> wp test_message_creation_and_validation (fun r m' => r = 0 /\ leftover m m' 0 513) m.
Proof.
  intros Hwf. unfold test_message_creation_and_validation. apply wp_key. apply wp_bind. unfold calloc. apply wp_alloc. mem_cbn.
  pose proof (kept_alloc _ _ _ _ _ _ _ (BPtrs (replicate 512 NULL)) (kept_key m Hwf)) as Hk. apply wp_bind.
  eapply wp_mono; [apply (fill_spec _ 512 _ m _ _ _ Hk); [set_solver|apply lookup_insert_eq]|].
  intros v m1 [-> (ids & Hl & Hk1 & Hf1 & _)]. destruct (filled_all _ _ _ _ _ _ Hf1 Hl) as [Ha Hids].
  apply wp_bind. rewrite <-Hl at 1. eapply wp_mono; [apply (destroy_messages_spec _ ids m m1 _ [next m] _ Hk1); [done|set_solver|done|done]|].
  intros [] m2 [_ Hk2]. eapply kept_free; [exact Hk2|done|]. intros m3 Hk3 _. apply wp_ret. split; [done|]. by exists [].
Qed.

(** ** Trees *)

(** Where the messages are, and what they hold. *)
Definition id_ptr (ids : list (positive * positive)) (i : nat) : ptr := default NULL (id_ptrs ids !! i).
Definition drawn (kn r i : nat) : list byte := crypto_sign (randombytes_buf (r + i) 100) (uk_sk (key kn)).

Lemma id_ptr_lookup ids i id : ids !! i = Some id -> id_ptr ids i = Ptr id.1 0.
Proof. intros Hi. unfold id_ptr, id_ptrs. by rewrite list_lookup_fmap, Hi. Qed.

Lemma filled_msgs h arr kn r ids : filled h arr (length ids) kn r ids -> msgs_at h arr (length ids) (id_ptr ids) (drawn kn r).
Proof.
  intros [Ha Hm]. rewrite Nat.sub_diag, app_nil_r in Ha. exists (id_ptrs ids). split; [done|]. intros i Hi.
  destruct (lookup_lt_is_Some_2 ids i Hi) as [id Hid]. rewrite (id_ptr_lookup _ _ _ Hid). split.
  - unfold id_ptrs. by rewrite list_lookup_fmap, Hid.
  - apply msg_blk_at; [by apply Hm|apply randombytes_length].
Qed.

Lemma tree_live h E T mp mb la lp b : tree_rep h E T mp mb la lp -> b ∈ tree_blocks T 0 E ++ [la; lp] -> is_Some (h !! b).
Proof.
  intros [Hlay (ps & ls & Hps & Hls & _)] [Hb|Hb]%elem_of_app.
  - apply elem_of_tree_blocks in Hb as (d & Hd & Hb). destruct (Hlay d ltac:(lia)) as [Hs Ha _ Hn]. unfold li_blocks in Hb.
    rewrite !elem_of_cons in Hb. destruct Hb as [->|[->|[i Hi]%list_elem_of_lookup_1]]; [by eexists..|]. rewrite (Hn i b Hi). by eexists.
  - rewrite !elem_of_cons, elem_of_nil in Hb. destruct Hb as [->|[->|[]]]; by eexists.
Qed.

(** The tree over the messages; what it leaves alone of the run. *)
Lemma build_spec E arr la lp kn r ids m0 m F k :
  kept m0 m F k -> (0 < E < 64)%nat -> la ∈ F -> lp ∈ F -> la <> lp ->
  heap m !! la = Some (BPtrs (replicate E NULL)) -> heap m !! lp = Some (BLayers (replicate E zero_layer_hp)) ->
  length ids = (2 ^ E)%nat -> filled (heap m) arr (2 ^ E) kn r ids ->
  wp (build_layers (Z.of_nat E) (Z.of_nat (2 ^ E)) (Ptr arr 0) (Ptr la 0) (Ptr lp 0))
    (fun _ m' => exists T, tree_rep (heap m') E T (id_ptr ids) (drawn kn r) la lp /\ kept m0 m' (tree_blocks T 0 E ++ F) k /\
       forall x, x ∈ F -> x <> la -> x <> lp -> heap m' !! x = heap m !! x) m.
Proof.
  intros Hk HE Hla Hlp Hne Ha Hp Hl Hf. pose proof (k_wf _ _ _ _ Hk) as Hwf.
  eapply wp_mono; [apply (build_layers_spec E arr la lp _ _ (id_ptr ids) (drawn kn r) m Hwf HE Hne Ha Hp); [by rewrite length_replicate..|]|].
  - rewrite <-Hl in *. by apply filled_msgs.
  - intros _ m' (T & Ht & Hnd & Hg). exists T. split_and!; [done| |].
    + eapply kept_grows; [exact Hk|exact Hg|done|set_solver|]. intros b. by eapply tree_live.
    + intros x Hx H1 H2. apply (g_frame _ _ _ _ Hg); [|set_solver]. intros Hin%(g_range _ _ _ _ Hg).
      apply (k_range _ _ _ _ Hk) in Hx. lia.
Qed.

(** The end of the tree tests: layers, messages and the array are released. *)
Lemma wp_release {A} E n arr la lp T mp mb ids (c : M A) Q m0 m F G k :
  length ids = n -> kept m0 m F k -> F ≡ₚ tree_blocks T 0 E ++ id_blocks ids ++ arr :: G -> la ∈ G ->
  tree_rep (heap m) E T mp mb la lp -> heap m !! arr = Some (BPtrs (id_ptrs ids)) -> (forall id, id ∈ ids -> holds (heap m) id) ->
  (forall m', kept m0 m' G k -> (forall x, x ∈ G -> heap m' !! x = heap m !! x) -> wp c Q m') ->
  wp (destroy_layers (Z.of_nat E) (Ptr la 0) ;; destroy_messages n (Ptr arr 0) ;; free (Ptr arr 0) ;; c) Q m.
Proof.
  intros <- Hk HF HlaG Ht Ha Hids Hc. pose proof (k_NoDup _ _ _ _ Hk) as Hnd. rewrite HF in Hnd.
  pose proof Hnd as (HndT & HdT & HndR)%NoDup_app. pose proof HndR as (_ & HdI & HndA)%NoDup_app. apply NoDup_cons in HndA as [HarrG _].
  assert (la ∉ tree_blocks T 0 E) as Hla by (intros Hin; apply (HdT la Hin); set_solver).
  apply wp_bind. unfold destroy_layers. rewrite Nat2Z.id. eapply wp_mono; [by eapply destroy_layers_spec|]. intros [] m1 R1.
  pose proof (kept_released _ _ _ _ _ _ _ Hk R1 HF) as Hk1.
  assert (forall x, x ∈ id_blocks ids ++ arr :: G -> heap m1 !! x = heap m !! x) as Hold1.
  { intros x Hx. rewrite (r_heap _ _ _ R1), decide_False; [done|]. intros Hin. by apply (HdT x). }
  apply wp_bind. eapply wp_mono; [eapply (destroy_messages_spec arr ids m0 m1 _ (arr :: G)); [exact Hk1|done|set_solver| |]|].
  - rewrite Hold1 by set_solver. exact Ha.
  - intros id Hid. destruct (Hids id Hid) as (sm & H1 & H2). exists sm. rewrite Hold1; [done|]. apply elem_of_app. left.
    apply in_id_blocks. exists id. set_solver.
  - intros [] m2 [R2 Hk2]. eapply kept_free; [exact Hk2|done|]. intros m3 Hk3 R3. apply Hc; [done|]. intros x Hx.
    rewrite (r_heap _ _ _ R3), decide_False, (r_heap _ _ _ R2), decide_False; [apply Hold1; set_solver| |set_solver].
    intros Hin. apply (HdI x Hin). set_solver.
Qed.

Lemma test_process_messages_L1_v2_spec m : wf m -> wp test_process_messages_L1_v2 (fun r m' => r = 0 /\ leftover m m' 0 33) m.
Proof.
  intros Hwf. unfold test_process_messages_L1_v2. change (u64 (Z.shiftl 1 5)) with (Z.of_nat (2 * 16)). cbv zeta. rewrite Nat2Z.id.
  apply wp_key. apply wp_bind. unfold calloc. apply wp_alloc. mem_cbn. rewrite Nat2Z.id.
  pose proof (kept_alloc _ _ _ _ _ _ _ (BPtrs (replicate (2 * 16) NULL)) (kept_key m Hwf)) as Hk. apply wp_bind.
  eapply wp_mono; [apply (fill_spec _ (2 * 16) _ m _ _ _ Hk); [set_solver|apply lookup_insert_eq]|].
  intros v m1 [-> (ids & Hl & Hk1 & Hf1 & _)]. destruct (filled_all _ _ _ _ _ _ Hf1 Hl) as [Ha Hids].
  apply wp_bind. eapply wp_mono.
  { apply (process_s_messagesV2_spec (next m) 16 (id_ptr ids) (drawn (rng m) (S (rng m))) m1 (k_wf _ _ _ _ Hk1)); [lia|lia|].
    rewrite <-Hl in *. by apply filled_msgs. }
  intros p m2 (l & -> & Hrep & Hndl & Hg).
  assert (forall x, x ∈ li_blocks l -> is_Some (heap m2 !! x)) as Hlive.
  { destruct Hrep as [Hs Har _ Hn]. intros x. unfold li_blocks. rewrite !elem_of_cons.
    intros [->|[->|[i Hi]%list_elem_of_lookup_1]]; [by eexists..|]. rewrite (Hn i x Hi). by eexists. }
  pose proof (kept_grows _ _ _ _ _ [] _ Hk1 Hg Hndl) as Hk2.
  specialize (Hk2 ltac:(by intros ? ?%not_elem_of_nil) ltac:(intros b; rewrite app_nil_r; apply Hlive)).
  assert (forall x, x ∈ id_blocks ids ++ [next m] -> heap m2 !! x = heap m1 !! x) as Hold2.
  { intros x Hx%(k_range _ _ _ _ Hk1). apply (g_frame _ _ _ _ Hg); [|apply not_elem_of_nil]. intros Hin%(g_range _ _ _ _ Hg). lia. }
  apply wp_bind. eapply wp_mono; [by eapply destoroy_a_layer_spec|]. intros [] m3 R3.
  pose proof (kept_released _ _ _ _ (id_blocks ids ++ [next m]) _ _ Hk2 R3 ltac:(done)) as Hk3.
  assert (forall x, x ∈ id_blocks ids ++ [next m] -> heap m3 !! x = heap m1 !! x) as Hold3.
  { intros x Hx. rewrite (r_heap _ _ _ R3), decide_False; [by apply Hold2|]. intros Hin%(g_range _ _ _ _ Hg).
    apply (k_range _ _ _ _ Hk1) in Hx. lia. }
  apply wp_bind. rewrite <-Hl at 1. eapply wp_mono; [apply (destroy_messages_spec _ ids m m3 _ [next m] _ Hk3); [done|set_solver| |]|].
  - rewrite Hold3 by set_solver. exact Ha.
  - intros id Hid. destruct (Hids id Hid) as (sm & H1 & H2). exists sm. rewrite Hold3; [done|]. apply elem_of_app. left.
    apply in_id_blocks. exists id. set_solver.
  - intros [] m4 [_ Hk4]. eapply kept_free; [exact Hk4|done|]. intros m5 Hk5 _. apply wp_ret. split; [done|]. by exists [].
Qed.

(** The messages and the tree over them. *)
Lemma wp_grow {A} E la lp kn (c : ptr -> M A) Q m0 m F k :
  kept m0 m F k -> (0 < E < 64)%nat -> la ∈ F -> lp ∈ F -> la <> lp ->
  heap m !! la = Some (BPtrs (replicate E NULL)) -> heap m !! lp = Some (BLayers (replicate E zero_layer_hp)) ->
  (forall T ids m', length ids = (2 ^ E)%nat -> kept m0 m' (tree_blocks T 0 E ++ id_blocks ids ++ next m :: F) (k + 2 ^ E) ->
     tree_rep (heap m') E T (id_ptr ids) (drawn kn (rng m)) la lp -> filled (heap m') (next m) (2 ^ E) kn (rng m) ids ->
     (forall x, x ∈ F -> x <> la -> x <> lp -> heap m' !! x = heap m !! x) -> wp (c (Ptr (next m) 0)) Q m') ->
  wp (msg_arr ← calloc (Z.of_nat (2 ^ E)) NULL; sum_from 0 (2 ^ E) (make_message (key kn) msg_arr) 0 ;;
      build_layers (Z.of_nat E) (Z.of_nat (2 ^ E)) msg_arr (Ptr la 0) (Ptr lp 0) ;; c msg_arr) Q m.
Proof.
  intros Hk HE Hla Hlp Hne Ha Hp Hc. apply wp_bind. unfold calloc. apply wp_alloc. rewrite Nat2Z.id.
  assert (forall x, x ∈ F -> x <> next m) as Hnew by (intros x Hx%(k_range _ _ _ _ Hk); lia).
  rewrite (mem_eta m) in Hk. pose proof (kept_alloc _ _ _ _ _ _ _ (BPtrs (replicate (2 ^ E) NULL)) Hk) as Hk0.
  apply wp_bind. eapply wp_mono; [apply (fill_spec (next m) (2 ^ E) kn m0 _ _ _ Hk0); [set_solver|apply lookup_insert_eq]|].
  intros v m1 [_ (ids & Hl & Hk1 & Hf1 & Hx1)]. cbn [rng heap] in *.
  assert (forall x, x ∈ F -> heap m1 !! x = heap m !! x) as Hold1.
  { intros x Hx. rewrite Hx1, lookup_insert_ne; [done|by intros <-; eapply Hnew|set_solver|by apply Hnew]. }
  apply wp_bind. eapply wp_mono; [eapply (build_spec E (next m) la lp kn (rng m) ids m0 m1 _ _ Hk1 HE);
    [set_solver|set_solver|done|by rewrite Hold1|by rewrite Hold1|done|done]|].
  intros _ m2 (T & Ht & Hk2 & Hx2). pose proof (k_NoDup _ _ _ _ Hk1) as Hnd. apply NoDup_app in Hnd as (_ & Hd & _).
  apply (Hc T ids m2 Hl Hk2 Ht).
  - assert (forall x, x ∈ id_blocks ids ++ [next m] -> heap m2 !! x = heap m1 !! x) as Hold2.
    { intros x Hx. apply Hx2; [set_solver|..]; intros ->; apply elem_of_app in Hx as [Hx|Hx%list_elem_of_singleton];
        [by apply (Hd la Hx); set_solver|by apply (Hnew la)|by apply (Hd lp Hx); set_solver|by apply (Hnew lp)]. }
    destruct Hf1 as [Hfa Hfm]. split; [rewrite Hold2 by set_solver; exact Hfa|]. intros i id Hi.
    eapply msg_blk_ext; [|by apply Hfm]. intros x Hx. apply Hold2, elem_of_app. left. by eapply id_in_blocks.
  - intros x Hx H1 H2. rewrite Hx2, Hold1; [done|done|set_solver|done|done].
Qed.

Lemma create_test_messages_spec E m :
  wf m -> (0 < E < 64)%nat -> wp (create_test_messages (Z.of_nat E)) (fun r m' => r = 0 /\ leftover m m' 0 (1 + 2 ^ E)) m.
Proof.
  intros Hwf HE. unfold create_test_messages. rewrite u64_shiftl_pow by lia. cbv zeta. rewrite Nat2Z.id.
  apply wp_bind. unfold calloc at 1. apply wp_alloc. apply wp_bind. unfold calloc at 1. apply wp_alloc. mem_cbn. rewrite !Nat2Z.id.
  pose proof (kept_refl m Hwf) as Hk. rewrite (mem_eta m) in Hk at 2.
  apply (kept_alloc _ _ _ _ _ _ _ (BPtrs (replicate E NULL))) in Hk. apply (kept_alloc _ _ _ _ _ _ _ (BLayers (replicate E zero_layer_hp))) in Hk.
  apply wp_key. mem_cbn. set (la := next m) in *. set (lp := Pos.succ la) in *. apply (kept_env _ _ _ _ (S (rng m)) _ (ticks m) _ _ 1) in Hk; [|done].
  eapply wp_grow; [exact Hk|done|set_solver|set_solver|lia|by heap_simpl|by heap_simpl|]. intros T ids m1 Hl Hk1 Ht Hf _.
  destruct (filled_all _ _ _ _ _ _ Hf Hl) as [Ha Hids]. cbn [next] in *.
  eapply (wp_release E _ _ la lp T _ _ ids); [exact Hl|exact Hk1|done|set_solver|exact Ht|exact Ha|exact Hids|]. intros m2 Hk2 _.
  eapply kept_free; [exact Hk2|apply Permutation_swap|]. intros m3 Hk3 _. eapply kept_free; [exact Hk3|done|]. intros m4 Hk4 _.
  apply wp_ret. split; [done|]. by exists [].
Qed.

(** ** Verification *)

Lemma tree_rep_old h h' E T mp mb la lp :
  tree_rep h E T mp mb la lp -> (forall b, b ∈ tree_blocks T 0 E ++ [la; lp] -> h' !! b = h !! b) -> tree_rep h' E T mp mb la lp.
Proof.
  intros [Hlay (ps & ls & Hps & Hls & H)] Heq. split.
  - intros d Hd. eapply layer_rep_old; [by apply Hlay|]. intros b Hb. apply Heq, elem_of_app. left. apply elem_of_tree_blocks. exists d. split; [lia|done].
  - exists ps, ls. rewrite !Heq by set_solver. done.
Qed.

Section verify.
Context (lp : positive) (E : nat) (T : nat -> lay_id) (mp : nat -> ptr) (mb : nat -> list byte) (hp : nat -> nat -> hash_point).
Context (HE : (1 < E < 64)%nat).

(** Messages that are accepted leave no trace. *)
Lemma verify_skip j i n acc Q m :
  wf m -> vtree (heap m) lp E T mp mb hp -> (i + j <= 2 ^ E)%nat -> (j <= n)%nat ->
  (forall x, (i <= x < i + j)%nat -> clean E mb hp (x / 2) = true) ->
  (forall m', kept m m' [] 0 -> wp (verify_messages (Z.of_nat E) (Ptr lp 0) (i + j) (n - j) (acc + Z.of_nat j)) Q m') ->
  wp (verify_messages (Z.of_nat E) (Ptr lp 0) i n acc) Q m.
Proof.
  revert i n acc m. induction j as [|j IH]; intros i n acc m Hwf Hv Hi Hn Hc HQ.
  - specialize (HQ m (kept_refl m Hwf)). by rewrite Nat.add_0_r, Nat.sub_0_r, Z.add_0_r in HQ.
  - destruct n as [|n]; [lia|]. cbn [verify_messages]. apply wp_bind.
    eapply wp_mono; [apply (merkle_verify_message_spec lp E T mp mb hp i m Hwf Hv HE); lia|].
    intros r m1 [-> Hl]. specialize (Hc i ltac:(lia)) as Hci. rewrite Hci in Hl. rewrite (clean_verdict _ _ _ _ Hci). cbn [Z.eqb].
    destruct (leaks_kept _ _ _ Hwf Hl) as (F & ->%nil_length_inv & Hk). pose proof (kept_nil _ _ _ Hk) as Hh.
    apply IH; [exact (k_wf _ _ _ _ Hk)|by rewrite Hh|lia|lia|intros x Hx; apply Hc; lia|]. intros m2 Hk2.
    replace (S i + j)%nat with (i + S j)%nat by lia. replace (acc + 1 + Z.of_nat j) with (acc + Z.of_nat (S j)) by lia.
    apply HQ. exact (kept_trans _ _ _ _ _ _ _ Hk Hk2).
Qed.

(** Only the pair [q] may be wrong: the loop counts all messages, or those
    before the pair. *)
Lemma proof_loop_spec q m :
  wf m -> vtree (heap m) lp E T mp mb hp -> (2 * q < 2 ^ E)%nat ->
  (forall k, levels_verdict E hp (E - 1) k = None) -> (forall k, k <> q -> base_ok mb hp k = true) ->
  wp (verify_messages (Z.of_nat E) (Ptr lp 0) 0 (2 ^ E) 0)
    (fun v m' => v = (if base_ok mb hp q then Z.of_nat (2 ^ E) else Z.of_nat (2 * q)) /\
       leftover m m' (if base_ok mb hp q then 0 else 4) 0) m.
Proof.
  intros Hwf Hv Hq Hlev Hok.
  assert (forall k, base_ok mb hp k = true -> clean E mb hp k = true) as Hclean.
  { intros k Hk. unfold clean. by rewrite Hk, Hlev. }
  destruct (base_ok mb hp q) eqn:Hb.
  - apply (verify_skip (2 ^ E)); [done|done|lia|lia| |].
    + intros x _. apply Hclean. destruct (decide (x / 2 = q)%nat) as [->|]; [done|by apply Hok].
    + intros m1 Hk. rewrite Nat.sub_diag. apply wp_ret. split; [lia|]. by exists [].
  - apply (verify_skip (2 * q)); [done|done|lia|lia| |].
    + intros x Hx. apply Hclean, Hok. intros <-. pose proof (Nat.div_mod_eq x 2). lia.
    + intros m1 Hk. destruct (2 ^ E - 2 * q)%nat as [|z] eqn:Hz; [lia|]. cbn [verify_messages]. rewrite Nat.add_0_l. apply wp_bind.
      eapply wp_mono; [apply (merkle_verify_message_spec lp E T mp mb hp (2 * q) m1 (k_wf _ _ _ _ Hk)); [by rewrite (kept_nil _ _ _ Hk)|done|done]|].
      intros r m2 [-> Hl]. replace (2 * q / 2)%nat with q in * by (rewrite Nat.mul_comm, Nat.div_mul; lia).
      unfold clean in Hl. rewrite Hb in Hl. unfold verdict. rewrite Hb. cbn [Z.eqb andb] in *. apply wp_ret. split; [lia|].
      destruct (leaks_kept _ _ _ (k_wf _ _ _ _ Hk) Hl) as (F & HF & Hk2). exists F. split; [done|].
      rewrite <-(app_nil_r F). exact (kept_trans _ _ _ _ _ _ _ Hk Hk2).
Qed.
End verify.

(** The messages once message [2 q] was replaced by [w]. *)
Definition replaced (wreck : bool) (q : nat) (w : list byte) (mb : nat -> list byte) (i : nat) : list byte :=
  if decide (wreck = true /\ i = 2 * q)%nat then w else mb i.

Lemma msg_blk_rewrite h n id text b text' :
  msg_blk h n id text -> b <> id.1 -> length text' = 100%nat -> length text = 100%nat ->
  exists sm, msg_at (<[b := BBytes (crypto_sign text' (uk_sk (key n)))]> h) (Ptr id.1 0) sm
    (if decide (b = id.2) then crypto_sign text' (uk_sk (key n)) else crypto_sign text (uk_sk (key n))).
Proof.
  intros [H1 H2] Hne Hl' Hl. eexists. split.
  - do 3 eexists. split; [done|]. split; [rewrite lookup_insert_ne by done; exact H1|done].
  - cbn [sm_message sm_length]. case_decide as Hb.
    + subst b. apply bytes_at_all; [apply lookup_insert_eq|]. by rewrite sign_length, Hl'.
    + apply bytes_at_all; [by rewrite lookup_insert_ne|]. by rewrite sign_length, Hl.
Qed.

(** [overwrite_message], when it is called. *)
Lemma overwrite_spec (wreck : bool) q E arr la lp T kn r ids wid wr m0 m F k :
  (1 < E)%nat -> (2 * q < 2 ^ E)%nat -> length ids = (2 ^ E)%nat -> kept m0 m (tree_blocks T 0 E ++ id_blocks ids ++ F) k -> wid.1 ∈ F -> wid.2 ∈ F ->
  tree_rep (heap m) E T (id_ptr ids) (drawn kn r) la lp -> filled (heap m) arr (2 ^ E) kn r ids ->
  msg_blk (heap m) kn wid (randombytes_buf wr 100) ->
  wp (if wreck then overwrite_message (Z.of_nat E) (Ptr lp 0) (Z.of_nat q) (Ptr wid.1 0) else mret ())
    (fun _ m' => kept m0 m' (tree_blocks T 0 E ++ id_blocks ids ++ F) k /\
       (exists id, id ∈ ids /\ forall x, x <> id.2 -> heap m' !! x = heap m !! x) /\
       forall i, (i < 2 ^ E)%nat -> exists sm, msg_at (heap m') (id_ptr ids i) sm
         (replaced wreck q (crypto_sign (randombytes_buf wr 100) (uk_sk (key kn))) (drawn kn r) i)) m.
Proof.
  intros HE Hq Hl Hk Hw1 Hw2 Ht Hf Hw. destruct Hf as [Ha Hm].
  assert (forall i, (i < 2 ^ E)%nat -> exists id, ids !! i = Some id /\ id_ptr ids i = Ptr id.1 0) as Hids.
  { intros i Hi. destruct (lookup_lt_is_Some_2 ids i) as [id Hid]; [lia|]. exists id. split; [done|by apply id_ptr_lookup]. }
  destruct (Hids (2 * q)%nat Hq) as (id & Hid & Hptr).
  assert (vtree (heap m) lp E T (id_ptr ids) (drawn kn r) (level_hps T (id_ptr ids) (drawn kn r))) as Hv.
  { eapply tree_rep_vtree; [exact Ht|]. intros i Hi. destruct (Hids i Hi) as (id' & Hid' & ->). eapply msg_blk_at; [by apply Hm|apply randombytes_length]. }
  destruct wreck.
  2:{ apply wp_ret. split; [done|]. split; [exists id; split; [by eapply list_elem_of_lookup_2|done]|]. intros i Hi.
      unfold replaced. rewrite decide_False by (by intros [? _]). exact (vt_msg _ _ _ _ _ _ _ Hv i Hi). }
  destruct (node_at_run lp E T _ _ _ m 0 q Hv) as (nd & _ & Hnd & Hr); [lia|rewrite Nat.sub_0_r; destruct E; [lia|]; cbn in *; rewrite Nat.sub_0_r; lia|].
  unfold overwrite_message. replace (Z.of_nat E - 1) with (Z.of_nat (E - 1 - 0)) by lia. apply wp_bind. eapply wp_run; [exact Hr|].
  apply wp_bind. eapply (wp_load (H:=storable_hp)); [exact Hnd|done|]. cbn [level_hps base_hps base_hp hp_u get_messages].
  apply wp_bind, wp_ret. cbn [smsg_p1]. rewrite Hptr. destruct (Hm _ _ Hid) as [Hs1 Hs2]. destruct Hw as [Hws1 Hws2].
  apply wp_bind. eapply (wp_load (H:=storable_msg)); [exact Hs1|done|]. apply wp_bind. eapply (wp_load (H:=storable_msg)); [exact Hws1|done|].
  cbn [sm_message sm_length]. eapply wp_run.
  { eapply memcpy_run; [apply bytes_at_all; [exact Hws2|by rewrite sign_length, randombytes_length]|exact Hs2|lia|].
    by rewrite sign_length, randombytes_length. }
  rewrite overwrite_all by by rewrite !sign_length, !randombytes_length. split_and!.
  - apply kept_write; [by rewrite <-mem_eta|]. rewrite !elem_of_app. right. left. eapply id_in_blocks; [exact Hid|set_solver].
  - exists id. split; [by eapply list_elem_of_lookup_2|]. intros x Hx. cbn. by rewrite lookup_insert_ne.
  - intros i Hi. destruct (Hids i Hi) as (id' & Hid' & ->). pose proof (k_NoDup _ _ _ _ Hk) as Hndk.
    apply NoDup_app in Hndk as (_ & _ & Hndk). apply NoDup_app in Hndk as (Hndk & _ & _).
    destruct (id_blocks_distinct _ _ _ _ _ Hndk Hid Hid') as [Hiff Hne].
    destruct (msg_blk_rewrite _ _ _ _ id.2 (randombytes_buf wr 100) (Hm _ _ Hid') Hne (randombytes_length _ _) (randombytes_length _ _)) as [sm Hsm].
    exists sm. unfold replaced. cbn [heap]. destruct (decide (id.2 = id'.2)) as [He|He]; rewrite Hiff in He.
    + by rewrite decide_True.
    + by rewrite decide_False by (by intros [_ ?]).
Qed.

(** What the overwritten message does to the base nodes. *)
Lemma replaced_base wreck q w T mp mb k :
  k <> q -> base_ok (replaced wreck q w mb) (level_hps T mp mb) k = true.
Proof.
  intros Hk. rewrite <-(base_ok_genuine T mp mb k). unfold base_ok, replaced. by rewrite !decide_False by (intros [_ ?]; lia).
Qed.

Lemma replaced_verdict wreck q w T mp mb :
  base_ok (replaced wreck q w mb) (level_hps T mp mb) q =
    negb (wreck && bool_decide (hash_pair (crypto_generichash w) (crypto_generichash (mb (2 * q + 1)%nat)) <> pair_hash mb q)).
Proof.
  unfold base_ok, replaced, stored, pair_hash. rewrite level_hps_hash. cbn [node_hash].
  rewrite (decide_False (P:=wreck = true /\ (2 * q + 1 = 2 * q)%nat)) by (intros [_ ?]; lia). destruct wreck; cbn [andb].
  - rewrite decide_True by done. by do 2 case_bool_decide.
  - rewrite decide_False by (by intros [? _]). by rewrite bool_decide_eq_true_2.
Qed.

(** Equal messages have equal texts. *)
Lemma sign_inj n a b : crypto_sign a (uk_sk (key n)) = crypto_sign b (uk_sk (key n)) -> a = b.
Proof. intros He. pose proof (sign_open n a) as Ha. unfold key in He. cbn [uk_sk] in He. rewrite He, sign_open in Ha. by injection Ha. Qed.

(** The messages of a proof test whose key is draw [n]: the one that is written
    over message 250, and the messages in the tree. *)
Definition wrong_msg (n : nat) : list byte := crypto_sign (randombytes_buf (1 + n) 100) (uk_sk (key n)).
Definition test_msg (n i : nat) : list byte := crypto_sign (randombytes_buf (2 + n + i) 100) (uk_sk (key n)).

(** Written over, message 250 leaves the hash of its pair as it was. *)
Definition unnoticed (n : nat) : bool :=
  bool_decide (hash_pair (crypto_generichash (wrong_msg n)) (crypto_generichash (test_msg n 251)) = pair_hash (test_msg n) 125).

Lemma unnoticed_why n :
  unnoticed n = true ->
  let h := crypto_generichash in
  randombytes_buf (1 + n) 100 = randombytes_buf (252 + n) 100 \/ collide (wrong_msg n) (test_msg n 250) \/
  collide (h (wrong_msg n) ++ h (test_msg n 251)) (h (test_msg n 250) ++ h (test_msg n 251)).
Proof.
  intros Hu%bool_decide_eq_true. apply hash_pair_same in Hu as [[H0 _]|Hc]; [|by auto|by rewrite !generichash_length].
  change (2 * 125)%nat with 250%nat in H0.
  apply generichash_same in H0 as [H0|Hc]; [|by auto]. left. unfold wrong_msg, test_msg in H0. apply sign_inj in H0. rewrite H0. f_equal. lia.
Qed.

Lemma proof_tail (wreck : bool) E arr la lp T kn r ids wid wr m0 m k :
  (7 < E < 64)%nat -> length ids = (2 ^ E)%nat -> kept m0 m (tree_blocks T 0 E ++ id_blocks ids ++ arr :: [wid.1; wid.2; lp; la]) k ->
  tree_rep (heap m) E T (id_ptr ids) (drawn kn r) la lp -> filled (heap m) arr (2 ^ E) kn r ids -> msg_blk (heap m) kn wid (randombytes_buf wr 100) ->
  wp ((if wreck then overwrite_message (Z.of_nat E) (Ptr lp 0) 125 (Ptr wid.1 0) else mret ()) ;;
      ver_result ← verify_messages (Z.of_nat E) (Ptr lp 0) 0 (2 ^ E) 0;
      destroy_layers (Z.of_nat E) (Ptr la 0) ;; destroy_messages (2 ^ E) (Ptr arr 0) ;; free (Ptr arr 0) ;;
      destroy_signed_message (Ptr wid.1 0) ;; free (Ptr la 0) ;; free (Ptr lp 0) ;; mret ver_result)
    (fun v m' =>
       let spoilt := wreck && bool_decide (hash_pair (crypto_generichash (crypto_sign (randombytes_buf wr 100) (uk_sk (key kn))))
                                             (crypto_generichash (drawn kn r 251)) <> pair_hash (drawn kn r) 125) in
       v = (if spoilt then 250 else Z.of_nat (2 ^ E)) /\ leftover m0 m' (if spoilt then 4 else 0) k) m.
Proof.
  intros HE Hl Hk Ht Hf Hw.
  assert (2 * 125 < 2 ^ E)%nat as Hq.
  { apply (Nat.lt_le_trans _ (2 ^ 8)); [apply Nat.ltb_lt; reflexivity|]. apply Nat.pow_le_mono_r; lia. }
  destruct (filled_all _ _ _ _ _ _ Hf Hl) as [Ha Hids]. apply wp_bind.
  eapply wp_mono; [eapply (overwrite_spec wreck 125 E arr la lp T kn r ids wid wr m0 m _ k); [lia|done|done|exact Hk|in_lists|in_lists|done|done|done]|].
  intros [] m3 (Hk3 & (id & Hid & Hold3) & Hmsgs). pose proof (k_NoDup _ _ _ _ Hk) as (_ & HdT & (HndI & HdI & _)%NoDup_app)%NoDup_app.
  assert (id.2 ∈ id_blocks ids) as Hidb by (apply in_id_blocks; exists id; set_solver).
  assert (forall x, x ∈ tree_blocks T 0 E ++ arr :: [wid.1; wid.2; lp; la] -> x <> id.2) as Hne.
  { intros x [Hx|Hx]%elem_of_app ->; [apply (HdT _ Hx), elem_of_app; by left|by apply (HdI _ Hidb)]. }
  set (mb := replaced wreck 125 _ _) in Hmsgs. set (hp := level_hps T (id_ptr ids) (drawn kn r)).
  assert (vtree (heap m3) lp E T (id_ptr ids) mb hp) as Hv.
  { eapply tree_rep_rewritten; [exact Ht| |exact Hmsgs]. intros b Hb. apply Hold3, Hne. in_lists. }
  apply wp_bind. eapply wp_mono; [apply (proof_loop_spec lp E T (id_ptr ids) mb hp ltac:(lia) 125 m3 (k_wf _ _ _ _ Hk3) Hv Hq)|].
  { intros j. apply levels_verdict_genuine. lia. }
  { intros j Hj. by apply replaced_base. }
  intros v m4 [-> (L & HL & Hk4)]. pose proof (kept_trans _ _ _ _ _ _ _ Hk3 Hk4) as Hk4'. rewrite Nat.add_0_r in Hk4'.
  assert (forall x, x ∈ tree_blocks T 0 E ++ id_blocks ids ++ arr :: [wid.1; wid.2; lp; la] -> x <> id.2 -> heap m4 !! x = heap m !! x) as Hold4.
  { intros x Hx Hx2. rewrite (kept_old _ _ _ _ _ Hk4) by (apply (k_range _ _ _ _ Hk3 x Hx)). by apply Hold3. }
  assert (forall id', (id'.1 ∈ id_blocks ids ++ [wid.1]) -> id'.1 <> id.2 -> holds (heap m) id' -> holds (heap m4) id') as Hholds.
  { intros id' Hin Hid' (sm & H1 & H2). exists sm. rewrite Hold4; [done|in_lists|done]. }
  eapply (wp_release E _ arr la lp T _ _ ids _ _ m0 m4 _ ([wid.1; wid.2; lp; la] ++ L)); [exact Hl|exact Hk4'|solve_Permutation|in_lists| | | |].
  - eapply tree_rep_old; [exact Ht|]. intros b Hb. apply Hold4, Hne; in_lists.
  - rewrite Hold4; [exact Ha|in_lists|apply Hne; in_lists].
  - intros id' Hid'. apply Hholds; [|apply list_elem_of_lookup_1 in Hid as [i Hi]; apply list_elem_of_lookup_1 in Hid' as [j Hj];
      by destruct (id_blocks_distinct _ _ _ _ _ HndI Hi Hj) as [_ ?]|by apply Hids].
    apply elem_of_app. left. apply in_id_blocks. exists id'. set_solver.
  - intros m5 Hk5 Hold5. eapply wp_destroy with (id := wid) (G := [lp; la] ++ L); [exact Hk5|done| |].
    { destruct (Hholds wid) as (sm & H1 & H2); [in_lists|apply Hne; in_lists|by eapply msg_blk_holds|]. exists sm. by rewrite Hold5 by in_lists. }
    intros m6 Hk6 _. eapply kept_free; [exact Hk6|apply Permutation_swap|]. intros m7 Hk7 _.
    eapply kept_free; [exact Hk7|done|]. intros m8 Hk8 _. apply wp_ret.
    pose proof (replaced_verdict wreck 125 (crypto_sign (randombytes_buf wr 100) (uk_sk (key kn))) T (id_ptr ids) (drawn kn r)) as Hver.
    fold mb hp in Hver. change (2 * 125 + 1)%nat with 251%nat in Hver. rewrite Hver in HL |- *.
    destruct (wreck && _); cbn [negb] in *; (split; [done|by exists L]).
Qed.

Lemma proof_test_spec E (wreck : bool) m :
  wf m -> (7 < E < 64)%nat ->
  wp (proof_test (Z.of_nat E) wreck)
    (fun v m' => let spoilt := wreck && negb (unnoticed (rng m)) in
       v = (if spoilt then 250 else Z.of_nat (2 ^ E)) /\ leftover m m' (if spoilt then 4 else 0) (2 + 2 ^ E)) m.
Proof.
  intros Hwf HE. unfold proof_test. rewrite u64_shiftl_pow by lia. cbv zeta. rewrite Nat2Z.id.
  apply wp_bind. unfold calloc at 1. apply wp_alloc. apply wp_bind. unfold calloc at 1. apply wp_alloc. mem_cbn. rewrite !Nat2Z.id.
  pose proof (kept_refl m Hwf) as Hk. rewrite (mem_eta m) in Hk at 2.
  apply (kept_alloc _ _ _ _ _ _ _ (BPtrs (replicate E NULL))) in Hk. apply (kept_alloc _ _ _ _ _ _ _ (BLayers (replicate E zero_layer_hp))) in Hk.
  apply wp_key. mem_cbn. set (la := next m) in *. set (lp := Pos.succ la) in *. apply (kept_env _ _ _ _ (S (rng m)) _ (ticks m) _ _ 1) in Hk; [|done].
  eapply wp_message; [exact Hk|]. cbn [next rng heap]. intros wid m1 Hk1 Hold1 Hw1 Hr1.
  eapply (wp_grow E la lp); [exact Hk1|lia|set_solver|set_solver|lia|rewrite Hold1 by lia; by heap_simpl|rewrite Hold1 by lia; by heap_simpl|].
  intros T ids m2 Hl Hk2 Ht2 Hf2 Hold2. pose proof (k_NoDup _ _ _ _ Hk1) as Hnd. rewrite !NoDup_cons, !not_elem_of_cons in Hnd.
  rewrite Hr1 in *. eapply wp_mono; [eapply (proof_tail wreck E (next m1) la lp T (rng m) _ ids wid (S (rng m)) m m2); [lia|done|exact Hk2|done|exact Hf2|]|].
  - eapply msg_blk_ext; [|exact Hw1]. intros x Hx. apply Hold2; [set_solver|intros ->|intros ->]; set_solver.
  - intros v m3 [Hv Hlo]. unfold unnoticed. rewrite <-bool_decide_not. split; [exact Hv|]. cbn [Nat.add] in *. by destruct (wreck && _).
Qed.

(** ** The whole run *)

Lemma leftover_wf m m' n k : leftover m m' n k -> wf m'.
Proof. intros (F & _ & Hk). exact (k_wf _ _ _ _ Hk). Qed.

Lemma leftover_rng m m' n k : leftover m m' n k -> rng m' = (k + rng m)%nat.
Proof. intros (F & _ & Hk). exact (k_rng _ _ _ _ Hk). Qed.

(** One test more that succeeds. *)
Lemma wp_test {A} (t : M Z) n k (c : Z -> M A) Q m0 m N K :
  leftover m0 m N K -> (wf m -> wp t (fun r m' => r = 0 /\ leftover m m' n k) m) ->
  (forall m', leftover m0 m' (N + n) (K + k) -> wp (c 0) Q m') -> wp (r ← t; c r) Q m.
Proof.
  intros Hl Ht Hc. apply wp_bind. eapply wp_mono; [exact (Ht (leftover_wf _ _ _ _ Hl))|]. intros r m' [-> Hl'].
  apply Hc. by eapply leftover_trans.
Qed.

Lemma test_mekrle_proof_RIGHT_spec m : wf m -> wp test_mekrle_proof_RIGHT (fun r m' => r = 0 /\ leftover m m' 0 514) m.
Proof.
  intros Hwf. unfold test_mekrle_proof_RIGHT. apply wp_bind. change 9 with (Z.of_nat 9) at 1.
  eapply wp_mono; [apply (proof_test_spec 9 false m Hwf); lia|]. intros v m' [-> Hl].
  apply wp_ret. split; [done|exact Hl].
Qed.

Lemma test_mekrle_proof_WRONG_spec m :
  wf m ->
  wp test_mekrle_proof_WRONG (fun r m' =>
    if unnoticed (rng m) then r = 1 /\ leftover m m' 0 (2 + 2 ^ 14) else r = 0 /\ leftover m m' 4 (2 + 2 ^ 14)) m.
Proof.
  intros Hwf. unfold test_mekrle_proof_WRONG. apply wp_bind. change 14 with (Z.of_nat 14) at 1.
  eapply wp_mono; [apply (proof_test_spec 14 true m Hwf); lia|]. intros v m' [-> Hl].
  apply wp_ret. cbn [andb] in *. destruct (unnoticed (rng m)); cbn [negb] in *; (split; [|exact Hl]); [|done].
  rewrite Nat2Z.inj_pow. reflexivity.
Qed.

(** ** The node tests and tests2.c *)

Lemma wp_dump {A} b bs n (c : list byte -> M A) Q m :
  heap m !! b = Some (BBytes bs) -> n = length bs -> wp (c (layout bs)) Q m -> wp (d ← DumpHex (Ptr b 0) n; c d) Q m.
Proof.
  intros Hb Hn Hc. apply wp_bind. eapply wp_run; [|exact Hc]. unfold DumpHex. erewrite bind_ok by (apply load_bytes_run, bytes_at_all; [exact Hb|done]).
  unfold lift_res. by rewrite dump_layout.
Qed.

(** What existed stays as it is. *)
Definition older (m m' : mem) : Prop := (next m <= next m')%positive /\ forall x, (x < next m)%positive -> heap m' !! x = heap m !! x.

Lemma older_trans m1 m2 m3 : older m1 m2 -> older m2 m3 -> older m1 m3.
Proof. intros [N1 H1] [N2 H2]. split; [lia|]. intros x Hx. rewrite H2, H1 by lia. done. Qed.

(** A message of [rand()] characters. *)
Lemma wp_rand_message {A} n (c : ptr -> M A) Q m0 m F k :
  kept m0 m F k ->
  (forall id text m', kept m0 m' (id.1 :: id.2 :: F) (k + 100) -> older m m' ->
     msg_blk (heap m') n id text -> length text = 100%nat -> wp (c (Ptr id.1 0)) Q m') ->
  wp (p ← get_a_signed_msg (key n); c p) Q m.
Proof.
  intros Hk Hc. pose proof (k_wf _ _ _ _ Hk) as Hwf. apply wp_bind.
  eapply wp_mono; [apply (get_a_signed_msg_spec (key n) m Hwf (keypair_pk_length n) (keypair_sk_length n))|].
  intros p m1 (text & pb & mb & -> & Hp & Hl & _ & Hh & Hn & Hr). apply (Hc (pb, mb) text); cbn [fst snd].
  - apply (kept_trans _ _ _ _ [_; _] _ _ Hk). eapply kept_two; [done|lia..|exact Hh|done].
  - split; [lia|]. intros x Hx. by rewrite Hh, !lookup_insert_ne by lia.
  - split; cbn [fst snd]; rewrite Hh; [apply lookup_insert_eq|]. by rewrite lookup_insert_ne, lookup_insert_eq by lia.
  - done.
Qed.

(** The node over two messages of the run. *)
Lemma wp_node {A} n1 n2 id1 id2 text1 text2 (c : ptr -> M A) Q m0 m F k :
  kept m0 m F k -> msg_blk (heap m) n1 id1 text1 -> msg_blk (heap m) n2 id2 text2 -> length text1 = 100%nat -> length text2 = 100%nat ->
  (forall m' h h1 h2, kept m0 m' (next m :: F) k -> older m m' ->
     heap m' !! next m = Some (BHps [HashPoint h (U_messages (Smgs2 (Ptr id1.1 0) h1 (Ptr id2.1 0) h2)) 0]) -> length h = 32%nat ->
     wp (c (Ptr (next m) 0)) Q m') ->
  wp (p ← create_hpoint_message (Ptr id1.1 0) (Ptr id2.1 0); c p) Q m.
Proof.
  intros Hk H1 H2 Hl1 Hl2 Hc. destruct (msg_blk_at _ _ _ _ H1 Hl1) as [sm1 Ha1]. destruct (msg_blk_at _ _ _ _ H2 Hl2) as [sm2 Ha2].
  apply wp_bind. eapply wp_run; [eapply create_hpoint_message_run; [exact (k_wf _ _ _ _ Hk)|exact Ha1|exact Ha2]|]. eapply Hc.
  - eapply kept_skip; [apply kept_alloc; rewrite <-mem_eta; exact Hk|lia].
  - split; [cbn; lia|]. intros x Hx. cbn. by rewrite lookup_insert_ne by lia.
  - apply lookup_insert_eq.
  - apply hash_pair_length.
Qed.

(** A message of the run keeps its place when only newer blocks change. *)
Lemma msg_blk_older n id text m m' : wf m -> msg_blk (heap m) n id text -> older m m' -> msg_blk (heap m') n id text.
Proof.
  intros Hwf Hm [_ Hold]. eapply msg_blk_ext; [|exact Hm]. destruct Hm as [H1 H2]. intros x Hx. apply Hold.
  rewrite !elem_of_cons, elem_of_nil in Hx. destruct Hx as [->|[->|[]]]; by eapply wf_lt.
Qed.

Lemma test_hpoint_from_2msg_creation_spec m : wf m -> wp test_hpoint_from_2msg_creation (fun r m' => r = 1 /\ leftover m m' 5 202) m.
Proof.
  intros Hwf. unfold test_hpoint_from_2msg_creation. apply wp_key.
  eapply wp_rand_message; [by apply kept_key|]. intros id text m1 Hk1 _ Hm1 Hl1. pose proof Hm1 as [Hs1 Hb1].
  apply wp_bind. eapply (wp_load (H:=storable_msg)); [exact Hs1|done|]. cbn [sm_message sm_length].
  eapply wp_dump; [exact Hb1|by rewrite sign_length, Hl1|]. apply wp_key.
  pose proof (kept_trans _ _ _ _ _ _ _ Hk1 (kept_key m1 (k_wf _ _ _ _ Hk1))) as Hk1'. cbn [app] in Hk1'.
  eapply wp_rand_message; [exact Hk1'|]. cbn [next heap rng]. intros id2 text2 m2 Hk2 Hold2 Hm2 Hl2.
  apply (fun H => msg_blk_older _ _ _ _ m2 (k_wf _ _ _ _ Hk1) H Hold2) in Hm1.
  eapply wp_check; [exact Hm1|done|]. eapply wp_check; [exact Hm2|done|].
  eapply wp_node; [exact Hk2|exact Hm1|exact Hm2|done|done|]. intros m3 h h1 h2 Hk3 Hold3 Hn3 _.
  apply (fun H => msg_blk_older _ _ _ _ m3 (k_wf _ _ _ _ Hk2) H Hold3) in Hm1. destruct Hm1 as [Hs3 Hb3].
  apply wp_bind. eapply (wp_load (H:=storable_hp)); [exact Hn3|done|]. apply wp_bind, wp_ret. cbn [smsg_p1].
  apply wp_bind. eapply (wp_load (H:=storable_msg)); [exact Hs3|done|]. cbn [sm_message sm_length].
  eapply wp_dump; [exact Hb3|by rewrite sign_length, Hl1|]. apply wp_ret. rewrite decide_True by done. split; [done|].
  eexists. split; [|exact Hk3]. done.
Qed.

(** The second message of a key and the node over the two. *)
Lemma wp_pair {A} n id1 text1 (c : ptr -> ptr -> M A) Q m0 m F k :
  kept m0 m F k -> msg_blk (heap m) n id1 text1 -> length text1 = 100%nat ->
  (forall id2 q m' h h1 h2, kept m0 m' (q :: id2.1 :: id2.2 :: F) (k + 100) -> older m m' ->
     heap m' !! q = Some (BHps [HashPoint h (U_messages (Smgs2 (Ptr id1.1 0) h1 (Ptr id2.1 0) h2)) 0]) -> length h = 32%nat ->
     wp (c (Ptr id2.1 0) (Ptr q 0)) Q m') ->
  wp (a_msg2 ← get_a_signed_msg (key n);
      sm ← load (A:=signed_message_t) (Ptr id1.1 0); validate_a_message sm (uk_pk (key n)) ;;
      sm2 ← load (A:=signed_message_t) a_msg2; validate_a_message sm2 (uk_pk (key n)) ;;
      aHP ← create_hpoint_message (Ptr id1.1 0) a_msg2; c a_msg2 aHP) Q m.
Proof.
  intros Hk Hm1 Hl1 Hc. eapply wp_rand_message; [exact Hk|]. intros id2 text2 m2 Hk2 Hold2 Hm2 Hl2.
  apply (fun H => msg_blk_older _ _ _ _ m2 (k_wf _ _ _ _ Hk) H Hold2) in Hm1.
  eapply wp_check; [exact Hm1|done|]. eapply wp_check; [exact Hm2|done|].
  eapply wp_node; [exact Hk2|exact Hm1|exact Hm2|done|done|]. intros m3 h h1 h2 Hk3 Hold3 Hn3 Hlh.
  eapply (Hc id2 (next m2)); [done|by eapply older_trans|exact Hn3|done].
Qed.

Lemma test_hashG_node_creation_spec m :
  wf m -> wp test_hashG_node_creation (fun r m' => r = (1, [true; true; true; true]) /\ leftover m m' 11 401) m.
Proof.
  intros Hwf. unfold test_hashG_node_creation. apply wp_key.
  eapply wp_rand_message; [by apply kept_key|]. intros id1 text1 m1 Hk1 _ Hm1 Hl1. pose proof Hm1 as [Hs1 Hb1].
  apply wp_bind. eapply (wp_load (H:=storable_msg)); [exact Hs1|done|]. cbn [sm_message sm_length].
  eapply wp_dump; [exact Hb1|by rewrite sign_length, Hl1|].
  eapply wp_pair; [exact Hk1|exact Hm1|done|]. intros id2 q m2 h h1 h2 Hk2 _ Hq Hlh.
  eapply wp_rand_message; [exact Hk2|]. intros id3 text3 m3 Hk3 Hold3 Hm3 Hl3.
  eapply wp_pair; [exact Hk3|exact Hm3|done|]. intros id4 q' m4 h' h3 h4 Hk4 Hold4 Hq' Hlh'.
  pose proof (older_trans _ _ _ Hold3 Hold4) as [_ Hold]. pose proof (wf_lt _ _ _ (k_wf _ _ _ _ Hk2) Hq) as Hlt. rewrite <-Hold in Hq by done.
  apply wp_bind. eapply wp_run.
  { eapply create_hpoint_hashG_run; [exact (k_wf _ _ _ _ Hk4)|by apply (bytes_at_node _ _ _ Hq)|by apply (bytes_at_node _ _ _ Hq')|done|done]. }
  pose proof (wf_lt _ _ _ (k_wf _ _ _ _ Hk4) Hq). pose proof (wf_lt _ _ _ (k_wf _ _ _ _ Hk4) Hq').
  apply wp_bind. eapply (wp_load (H:=storable_hp)); [apply lookup_insert_eq|done|]. do 2 apply wp_bind, wp_ret.
  unfold messages_of. cbn [hp_u get_hpoint1 get_hpoint2].
  apply wp_bind, wp_bind. eapply (wp_load (H:=storable_hp)); [cbn; rewrite lookup_insert_ne by lia; exact Hq|done|]. apply wp_ret.
  apply wp_bind, wp_bind. eapply (wp_load (H:=storable_hp)); [cbn; rewrite lookup_insert_ne by lia; exact Hq'|done|]. apply wp_ret.
  apply wp_ret. cbn [smsg_p1 smsg_p2]. rewrite !bool_decide_eq_true_2 by done. split; [done|].
  eexists. split; [|apply kept_alloc, (kept_skip _ _ (next m4)); [rewrite <-mem_eta; exact Hk4|lia]]. done.
Qed.
End facts.

(** ** Claims *)
Section claims.
Context {sod : Sodium} {clk : Clock} {ok : SodiumOk sod}.

(** C20: the outcome of the program's tests.  [tests] always ends.  Its number is
    0, all eleven tests succeed, exactly when the message that is written over
    message 250 of the last one changes the hash of its pair; 541 blocks are
    then still allocated, 15, 15, 502 and 5 of them by the first four tests and 4
    by the verification that rejects the message.  Otherwise the last test fails
    with number 1 and leaves 537; the two texts (draws number 1915 and 2166 of
    the random source) are then equal, or the two messages, or the two strings
    of hashes of the pair, are different inputs with the same hash. *)
Theorem tests_outcome m :
  wf m -> let n := (1914 + rng m)%nat in let h := crypto_generichash in
  wp tests (fun result m' =>
    if unnoticed n then result = 1 /\ left_over m m' 537 else result = 0 /\ left_over m m' 541) m /\
  (unnoticed n = true ->
   randombytes_buf (1 + n) 100 = randombytes_buf (252 + n) 100 \/ collide (wrong_msg n) (test_msg n 250) \/
   collide (h (wrong_msg n) ++ h (test_msg n 251)) (h (test_msg n 250) ++ h (test_msg n 251))).
Proof.
  intros Hwf n h. split; [|exact (unnoticed_why n)]. unfold tests. assert (leftover m m 0 0) as Hl by (exists []; split; [done|by apply kept_refl]).
  eapply wp_test; [exact Hl|apply test_valid_messages_spec|]. clear Hl. intros m1 Hl.
  eapply wp_test; [exact Hl|apply test_INvalid_messages_spec|]. clear Hl. intros m2 Hl.
  eapply wp_test; [exact Hl|apply test_hash_spec|]. clear Hl. intros m3 Hl.
  eapply wp_test; [exact Hl|apply test_hash_merging_spec|]. clear Hl. intros m4 Hl.
  eapply wp_test; [exact Hl|apply test_cleanup_message_spec|]. clear Hl. intros m5 Hl.
  eapply wp_test; [exact Hl|apply test_message_creation_and_validation_spec|]. clear Hl. intros m6 Hl.
  eapply wp_test; [exact Hl|apply test_create_and_destroy_hpoint_spec|]. clear Hl. intros m7 Hl.
  eapply wp_test; [exact Hl|apply test_process_messages_L1_v2_spec|]. clear Hl. intros m8 Hl.
  eapply wp_test; [exact Hl|intros H8; apply (create_test_messages_spec 9 _ H8); lia|]. clear Hl. intros m9 Hl.
  eapply wp_test; [exact Hl|apply test_mekrle_proof_RIGHT_spec|]. clear Hl. intros m10 Hl.
  pose proof (leftover_rng _ _ _ _ Hl) as Hr. apply wp_bind.
  eapply wp_mono; [apply (test_mekrle_proof_WRONG_spec m10 (leftover_wf _ _ _ _ Hl))|].
  replace (rng m10) with n by (rewrite Hr; reflexivity). intros r m11 H.
  destruct (unnoticed n); destruct H as [-> Hl']; apply wp_ret; (split; [done|]); eexists; exact (leftover_trans _ _ _ _ _ _ _ Hl Hl').
Qed.
End claims.

Section tests2_facts.
Context {sod : Sodium} {clk : Clock} {pb : Protobuf} {ok : SodiumOk sod} {pbok : ProtobufOk pb}.

(** [tests2] ends, and leaves the buffer of its message: only the struct is
    released. *)
Lemma tests2_spec m : wf m -> wp tests2 (fun _ m' => leftover m m' 1 2) m.
Proof.
  intros Hwf. unfold tests2, test1. apply wp_key. eapply wp_message; [by apply kept_key|]. intros id m1 Hk1 _ [Hs1 Hb1] _.
  apply wp_bind. eapply (wp_load (H:=storable_msg)); [exact Hs1|done|]. cbn [sm_message sm_length].
  pose proof (wf_lt _ _ _ (k_wf _ _ _ _ Hk1) Hb1) as Hlt.
  apply wp_bind, wp_alloc. rewrite (mem_eta m1) in Hk1. apply (kept_alloc _ _ _ _ _ _ _ (BMsgs [SignedMessage (Ptr id.2 0) 164 (uk_pk (key (rng m)))])) in Hk1.
  eapply wp_dump; [by heap_simpl|by rewrite sign_length, randombytes_length|]. apply wp_bind. unfold calloc. apply wp_alloc. mem_cbn.
  apply (kept_alloc _ _ _ _ _ _ _ (BBytes (replicate (Z.to_nat sizeof_IpcMessage) x00))) in Hk1.
  set (m2 := Mem _ _ _ _) in *. assert (ring_msg (heap m2) (next m1, id.2)) as Hring.
  { eexists _, _, (randombytes_buf (S (rng m)) 100). cbn [fst snd]. split_and!.
    - cbn. by heap_simpl.
    - cbn. heap_simpl. exact Hb1.
    - by rewrite sign_length, randombytes_length.
    - apply keypair_pk_length.
    - apply sign_open.
    - apply randombytes_length. }
  apply wp_bind. eapply wp_run; [exact (serialize_data_v2_run _ _ Hring)|]. set (bytes := ipc_message__pack _).
  apply wp_bind. rewrite (proj2 (Nat.leb_le (length bytes) 4096) (data_packet_size _ _ _ Hring)). apply wp_ret.
  apply wp_bind. eapply wp_run; [unfold lift_res; by rewrite dump_layout|]. apply wp_bind. eapply wp_run.
  { unfold print_serialized_data, bytes. rewrite ipc_unpack_pack by by apply data_msg_wf. reflexivity. }
  apply (kept_env _ _ _ _ (rng m1) _ (S (S (ticks m1))) _ _ 0) in Hk1; [|done].
  eapply kept_free; [exact Hk1|done|]. intros m3 Hk3 _. eapply kept_free; [exact Hk3|apply Permutation_swap|]. intros m4 Hk4 _.
  eapply kept_free; [exact Hk4|done|]. intros m5 Hk5 _. apply wp_ret. eexists. split; [|exact Hk5]. done.
Qed.
End tests2_facts.

(** ** The claim at work *)

(** Draw [i] is all bytes of value [i] modulo 256. *)
Definition counting : Sodium :=
  {| crypto_generichash := Toy.toy_hash; crypto_sign := Toy.toy_sign; crypto_sign_open := Toy.toy_open;
     crypto_sign_keypair := Toy.toy_keypair; randombytes_buf := fun i n => replicate n (byte_of_Z (Z.of_nat i)); sodium_init := 0 |}.

Lemma counting_ok : SodiumOk counting.
Proof.
  destruct Toy.mixing_ok as [H1 H2 H3 H4 H5 H6 _ H8]. split; [exact H1|exact H2|exact H3|exact H4|exact H5|exact H6| |exact H8].
  intros. apply length_replicate.
Qed.

Lemma tests_outcome_witness :
  wp (tests (sod:=counting) (clk:=Toy.toy_clock)) (fun result m' => result = 0 /\ left_over (Mem ∅ 1 0 0) m' 541) (Mem ∅ 1 0 0).
Proof.
  destruct (tests_outcome (sod:=counting) (clk:=Toy.toy_clock) (ok:=counting_ok) (Mem ∅ 1 0 0) (fun b _ => lookup_empty b)) as [Hw _].
  eapply wp_mono; [exact Hw|]. intros r m' H. assert (unnoticed (sod:=counting) (1914 + rng (Mem ∅ 1 0 0)) = false) as Hu by (vm_compute; reflexivity).
  rewrite Hu in H. exact H.
Defined.
