(* ===== verification/System.v ===== *)
(** * The operating system, as the start-up code sees it

    The class [System] has the results of the system and library calls made
    before the event loops run; every outcome the code tests is free.  The
    monad [P] records the calls the program makes ([call], in order), the
    named buffers it allocated and the mutexes it holds, and ends in a value,
    in [exit], in a fault, in a loop that is never left, waiting for a mutex,
    or short of fuel.  The log directory's name, built the same way by server and client, is here too. *)

From stdpp Require Import strings.
From S2P Require Import Prelude.
From S2P Require Import CTypes.
From S2P Require Import Memory.
From S2P Require Import Dump.

Local Open Scope list_scope.
Local Open Scope Z_scope.

Class System := {
  getenv : string -> option (list byte);
  (** a C string *)
  getenv_text name v : getenv name = Some v -> x00 ∉ v;
  (** [stat(path)]: -1 when the path does not exist *)
  stat : list byte -> Z;
  (** whether the allocation of the buffer of that name succeeds *)
  alloc_ok : string -> bool;
  (** [getprotobyname("tcp")] is not null *)
  proto_known : bool;
  (** [socket]: of the listening socket, of the message client, of the
      listening thread *)
  socket : Z;
  client_socket : Z;
  listen_socket : Z;
  bind_result : Z -> Z;
  listen_result : Z -> Z;
  io_uring_queue_init : Z;
  zlog_init : option (list byte) -> Z;
  zlog_get_category : string -> bool;
  (** [thrd_create] does not return [thrd_error] *)
  thread_starts : string -> bool;
  (** [thrd_join] returns [thrd_success] *)
  thread_joins : bool;
  (** [getaddrinfo(address, port)]: 0, or an error *)
  getaddrinfo : list byte -> string -> Z;
  (** the result of the queued connect of the message client *)
  connect_result : Z;
  (** the n-th [connect] of the listening thread *)
  connect_attempt : nat -> Z;
  (** compiled with [-DWRITE_LOG] *)
  WRITE_LOG : bool }.

(** What the program did. *)
Inductive call :=
| Printf (s : string)
| Mkdir (path : list byte)
| Alloc (name : string) (count : Z)
| Free (name : string)
| Bind (fd port : Z)
| Listen (fd backlog : Z)
| QueueInit (entries : Z)
| IgnoreSIGPIPE
| AtExit (f : string)
| ZlogFini
| ZlogInfo (s : string)
| MtxInit (mtx : string)
| ThrdCreate (body : string) (arg : list byte)
| ThrdDetach (body : string)
| Shutdown (fd : Z)
| Close (fd : Z)
| QueueExit
| Sleep (seconds : Z)
| SetKill (b : bool)
| SetCBUF (fill_size maxlen : Z) (buffer : string).

#[global] Instance call_eq_decision : EqDecision call.
Proof. solve_decision. Defined.

(** The process: its calls, oldest first; its named buffers, [false] for a
    null pointer; the mutexes held. *)
Record proc := Proc {
  calls : list call;
  bufs : gmap string bool;
  held : gset string }.

Inductive outcome (A : Type) :=
| Value (a : A) (st : proc)
| Exit (code : Z) (st : proc)
| Crash (f : fault) (st : proc)
| Forever (loop : string) (fd : Z) (st : proc)
| Waiting (st : proc)
| Unfinished (st : proc).
Arguments Value {A}. Arguments Exit {A}. Arguments Crash {A}. Arguments Forever {A}. Arguments Waiting {A}. Arguments Unfinished {A}.

Definition P (A : Type) : Type := proc -> outcome A.

#[global] Instance P_ret : MRet P := fun A a st => Value a st.
#[global] Instance P_bind : MBind P := fun A B k c st =>
  match c st with
  | Value a st => k a st
  | Exit n st => Exit n st
  | Crash f st => Crash f st
  | Forever l fd st => Forever l fd st
  | Waiting st => Waiting st
  | Unfinished st => Unfinished st
  end.

Definition do_call (c : call) : P () := fun st => Value () (Proc (calls st ++ [c]) (bufs st) (held st)).
Definition exit {A} (code : Z) : P A := fun st => Exit code st.
Definition crash {A} (f : fault) : P A := fun st => Crash f st.
(** A loop without exit. *)
Definition forever {A} (loop : string) (fd : Z) : P A := fun st => Forever loop fd st.

(** [die]: print and leave. *)
Definition die {A} (message : string) : P A := do_call (Printf message) ;; exit 1.

Section system.
Context {sys : System}.

(** [malloc] or [calloc] into a global: whether it is not null. *)
Definition malloc (name : string) (count : Z) : P bool := fun st =>
  Value (alloc_ok name) (Proc (calls st ++ [Alloc name count]) (<[name := alloc_ok name]> (bufs st)) (held st)).

(** [free] of a global: a buffer freed before is a fault. *)
Definition free_buffer (name : string) : P () := fun st =>
  match bufs st !! name with
  | Some true => Value () (Proc (calls st ++ [Free name]) (delete name (bufs st)) (held st))
  | Some false => Value () (Proc (calls st ++ [Free name]) (bufs st) (held st))
  | None => Crash BadFree st
  end.

Definition mtx_lock (mtx : string) : P () := fun st =>
  if decide (mtx ∈ held st) then Waiting st else Value () (Proc (calls st) (bufs st) ({[mtx]} ∪ held st)).
Definition mtx_unlock (mtx : string) : P () := fun st => Value () (Proc (calls st) (bufs st) (held st ∖ {[mtx]})).

(** ** The log directory *)

(** [snprintf(arr + off, n, "%s", s)] into an array: at most [n - 1]
    characters and a zero. *)
Definition snprintf_s (arr : list byte) (off n : nat) (s : list byte) : option (list byte) :=
  let w := take (n - 1) s ++ [x00] in
  if (off + length w <=? length arr)%nat then Some (overwrite arr w off) else None.

(** [strlen] of a string that ends within the array. *)
Fixpoint strlen (l : list byte) : nat :=
  match l with
  | [] => 0
  | b :: l => if decide (b = x00) then 0 else S (strlen l)
  end.

(** The calls of start_server.c and client/main.c that build the path; a null
    [HOME] is passed to ["%s"]. *)
Definition make_logdir : P (list byte) :=
  match getenv "HOME" with
  | None => crash NullDeref
  | Some home =>
      match snprintf_s (zeros 128) 0 128 home with
      | None => crash OutOfBounds
      | Some logdir =>
          match snprintf_s logdir (strlen logdir) 128 (str "/logs") with
          | None => crash OutOfBounds
          | Some logdir => mret (take (strlen logdir) logdir)
          end
      end
  end.

(** The directory is made when it is not there; failure is not noticed. *)
Definition ensure_logdir : P () :=
  logdir ← make_logdir;
  if stat logdir =? -1 then
    do_call (Printf "no logs folder exists, creating...") ;;
    do_call (Mkdir logdir)
  else mret ().

(** ** Sockets (networking/setup.c and client/p2p_setup.c) *)

Definition setup_serv_sock (MAX_CONNECTIONS port : Z) : P Z :=
  if negb proto_known then crash NullDeref else
  if socket <? 0 then die "error assigning socket" else
  do_call (Bind socket port) ;;
  if bind_result socket <? 0 then die "error while binding" else
  do_call (Listen socket MAX_CONNECTIONS) ;;
  if listen_result socket <? 0 then die "error while establishing server socket listen" else
  mret socket.

Definition setup_iouring (entries : Z) : P () :=
  do_call (QueueInit entries) ;;
  if negb (io_uring_queue_init =? 0) then die "error io uring initialization" else mret ().
End system.

(** ** Socket options

    [set_flags] of connection_handlers.c, that of dhandlers_p2p.c, which sets
    one option more, and the options [event_loop] sets on the listening socket, with the
    numbers of Linux (asm-generic/socket.h).  A failed call is not acted on. *)

Definition SO_REUSEADDR := 2.
Definition SO_SNDBUF := 7.
Definition SO_RCVBUF := 8.
Definition SO_OOBINLINE := 10.
Definition SO_RCVTIMEO := 20.
Definition SO_SNDTIMEO := 21.

(** A number, or seconds and microseconds. *)
Inductive sockval := OptInt (z : Z) | OptTime (sec usec : Z).

(** The options of a socket at level [SOL_SOCKET]. *)
Definition setsockopt (opt : Z) (v : sockval) (s : gmap Z sockval) : gmap Z sockval := <[opt := v]> s.

Definition server_set_flags (s : gmap Z sockval) : gmap Z sockval :=
  let sndsize := 65536 in
  let timeout := OptTime 10 0 in
  let s := setsockopt (Z.lor SO_REUSEADDR SO_SNDBUF) (OptInt sndsize) s in
  let s := setsockopt (Z.lor SO_REUSEADDR SO_RCVBUF) (OptInt sndsize) s in
  let s := setsockopt SO_RCVTIMEO timeout s in
  setsockopt SO_SNDTIMEO timeout s.

Definition p2p_set_flags (s : gmap Z sockval) : gmap Z sockval :=
  setsockopt SO_REUSEADDR (OptInt 1) (server_set_flags s).

Definition event_loop_options (s : gmap Z sockval) : gmap Z sockval :=
  let sndsize := 65536 in
  let s := setsockopt (Z.lor SO_REUSEADDR SO_SNDBUF) (OptInt sndsize) s in
  setsockopt (Z.lor SO_REUSEADDR SO_RCVBUF) (OptInt sndsize) s.

(** The receive buffer's size is never set: [SO_REUSEADDR | SO_RCVBUF] is the
    number of [SO_OOBINLINE], which is switched on instead. *)
Lemma set_flags_effect s :
  server_set_flags s !! SO_RCVBUF = s !! SO_RCVBUF /\ server_set_flags s !! SO_OOBINLINE = Some (OptInt 65536) /\
  server_set_flags s !! SO_SNDBUF = Some (OptInt 65536) /\
  server_set_flags s !! SO_RCVTIMEO = Some (OptTime 10 0) /\ server_set_flags s !! SO_SNDTIMEO = Some (OptTime 10 0) /\
  p2p_set_flags s !! SO_RCVBUF = s !! SO_RCVBUF /\ p2p_set_flags s !! SO_OOBINLINE = Some (OptInt 65536) /\
  event_loop_options s !! SO_RCVBUF = s !! SO_RCVBUF /\ event_loop_options s !! SO_OOBINLINE = Some (OptInt 65536).
Proof. unfold p2p_set_flags, server_set_flags, event_loop_options, setsockopt. split_and!; by simplify_map_eq. Qed.

(** ** The path *)

Lemma strlen_app s l : x00 ∉ s -> strlen (s ++ x00 :: l) = length s.
Proof.
  induction s as [|b s IH]; intros Hs; [done|]. apply not_elem_of_cons in Hs as [Hb Hs]. cbn.
  rewrite decide_False by congruence. by rewrite IH.
Qed.

(** Writing a short string into an array of zeros or over the end of another. *)
Lemma snprintf_fits arr off n s :
  (length s < n)%nat -> (off + length s < length arr)%nat ->
  snprintf_s arr off n s = Some (overwrite arr (s ++ [x00]) off).
Proof.
  intros Hn Ha. unfold snprintf_s. rewrite take_ge by lia. rewrite length_app. cbn.
  by rewrite (proj2 (Nat.leb_le _ _)) by lia.
Qed.

Lemma snprintf_spills arr off n s :
  (length s < n)%nat -> (length arr <= off + length s)%nat -> snprintf_s arr off n s = None.
Proof.
  intros Hn Ha. unfold snprintf_s. rewrite take_ge by lia. rewrite length_app. cbn.
  by rewrite (proj2 (Nat.leb_gt _ _)) by lia.
Qed.

Lemma overwrite_string arr s :
  (length s < length arr)%nat -> exists rest, overwrite arr (s ++ [x00]) 0 = s ++ x00 :: rest /\ length rest = (length arr - length s - 1)%nat.
Proof.
  intros Hl. unfold overwrite. rewrite take_0, <-app_assoc. eexists. split; [done|].
  rewrite length_drop, length_app. cbn. lia.
Qed.

(** The path is [HOME/logs]; with 123 characters or more the end of it is
    written past the array. *)
Lemma make_logdir_run {sys : System} st :
  make_logdir st =
    match getenv "HOME" with
    | None => Crash NullDeref st
    | Some home => if (length home <=? 122)%nat then Value (home ++ str "/logs") st else Crash OutOfBounds st
    end.
Proof.
  unfold make_logdir. destruct (getenv "HOME") as [home|] eqn:Hhome; [|done]. apply getenv_text in Hhome.
  assert (length (str "/logs") = 5%nat) as H5 by done.
  destruct (Nat.le_gt_cases (length home) 127) as [Hle|Hgt].
  - rewrite snprintf_fits by (rewrite ?length_zeros; lia).
    destruct (overwrite_string (zeros 128) home) as (rest & -> & Hrest); [rewrite length_zeros; lia|].
    rewrite length_zeros in Hrest. rewrite strlen_app by done.
    destruct (Nat.leb_spec (length home) 122).
    + rewrite snprintf_fits by (rewrite ?length_app; cbn [length]; rewrite ?H5; lia).
      unfold overwrite. rewrite take_app_length, <-!app_assoc. cbn [app]. rewrite app_assoc.
      rewrite strlen_app by (rewrite not_elem_of_app; split; [done|by apply (bool_decide_unpack _)]).
      by rewrite take_app_length.
    + rewrite snprintf_spills by (rewrite ?length_app; cbn [length]; rewrite ?H5; lia). done.
  - rewrite (proj2 (Nat.leb_gt _ _)) by lia. unfold snprintf_s at 1.
    assert (length (take 127 home) = 127%nat) as Ht by (rewrite length_take; lia).
    cbn [Nat.sub]. rewrite length_app, Ht, length_zeros. cbn [length Nat.add Nat.leb].
    destruct (overwrite_string (zeros 128) (take 127 home)) as (rest & -> & Hrest); [rewrite length_zeros; lia|].
    rewrite length_zeros, Ht in Hrest. rewrite strlen_app, Ht.
    + by rewrite snprintf_spills by (rewrite ?length_app, ?Ht; cbn [length]; rewrite ?H5; lia).
    + intros Hin. apply Hhome. by eapply (elem_of_subseteq (take 127 home)); [apply subseteq_take|].
Qed.

Lemma setup_serv_sock_run {sys : System} n port st :
  setup_serv_sock n port st =
  if negb proto_known then Crash NullDeref st else
  if socket <? 0 then Exit 1 (Proc (calls st ++ [Printf "error assigning socket"]) (bufs st) (held st)) else
  if bind_result socket <? 0 then Exit 1 (Proc (calls st ++ [Bind socket port; Printf "error while binding"]) (bufs st) (held st)) else
  if listen_result socket <? 0 then
    Exit 1 (Proc (calls st ++ [Bind socket port; Listen socket n; Printf "error while establishing server socket listen"]) (bufs st) (held st))
  else Value socket (Proc (calls st ++ [Bind socket port; Listen socket n]) (bufs st) (held st)).
Proof.
  unfold setup_serv_sock, die, do_call, exit, crash, mbind, P_bind, mret, P_ret.
  destruct proto_known; [|done]. destruct (socket <? 0); [done|]. cbn [negb calls bufs held].
  destruct (bind_result socket <? 0); cbn [calls bufs held]; [by rewrite <-app_assoc|].
  by destruct (listen_result socket <? 0); cbn [calls bufs held]; rewrite <-!app_assoc.
Qed.

Lemma setup_iouring_run {sys : System} n st :
  setup_iouring n st =
  if io_uring_queue_init =? 0 then Value () (Proc (calls st ++ [QueueInit n]) (bufs st) (held st))
  else Exit 1 (Proc (calls st ++ [QueueInit n; Printf "error io uring initialization"]) (bufs st) (held st)).
Proof.
  unfold setup_iouring, die, do_call, exit, mbind, P_bind, mret, P_ret.
  by destruct (io_uring_queue_init =? 0); cbn [negb calls bufs held]; rewrite <-?app_assoc.
Qed.

(** The directory is asked for exactly when it is not there. *)
Lemma ensure_logdir_run {sys : System} st :
  match getenv "HOME" with
  | None => ensure_logdir st = Crash NullDeref st
  | Some home =>
      if (length home <=? 122)%nat then
        exists cs, ensure_logdir st = Value () (Proc (calls st ++ cs) (bufs st) (held st)) /\
          (forall path, Mkdir path ∈ cs <-> path = home ++ str "/logs" /\ stat path = -1) /\ forall b, SetKill b ∉ cs
      else ensure_logdir st = Crash OutOfBounds st
  end.
Proof.
  unfold ensure_logdir, mbind, P_bind. rewrite make_logdir_run. destruct (getenv "HOME") as [home|]; [|done].
  destruct (length home <=? 122)%nat; [|done]. destruct (Z.eqb_spec (stat (home ++ str "/logs")) (-1)) as [Hs|Hs].
  - unfold do_call. cbn [calls bufs held]. eexists. rewrite <-app_assoc. split; [reflexivity|].
    split; [|intros b; rewrite elem_of_app, !list_elem_of_singleton; by intros [?|?]].
    intros path. rewrite elem_of_app, !list_elem_of_singleton. split.
    + by intros [?|?]; simplify_eq.
    + intros [-> _]. auto.
  - exists []. unfold mret, P_ret. rewrite app_nil_r. destruct st. split_and!; [done| |intros b; apply not_elem_of_nil].
    intros path. rewrite elem_of_nil. split; [done|]. by intros [-> ?].
Qed.

(** ** One call at a time *)

Lemma bind_value {A B} (c : P A) (k : A -> P B) st a st' : c st = Value a st' -> (c ≫= k) st = k a st'.
Proof. unfold mbind, P_bind. by intros ->. Qed.

Lemma do_call_bind {B} c (k : () -> P B) cs b h : (do_call c ≫= k) (Proc cs b h) = k () (Proc (cs ++ [c]) b h).
Proof. done. Qed.

Lemma malloc_bind {sys : System} {B} name n (k : bool -> P B) cs b h :
  (malloc name n ≫= k) (Proc cs b h) = k (alloc_ok name) (Proc (cs ++ [Alloc name n]) (<[name := alloc_ok name]> b) h).
Proof. done. Qed.

Lemma setup_iouring_bind {sys : System} {B} n (k : () -> P B) cs b h :
  (setup_iouring n ≫= k) (Proc cs b h) =
  if io_uring_queue_init =? 0 then k () (Proc (cs ++ [QueueInit n]) b h)
  else Exit 1 (Proc (cs ++ [QueueInit n; Printf "error io uring initialization"]) b h).
Proof. unfold mbind, P_bind. rewrite setup_iouring_run. by destruct (io_uring_queue_init =? 0). Qed.

(** The listening socket in sequence: it is made or the program ends. *)
Lemma setup_serv_sock_bind {sys : System} {B} n port (k : Z -> P B) cs b h :
  if negb proto_known then exists st, (setup_serv_sock n port ≫= k) (Proc cs b h) = Crash NullDeref st else
  if (socket <? 0) || (bind_result socket <? 0) || (listen_result socket <? 0)
  then exists st, (setup_serv_sock n port ≫= k) (Proc cs b h) = Exit 1 st
  else (setup_serv_sock n port ≫= k) (Proc cs b h) = k socket (Proc (cs ++ [Bind socket port; Listen socket n]) b h).
Proof.
  unfold mbind, P_bind. rewrite setup_serv_sock_run. destruct proto_known; cbn [negb]; [|eauto].
  destruct (socket <? 0); cbn [orb]; [eauto|]. destruct (bind_result socket <? 0); cbn [orb]; [eauto|].
  destruct (listen_result socket <? 0); cbn [orb]; eauto.
Qed.

Lemma free_buffer_bind {B} name (k : () -> P B) cs b h :
  b !! name = Some true -> (free_buffer name ≫= k) (Proc cs b h) = k () (Proc (cs ++ [Free name]) (delete name b) h).
Proof. intros Hb. unfold mbind, P_bind, free_buffer. cbn [bufs]. by rewrite Hb. Qed.

Lemma P_bind_assoc {A B C} (c : P A) (k : A -> P B) (k' : B -> P C) st :
  ((c ≫= k) ≫= k') st = (c ≫= (fun a => k a ≫= k')) st.
Proof. unfold mbind, P_bind. by destruct (c st). Qed.
