(* ===== verification/Startup.v ===== *)
(** * Server start-up

    networking/setup.c, networking/start_server.c and main/main.c: the
    environment and the log directory, the six global buffers, the listening
    socket and the ring, and the event loop, which is never left. *)

From stdpp Require Import strings.
From S2P Require Import Prelude.
From S2P Require Import CTypes.
From S2P Require Import Memory.
From S2P Require Import Dump.
From S2P Require Import System.

Local Open Scope list_scope.
Local Open Scope Z_scope.

(** settings.h *)
Abbreviation MAX_CONNECTIONS := 1000.
Abbreviation BUFFER_SIZE := 4096.

Section code.
Context {sys : System}.

(** [setup_buffers]: elements allocated per buffer.  The fourth allocation is
    followed by a test of the third one's pointer. *)
Definition setup_buffers : P () :=
  buffers ← malloc "buffers" (MAX_CONNECTIONS * BUFFER_SIZE);
  if negb buffers then die "malloc" else
  buffer_lengths ← malloc "buffer_lengths" MAX_CONNECTIONS;
  if negb buffer_lengths then die "malloc" else
  buffer_transactions ← malloc "buffer_transactions" MAX_CONNECTIONS;
  if negb buffer_transactions then die "malloc" else
  buffer_signed_message ← malloc "buffer_signed_message" MAX_CONNECTIONS;
  if negb buffer_transactions then die "malloc" else
  beffer_sended_N ← malloc "beffer_sended_N" MAX_CONNECTIONS;
  if negb beffer_sended_N then die "malloc" else
  ring_data_buf ← malloc "ring_data_buf" 512;
  if negb ring_data_buf then die "malloc" else
  mret ().

Definition destroy_buffers : P () :=
  free_buffer "buffers" ;; free_buffer "buffer_lengths" ;; free_buffer "buffer_transactions" ;;
  free_buffer "buffer_signed_message" ;; free_buffer "beffer_sended_N" ;; free_buffer "ring_data_buf".

(** The logging set-up that follows [zlog_init]. *)
Definition setup_logging (conf : option (list byte)) : P () :=
  (if negb (zlog_init conf =? 0) then do_call (Printf "logging failed") else mret ()) ;;
  do_call (AtExit "zlog_fini") ;;
  (if negb (zlog_get_category "my_log_f") then
     do_call (Printf "failed init logging category!") ;; do_call ZlogFini
   else mret ()) ;;
  if WRITE_LOG then do_call (ZlogInfo "server logging started!") else mret ().

Definition start_server (port : Z) : P () :=
  match getenv "cblockchain_conf" with
  | None => do_call (Printf "no cblockchain_conf env variable has been found")
  | Some conf =>
      ensure_logdir ;;
      setup_buffers ;;
      serv_fd ← setup_serv_sock MAX_CONNECTIONS port;
      do_call (Printf ">>launching server on a port: %d<<") ;;
      setup_iouring MAX_CONNECTIONS ;;
      do_call IgnoreSIGPIPE ;;
      do_call (SetCBUF 0 512 "ring_data_buf") ;;
      setup_logging (Some conf) ;;
      forever (A:=unit) "event_loop" serv_fd ;;
      destroy_buffers
  end.

(** [main] without [TESTMODE]. *)
Definition main : P Z := start_server 12345 ;; mret 0.
End code.

(** Nothing done yet. *)
Definition fresh_process : proc := Proc [] ∅ ∅.

(** How a run ends. *)
Inductive ending := Returns | Exits | Faults (f : fault) | Serves (fd : Z) | Stuck.

Definition ending_of {A} (o : outcome A) : ending :=
  match o with
  | Value _ _ => Returns
  | Exit _ _ => Exits
  | Crash f _ => Faults f
  | Forever _ fd _ => Serves fd
  | Waiting _ | Unfinished _ => Stuck
  end.

Definition state_of {A} (o : outcome A) : proc :=
  match o with Value _ st | Exit _ st | Crash _ st | Forever _ _ st | Waiting st | Unfinished st => st end.

Section facts.
Context {sys : System}.

(** The buffers whose allocation is tested, in order; the others are not. *)
Definition checked_buffers : list string :=
  ["buffers"; "buffer_lengths"; "buffer_transactions"; "beffer_sended_N"; "ring_data_buf"].

Definition all_buffers : list string :=
  ["buffers"; "buffer_lengths"; "buffer_transactions"; "buffer_signed_message"; "beffer_sended_N"; "ring_data_buf"].

(** The decision the code makes, from the system's answers alone. *)
Definition server_ending : ending :=
  match getenv "cblockchain_conf", getenv "HOME" with
  | None, _ => Returns
  | Some _, None => Faults NullDeref
  | Some _, Some home =>
      if negb (length home <=? 122)%nat then Faults OutOfBounds else
      if negb (forallb alloc_ok checked_buffers) then Exits else
      if negb proto_known then Faults NullDeref else
      if (socket <? 0) || (bind_result socket <? 0) || (listen_result socket <? 0) ||
         negb (io_uring_queue_init =? 0) then Exits
      else Serves socket
  end.

(** The buffers after [setup_buffers]: all allocated but the one whose
    allocation is not tested. *)
Definition with_buffers (b : gmap string bool) : gmap string bool :=
  foldl (fun b name => <[name := alloc_ok name]> b) b all_buffers.

Lemma setup_buffers_run st :
  if forallb alloc_ok checked_buffers
  then exists cs, setup_buffers st = Value () (Proc (calls st ++ cs) (with_buffers (bufs st)) (held st)) /\
    forall path, Mkdir path ∉ cs
  else exists st', setup_buffers st = Exit 1 st'.
Proof.
  unfold setup_buffers, malloc, die, do_call, exit, mbind, P_bind, mret, P_ret, with_buffers, checked_buffers, all_buffers.
  cbn [forallb foldl calls bufs held].
  repeat (match goal with
    | |- context [if negb (alloc_ok ?n) then _ else _] => destruct (alloc_ok n); cbn [negb andb calls bufs held]
    end; try (eexists; reflexivity)).
  eexists. rewrite <-!app_assoc. split; [reflexivity|]. intros path. cbn. set_solver.
Qed.


Lemma setup_logging_run conf st :
  exists cs, setup_logging conf st = Value () (Proc (calls st ++ cs) (bufs st) (held st)) /\ forall path, Mkdir path ∉ cs.
Proof.
  unfold setup_logging, do_call, mbind, P_bind, mret, P_ret.
  destruct (zlog_init conf =? 0), (zlog_get_category "my_log_f"), WRITE_LOG; cbn [negb calls bufs held];
    eexists; rewrite <-?app_assoc; (split; [reflexivity|]); intros path; cbn; set_solver.
Qed.

(** When the server is in its loop: the log directory exists or was asked for,
    the socket listens on the port, the message buffer is empty and lies over
    [ring_data_buf], and every buffer of the handlers is there, but for the one
    whose allocation nobody looked at. *)
Record serving_process (port fd : Z) (st : proc) : Prop := ServingProcess {
  sp_logdir path : Mkdir path ∈ calls st <-> exists home, getenv "HOME" = Some home /\ path = home ++ str "/logs" /\ stat path = -1;
  sp_bind : Bind fd port ∈ calls st;
  sp_listen : Listen fd MAX_CONNECTIONS ∈ calls st;
  sp_cbuf : SetCBUF 0 512 "ring_data_buf" ∈ calls st;
  sp_checked name : name ∈ checked_buffers -> bufs st !! name = Some true;
  sp_unchecked : bufs st !! "buffer_signed_message" = Some (alloc_ok "buffer_signed_message") }.

Lemma with_buffers_checked name : forallb alloc_ok checked_buffers = true -> name ∈ checked_buffers ->
  with_buffers ∅ !! name = Some true.
Proof.
  intros Hall Hn. unfold with_buffers, all_buffers. cbn [foldl]. cbn [checked_buffers forallb] in Hall.
  repeat (apply andb_prop in Hall as [? Hall]). unfold checked_buffers in Hn.
  rewrite !elem_of_cons, elem_of_nil in Hn. destruct Hn as [->|[->|[->|[->|[->|[]]]]]];
    rewrite ?lookup_insert_ne by done; rewrite lookup_insert_eq; by f_equal.
Qed.

(** C19: how [start_server] ends is decided by the system's answers alone, as
    [server_ending] says: without the configuration variable it returns; with
    [HOME] unset or of 123 characters or more it faults; a failed allocation
    that is tested, or a failed socket, bind, listen or ring ends the program;
    otherwise it serves on the socket for ever, with its log directory and its
    buffers in place ([serving_process]), so [destroy_buffers] is never run. *)
Theorem start_server_ending port :
  ending_of (start_server port fresh_process) = server_ending /\
  match server_ending with
  | Serves fd => exists st, start_server port fresh_process = Forever "event_loop" fd st /\ serving_process port fd st
  | _ => True
  end.
Proof.
  remember (start_server port fresh_process) as o eqn:Ho. unfold start_server, mbind, P_bind in Ho. unfold server_ending.
  destruct (getenv "cblockchain_conf") as [conf|]; [|by subst o].
  pose proof (ensure_logdir_run fresh_process) as Hlog. destruct (getenv "HOME") as [home|] eqn:Hhome.
  2: { rewrite Hlog in Ho. by subst o. }
  destruct (length home <=? 122)%nat; cbn [negb]; [|rewrite Hlog in Ho; by subst o].
  destruct Hlog as (cs & Hlog & Hdir & _). rewrite Hlog in Ho. clear Hlog.
  pose proof (setup_buffers_run (Proc (calls fresh_process ++ cs) (bufs fresh_process) (held fresh_process))) as Hbufs.
  destruct (forallb alloc_ok checked_buffers) eqn:Hall; cbn [negb]; [|destruct Hbufs as [st' Hb]; rewrite Hb in Ho; by subst o].
  destruct Hbufs as (cs2 & Hb & Hno2). rewrite Hb, setup_serv_sock_run in Ho. clear Hb.
  destruct proto_known; cbn [negb] in *; [|by subst o].
  destruct (socket <? 0); [by subst o|]. destruct (bind_result socket <? 0); [by subst o|].
  destruct (listen_result socket <? 0); [by subst o|]. unfold do_call in Ho. rewrite setup_iouring_run in Ho.
  destruct (io_uring_queue_init =? 0); cbn [negb orb] in *; [|by subst o]. cbn [calls bufs held fresh_process app] in Ho.
  match type of Ho with context [setup_logging _ ?st] => destruct (setup_logging_run (Some conf) st) as (cs3 & Hl & Hno3) end.
  rewrite Hl in Ho. clear Hl. cbn [calls bufs held forever] in Ho. subst o. split; [done|]. eexists; split; [reflexivity|].
  split; cbn [calls bufs held].
  - intros path. rewrite !elem_of_app, !elem_of_cons, !elem_of_nil, Hdir. specialize (Hno2 path). specialize (Hno3 path).
    rewrite Hhome. naive_solver.
  - rewrite !elem_of_app, !elem_of_cons. tauto.
  - rewrite !elem_of_app, !elem_of_cons. tauto.
  - rewrite !elem_of_app, !elem_of_cons. tauto.
  - intros name. by apply with_buffers_checked.
  - done.
Qed.
End facts.

(** The allocation of [buffer_signed_message] is not tested: when it alone
    fails, [setup_buffers] still succeeds and leaves a null buffer, while the
    failure of any other allocation ends the program. *)
Theorem setup_buffers_misses_one {sys : System} st :
  (exists st', setup_buffers st = Value () st') <-> (forall name, name ∈ checked_buffers -> alloc_ok name = true).
Proof.
  pose proof (setup_buffers_run st) as Hb.
  destruct (forallb alloc_ok checked_buffers) eqn:Hall.
  - destruct Hb as (cs & -> & _). split; [intros _|eauto]. rewrite List.forallb_forall in Hall.
    intros name Hn. apply Hall. by apply list_elem_of_In.
  - destruct Hb as [st' ->]. split; [by intros []|]. intros Hok. exfalso.
    apply not_true_iff_false in Hall. apply Hall, List.forallb_forall. intros name Hn. apply Hok. by apply list_elem_of_In.
Qed.
