(* ===== verification/Node.v ===== *)
(** * Client start-up

    client/p2p_setup.c, client/main.c, the connection phase of the message
    thread (client/setup_client.c) and of the listening thread
    (client/p2p_listen.c).  The message thread is joined by [main] and is run
    at the join; the two peer-to-peer threads are detached.  Nothing in the
    program sets [kill_thread_p2p], so a message thread that is connected
    stays in its loop. *)

From stdpp Require Import strings.
From S2P Require Import Prelude.
From S2P Require Import CTypes.
From S2P Require Import Memory.
From S2P Require Import Dump.
From S2P Require Import System.
From S2P Require Import Startup.

Local Open Scope list_scope.
Local Open Scope Z_scope.

(** p2p_settings.h *)
Abbreviation P2P_CONNECTIONS := 100.

Section code.
Context {sys : System}.

(** p2p_setup.c *)
Definition p2p_setup_buffers : P () :=
  buffers ← malloc "buffers" (P2P_CONNECTIONS * BUFFER_SIZE);
  if negb buffers then die "malloc" else
  buffer_lengths ← malloc "buffer_lengths" P2P_CONNECTIONS;
  if negb buffer_lengths then die "malloc" else
  buffer_sended_N ← malloc "buffer_sended_N" P2P_CONNECTIONS;
  if negb buffer_sended_N then die "malloc" else
  buffer_BLOCK_DATA ← malloc "buffer_BLOCK_DATA" BUFFER_SIZE;
  if negb buffer_BLOCK_DATA then die "malloc" else
  mret ().

Definition p2p_destroy_buffers : P () :=
  free_buffer "buffers" ;; free_buffer "buffer_lengths" ;; free_buffer "buffer_sended_N".

(** The same bodies as the server's. *)
Definition p2p_setup_serv_sock (port : Z) : P Z := setup_serv_sock P2P_CONNECTIONS port.
Definition p2p_setup_iouring : P () := setup_iouring P2P_CONNECTIONS.

Definition teardown_server_sock (servsock : Z) : P () := do_call (Shutdown servsock).

(** setup_client.c, up to the message loop, which is never left. *)
Definition setup_client_iouring (IP_ADDR_TO_CONNECT : list byte) : P Z :=
  if negb (getaddrinfo IP_ADDR_TO_CONNECT "12345" =? 0) then
    do_call (Printf "getaddrinfo error:%s") ;; exit 1
  else if client_socket =? -1 then
    do_call (Printf "cannot setup a client socket") ;; mret (-1)
  else
    malloc "buffer_transactions" 1 ;;
    do_call (QueueInit 10) ;;
    mtx_lock "block_created_mtx" ;;
    if connect_result =? 0 then
      do_call (ZlogInfo "connection to server has been established!") ;;
      do_call (Printf "connection TO MESSAGE SERVER has been established!") ;;
      forever "setup_client_iouring" client_socket
    else
      do_call (ZlogInfo "error while trying connecting to the server") ;;
      do_call (Printf "error establishing connection to server, exiting") ;;
      do_call (Close client_socket) ;;
      free_buffer "buffer_transactions" ;;
      mret 0.

(** p2p_listen.c: the attempts to connect, two seconds apart. *)
Fixpoint connect_loop (fuel n : nat) : P () :=
  match fuel with
  | O => fun st => Unfinished st
  | S fuel =>
      if connect_attempt n =? 0 then mret () else
      do_call (Printf "trying to connect to neighboor node") ;;
      do_call (Sleep 2) ;;
      connect_loop fuel (S n)
  end.

(** p2p_listen.c, up to its loop: the connected socket, or the thread ends. *)
Definition setup_p2p_connect (fuel : nat) (IP_ADD_LISTEN : list byte) : P (option Z) :=
  mtx_lock "peer_connection_accepted" ;;
  if negb (getaddrinfo IP_ADD_LISTEN "10001" =? 0) then mret None else
  do_call (Printf (if listen_socket =? -1 then "cannot setup a client socket"
                   else "established socket for incoming p2p connections!")) ;;
  connect_loop fuel 0 ;;
  mtx_unlock "peer_connection_accepted" ;;
  do_call (Printf "GOT CONNECTION!") ;;
  mret (Some listen_socket).

(** client/main.c *)
Definition client_logging (conf : option (list byte)) : P () :=
  (if negb (zlog_init conf =? 0) then do_call (Printf "logging failed") else mret ()) ;;
  do_call (AtExit "zlog_fini") ;;
  (if negb (zlog_get_category "logclient") then
     do_call (Printf "failed init logging category client log!") ;; do_call ZlogFini
   else mret ()) ;;
  (if negb (zlog_get_category "logp2p") then
     do_call (Printf "failed init logging category p2p log!") ;; do_call ZlogFini
   else mret ()) ;;
  if WRITE_LOG then do_call (ZlogInfo "client logging started!") else mret ().

(** [thrd_create] with its error path. *)
Definition spawn (body : string) (arg : list byte) (message : string) : P () :=
  if thread_starts body then do_call (ThrdCreate body arg)
  else do_call (Printf message) ;; exit 1.

(** The environment, the logs and the buffers. *)
Definition client_prepare : P () :=
  (match getenv "cblockchain_conf" with
   | None => do_call (Printf "no cblockchain_conf env variable has been found")
   | Some _ => mret ()
   end) ;;
  ensure_logdir ;;
  client_logging (getenv "cblockchain_conf") ;;
  p2p_setup_buffers.

(** The listening socket, the ring, the mutexes and the three threads. *)
Definition client_launch (argv1 : list byte) : P Z :=
  serv_fd ← p2p_setup_serv_sock 10001;
  do_call (Printf "p2p server for this client launched at 10001 port") ;;
  do_call (ZlogInfo "p2p server started") ;;
  p2p_setup_iouring ;;
  do_call (SetKill false) ;;
  do_call (MtxInit "block_created_mtx") ;;
  do_call (MtxInit "peer_connection_accepted") ;;
  do_call (Printf "this client is accepting messages from msg server with ip 172.16.1.1 port [12345] ") ;;
  spawn "setup_client_iouring" (str "172.16.1.1") "error while client accept thread creation" ;;
  el_params ← malloc "el_params" 1;
  if negb el_params then crash NullDeref else
  spawn "event_loop_p2p" [] "error while thread p2p creation" ;;
  do_call (ThrdDetach "event_loop_p2p") ;;
  spawn "setup_p2p_listening" argv1 "error while thread p2p creation" ;;
  do_call (ThrdDetach "setup_p2p_listening") ;;
  mret serv_fd.

(** After the join: what was set up is released. *)
Definition client_release (serv_fd : Z) : P Z :=
  (if thread_joins then mret () else do_call (Printf "error joining thread ")) ;;
  p2p_destroy_buffers ;;
  teardown_server_sock serv_fd ;;
  do_call (Close serv_fd) ;;
  do_call QueueExit ;;
  do_call (ZlogInfo "P2P APPLICATION FINISHED") ;;
  free_buffer "el_params" ;;
  free_buffer "buffer_BLOCK_DATA" ;;
  mret 0.

Definition client_main (argc : Z) (argv1 : list byte) : P Z :=
  if negb (argc =? 2) then
    do_call (Printf "please enter an IP of a p2p neighboor..") ;; exit 1
  else
    client_prepare ;;
    serv_fd ← client_launch argv1;
    setup_client_iouring (str "172.16.1.1") ;;
    client_release serv_fd.
End code.

Section facts.
Context {sys : System}.

Definition p2p_buffers : list string := ["buffers"; "buffer_lengths"; "buffer_sended_N"; "buffer_BLOCK_DATA"].

(** The decisions made, from the system's answers alone. *)
Definition prepare_ending : ending :=
  match getenv "HOME" with
  | None => Faults NullDeref
  | Some home =>
      if negb (length home <=? 122)%nat then Faults OutOfBounds else
      if negb (forallb alloc_ok p2p_buffers) then Exits else Returns
  end.

Definition launch_ending : ending :=
  if negb proto_known then Faults NullDeref else
  if (socket <? 0) || (bind_result socket <? 0) || (listen_result socket <? 0) ||
     negb (io_uring_queue_init =? 0) then Exits else
  if negb (thread_starts "setup_client_iouring") then Exits else
  if negb (alloc_ok "el_params") then Faults NullDeref else
  if negb (thread_starts "event_loop_p2p" && thread_starts "setup_p2p_listening") then Exits
  else Returns.

Definition message_ending : ending :=
  if negb (getaddrinfo (str "172.16.1.1") "12345" =? 0) then Exits else
  if client_socket =? -1 then Returns else
  if connect_result =? 0 then Serves client_socket else Returns.

(** One after the other, until one does not return. *)
Definition and_then (e e' : ending) : ending := match e with Returns => e' | e => e end.

(** The whole program: it ends by itself only when the message server cannot
    be reached. *)
Definition node_ending (argc : Z) : ending :=
  and_then (if argc =? 2 then Returns else Exits)
    (and_then prepare_ending (and_then launch_ending message_ending)).

(** Both peer-to-peer threads run and nobody told them to stop. *)
Record threads_up (cs : list call) : Prop := ThreadsUp {
  tu_peer : ThrdDetach "event_loop_p2p" ∈ cs;
  tu_listener : ThrdDetach "setup_p2p_listening" ∈ cs;
  tu_kill : SetKill true ∉ cs }.

Definition node_bufs : gmap string bool :=
  <["el_params" := true]> (<["buffer_BLOCK_DATA" := true]> (<["buffer_sended_N" := true]>
    (<["buffer_lengths" := true]> {["buffers" := true]}))).

Lemma p2p_setup_buffers_run st :
  if forallb alloc_ok p2p_buffers
  then exists cs, p2p_setup_buffers st = Value () (Proc (calls st ++ cs)
    (<["buffer_BLOCK_DATA" := true]> (<["buffer_sended_N" := true]> (<["buffer_lengths" := true]>
      (<["buffers" := true]> (bufs st))))) (held st)) /\ SetKill true ∉ cs
  else exists st', p2p_setup_buffers st = Exit 1 st'.
Proof.
  unfold p2p_setup_buffers, malloc, die, do_call, exit, mbind, P_bind, mret, P_ret, p2p_buffers.
  cbn [forallb calls bufs held].
  repeat (match goal with
    | |- context [if negb (alloc_ok ?n) then _ else _] => destruct (alloc_ok n); cbn [negb andb calls bufs held]
    end; try (eexists; reflexivity)).
  eexists. rewrite <-!app_assoc. split; [reflexivity|]. cbn. set_solver.
Qed.

Lemma client_logging_run conf st :
  exists cs, client_logging conf st = Value () (Proc (calls st ++ cs) (bufs st) (held st)) /\ SetKill true ∉ cs.
Proof.
  unfold client_logging, do_call, mbind, P_bind, mret, P_ret.
  destruct (zlog_init conf =? 0), (zlog_get_category "logclient"), (zlog_get_category "logp2p"), WRITE_LOG;
    cbn [negb calls bufs held]; eexists; rewrite <-?app_assoc; (split; [reflexivity|]); cbn; set_solver.
Qed.

(** Membership in a list of calls written out. *)
Ltac in_list := repeat first [apply list_elem_of_here | apply list_elem_of_further].
Ltac no_such_call := repeat (apply not_elem_of_cons; split; [discriminate|]); apply not_elem_of_nil.

(** A list of calls none of which sets the flag. *)
Lemma no_kill_app cs cs' : SetKill true ∉ cs -> SetKill true ∉ cs' -> SetKill true ∉ cs ++ cs'.
Proof. rewrite not_elem_of_app. done. Qed.

(** [thrd_create] in sequence. *)
Lemma spawn_bind {B} body arg msg (k : () -> P B) cs b h :
  (spawn body arg msg ≫= k) (Proc cs b h) =
  if thread_starts body then k () (Proc (cs ++ [ThrdCreate body arg]) b h) else Exit 1 (Proc (cs ++ [Printf msg]) b h).
Proof. unfold spawn. by destruct (thread_starts body). Qed.

Definition p2p_bufs : gmap string bool :=
  <["buffer_BLOCK_DATA" := true]> (<["buffer_sended_N" := true]>
    (<["buffer_lengths" := true]> {["buffers" := true]})).

Lemma client_prepare_run :
  match prepare_ending with
  | Returns => exists cs, client_prepare fresh_process = Value () (Proc cs p2p_bufs ∅) /\ SetKill true ∉ cs
  | e => ending_of (client_prepare fresh_process) = e
  end.
Proof.
  remember (client_prepare fresh_process) as o eqn:Ho. unfold client_prepare, mbind, P_bind in Ho. unfold prepare_ending.
  assert (exists cs0, (match getenv "cblockchain_conf" with
     | None => do_call (Printf "no cblockchain_conf env variable has been found") | Some _ => mret () end) fresh_process
     = Value () (Proc cs0 ∅ ∅) /\ SetKill true ∉ cs0) as (cs0 & Hconf & Hk0).
  { destruct (getenv "cblockchain_conf"); eexists; (split; [reflexivity|]); cbn; set_solver. }
  rewrite Hconf in Ho. clear Hconf.
  pose proof (ensure_logdir_run (Proc cs0 ∅ ∅)) as Hlog. destruct (getenv "HOME") as [home|].
  2: { rewrite Hlog in Ho. by subst o. }
  destruct (length home <=? 122)%nat; cbn [negb]; [|rewrite Hlog in Ho; by subst o].
  destruct Hlog as (cs1 & Hlog & _ & Hk1). specialize (Hk1 true). rewrite Hlog in Ho. clear Hlog. cbn [calls bufs held] in Ho.
  destruct (client_logging_run (getenv "cblockchain_conf") (Proc (cs0 ++ cs1) ∅ ∅)) as (cs2 & Hl & Hk2).
  rewrite Hl in Ho. clear Hl. cbn [calls bufs held] in Ho.
  pose proof (p2p_setup_buffers_run (Proc ((cs0 ++ cs1) ++ cs2) ∅ ∅)) as Hbufs.
  destruct (forallb alloc_ok p2p_buffers); cbn [negb]; [|destruct Hbufs as [st' Hb]; rewrite Hb in Ho; by subst o].
  destruct Hbufs as (cs3 & Hb & Hk3). subst o. rewrite Hb. eexists; split; [reflexivity|]. by repeat apply no_kill_app.
Qed.

Lemma client_launch_run argv1 cs :
  SetKill true ∉ cs ->
  match launch_ending with
  | Returns => exists cs', client_launch argv1 (Proc cs p2p_bufs ∅) = Value socket (Proc cs' node_bufs ∅) /\ threads_up cs'
  | e => ending_of (client_launch argv1 (Proc cs p2p_bufs ∅)) = e
  end.
Proof.
  intros Hk. remember (client_launch argv1 (Proc cs p2p_bufs ∅)) as o eqn:Ho. unfold client_launch, p2p_setup_serv_sock, p2p_setup_iouring in Ho. unfold launch_ending.
  match type of Ho with _ = (_ ≫= ?k) _ => pose proof (setup_serv_sock_bind P2P_CONNECTIONS 10001 k cs p2p_bufs ∅) as Hs end.
  destruct proto_known; cbn [negb] in *; [|destruct Hs as [st Hs]; rewrite Hs in Ho; by subst o].
  destruct ((socket <? 0) || (bind_result socket <? 0) || (listen_result socket <? 0)); cbn [orb] in *.
  { destruct Hs as [st Hs]. rewrite Hs in Ho. by subst o. }
  rewrite Hs, !do_call_bind, setup_iouring_bind in Ho. clear Hs.
  destruct (io_uring_queue_init =? 0); cbn [negb]; [|by subst o]. rewrite !do_call_bind, spawn_bind in Ho.
  destruct (thread_starts "setup_client_iouring"); cbn [negb]; [|by subst o]. rewrite malloc_bind in Ho.
  destruct (alloc_ok "el_params"); cbn [negb] in *; [|by subst o]. rewrite spawn_bind in Ho.
  destruct (thread_starts "event_loop_p2p"); cbn [negb andb]; [|by subst o]. rewrite do_call_bind, spawn_bind in Ho.
  destruct (thread_starts "setup_p2p_listening"); cbn [negb]; [|by subst o]. rewrite do_call_bind, <-!app_assoc in Ho.
  subst o. eexists. split; [reflexivity|]. cbn [app]. split.
  - apply elem_of_app; right. in_list.
  - apply elem_of_app; right. in_list.
  - apply no_kill_app; [done|]. no_such_call.
Qed.

(** Releasing after the join: the buffers of the threads go first. *)
Lemma client_release_run fd cs b h :
  Forall (fun name => b !! name = Some true) ("el_params" :: p2p_buffers) ->
  exists cs1 cs2 b', client_release fd (Proc cs b h) = Value 0 (Proc (cs ++ cs1 ++ Free "buffers" :: cs2) b' h) /\
    b' !! "buffers" = None /\ SetKill true ∉ cs1 ++ Free "buffers" :: cs2.
Proof.
  unfold p2p_buffers. rewrite !Forall_cons. intros (He & Hb & Hl & Hn & Hd & _). unfold client_release.
  set (k := fun _ : () => p2p_destroy_buffers ≫= _).
  assert (exists cs1, ((if thread_joins then mret () else do_call (Printf "error joining thread ")) ≫= k) (Proc cs b h) =
    k () (Proc (cs ++ cs1) b h) /\ SetKill true ∉ cs1) as (cs1 & -> & Hk).
  { destruct thread_joins; [exists []; rewrite app_nil_r|eexists]; (split; [reflexivity|]); cbn; set_solver. }
  exists cs1. unfold k, p2p_destroy_buffers, teardown_server_sock. rewrite !P_bind_assoc, free_buffer_bind by done.
  rewrite P_bind_assoc, free_buffer_bind by (by rewrite lookup_delete_ne).
  rewrite free_buffer_bind by (by rewrite !lookup_delete_ne). rewrite !do_call_bind.
  rewrite free_buffer_bind by (by rewrite !lookup_delete_ne). rewrite free_buffer_bind by (by rewrite !lookup_delete_ne).
  rewrite <-!app_assoc. eexists _, _. split; [reflexivity|]. split; [by rewrite !lookup_delete_ne, lookup_delete_eq by done|].
  rewrite !elem_of_app, !elem_of_cons, ?elem_of_app, ?elem_of_cons, ?elem_of_nil. intuition discriminate.
Qed.

(** The message thread, run at the join. *)
Lemma setup_client_iouring_run ip cs b :
  if negb (getaddrinfo ip "12345" =? 0) then exists st, setup_client_iouring ip (Proc cs b ∅) = Exit 1 st else
  if client_socket =? -1 then exists cs', setup_client_iouring ip (Proc cs b ∅) = Value (-1) (Proc (cs ++ cs') b ∅) /\ SetKill true ∉ cs'
  else exists cs' b' h, (forall name, name <> "buffer_transactions" -> b' !! name = b !! name) /\ SetKill true ∉ cs' /\
    "block_created_mtx" ∈ h /\
    setup_client_iouring ip (Proc cs b ∅) =
      if connect_result =? 0 then Forever "setup_client_iouring" client_socket (Proc (cs ++ cs') b' h)
      else Value 0 (Proc (cs ++ cs') b' h).
Proof.
  unfold setup_client_iouring. destruct (getaddrinfo ip "12345" =? 0); cbn [negb]; [|by eexists].
  destruct (client_socket =? -1); [eexists; split; [reflexivity|cbn; set_solver]|].
  rewrite malloc_bind, do_call_bind. unfold mtx_lock, mbind, P_bind. cbn [held calls bufs].
  rewrite decide_False by set_solver.
  destruct (connect_result =? 0); unfold do_call, free_buffer, forever; cbn [held calls bufs]; rewrite ?lookup_insert_eq.
  - eexists _, _, _. rewrite <-!app_assoc. split_and!; [| | |reflexivity]; [|cbn; set_solver|set_solver].
    intros name Hn. by rewrite lookup_insert_ne.
  - destruct (alloc_ok "buffer_transactions"); eexists _, _, _; rewrite <-!app_assoc;
      (split_and!; [| | |reflexivity]); try set_solver.
    + intros name Hn. by rewrite lookup_delete_ne, lookup_insert_ne.
    + intros name Hn. by rewrite lookup_insert_ne.
Qed.

Lemma threads_up_app cs cs' : threads_up cs -> SetKill true ∉ cs' -> threads_up (cs ++ cs').
Proof. intros [Hp Hl Hk] Hk'. split; rewrite ?elem_of_app; [by left..|]. by intros [?|?]. Qed.

Lemma node_bufs_there name : name ∈ "el_params" :: p2p_buffers -> node_bufs !! name = Some true.
Proof.
  unfold p2p_buffers. rewrite !elem_of_cons, elem_of_nil. intros [->|[->|[->|[->|[->|[]]]]]]; reflexivity.
Qed.

Definition settled (e : ending) : Prop := match e with Serves _ | Stuck => False | _ => True end.

Lemma setup_never_serves : settled prepare_ending /\ settled launch_ending.
Proof. unfold prepare_ending, launch_ending. split; repeat case_match; done. Qed.

(** C18: how the client ends is decided by the system's answers ([node_ending]).
    It serves for ever once the message server is reached, with its threads up
    and its buffers in place.  It returns only when that server cannot be
    reached, and then it frees the buffers of the peer-to-peer threads while
    both are running and nobody told them to stop, the block mutex still held
    when the connection was refused. *)
Theorem client_main_ending argc argv1 :
  ending_of (client_main argc argv1 fresh_process) = node_ending argc /\
  match client_main argc argv1 fresh_process with
  | Forever loop fd st =>
      loop = "setup_client_iouring" /\ fd = client_socket /\ threads_up (calls st) /\
      Forall (fun name => bufs st !! name = Some true) p2p_buffers /\ "block_created_mtx" ∈ held st
  | Value code st =>
      code = 0 /\ (client_socket = -1 \/ "block_created_mtx" ∈ held st) /\
      exists pre post, calls st = pre ++ Free "buffers" :: post /\ threads_up pre /\ SetKill true ∉ post /\
        bufs st !! "buffers" = None
  | _ => True
  end.
Proof.
  remember (client_main argc argv1 fresh_process) as o eqn:Ho. unfold client_main in Ho. unfold node_ending.
  destruct (argc =? 2); cbn [negb and_then] in *; [|by subst o]. unfold mbind, P_bind in Ho.
  pose proof client_prepare_run as Hp. pose proof (proj1 setup_never_serves) as Hns.
  destruct prepare_ending; cbn [and_then]; try done;
    try (destruct (client_prepare fresh_process); cbn in Hp; simplify_eq; done).
  destruct Hp as (cs & Hp & Hk). rewrite Hp in Ho. clear Hp.
  pose proof (client_launch_run argv1 cs Hk) as Hl. pose proof (proj2 setup_never_serves) as Hns'.
  destruct launch_ending; cbn [and_then]; try done;
    try (destruct (client_launch argv1 _); cbn in Hl; simplify_eq; done).
  destruct Hl as (cs' & Hl & Hup). rewrite Hl in Ho. clear Hl.
  pose proof (setup_client_iouring_run (str "172.16.1.1") cs' node_bufs) as Hm. unfold message_ending.
  destruct (getaddrinfo (str "172.16.1.1") "12345" =? 0); cbn [negb] in *; [|destruct Hm as [st Hm]; rewrite Hm in Ho; by subst o].
  destruct (Z.eqb_spec client_socket (-1)) as [Hc|Hc].
  - destruct Hm as (cs2 & Hm & Hk2). rewrite Hm in Ho.
    destruct (client_release_run socket (cs' ++ cs2) node_bufs ∅) as (cs3 & cs4 & b' & Hr & Hb & Hk3).
    { apply Forall_forall. apply node_bufs_there. }
    rewrite Hr in Ho. subst o. split; [done|]. cbn. split_and!; [done|by left|].
    rewrite not_elem_of_app, not_elem_of_cons in Hk3. destruct Hk3 as (Hk3 & _ & Hk4).
    exists ((cs' ++ cs2) ++ cs3), cs4. split_and!; [by rewrite <-!app_assoc|by repeat apply threads_up_app|done|done].
  - destruct Hm as (cs2 & b2 & h & Hb2 & Hk2 & Hh & Hm). rewrite Hm in Ho.
    assert (Forall (fun name => b2 !! name = Some true) ("el_params" :: p2p_buffers)) as Hthere.
    { apply Forall_forall. intros name Hn. rewrite Hb2; [by apply node_bufs_there|].
      unfold p2p_buffers in Hn. intros ->. rewrite !elem_of_cons, elem_of_nil in Hn. intuition discriminate. }
    destruct (connect_result =? 0).
    + subst o. split; [done|]. cbn. split_and!; [done|done|by apply threads_up_app|by apply Forall_cons_1 in Hthere as [_ ?]|done].
    + destruct (client_release_run socket (cs' ++ cs2) b2 h Hthere) as (cs3 & cs4 & b' & Hr & Hb & Hk3).
      rewrite Hr in Ho. subst o. split; [done|]. cbn. split_and!; [done|by right|].
      rewrite not_elem_of_app, not_elem_of_cons in Hk3. destruct Hk3 as (Hk3 & _ & Hk4).
      exists ((cs' ++ cs2) ++ cs3), cs4. split_and!; [by rewrite <-!app_assoc|by repeat apply threads_up_app|done|done].
Qed.

(** The attempts before the first one that succeeds. *)
Lemma connect_loop_run n : forall k fuel st,
  connect_attempt (k + n) = 0 -> (forall i, (i < n)%nat -> connect_attempt (k + i) <> 0) -> (n < fuel)%nat ->
  exists cs, connect_loop fuel k st = Value () (Proc (calls st ++ cs) (bufs st) (held st)) /\
    length (filter (fun c => c = Sleep 2) cs) = n.
Proof.
  induction n as [|n IH]; intros k fuel st H0 Hne Hf; (destruct fuel as [|fuel]; [lia|]); cbn [connect_loop].
  - rewrite Nat.add_0_r in H0. rewrite H0. exists []. rewrite app_nil_r. by destruct st.
  - rewrite (proj2 (Z.eqb_neq _ _)); [|specialize (Hne 0%nat); rewrite Nat.add_0_r in Hne; apply Hne; lia].
    destruct st as [cs b h]. rewrite !do_call_bind.
    destruct (IH (S k) fuel (Proc ((cs ++ [Printf "trying to connect to neighboor node"]) ++ [Sleep 2]) b h)) as (cs' & -> & Hl).
    + by rewrite Nat.add_succ_comm.
    + intros i Hi. rewrite Nat.add_succ_comm. apply Hne. lia.
    + lia.
    + eexists. cbn [calls bufs held]. rewrite <-!app_assoc. split; [reflexivity|].
      rewrite filter_app, filter_cons_False by done. cbn [app]. rewrite filter_cons_True by done. cbn. by rewrite Hl.
Qed.

Lemma connect_loop_never : (forall i, connect_attempt i <> 0) -> forall fuel n st,
  exists st', connect_loop fuel n st = Unfinished st' /\ held st' = held st.
Proof.
  intros Hne. induction fuel as [|fuel IH]; intros n st; cbn [connect_loop]; [eauto|].
  rewrite (proj2 (Z.eqb_neq _ _)) by done. destruct st as [cs b h]. rewrite !do_call_bind.
  destruct (IH (S n) (Proc ((cs ++ [Printf "trying to connect to neighboor node"]) ++ [Sleep 2]) b h)) as (st' & -> & Hh). eauto.
Qed.

(** C26: the listening thread gets past its connection phase exactly when some
    attempt succeeds: after as many pauses of two seconds as attempts failed,
    with its mutex released; if none ever succeeds it stays in the loop with
    the mutex held, whatever the number of turns. *)
Theorem listener_connects ip st n :
  getaddrinfo ip "10001" = 0 -> "peer_connection_accepted" ∉ held st ->
  (connect_attempt n = 0 -> (forall i, (i < n)%nat -> connect_attempt i <> 0) -> forall fuel, (n < fuel)%nat ->
     exists cs, setup_p2p_connect fuel ip st = Value (Some listen_socket) (Proc (calls st ++ cs) (bufs st) (held st)) /\
       length (filter (fun c => c = Sleep 2) cs) = n) /\
  ((forall i, connect_attempt i <> 0) -> forall fuel,
     exists st', setup_p2p_connect fuel ip st = Unfinished st' /\ "peer_connection_accepted" ∈ held st').
Proof.
  intros Hga Hm. destruct st as [cs b h]. cbn [held] in Hm.
  assert (forall fuel, setup_p2p_connect fuel ip (Proc cs b h) =
    (connect_loop fuel 0 ≫= (fun _ => mtx_unlock "peer_connection_accepted" ;; do_call (Printf "GOT CONNECTION!") ;; mret (Some listen_socket)))
      (Proc (cs ++ [Printf (if listen_socket =? -1 then "cannot setup a client socket"
        else "established socket for incoming p2p connections!")]) b ({["peer_connection_accepted"]} ∪ h))) as Heq.
  { intros fuel. unfold setup_p2p_connect, mtx_lock, mbind, P_bind. cbn [held]. rewrite decide_False by done.
    by rewrite Hga. }
  split.
  - intros H0 Hne fuel Hf. rewrite Heq. edestruct (connect_loop_run n 0 fuel) as (cs' & Hrun & Hl); [done|done|done|].
    erewrite bind_value by exact Hrun. cbn [calls bufs held]. unfold mtx_unlock, do_call, mbind, P_bind. cbn [calls bufs held].
    exists ([Printf (if listen_socket =? -1 then "cannot setup a client socket"
        else "established socket for incoming p2p connections!")] ++ cs' ++ [Printf "GOT CONNECTION!"]). split.
    + unfold mret, P_ret. rewrite <-!app_assoc. do 2 f_equal. set_solver.
    + rewrite !filter_app, !length_app, Hl, !filter_cons_False by done. cbn. lia.
  - intros Hne fuel. rewrite Heq. edestruct (connect_loop_never Hne fuel 0) as (st' & Hrun & Hh).
    exists st'. unfold mbind, P_bind. rewrite Hrun, Hh. cbn [held]. set_solver.
Qed.
End facts.

(** ** A system that answers *)

Lemma sample_home (name : string) (v : list byte) : Some (str "/root") = Some v -> x00 ∉ v.
Proof. intros [= <-]. by apply (bool_decide_unpack _). Qed.

(** Everything succeeds; the message server refuses; the neighbour accepts the
    fourth attempt. *)
Definition sample_system (refuse : Z) : System := {|
  getenv := fun _ => Some (str "/root"); getenv_text := sample_home; stat := fun _ => -1; alloc_ok := fun _ => true;
  proto_known := true; socket := 3; client_socket := 5; listen_socket := 6;
  bind_result := fun _ => 0; listen_result := fun _ => 0; io_uring_queue_init := 0; zlog_init := fun _ => 0;
  zlog_get_category := fun _ => true; thread_starts := fun _ => true; thread_joins := true;
  getaddrinfo := fun _ _ => 0; connect_result := refuse;
  connect_attempt := fun n => if (n <? 3)%nat then -1 else 0; WRITE_LOG := false |}.

Example server_serves : ending_of (start_server (sys:=sample_system 0) 12345 fresh_process) = Serves 3.
Proof. vm_compute. reflexivity. Qed.

Example client_refused : ending_of (client_main (sys:=sample_system (-111)) 2 (str "10.0.0.1") fresh_process) = Returns.
Proof. vm_compute. reflexivity. Qed.

Example client_serves : ending_of (client_main (sys:=sample_system 0) 2 (str "10.0.0.1") fresh_process) = Serves 5.
Proof. vm_compute. reflexivity. Qed.

Lemma listener_connects_witness :
  exists cs, setup_p2p_connect (sys:=sample_system 0) 10 (str "10.0.0.1") fresh_process =
    Value (Some 6) (Proc cs ∅ ∅) /\ length (filter (fun c => c = Sleep 2) cs) = 3%nat.
Proof.
  destruct (listener_connects (sys:=sample_system 0) (str "10.0.0.1") fresh_process 3) as [H _];
    [reflexivity|cbn; set_solver|]. destruct (H eq_refl) with (fuel := 10%nat) as (cs & Hrun & Hl).
  - intros i Hi. destruct i as [|[|[|i]]]; [done..|lia].
  - lia.
  - exists cs. by rewrite Hrun.
Defined.
